(* ===== verification/_CoqProject ===== *)
-Q . S2P
Prelude.v
Common.v
SmBuf.v
SmBufEx.v
Options.v
Regex.v
Addr.v
AddrText.v
Settings.v
Base.v
Locks.v
FileSys.v
DataMgr.v
DataMgrFile.v
FilePlaces.v
Session.v
SessionPackets.v
SessionSafety.v
SessionRead.v
SessionWrite.v
SessionTraffic.v
SessionRepeats.v
SessionFaults.v
Srv.v
SrvSteps.v
SrvFiles.v
SrvUploads.v
SrvCompletes.v
SrvRaces.v
Descriptors.v
Service.v
ServerFw.v
Program.v
Tests.v
