(* ===== verification/Prelude.v ===== *)
(** * server-fw: a verification of the TFTP firmware server

    server-fw is a TFTP server (RFC 1350, with the options of RFC 2347) that
    serves firmware files. The sources are under [src/source/]. This library
    models its classes as pure functions and proves what they do.

    ** The program and its parts

    [main] (server-fw.cpp) loads the command line into [Settings], initialises a
    [Srv] and runs [Srv::main_loop]. The loop receives requests on one UDP
    socket; [Session::prepare] parses a request into [Options], and an accepted
    session runs [Session::run] in a thread with a socket of its own. A session
    is a state machine that builds its packets in a [SmBufEx] (an [SmBuf] with a
    fill count) and reads or writes the file through a [DataMgr], of which
    [DataMgrFile] is the implementation. [Addr] is the socket address, [Base]
    gives access to the shared settings and to logging.

    ** Files of the library

    - [Prelude]: octets, machine integers, outcomes of C++ code, slices, byte
      order, tactics and hint databases.
    - [Common] (tftpCommon): enumerations, text helpers, [std::stoi] and friends.
    - [SmBuf], [SmBufEx] (tftpSmBuf, tftpSmBufEx): network buffers.
    - [Options] (tftpOptions): the request parser and the request format.
    - [Regex]: [std::regex_search] for the patterns of the program.
    - [Addr] (tftpAddr), [Settings] (tftpSettings), [Base] (tftpBase).
    - [AddrText]: what [Addr] prints is what it reads.
    - [Locks] (tftpBase): the methods of [Base] as programs of single accesses,
      the [shared_mutex] of each object, shared settings and concurrent calls.
    - [FileSys]: paths, the file system as a class with laws and an in-memory
      instance, [std::ifstream] and [std::ofstream] as state machines.
    - [DataMgr] (tftpDataMgr): the abstract data manager as the classes [DataMgr]
      (operations) and [DataMgrLaws] (what a session relies on).
    - [DataMgrFile] (tftpDataMgrFile): the file manager; it discharges
      [DataMgrLaws] for every file system that keeps [FsLaws].
    - [FilePlaces]: which files a name or a sum stands for, and where they are.
    - [Session] (tftpSession): the session object, every operation, one
      definition per case of the loop of [run] and the loop itself.
    - [SessionPackets]: the packets a session builds and receives.
    - [SessionSafety]: what holds of a session on every execution.
    - [SessionRead]: downloads and silent clients, against [DataMgrLaws];
      [SessionWrite]: what uploads share.
    - [SessionTraffic]: integrity of transfers under arbitrary traffic.
    - [SessionRepeats]: transfers with repeated packets and windows, and what
      lost, stale and wrapped packets do.
    - [SessionFaults]: streams that have failed while a session goes on.
    - [Srv] (tftpSrv): the main loop and the interleaving of session threads.
    - [SrvSteps]: the threads in smaller steps: the check for the file of an upload
      and the opening of it apart; executions seen from one session.
    - [SrvFiles]: complete files in a running server, isolation of downloads.
    - [SrvUploads]: uploads in a running server; [SrvCompletes]: an upload runs
      among other sessions as it runs alone, by a file system of its own file.
    - [SrvRaces]: when the smaller steps may be taken together, and what happens to
      uploads of one name otherwise.
    - [Descriptors]: the calls of [socket] and [close] and the open descriptors.
    - [Service]: downloads and uploads from the request on.
    - [ServerFw] (server-fw.cpp): [main].
    - [Program]: the states the whole program reaches from [main].
    - [Tests] (tests/): the unit tests of the repository, on the model.

    ** How code is modelled

    A [char] is an octet, a string or buffer a list of octets; integers are [Z]
    with the conversions to their width written out. A call has an [outcome]: a
    value, an exception, or undefined behaviour (an iterator range outside its
    container, a null dereference, a signed overflow). State is passed
    explicitly. What the operating system answers is an input: [tick] for one
    iteration of a session, [recv_result] for one of the server, [env] for
    [main]. Code that is not in the repository is a parameter ([getopt_long] by
    its results, [inet_pton], [inet_ntop], the account databases) or an
    interface with laws (the file system: [FsLaws], and [FsFrame] for what
    operations on one file leave alone). Log messages are left out.

    ** What is proved

    - Buffers: reading and writing of integers and texts (round trips, bounds,
      every outcome); pushing refines a reference definition and keeps the
      invariant [data_size_ <= size()].
    - Requests: parsing an encoded request returns what it encodes; the option
      loop ends; what an accepted request satisfies; the packets that lead to
      exceptions or undefined behaviour.
    - Addresses: [set_string] reads back what [str] prints.
    - Files: the file manager refines the data manager interface: reads deliver
      the octets of the file, blocks written at the positions of a session make the
      file unless the device fails, an upload is refused when its file exists, what the
      searches by name and by sum find, permissions on close. Names without [..]
      that leads up stay below the directories of the settings; with it every path
      of the host can be read and created.
    - Sessions, on every execution: the transition graph, the frame of a step,
      the first error is kept, the bound on retransmissions (for limits below 65535),
      foreign datagrams are ignored.
    - Transfers: a read request delivers the file (with windows of one block) and a
      write request stores it (with any window), amid other datagrams and with packets
      repeated within the same [2^16] block numbers; under arbitrary traffic every
      packet of a download is right and an upload stores only what its client sent,
      and an end with an error has a stated cause (a block number out of range, a
      block the data manager refused); a silent client is given up.
    - Settings: concurrent calls of the methods of [Base] are linearizable, free
      of data races and of deadlocks as long as objects that share their settings
      are only read, which is what the running server does; they are not without
      that condition.
    - Server: the invariant of the session list under any interleaving, what an
      iteration of the main loop does, how a request starts a session. In executions
      whose threads may also be interrupted between the check for the file of an upload
      and its opening: complete files nobody is about to open are never changed; a
      download of such a file runs among other sessions as it runs alone, and so does an
      upload into a file the others are off. [server_delivers], [server_receives] and
      [server_stores] put all this together. Executions in which no two uploads of one
      new name meet are, marks erased, executions with atomic iterations
      ([fine_refines]), and in them uploads have files of their own
      ([uploads_exclusive]); where two meet, the second empties the file of the first
      ([open_empties]).
    - Program: [program_safe] states the invariants of sessions and files for every
      state the program reaches from [main].
    - Descriptors: every open socket has exactly one owner as long as sockets can be
      bound; after a failed [bind] a descriptor is closed twice.
    - Tests: the checks of the unit tests hold of the model, and the server test
      passes for every block size and size of file.
    - Executions that go wrong, each with a theorem: windows of several blocks in
      a download, the retransmission limit 65535, a failed [bind], a timeout of the
      options confirmation, retransmission of the last block, lost blocks, stale acknowledgements, repeats across the wrap of
      the block numbers, block 0, block sizes above 65531, a session without
      socket, files that cannot be opened, requests that stop the server.

    ** Bounds and fuel

    [parse_opts] runs on the size of the packet plus one; it has no result when fuel is
    used up, and [parse_opts_terminates] shows that it always has one; [dec] has as fuel
    the number of binary digits. [run_loop] is structural in the list of ticks:
    an execution is as long as the ticks given; executions of the system and of
    concurrent calls are sequences of steps of any length. Files are smaller than
    [2^62] octets in the read theorems and [2^45] in the write theorem with
    repeated blocks, so that positions do not overflow.

    ** What is not modelled

    Log messages, stream buffering (an accepted write is visible at once),
    partial writes, changes of files by other programs, symbolic links, type traits,
    the frame of the unit tests and packaging. The repository has no database manager,
    only a TODO. Threads interleave within iterations on the settings ([Locks]) and at
    the start of an upload ([SrvSteps]); the other iterations change files by one
    write, or by [chown] and [chmod] of the session's own file at the end of an upload,
    and the system calls that search and open the file of a download are taken
    together. What the map of the sources leaves out are declarations whose bodies
    are elsewhere, comments, includes, and the macros and texts of log messages. *)

From Stdlib Require Import Strings.Byte.
From stdpp Require Export base list gmap strings countable.

Open Scope Z_scope.

(** ** Characters and byte strings

    A [char] is one octet; [std::string], [std::string_view] and
    [std::vector<char>] are all sequences of octets. *)

Abbreviation byte := Byte.byte.
Abbreviation bytes := (list byte).

#[export] Instance byte_eq_decision : EqDecision byte := Byte.byte_eq_dec.

#[export] Instance byte_countable : Countable byte.
Proof.
  refine {| encode b := encode (Byte.to_N b);
            decode p := n ← decode p; Byte.of_N n |}.
  intros b. rewrite decode_encode. apply Byte.of_to_N.
Defined.

(** The unsigned value of an octet, and the octet that holds the low eight
    bits of an integer. *)
Definition byte_val (b : byte) : Z := Z.of_N (Byte.to_N b).

Definition byte_of (z : Z) : byte :=
  default x00 (Byte.of_N (Z.to_N (z `mod` 256))).

(** A string literal of the source. *)
Abbreviation str := String.list_byte_of_string.

(** [size()] of a container of octets. *)
Definition size (l : bytes) : Z := Z.of_nat (length l).

Lemma byte_val_range b : 0 ≤ byte_val b < 256.
Proof. unfold byte_val. pose proof (Byte.to_N_bounded b). lia. Qed.

Lemma byte_val_of z : byte_val (byte_of z) = z `mod` 256.
Proof.
  unfold byte_val, byte_of. pose proof (Z.mod_pos_bound z 256 ltac:(lia)).
  destruct (Byte.of_N _) as [b|] eqn:E; simpl.
  - apply Byte.to_of_N in E. rewrite E. lia.
  - apply Byte.of_N_None_iff in E. lia.
Qed.

Lemma byte_of_val b : byte_of (byte_val b) = b.
Proof.
  unfold byte_of, byte_val. pose proof (Byte.to_N_bounded b).
  rewrite Z.mod_small by lia. rewrite N2Z.id, Byte.of_to_N. done.
Qed.

Lemma byte_val_inj b c : byte_val b = byte_val c → b = c.
Proof. intros H. rewrite <-(byte_of_val b), H. apply byte_of_val. Qed.

Lemma byte_of_mod z : byte_of (z `mod` 256) = byte_of z.
Proof. unfold byte_of. by rewrite Z.mod_mod by lia. Qed.

Lemma size_nonneg l : 0 ≤ size l.
Proof. unfold size. lia. Qed.

Lemma size_app l k : size (l ++ k) = size l + size k.
Proof. unfold size. rewrite length_app. lia. Qed.

Lemma size_cons b l : size (b :: l) = 1 + size l.
Proof. unfold size. simpl. lia. Qed.

(** ** Machine integers

    Values of the fixed-width types are integers; a conversion to the type
    [uintN_t] is [uN], to [intN_t] it is [sN] (two's complement). *)

Definition wrap (w z : Z) : Z := z `mod` 2 ^ w.
Definition swrap (w z : Z) : Z := wrap w (z + 2 ^ (w - 1)) - 2 ^ (w - 1).

Abbreviation u8 := (wrap 8).
Abbreviation u16 := (wrap 16).
Abbreviation u32 := (wrap 32).
Abbreviation u64 := (wrap 64).
Abbreviation s8 := (swrap 8).
Abbreviation s16 := (swrap 16).
Abbreviation s32 := (swrap 32).
Abbreviation s64 := (swrap 64).

Definition INT_MAX : Z := 2 ^ 31 - 1.
Definition INT_MIN : Z := - 2 ^ 31.

Lemma wrap_range w z : 0 ≤ w → 0 ≤ wrap w z < 2 ^ w.
Proof. intros. apply Z.mod_pos_bound. lia. Qed.

Lemma wrap_small w z : 0 ≤ z < 2 ^ w → wrap w z = z.
Proof. apply Z.mod_small. Qed.

Lemma swrap_small w z :
  0 < w → - 2 ^ (w - 1) ≤ z < 2 ^ (w - 1) → swrap w z = z.
Proof.
  intros Hw Hz. unfold swrap. assert (2 ^ w = 2 * 2 ^ (w - 1)).
  { rewrite <-Z.pow_succ_r by lia. f_equal. lia. }
  rewrite wrap_small; lia.
Qed.

Lemma swrap_wrap w z : swrap w (wrap w z) = swrap w z.
Proof. unfold swrap, wrap. by rewrite Zplus_mod_idemp_l. Qed.

Lemma wrap_wrap w z : wrap w (wrap w z) = wrap w z.
Proof. unfold wrap. apply Zmod_mod. Qed.

(** ** Outcomes of C++ code

    A call returns a value, leaves with an exception, or has undefined
    behaviour (an invalid iterator range, a null dereference, a signed
    overflow): nothing may be concluded about the program after that. *)

Inductive exn :=
  | invalid_argument
  | out_of_range
  | length_error
  | runtime_error
  | ios_failure
  | filesystem_error.

Inductive outcome (A : Type) :=
  | Ok (a : A)
  | Throw (e : exn)
  | Undef.
Arguments Ok {A} a.
Arguments Throw {A} e.
Arguments Undef {A}.

#[export] Instance exn_eq_decision : EqDecision exn.
Proof. solve_decision. Defined.

#[export] Instance outcome_ret : MRet outcome := @Ok.
#[export] Instance outcome_bind : MBind outcome := λ A B f m,
  match m with
  | Ok a => f a
  | Throw e => Throw e
  | Undef => Undef
  end.

(** The outcome is a value. *)
Definition returns {A} (o : outcome A) : Prop := ∃ a, o = Ok a.

Lemma bind_Ok {A B} (m : outcome A) (f : A → outcome B) b :
  m ≫= f = Ok b ↔ ∃ a, m = Ok a ∧ f a = Ok b.
Proof.
  destruct m as [a|e|]; simpl; split; try (intros (? & [=] & ?)); try done.
  - eauto.
  - by simplify_eq.
Qed.

(** [try { c } catch(...) { h }]: exceptions of [c] are handled, undefined
    behaviour is not. *)
Definition try_catch {A} (c : outcome A) (h : exn → outcome A) : outcome A :=
  match c with Throw e => h e | _ => c end.

(** ** Slices of a buffer *)

(** The octets [[off, off+len)]. *)
Definition slice (l : bytes) (off len : Z) : bytes :=
  take (Z.to_nat len) (drop (Z.to_nat off) l).

(** Overwriting a buffer from [off] on with [d] (in bounds). *)
Definition blit (l : bytes) (off : Z) (d : bytes) : bytes :=
  take (Z.to_nat off) l ++ d ++ drop (Z.to_nat off + length d) l.

(** [std::find(first, last, 0)] as the prefix before the first zero. *)
Fixpoint until_zero (l : bytes) : bytes :=
  match l with
  | [] => []
  | b :: l' => if decide (b = x00) then [] else b :: until_zero l'
  end.

Definition no_zero (l : bytes) : Prop := x00 ∉ l.

#[export] Instance no_zero_dec l : Decision (no_zero l).
Proof. unfold no_zero. apply _. Defined.

Section slices.
Implicit Types l d : bytes.

Lemma slice_length l off len :
  0 ≤ off → 0 ≤ len → off + len ≤ size l → size (slice l off len) = len.
Proof.
  unfold size, slice. intros. rewrite length_take, length_drop. lia.
Qed.

Lemma slice_app_at l d k :
  slice (l ++ d ++ k) (size l) (size d) = d.
Proof.
  unfold slice, size. rewrite !Nat2Z.id.
  rewrite drop_app_length, take_app_length. done.
Qed.

Lemma blit_length l off d :
  0 ≤ off → off + size d ≤ size l → size (blit l off d) = size l.
Proof.
  unfold size, blit. intros.
  rewrite !length_app, length_take, length_drop. lia.
Qed.

Lemma slice_blit l off d :
  0 ≤ off → off + size d ≤ size l → slice (blit l off d) off (size d) = d.
Proof.
  unfold size, slice, blit. intros. rewrite !Nat2Z.id.
  rewrite drop_app_length' by (rewrite length_take; lia).
  by rewrite take_app_length.
Qed.

Lemma take_blit l off d :
  0 ≤ off → off + size d ≤ size l →
  take (Z.to_nat off) (blit l off d) = take (Z.to_nat off) l.
Proof.
  unfold size, blit. intros.
  rewrite take_app_length' by (rewrite length_take; lia). done.
Qed.

(** The prefix that ends with the overwritten part. *)
Lemma take_blit_end l off d :
  0 ≤ off → off + size d ≤ size l →
  take (Z.to_nat (off + size d)) (blit l off d) = take (Z.to_nat off) l ++ d.
Proof.
  unfold size, blit. intros.
  rewrite app_assoc, take_app_length'; [done|].
  rewrite length_app, length_take. lia.
Qed.

Lemma drop_blit l off d :
  0 ≤ off → off + size d ≤ size l →
  drop (Z.to_nat (off + size d)) (blit l off d)
  = drop (Z.to_nat (off + size d)) l.
Proof.
  unfold size, blit. intros.
  rewrite app_assoc, drop_app_length'; [f_equal; lia|].
  rewrite length_app, length_take. lia.
Qed.

Lemma drop_blit_at l off d :
  0 ≤ off → off + size d ≤ size l →
  drop (Z.to_nat off) (blit l off d) = d ++ drop (Z.to_nat (off + size d)) l.
Proof.
  unfold size, blit. intros.
  rewrite drop_app_length' by (rewrite length_take; lia). do 2 f_equal. lia.
Qed.

(** Two adjacent writes are one write. *)
Lemma blit_blit l off d k :
  0 ≤ off → off + size d + size k ≤ size l →
  blit (blit l off d) (off + size d) k = blit l off (d ++ k).
Proof.
  intros. pose proof (size_nonneg d). pose proof (size_nonneg k).
  unfold blit at 1. rewrite take_blit_end by lia.
  rewrite <-drop_drop, drop_blit, drop_drop by lia.
  unfold blit, size in *. rewrite length_app, <-!app_assoc. do 4 f_equal. lia.
Qed.

(** Octets outside the overwritten range keep their value. *)
Lemma blit_frame l off d i :
  0 ≤ off → off + size d ≤ size l →
  Z.of_nat i < off ∨ off + size d ≤ Z.of_nat i → blit l off d !! i = l !! i.
Proof.
  unfold size, blit. intros ? ? [Hi|Hi].
  - rewrite lookup_app_l by (rewrite length_take; lia).
    apply lookup_take_lt. lia.
  - rewrite lookup_app_r by (rewrite length_take; lia).
    rewrite lookup_app_r by (rewrite length_take; lia).
    rewrite lookup_drop, length_take. f_equal. lia.
Qed.

(** A slice within the overwritten prefix. *)
Lemma slice_take l n off len :
  0 ≤ off → 0 ≤ len → off + len ≤ Z.of_nat n →
  slice (take n l) off len = slice l off len.
Proof.
  unfold slice. intros. rewrite take_drop_commute, !take_drop_commute, take_take.
  do 2 f_equal. lia.
Qed.

Lemma until_zero_app_zero d l : no_zero d → until_zero (d ++ x00 :: l) = d.
Proof.
  unfold no_zero. induction d as [|b d IH]; intros Hd; simpl.
  - done.
  - rewrite not_elem_of_cons in Hd. destruct Hd.
    rewrite decide_False by congruence. by rewrite IH.
Qed.

Lemma until_zero_id d : no_zero d → until_zero d = d.
Proof.
  unfold no_zero. induction d as [|b d IH]; intros Hd; simpl; [done|].
  rewrite not_elem_of_cons in Hd. destruct Hd.
  rewrite decide_False by congruence. by rewrite IH.
Qed.

Lemma until_zero_no_zero l : no_zero (until_zero l).
Proof.
  unfold no_zero. induction l as [|b l IH]; simpl; [apply not_elem_of_nil|].
  case_decide; [apply not_elem_of_nil|].
  rewrite not_elem_of_cons. split; congruence.
Qed.

Lemma until_zero_prefix l : until_zero l `prefix_of` l.
Proof.
  induction l as [|b l IH]; simpl; [done|].
  case_decide; [apply prefix_nil|by apply prefix_cons].
Qed.

Lemma until_zero_size l : size (until_zero l) ≤ size l.
Proof. unfold size. pose proof (prefix_length _ _ (until_zero_prefix l)). lia. Qed.
End slices.

(** ** Byte order *)

(** The [n] octets of an integer, least significant first, and back. *)
Fixpoint le_split (n : nat) (z : Z) : bytes :=
  match n with
  | O => []
  | S n => byte_of z :: le_split n (z / 256)
  end.

Fixpoint le_combine (l : bytes) : Z :=
  match l with
  | [] => 0
  | b :: l => byte_val b + 256 * le_combine l
  end.

(** The same in network order, most significant first. *)
Definition be_split (n : nat) (z : Z) : bytes := reverse (le_split n z).
Definition be_combine (l : bytes) : Z := le_combine (reverse l).

Section byte_order.
Lemma le_split_length n z : length (le_split n z) = n.
Proof. revert z. induction n; intros z; simpl; auto. Qed.

Lemma be_split_length n z : length (be_split n z) = n.
Proof. unfold be_split. by rewrite length_reverse, le_split_length. Qed.

Lemma le_combine_split n z :
  le_combine (le_split n z) = z `mod` 2 ^ (8 * Z.of_nat n).
Proof.
  revert z. induction n as [|n IH]; intros z; cbn [le_split le_combine].
  - by rewrite Z.mod_1_r.
  - rewrite IH, byte_val_of.
    replace (8 * Z.of_nat (S n)) with (8 + 8 * Z.of_nat n) by lia.
    rewrite Z.pow_add_r by lia. rewrite Z.rem_mul_r by lia.
    done.
Qed.

Lemma le_split_combine l : le_split (length l) (le_combine l) = l.
Proof.
  induction l as [|b l IH]; cbn [le_split le_combine length]; [done|].
  pose proof (byte_val_range b).
  rewrite (Z.mul_comm 256). f_equal.
  - rewrite <-byte_of_mod, Z.mod_add, byte_of_mod by lia. apply byte_of_val.
  - rewrite Z.div_add, Z.div_small by lia. done.
Qed.

Lemma le_combine_range l : 0 ≤ le_combine l < 2 ^ (8 * size l).
Proof.
  unfold size. rewrite <-(le_split_combine l), le_combine_split, le_split_length.
  apply Z.mod_pos_bound. lia.
Qed.

Lemma be_combine_split n z :
  be_combine (be_split n z) = z `mod` 2 ^ (8 * Z.of_nat n).
Proof.
  unfold be_combine, be_split. by rewrite reverse_involutive, le_combine_split.
Qed.

Lemma be_split_combine l : be_split (length l) (be_combine l) = l.
Proof.
  unfold be_combine, be_split.
  rewrite <-(length_reverse l), le_split_combine. apply reverse_involutive.
Qed.

Lemma be_combine_range l : 0 ≤ be_combine l < 2 ^ (8 * size l).
Proof.
  unfold be_combine. pose proof (le_combine_range (reverse l)) as H.
  unfold size in *. by rewrite length_reverse in H.
Qed.

(** Only the low [8 n] bits of the value matter. *)
Lemma le_split_mod n z : le_split n (z `mod` 2 ^ (8 * Z.of_nat n)) = le_split n z.
Proof.
  rewrite <-le_combine_split. rewrite <-(le_split_length n z) at 1.
  apply le_split_combine.
Qed.
End byte_order.

(** ** Automation *)

(** [mono]: the sizes and ranges of the objects of a goal, then [lia]. *)
Create HintDb fw.
Create Rewrite HintDb fw.
#[export] Hint Resolve size_nonneg until_zero_no_zero until_zero_size : fw.
#[export] Hint Rewrite size_app size_cons le_split_length be_split_length : fw.

(** Case analysis on the outcome of a sequence of calls: [inv_ok] turns a
    hypothesis [m ≫= f = Ok b] into the outcomes of its parts. *)
Ltac inv_ok :=
  repeat match goal with
  | H : Throw _ = Ok _ |- _ => discriminate H
  | H : Undef = Ok _ |- _ => discriminate H
  | H : Ok _ = Ok _ |- _ => injection H as H; subst
  | H : mret _ = Ok _ |- _ => injection H as H; subst
  | H : _ ≫= _ = Ok _ |- _ =>
      apply bind_Ok in H; destruct H as (? & ? & H); cbn beta in H
  | H : (if ?b then _ else _) = Ok _ |- _ => destruct b eqn:?
  | H : (let '(_, _) := ?p in _) = Ok _ |- _ => destruct p eqn:?
  end.

(** Boolean tests of the source as propositions. *)
Ltac reflect_bools :=
  repeat match goal with
  | H : (_ && _) = true |- _ => apply andb_true_iff in H; destruct H
  | H : (_ || _) = false |- _ => apply orb_false_iff in H; destruct H
  | H : (_ <? _) = true |- _ => apply Z.ltb_lt in H
  | H : (_ <? _) = false |- _ => apply Z.ltb_ge in H
  | H : (_ <=? _) = true |- _ => apply Z.leb_le in H
  | H : (_ <=? _) = false |- _ => apply Z.leb_gt in H
  | H : (_ =? _) = true |- _ => apply Z.eqb_eq in H
  | H : (_ =? _) = false |- _ => apply Z.eqb_neq in H
  | H : negb _ = true |- _ => apply negb_true_iff in H
  | H : negb _ = false |- _ => apply negb_false_iff in H
  end.

(** A decidable statement about concrete values, by evaluation. *)
Ltac by_decide :=
  match goal with |- ?P => exact (bool_decide_eq_true_1 P eq_refl) end.
