(* ===== verification/Common.v ===== *)
(** * Common: the enumerations and free functions of [tftpCommon.h/.cpp]

    The server's enumerations with their [to_string] views, the string helpers
    [do_lower] and [is_digit_str], the account lookups, and the conversions of
    the C++ library between integers and decimal text that the rest of the
    program uses ([std::to_string], [std::stoi], [std::stoul]). *)

From Stdlib Require Import Strings.Byte.
From S2P Require Import Prelude.

(** ** Enumerations *)

Module SrvReq.
Inductive t := unknown | read | write.
#[export] Instance eq_decision : EqDecision t.
Proof. solve_decision. Defined.
End SrvReq.

Module TransfMode.
Inductive t := unknown | netascii | octet | binary | mail.
#[export] Instance eq_decision : EqDecision t.
Proof. solve_decision. Defined.
End TransfMode.

Module LogLvl.
Inductive t := emerg | alert | crit | err | warning | notice | info | debug.
#[export] Instance eq_decision : EqDecision t.
Proof. solve_decision. Defined.
End LogLvl.

Module State.
Inductive t :=
  | need_init | error_and_stop | ack_options | data_tx | data_rx
  | ack_tx | ack_rx | retransmit | finish.
#[export] Instance eq_decision : EqDecision t.
Proof. solve_decision. Defined.
End State.

Module TripleResult.
Inductive t := nop | ok | fail.
#[export] Instance eq_decision : EqDecision t.
Proof. solve_decision. Defined.
End TripleResult.

Export (hints) SrvReq TransfMode LogLvl State TripleResult.

(** The underlying values. *)
Definition SrvReq_val (v : SrvReq.t) : Z :=
  match v with SrvReq.unknown => 0 | SrvReq.read => 1 | SrvReq.write => 2 end.

Definition LogLvl_val (v : LogLvl.t) : Z :=
  match v with
  | LogLvl.emerg => 0 | LogLvl.alert => 1 | LogLvl.crit => 2 | LogLvl.err => 3
  | LogLvl.warning => 4 | LogLvl.notice => 5 | LogLvl.info => 6
  | LogLvl.debug => 7
  end.

Definition app_version : bytes := str "0.2.1".

Definition SrvReq_to_string (v : SrvReq.t) : bytes :=
  match v with
  | SrvReq.unknown => str "unknown"
  | SrvReq.read => str "read"
  | SrvReq.write => str "write"
  end.

(** [mail] has no case of its own and takes the [default] branch. *)
Definition TransfMode_to_string (v : TransfMode.t) : bytes :=
  match v with
  | TransfMode.unknown => str "unknown"
  | TransfMode.netascii => str "netascii"
  | TransfMode.octet => str "octet"
  | TransfMode.binary => str "binary"
  | _ => str "UNK_TRANSF_MODE"
  end.

Definition LogLvl_to_string (v : LogLvl.t) : bytes :=
  match v with
  | LogLvl.emerg => str "emerg"
  | LogLvl.alert => str "alert"
  | LogLvl.crit => str "crit"
  | LogLvl.err => str "err"
  | LogLvl.warning => str "warning"
  | LogLvl.notice => str "notice"
  | LogLvl.info => str "info"
  | LogLvl.debug => str "debug"
  end.

Definition State_to_string (v : State.t) : bytes :=
  match v with
  | State.need_init => str "need_init"
  | State.error_and_stop => str "error_and_stop"
  | State.ack_options => str "ack_options"
  | State.data_tx => str "data_tx"
  | State.data_rx => str "data_rx"
  | State.ack_tx => str "ack_tx"
  | State.ack_rx => str "ack_rx"
  | State.retransmit => str "retransmit"
  | State.finish => str "finish"
  end.

Definition TripleResult_to_string (v : TripleResult.t) : bytes :=
  match v with
  | TripleResult.nop => str "nop"
  | TripleResult.ok => str "ok"
  | TripleResult.fail => str "fail"
  end.

(** [operator+] of a string and a value with a text form, for log messages. *)
Definition append_to_string {T} (to_string : T → bytes) (left : bytes) (right : T) : bytes :=
  left ++ to_string right.

(** ** Character classes of the "C" locale *)

Definition is_digit (c : byte) : bool :=
  (48 <=? byte_val c) && (byte_val c <=? 57).

Definition is_space (c : byte) : bool :=
  (byte_val c =? 32) || ((9 <=? byte_val c) && (byte_val c <=? 13)).

Definition to_lower (c : byte) : byte :=
  if (65 <=? byte_val c) && (byte_val c <=? 90)
  then byte_of (byte_val c + 32) else c.

(** ** [do_lower], [is_digit_str] *)

Definition do_lower (val : bytes) : bytes := map to_lower val.

Definition is_digit_str (val : bytes) : bool :=
  if size val =? 0 then false
  else foldl (λ l c, l && is_digit c) true val.

(** ** Integers and text: [std::to_string], [std::stoi], [std::stoul] *)

Fixpoint dec_digits (fuel : nat) (n : Z) (acc : bytes) : bytes :=
  match fuel with
  | O => acc
  | S fuel =>
      let acc := byte_of (48 + n `mod` 10) :: acc in
      if n / 10 =? 0 then acc else dec_digits fuel (n / 10) acc
  end.

(** A number has at most [1 + log2 n] decimal digits. *)
Definition dec (n : Z) : bytes := dec_digits (S (Z.to_nat (Z.log2 n))) n [].

Definition to_string (n : Z) : bytes :=
  if n <? 0 then x2d :: dec (- n) else dec n.

(** The value of the leading digits of base [base] (at most 10). *)
Fixpoint digits_val (base acc : Z) (l : bytes) : Z :=
  match l with
  | [] => acc
  | c :: l =>
      if is_digit c && (byte_val c - 48 <? base)
      then digits_val base (acc * base + (byte_val c - 48)) l
      else acc
  end.

Definition starts_digit (base : Z) (l : bytes) : bool :=
  match l with
  | c :: _ => is_digit c && (byte_val c - 48 <? base)
  | [] => false
  end.

Fixpoint skip_space (l : bytes) : bytes :=
  match l with
  | c :: l' => if is_space c then skip_space l' else l
  | [] => []
  end.

(** The subject sequence of [strtol]/[strtoul]: white space, a sign, digits. *)
Definition strto (base : Z) (l : bytes) : option (bool * Z) :=
  let l := skip_space l in
  let '(neg, l) :=
    match l with
    | x2d :: l' => (true, l')
    | x2b :: l' => (false, l')
    | _ => (false, l)
    end in
  if starts_digit base l then Some (neg, digits_val base 0 l) else None.

Definition stoi (l : bytes) (base : Z) : outcome Z :=
  match strto base l with
  | None => Throw invalid_argument
  | Some (neg, v) =>
      let v := if neg then - v else v in
      if (INT_MIN <=? v) && (v <=? INT_MAX) then Ok v else Throw out_of_range
  end.

Definition stoul (l : bytes) : outcome Z :=
  match strto 10 l with
  | None => Throw invalid_argument
  | Some (neg, v) =>
      if v <? 2 ^ 64 then Ok (if neg then u64 (- v) else v)
      else Throw out_of_range
  end.

(** ** Accounts: [get_uid_by_name], [get_gid_by_name]

    [getpwnam_r] and [getgrnam_r] are the database lookups of the C library:
    [None] is a null result. *)
Section accounts.
Context (getpwnam getgrnam : bytes → option Z).

Definition get_uid_by_name (name : bytes) : Z :=
  match getpwnam name with None => 0 | Some uid => uid end.

Definition get_gid_by_name (name : bytes) : Z :=
  match getgrnam name with None => 0 | Some gid => gid end.
End accounts.

(** ** Lemmas *)

Lemma is_digit_str_spec l :
  is_digit_str l = true ↔ l ≠ [] ∧ Forall (λ c, is_digit c = true) l.
Proof.
  unfold is_digit_str, size.
  assert (H : ∀ b k, foldl (λ l c, l && is_digit c) b k = true ↔
                b = true ∧ Forall (λ c, is_digit c = true) k).
  { intros b k. revert b. induction k as [|c k IH]; intros b; simpl.
    - split; [auto|tauto].
    - rewrite IH, Forall_cons_iff, andb_true_iff. tauto. }
  destruct l as [|c l].
  - simpl. split; [done|tauto].
  - rewrite (proj2 (Z.eqb_neq _ _)) by (simpl; lia). rewrite H.
    split; [intros [_ ?]|intros [_ ?]]; auto.
Qed.

Lemma do_lower_length l : length (do_lower l) = length l.
Proof. apply length_map. Qed.

Lemma to_lower_val c :
  byte_val (to_lower c) =
  if (65 <=? byte_val c) && (byte_val c <=? 90)
  then byte_val c + 32 else byte_val c.
Proof.
  unfold to_lower. pose proof (byte_val_range c).
  destruct ((65 <=? byte_val c) && (byte_val c <=? 90)) eqn:E; [|done].
  reflect_bools. rewrite byte_val_of, Z.mod_small; lia.
Qed.

Lemma to_lower_idem c : to_lower (to_lower c) = to_lower c.
Proof.
  apply byte_val_inj. rewrite (to_lower_val (to_lower c)), !to_lower_val.
  destruct ((65 <=? byte_val c) && (byte_val c <=? 90)) eqn:E; [|by rewrite E].
  reflect_bools. rewrite (proj2 (Z.leb_gt (byte_val c + 32) 90)) by lia.
  by rewrite andb_false_r.
Qed.

Lemma do_lower_idem l : do_lower (do_lower l) = do_lower l.
Proof.
  unfold do_lower. rewrite List.map_map. apply List.map_ext, to_lower_idem.
Qed.

Lemma to_lower_zero c : to_lower c = x00 ↔ c = x00.
Proof.
  split; [|by intros ->]. intros H. apply (f_equal byte_val) in H.
  rewrite to_lower_val in H. apply byte_val_inj. change (byte_val x00) with 0 in *.
  pose proof (byte_val_range c). destruct (_ && _) eqn:E; lia.
Qed.

Lemma do_lower_no_zero l : no_zero l → no_zero (do_lower l).
Proof.
  unfold no_zero, do_lower. intros H [c [Hc ?]]%list_elem_of_In%List.in_map_iff.
  apply to_lower_zero in Hc as ->. by apply H, list_elem_of_In.
Qed.

(** *** Decimal text *)

Lemma digit_byte d : 0 ≤ d < 10 → byte_val (byte_of (48 + d)) = 48 + d.
Proof. intros. rewrite byte_val_of, Z.mod_small; lia. Qed.

Lemma is_digit_byte d : 0 ≤ d < 10 → is_digit (byte_of (48 + d)) = true.
Proof.
  intros. unfold is_digit. rewrite digit_byte by done.
  apply andb_true_iff. split; apply Z.leb_le; lia.
Qed.

Lemma dec_digits_fuel f n :
  0 ≤ n < 2 ^ Z.of_nat (S (S f)) → 0 ≤ n / 10 < 2 ^ Z.of_nat (S f).
Proof.
  rewrite (Nat2Z.inj_succ (S f)), Z.pow_succ_r by lia. intros.
  split; [apply Z.div_pos; lia|apply Z.div_lt_upper_bound; lia].
Qed.

Lemma dec_digits_val f n acc :
  0 ≤ n < 2 ^ Z.of_nat (S f) →
  digits_val 10 0 (dec_digits (S f) n acc) = digits_val 10 n acc.
Proof.
  assert (Hstep : ∀ a n acc, digits_val 10 a (byte_of (48 + n `mod` 10) :: acc)
                    = digits_val 10 (a * 10 + n `mod` 10) acc).
  { intros a m k. pose proof (Z.mod_pos_bound m 10 ltac:(lia)).
    cbn [digits_val]. rewrite is_digit_byte, digit_byte by lia.
    rewrite (proj2 (Z.ltb_lt (48 + m `mod` 10 - 48) 10)) by lia.
    cbn [andb]. f_equal. lia. }
  revert n acc. induction f as [|f IH]; intros n acc Hn; cbn [dec_digits];
    pose proof (Z.div_mod n 10 ltac:(lia)).
  - replace (n / 10) with 0 in * by (symmetry; apply Z.div_small; simpl in Hn; lia).
    simpl (0 =? 0). cbv iota. rewrite Hstep. f_equal. lia.
  - destruct (n / 10 =? 0) eqn:E; reflect_bools.
    + rewrite Hstep. f_equal. lia.
    + change (digits_val 10 0 (dec_digits (S f) (n / 10)
        (byte_of (48 + n `mod` 10) :: acc)) = digits_val 10 n acc).
      rewrite IH by (by apply dec_digits_fuel). rewrite Hstep. f_equal. lia.
Qed.

Lemma log2_fuel n : 0 ≤ n → n < 2 ^ Z.of_nat (S (Z.to_nat (Z.log2 n))).
Proof.
  intros Hn. rewrite Nat2Z.inj_succ, Z2Nat.id by apply Z.log2_nonneg.
  destruct (decide (n = 0)) as [->|]; [done|]. apply Z.log2_spec. lia.
Qed.

(** Reading back what [std::to_string] printed. *)
Lemma dec_val n : 0 ≤ n → digits_val 10 0 (dec n) = n.
Proof.
  intros Hn. unfold dec. rewrite dec_digits_val; [done|].
  split; [done|]. by apply log2_fuel.
Qed.

Lemma dec_digits_digit f n acc :
  Forall (λ c, is_digit c = true) acc →
  Forall (λ c, is_digit c = true) (dec_digits f n acc).
Proof.
  revert n acc. induction f as [|f IH]; intros n acc H; cbn [dec_digits]; [done|].
  assert (Forall (λ c, is_digit c = true) (byte_of (48 + n `mod` 10) :: acc)).
  { constructor; [|done]. apply is_digit_byte, Z.mod_pos_bound. lia. }
  destruct (_ =? 0); auto.
Qed.

Lemma dec_digits_length f n acc :
  (length acc ≤ length (dec_digits f n acc))%nat.
Proof.
  revert n acc. induction f as [|f IH]; intros n acc; cbn [dec_digits]; [lia|].
  destruct (_ =? 0); [simpl; lia|].
  specialize (IH (n / 10) (byte_of (48 + n `mod` 10) :: acc)). simpl in IH. lia.
Qed.

Lemma dec_cons n : ∃ c l, dec n = c :: l ∧ is_digit c = true.
Proof.
  assert (Forall (λ c, is_digit c = true) (dec n)) as H.
  { apply dec_digits_digit. constructor. }
  unfold dec in *. cbn [dec_digits] in *.
  destruct (n / 10 =? 0); [by eexists _, _; split; [|apply Forall_cons_iff in H as []]|].
  pose proof (dec_digits_length (Z.to_nat (Z.log2 n)) (n / 10)
    [byte_of (48 + n `mod` 10)]) as Hl.
  destruct (dec_digits _ _ _) as [|c l]; simpl in Hl; [lia|].
  apply Forall_cons_iff in H as []. eauto.
Qed.

Lemma dec_digit_str n : is_digit_str (dec n) = true.
Proof.
  apply is_digit_str_spec. split.
  - destruct (dec_cons n) as (c & l & -> & _). done.
  - apply dec_digits_digit. constructor.
Qed.

Lemma digit_not_zero c : is_digit c = true → c ≠ x00.
Proof. by intros H ->. Qed.

Lemma digits_no_zero l : Forall (λ c, is_digit c = true) l → no_zero l.
Proof.
  unfold no_zero. intros H Hin. rewrite list.Forall_forall in H.
  by apply H, digit_not_zero in Hin.
Qed.

Lemma dec_no_zero n : no_zero (dec n).
Proof. apply digits_no_zero, dec_digits_digit. constructor. Qed.

Lemma to_string_nat n : 0 ≤ n → to_string n = dec n.
Proof. intros. unfold to_string. by rewrite (proj2 (Z.ltb_ge _ _)) by lia. Qed.

(** Text that starts with a digit has neither white space nor a sign. *)
Lemma strto_digit c l :
  is_digit c = true → strto 10 (c :: l) = Some (false, digits_val 10 0 (c :: l)).
Proof.
  intros H. assert (is_digit c && (byte_val c - 48 <? 10) = true) as Hc.
  { rewrite H. unfold is_digit in H. reflect_bools. apply Z.ltb_lt. lia. }
  unfold strto. cbn [skip_space].
  assert (is_space c = false) as ->.
  { unfold is_space, is_digit in *. reflect_bools.
    rewrite orb_false_iff, andb_false_iff. split; [apply Z.eqb_neq; lia|].
    right. apply Z.leb_gt. lia. }
  assert (starts_digit 10 (c :: l) = true) as Hs by done.
  destruct c; try done; by rewrite Hs.
Qed.

Lemma digits_val_nonneg l a : 0 ≤ a → 0 ≤ digits_val 10 a l.
Proof.
  revert a. induction l as [|d l IH]; intros a Ha; cbn [digits_val]; [done|].
  destruct (_ && _) eqn:E; [|done]. unfold is_digit in E. reflect_bools.
  apply IH. lia.
Qed.

(** [std::stoi] on a digit string: the value, or [out_of_range] beyond
    [INT_MAX]. *)
Lemma stoi_digit_str l :
  is_digit_str l = true →
  stoi l 10 = if digits_val 10 0 l <=? INT_MAX
              then Ok (digits_val 10 0 l) else Throw out_of_range.
Proof.
  intros [Hne Hd]%is_digit_str_spec. destruct l as [|c l]; [done|].
  unfold stoi. rewrite strto_digit by (by apply Forall_cons_iff in Hd as []).
  pose proof (digits_val_nonneg (c :: l) 0 ltac:(lia)).
  rewrite (proj2 (Z.leb_le INT_MIN _)) by (unfold INT_MIN; lia). done.
Qed.

Lemma stoi_dec n : 0 ≤ n ≤ INT_MAX → stoi (dec n) 10 = Ok n.
Proof.
  intros. rewrite stoi_digit_str by apply dec_digit_str.
  rewrite dec_val by lia. by rewrite (proj2 (Z.leb_le _ _)) by lia.
Qed.

#[export] Hint Resolve do_lower_no_zero dec_no_zero dec_digit_str : fw.
