(* ===== verification/SmBuf.v ===== *)
(** * SmBuf: the network buffer of [tftpSmBuf.h/.cpp]

    [class SmBuf] is a [std::vector<char>] with typed accessors at byte
    offsets. A buffer is the list of its octets. The accessors are templates
    over the integral type: [ity] is what they use of it, its size and its
    signedness. The host is little-endian, as the target of the build is: an
    object of [n] bytes is loaded and stored least significant octet first and
    [be16toh] and friends swap bytes. *)

From Stdlib Require Import Strings.Byte.
From S2P Require Import Prelude Common.

Abbreviation SmBuf := (list byte).

Record ity := { sizeof : nat; is_signed : bool }.

Definition uint8_t : ity := {| sizeof := 1; is_signed := false |}.
Definition int8_t : ity := {| sizeof := 1; is_signed := true |}.
Definition uint16_t : ity := {| sizeof := 2; is_signed := false |}.
Definition int16_t : ity := {| sizeof := 2; is_signed := true |}.
Definition uint32_t : ity := {| sizeof := 4; is_signed := false |}.
Definition int32_t : ity := {| sizeof := 4; is_signed := true |}.
Definition uint64_t : ity := {| sizeof := 8; is_signed := false |}.

(** The conversion [(T) z]. *)
Definition cast (T : ity) (z : Z) : Z :=
  let w := 8 * Z.of_nat (sizeof T) in
  if is_signed T then swrap w z else wrap w z.

(** Access to an object of [n] octets at [data() + off], and byte swapping. *)
Definition load (n : nat) (b : SmBuf) (off : Z) : Z :=
  le_combine (slice b off (Z.of_nat n)).

Definition store (n : nat) (b : SmBuf) (off v : Z) : SmBuf :=
  blit b off (le_split n v).

Definition bswap (n : nat) (v : Z) : Z := le_combine (be_split n v).

(** ** Operations *)

Definition is_valid (b : SmBuf) (offset t_size : Z) : bool :=
  (offset <? size b) && (u64 (offset + t_size) <=? size b).

Definition is_valid_type (T : ity) (b : SmBuf) (offset : Z) : bool :=
  is_valid b offset (Z.of_nat (sizeof T)).

Definition check_offset (b : SmBuf) (offset t_size : Z) : outcome unit :=
  if negb (is_valid b offset t_size) then Throw invalid_argument else Ok tt.

Definition check_offset_type (T : ity) (b : SmBuf) (offset : Z) : outcome unit :=
  check_offset b offset (Z.of_nat (sizeof T)).

(** [raw<T>(offset)] is a reference: its value and an assignment through it. *)
Definition raw (T : ity) (b : SmBuf) (offset : Z) : outcome Z :=
  check_offset_type T b offset ;;
  Ok (cast T (load (sizeof T) b offset)).

Definition raw_assign (T : ity) (b : SmBuf) (offset v : Z) : outcome SmBuf :=
  check_offset_type T b offset ;;
  Ok (store (sizeof T) b offset (cast T v)).

Definition get_be (T : ity) (b : SmBuf) (offset : Z) : outcome Z :=
  check_offset_type T b offset ;;
  match sizeof T with
  | 1%nat => Ok (cast T (s8 (load 1 b offset)))
  | 2%nat => Ok (cast T (bswap 2 (load 2 b offset)))
  | 4%nat => Ok (cast T (bswap 4 (load 4 b offset)))
  | 8%nat => Ok (cast T (bswap 8 (load 8 b offset)))
  | _ => Throw invalid_argument
  end.

Definition get_le (T : ity) (b : SmBuf) (offset : Z) : outcome Z :=
  check_offset_type T b offset ;;
  match sizeof T with
  | 1%nat => Ok (cast T (s8 (load 1 b offset)))
  | 2%nat => Ok (cast T (load 2 b offset))
  | 4%nat => Ok (cast T (load 4 b offset))
  | 8%nat => Ok (cast T (load 8 b offset))
  | _ => Throw invalid_argument
  end.

Definition set_be (T : ity) (b : SmBuf) (offset val : Z) : outcome (SmBuf * Z) :=
  check_offset_type T b offset ;;
  match sizeof T with
  | 1%nat => Ok (store 1 b offset val, 1)
  | 2%nat => Ok (store 2 b offset (bswap 2 (u16 val)), 2)
  | 4%nat => Ok (store 4 b offset (bswap 4 (u32 val)), 4)
  | 8%nat => Ok (store 8 b offset (bswap 8 (u64 val)), 8)
  | _ => Throw invalid_argument
  end.

Definition set_le (T : ity) (b : SmBuf) (offset val : Z) : outcome (SmBuf * Z) :=
  check_offset_type T b offset ;;
  match sizeof T with
  | 1%nat => Ok (store 1 b offset val, 1)
  | 2%nat => Ok (store 2 b offset (u16 val), 2)
  | 4%nat => Ok (store 4 b offset (u32 val), 4)
  | 8%nat => Ok (store 8 b offset (u64 val), 8)
  | _ => Throw invalid_argument
  end.

(** The iterators are [cbegin() + n] with [n] converted to [ptrdiff_t]; a range
    whose end precedes its beginning is undefined behaviour. *)
Definition get_string (b : SmBuf) (offset buf_len : Z) : outcome bytes :=
  check_offset b offset buf_len ;;
  let curr_beg := offset in
  let curr_end := if 0 <? buf_len then offset + s64 buf_len else size b in
  if curr_end <? curr_beg then Undef
  else Ok (until_zero (slice b curr_beg (curr_end - curr_beg))).

Definition set_string (b : SmBuf) (offset : Z) (s : bytes) (check_zero_end : bool)
    : outcome (SmBuf * Z) :=
  let s := if check_zero_end then until_zero s else s in
  let new_size := size s in
  check_offset b offset (new_size + (if check_zero_end then 1 else 0)) ;;
  let b := blit b offset s in
  if check_zero_end then Ok (blit b (offset + new_size) [x00], new_size + 1)
  else Ok (b, new_size).

Definition eqv_string (b : SmBuf) (offset : Z) (s : bytes) (check_zero_end : bool)
    : bool :=
  let ret := is_valid b offset (size s + (if check_zero_end then 1 else 0)) in
  if ret then
    bool_decide (slice b offset (size s) = s)
    && (if check_zero_end
        then bool_decide (slice b (offset + size s) 1 = [x00]) else true)
  else ret.

(** ** Lemmas *)

(** The sizes a [std::vector<char>] can have. *)
Definition buf_ok (b : SmBuf) : Prop := size b < 2 ^ 63.

(** The supported object sizes. *)
Definition ity_ok (T : ity) : Prop :=
  sizeof T = 1%nat ∨ sizeof T = 2%nat ∨ sizeof T = 4%nat ∨ sizeof T = 8%nat.

Lemma is_valid_in_bounds b offset n :
  buf_ok b → 0 ≤ offset → 0 ≤ n ≤ 2 ^ 63 →
  is_valid b offset n = true ↔ offset < size b ∧ offset + n ≤ size b.
Proof.
  unfold buf_ok, is_valid. intros. rewrite andb_true_iff, Z.ltb_lt, Z.leb_le.
  split; intros [? Hn]; (split; [done|]); rewrite wrap_small in * by lia; lia.
Qed.

Lemma is_valid_true b offset n :
  buf_ok b → 0 ≤ offset → 0 ≤ n → offset < size b → offset + n ≤ size b →
  is_valid b offset n = true.
Proof. intros Hb **. unfold buf_ok in Hb. apply is_valid_in_bounds; auto; lia. Qed.

Lemma is_valid_false b offset n :
  buf_ok b → 0 ≤ offset → 0 ≤ n ≤ 2 ^ 63 →
  size b ≤ offset ∨ size b < offset + n → is_valid b offset n = false.
Proof.
  intros Hb ?? H. apply not_true_is_false. intros E.
  apply is_valid_in_bounds in E; auto; lia.
Qed.

Lemma bswap_be_combine n l : length l = n → bswap n (le_combine l) = be_combine l.
Proof.
  intros <-. unfold bswap, be_split, be_combine. by rewrite le_split_combine.
Qed.

Lemma le_split_bswap n v : le_split n (bswap n v) = be_split n v.
Proof.
  unfold bswap. rewrite <-(be_split_length n v) at 1. apply le_split_combine.
Qed.

Lemma be_split_wrap n v : be_split n (wrap (8 * Z.of_nat n) v) = be_split n v.
Proof. unfold be_split, wrap. by rewrite le_split_mod. Qed.

Lemma cast_wrap T z : cast T (wrap (8 * Z.of_nat (sizeof T)) z) = cast T z.
Proof. unfold cast. destruct (is_signed T); [apply swrap_wrap|apply wrap_wrap]. Qed.

Lemma cast_s8 T z : sizeof T = 1%nat → cast T (s8 z) = cast T z.
Proof.
  intros E. rewrite <-(cast_wrap T (s8 z)), <-(cast_wrap T z), E. f_equal.
  unfold swrap, wrap. change (8 * Z.of_nat 1) with 8.
  rewrite Zminus_mod_idemp_l. f_equal. lia.
Qed.

Lemma slice_size_nat b off n :
  0 ≤ off → off + Z.of_nat n ≤ size b → length (slice b off (Z.of_nat n)) = n.
Proof.
  intros. pose proof (slice_length b off (Z.of_nat n)). unfold size in *. lia.
Qed.

(** The accessors in network byte order, as a reference definition. *)
Lemma get_be_valid T b offset :
  buf_ok b → ity_ok T → 0 ≤ offset → offset + Z.of_nat (sizeof T) ≤ size b →
  get_be T b offset
  = Ok (cast T (be_combine (slice b offset (Z.of_nat (sizeof T))))).
Proof.
  intros Hb HT ? Hs. unfold get_be, check_offset_type, check_offset.
  assert (0 < Z.of_nat (sizeof T)) by (destruct HT as [->|[->|[->| ->]]]; lia).
  rewrite is_valid_true by (auto; lia). cbn [negb mbind outcome_bind].
  pose proof (slice_size_nat b offset _ ltac:(lia) Hs) as Hl.
  unfold load. destruct HT as [E|[E|[E|E]]]; rewrite E in *.
  - rewrite cast_s8 by done. do 2 f_equal.
    destruct (slice b offset (Z.of_nat 1)) as [|x [|]]; try done.
  - by rewrite bswap_be_combine.
  - by rewrite bswap_be_combine.
  - by rewrite bswap_be_combine.
Qed.

Lemma set_be_valid T b offset v :
  buf_ok b → ity_ok T → 0 ≤ offset → offset + Z.of_nat (sizeof T) ≤ size b →
  set_be T b offset v
  = Ok (blit b offset (be_split (sizeof T) v), Z.of_nat (sizeof T)).
Proof.
  intros Hb HT ? Hs. unfold set_be, check_offset_type, check_offset.
  assert (0 < Z.of_nat (sizeof T)) by (destruct HT as [->|[->|[->| ->]]]; lia).
  rewrite is_valid_true by (auto; lia). cbn [negb mbind outcome_bind].
  unfold store. destruct HT as [E|[E|[E|E]]]; rewrite E in *.
  - done.
  - by rewrite le_split_bswap, (be_split_wrap 2).
  - by rewrite le_split_bswap, (be_split_wrap 4).
  - by rewrite le_split_bswap, (be_split_wrap 8).
Qed.

Lemma set_le_valid T b offset v :
  buf_ok b → ity_ok T → 0 ≤ offset → offset + Z.of_nat (sizeof T) ≤ size b →
  set_le T b offset v
  = Ok (blit b offset (le_split (sizeof T) v), Z.of_nat (sizeof T)).
Proof.
  intros Hb HT ? Hs. unfold set_le, check_offset_type, check_offset.
  assert (0 < Z.of_nat (sizeof T)) by (destruct HT as [->|[->|[->| ->]]]; lia).
  rewrite is_valid_true by (auto; lia). cbn [negb mbind outcome_bind].
  unfold store. destruct HT as [E|[E|[E|E]]]; rewrite E in *; try done;
    unfold wrap; [by rewrite (le_split_mod 2)|by rewrite (le_split_mod 4)|
                  by rewrite (le_split_mod 8)].
Qed.

Lemma size_be_split n v : size (be_split n v) = Z.of_nat n.
Proof. unfold size. by rewrite be_split_length. Qed.

Lemma size_le_split n v : size (le_split n v) = Z.of_nat n.
Proof. unfold size. by rewrite le_split_length. Qed.

(** A range of [get_string] that lies in the buffer. *)
Lemma get_string_in_bounds b offset n :
  buf_ok b → 0 ≤ offset → 0 < n → offset + n ≤ size b →
  get_string b offset n = Ok (until_zero (slice b offset n)).
Proof.
  intros Hb ?? Hs. unfold buf_ok in Hb. unfold get_string, check_offset.
  rewrite is_valid_true by (auto; lia). cbn [negb mbind outcome_bind].
  rewrite (proj2 (Z.ltb_lt 0 n)) by lia.
  rewrite swrap_small by lia.
  rewrite (proj2 (Z.ltb_ge _ _)) by lia. do 3 f_equal. lia.
Qed.

(** Length 0 stands for "up to the end of the buffer". *)
Lemma get_string_to_end b offset :
  buf_ok b → 0 ≤ offset < size b →
  get_string b offset 0 = Ok (until_zero (slice b offset (size b - offset))).
Proof.
  intros Hb ?. unfold buf_ok in Hb. unfold get_string, check_offset.
  rewrite is_valid_true by (auto; lia). cbn [negb mbind outcome_bind].
  change (0 <? 0) with false. cbv iota.
  by rewrite (proj2 (Z.ltb_ge _ _)) by lia.
Qed.

(** A length for which [offset + buf_len] wraps around passes the check and
    makes an iterator range that runs backwards. *)
Lemma get_string_wraps b offset n :
  buf_ok b → 0 ≤ offset < size b → n < 2 ^ 64 → 2 ^ 64 ≤ offset + n →
  get_string b offset n = Undef.
Proof.
  intros Hb ???. unfold get_string, check_offset, is_valid. unfold buf_ok in Hb.
  rewrite (proj2 (Z.ltb_lt offset _)) by lia. cbn [andb].
  assert (u64 (offset + n) = offset + n - 2 ^ 64) as ->.
  { unfold wrap. rewrite <-(Z.mod_add _ (-1)) by lia. apply Z.mod_small. lia. }
  rewrite (proj2 (Z.leb_le _ _)) by lia. cbn [negb mbind outcome_bind].
  rewrite (proj2 (Z.ltb_lt 0 _)) by lia.
  assert (s64 n = n - 2 ^ 64) as ->.
  { unfold swrap, wrap. rewrite <-(Z.mod_add _ (-1)) by lia.
    rewrite Z.mod_small by lia. lia. }
  by rewrite (proj2 (Z.ltb_lt _ offset)) by lia.
Qed.

#[export] Hint Rewrite size_be_split size_le_split : fw.

(** ** Properties *)

(** A total description of the reading accessor: the octets of the object read
    as a big-endian number and converted to [T], or [std::invalid_argument];
    never undefined behaviour. *)
Theorem get_be_spec T b offset :
  buf_ok b → ity_ok T → 0 ≤ offset →
  get_be T b offset =
  if offset + Z.of_nat (sizeof T) <=? size b
  then Ok (cast T (be_combine (slice b offset (Z.of_nat (sizeof T)))))
  else Throw invalid_argument.
Proof.
  intros Hb HT ?. destruct (_ <=? _) eqn:E; reflect_bools; [by apply get_be_valid|].
  unfold get_be, check_offset_type, check_offset.
  rewrite is_valid_false; try done; [destruct HT as [->|[->|[->| ->]]]|]; lia.
Qed.

Lemma get_be_spec_witness :
  get_be uint16_t [x00; x01; xfe; xdc] 2 = Ok 65244.
Proof.
  rewrite (get_be_spec uint16_t [x00; x01; xfe; xdc] 2);
    [vm_compute; reflexivity|vm_compute; reflexivity|right; left; reflexivity|lia].
Defined.

(** C31. Writing an integer in network order and reading it back gives the value
    converted to [T]; the buffer keeps its size and every octet outside the
    written range. *)
Theorem set_be_get_be T b offset v :
  buf_ok b → ity_ok T → 0 ≤ offset → offset + Z.of_nat (sizeof T) ≤ size b →
  ∃ b', set_be T b offset v = Ok (b', Z.of_nat (sizeof T)) ∧
        size b' = size b ∧
        slice b' offset (Z.of_nat (sizeof T)) = be_split (sizeof T) v ∧
        get_be T b' offset = Ok (cast T v) ∧
        (∀ i : nat, Z.of_nat i < offset ∨ offset + Z.of_nat (sizeof T) ≤ Z.of_nat i →
           b' !! i = b !! i).
Proof.
  intros Hb HT ? Hs. eexists. split; [by apply set_be_valid|].
  pose proof (size_be_split (sizeof T) v) as Hsz.
  assert (Hlen : size (blit b offset (be_split (sizeof T) v)) = size b)
    by (apply blit_length; lia).
  assert (Hsl : slice (blit b offset (be_split (sizeof T) v)) offset
                  (Z.of_nat (sizeof T)) = be_split (sizeof T) v)
    by (rewrite <-Hsz at 1; apply slice_blit; lia).
  repeat split; [done|done| |].
  - unfold buf_ok in *. rewrite get_be_valid by (unfold buf_ok; auto; lia).
    rewrite Hsl, be_combine_split. f_equal. apply cast_wrap.
  - intros i Hi. apply blit_frame; lia.
Qed.

Lemma set_be_get_be_witness :
  ∃ b', set_be int16_t [x00; x00; x00; xff] 1 (-2) = Ok (b', 2) ∧
        get_be int16_t b' 1 = Ok (-2).
Proof.
  destruct (set_be_get_be int16_t [x00; x00; x00; xff] 1 (-2))
    as (b' & H1 & _ & _ & H2 & _);
    [vm_compute; reflexivity|right; left; reflexivity|lia|vm_compute; discriminate|].
  exists b'. split; [exact H1|exact H2].
Defined.

(** [get_string] on every argument: the text up to a zero octet when the range
    is in the buffer, [std::invalid_argument] when it is not, and undefined
    behaviour when [offset + buf_len] wraps around [size_t]. *)
Theorem get_string_spec b offset buf_len :
  buf_ok b → 0 ≤ offset → 0 ≤ buf_len < 2 ^ 64 →
  get_string b offset buf_len =
  if size b <=? offset then Throw invalid_argument
  else if buf_len =? 0 then Ok (until_zero (slice b offset (size b - offset)))
  else if offset + buf_len <=? size b
       then Ok (until_zero (slice b offset buf_len))
  else if 2 ^ 64 <=? offset + buf_len then Undef
  else Throw invalid_argument.
Proof.
  intros Hb ? Hl. destruct (size b <=? offset) eqn:E1; reflect_bools.
  { unfold get_string, check_offset, is_valid.
    by rewrite (proj2 (Z.ltb_ge offset (size b))) by lia. }
  destruct (buf_len =? 0) eqn:E2; reflect_bools.
  { subst. apply get_string_to_end; [done|lia]. }
  destruct (offset + buf_len <=? size b) eqn:E3; reflect_bools.
  { apply get_string_in_bounds; auto; lia. }
  unfold buf_ok in Hb. destruct (2 ^ 64 <=? offset + buf_len) eqn:E4; reflect_bools.
  - apply get_string_wraps; auto; lia.
  - unfold get_string, check_offset, is_valid. rewrite wrap_small by lia.
    by rewrite (proj2 (Z.leb_gt (offset + buf_len) _)), andb_false_r by lia.
Qed.

Lemma get_string_spec_witness :
  get_string [x61; x62; x00; x63] 3 (2 ^ 64 - 1) = Undef.
Proof.
  rewrite (get_string_spec [x61; x62; x00; x63] 3 (2 ^ 64 - 1));
    [reflexivity|vm_compute; reflexivity|lia|lia].
Defined.

(** A string stored with its zero end is read back, compares equal, and takes
    its length plus one octets. *)
Theorem set_string_round_trip b offset s :
  buf_ok b → 0 ≤ offset → offset + size (until_zero s) + 1 ≤ size b →
  ∃ b', set_string b offset s true = Ok (b', size (until_zero s) + 1) ∧
        size b' = size b ∧
        get_string b' offset 0 = Ok (until_zero s) ∧
        eqv_string b' offset (until_zero s) true = true ∧
        (∀ i : nat, Z.of_nat i < offset ∨
                    offset + size (until_zero s) + 1 ≤ Z.of_nat i →
           b' !! i = b !! i).
Proof.
  intros Hb ? Hs. set (t := until_zero s) in *.
  assert (Hsz : size (t ++ [x00]) = size t + 1) by (by rewrite size_app).
  pose proof (size_nonneg t). set (b' := blit b offset (t ++ [x00])).
  assert (Hb' : size b' = size b) by (apply blit_length; lia).
  assert (Hd : drop (Z.to_nat offset) b' = (t ++ [x00]) ++ drop (Z.to_nat (offset +
    size (t ++ [x00]))) b) by (apply drop_blit_at; lia).
  assert (Hok : buf_ok b') by (unfold buf_ok in *; lia).
  exists b'. repeat split; [|done| | |].
  - unfold set_string, check_offset. fold t. rewrite is_valid_true by (auto; lia).
    cbn [negb mbind outcome_bind]. unfold b'. rewrite blit_blit; [done|lia|].
    change (size [x00]) with 1. lia.
  - rewrite get_string_to_end by (auto; lia). f_equal.
    unfold slice. rewrite Hd, take_ge.
    + rewrite <-app_assoc. apply until_zero_app_zero, until_zero_no_zero.
    + rewrite <-Hd, length_drop. unfold size. lia.
  - unfold eqv_string. rewrite is_valid_true by (auto; lia).
    unfold slice. rewrite Z2Nat.inj_add, <-drop_drop, Hd by lia.
    unfold size. rewrite Nat2Z.id, <-!app_assoc, take_app_length, drop_app_length.
    by rewrite !bool_decide_eq_true_2.
  - intros i Hi. apply blit_frame; lia.
Qed.

Lemma set_string_round_trip_witness :
  ∃ b', set_string (replicate 8 xff) 1 (str "abc") true = Ok (b', 4) ∧
        get_string b' 1 0 = Ok (str "abc").
Proof.
  destruct (set_string_round_trip (replicate 8 xff) 1 (str "abc"))
    as (b' & H1 & _ & H2 & _);
    [vm_compute; reflexivity|lia|vm_compute; discriminate|].
  exists b'. split; [exact H1|exact H2].
Defined.
