(* ===== verification/SmBufEx.v ===== *)
(** * SmBufEx: the push buffer of [tftpSmBufEx.h/.cpp]

    [class SmBufEx] adds to [SmBuf] the count of pushed octets and two flags.
    Its content is [payload]: the first [data_size_] octets. [push_item] is a
    template that dispatches on the static type of its argument; [arg] is that
    type with the value. *)

From Stdlib Require Import Strings.Byte.
From S2P Require Import Prelude Common SmBuf.

Definition default_buf_int_bigendian : bool := true.
Definition default_buf_str_zeroend : bool := true.

Record SmBufEx := {
  buf : SmBuf;                (** the [std::vector<char>] base *)
  data_size_ : Z;
  val_int_bigendian_ : bool;
  val_str_zeroend_ : bool
}.

(** Arguments of [push_data]: an integral value, something a [std::string] can
    be made of, anything else. *)
Inductive arg :=
  | AInt (T : ity) (v : Z)
  | AStr (s : bytes)
  | AOther.

Definition new (buf_size : nat) (is_int_be is_str_zero : bool) : SmBufEx :=
  {| buf := replicate buf_size x00; data_size_ := 0;
     val_int_bigendian_ := is_int_be; val_str_zeroend_ := is_str_zero |}.

Definition new_default (buf_size : nat) : SmBufEx :=
  new buf_size default_buf_int_bigendian default_buf_str_zeroend.

Definition with_buf (b : SmBufEx) (d : SmBuf) (n : Z) : SmBufEx :=
  {| buf := d; data_size_ := n;
     val_int_bigendian_ := val_int_bigendian_ b;
     val_str_zeroend_ := val_str_zeroend_ b |}.

Definition data_size (b : SmBufEx) : Z := data_size_ b.

Definition clear (b : SmBufEx) : SmBufEx := with_buf b (buf b) 0.

Definition is_bigendian (b : SmBufEx) : bool := val_int_bigendian_ b.

Definition is_littleendian (b : SmBufEx) : bool := negb (val_int_bigendian_ b).

Definition is_zeroend (b : SmBufEx) : bool := val_str_zeroend_ b.

Definition set_bigendian (b : SmBufEx) : SmBufEx :=
  {| buf := buf b; data_size_ := data_size_ b;
     val_int_bigendian_ := true; val_str_zeroend_ := val_str_zeroend_ b |}.

Definition set_littleendian (b : SmBufEx) : SmBufEx :=
  {| buf := buf b; data_size_ := data_size_ b;
     val_int_bigendian_ := false; val_str_zeroend_ := val_str_zeroend_ b |}.

Definition set_zeroend (b : SmBufEx) : SmBufEx :=
  {| buf := buf b; data_size_ := data_size_ b;
     val_int_bigendian_ := val_int_bigendian_ b; val_str_zeroend_ := true |}.

Definition set_not_zeroend (b : SmBufEx) : SmBufEx :=
  {| buf := buf b; data_size_ := data_size_ b;
     val_int_bigendian_ := val_int_bigendian_ b; val_str_zeroend_ := false |}.

Definition data_size_reset (b : SmBufEx) (new_size : Z) : outcome SmBufEx :=
  if size (buf b) <? new_size then Throw invalid_argument
  else Ok (with_buf b (buf b) new_size).

(** The length reported by a setter is added to [data_size_]. *)
Definition push_len (b : SmBufEx) (r : SmBuf * Z) : SmBufEx * bool :=
  let '(d, len) := r in
  if 0 <=? len then (with_buf b d (u64 (data_size_ b + len)), true)
  else (with_buf b d (data_size_ b), false).

Definition push_item (b : SmBufEx) (val : arg) : outcome (SmBufEx * bool) :=
  match val with
  | AInt T v =>
      if u64 (data_size_ b + Z.of_nat (sizeof T)) <=? size (buf b) then
        r ← (if is_bigendian b
             then set_be T (buf b) (data_size_ b) v
             else set_le T (buf b) (data_size_ b) v);
        Ok (push_len b r)
      else Ok (b, false)
  | AStr tmp_str =>
      if u64 (data_size_ b + size tmp_str) <=? size (buf b) then
        r ← set_string (buf b) (data_size_ b) tmp_str (val_str_zeroend_ b);
        Ok (push_len b r)
      else Ok (b, false)
  | AOther => Ok (b, false)
  end.

Fixpoint push_args (b : SmBufEx) (ret : bool) (args : list arg)
    : outcome (SmBufEx * bool) :=
  match args with
  | [] => Ok (b, ret)
  | a :: args =>
      '(b, r) ← push_item b a;
      push_args b (r && ret) args
  end.

Definition push_data (b : SmBufEx) (args : list arg) : outcome (SmBufEx * bool) :=
  push_args b true args.

(** ** Invariant and content *)

Definition wf (b : SmBufEx) : Prop :=
  0 ≤ data_size_ b ≤ size (buf b) ∧ buf_ok (buf b).

Definition payload (b : SmBufEx) : bytes := take (Z.to_nat (data_size_ b)) (buf b).

(** The octets an argument stands for, under the flags of the buffer. *)
Definition encode (b : SmBufEx) (a : arg) : bytes :=
  match a with
  | AInt T v =>
      if val_int_bigendian_ b then be_split (sizeof T) v else le_split (sizeof T) v
  | AStr s => if val_str_zeroend_ b then until_zero s ++ [x00] else s
  | AOther => []
  end.

(** ** Lemmas *)

Lemma payload_size b : wf b → size (payload b) = data_size_ b.
Proof. unfold wf, payload, size. intros [??]. rewrite length_take. lia. Qed.

Lemma clear_payload b : payload (clear b) = [].
Proof. done. Qed.

Lemma clear_wf b : buf_ok (buf b) → wf (clear b).
Proof. unfold wf, clear. simpl. pose proof (size_nonneg (buf b)). split; [lia|done]. Qed.

Lemma new_wf n be z : Z.of_nat n < 2 ^ 63 → wf (new n be z).
Proof.
  unfold wf, new, buf_ok, size. simpl. rewrite length_replicate. lia.
Qed.

(** A successful write at the end of the content extends it. *)
Lemma push_len_blit b d n :
  wf b → size d = n → data_size_ b + n ≤ size (buf b) →
  let b' := with_buf b (blit (buf b) (data_size_ b) d) (data_size_ b + n) in
  push_len b (blit (buf b) (data_size_ b) d, n) = (b', true) ∧
  wf b' ∧ payload b' = payload b ++ d ∧ size (buf b') = size (buf b).
Proof.
  intros [Hr Hb] <- Hn. unfold buf_ok in Hb. pose proof (size_nonneg d).
  cbn zeta. unfold push_len. rewrite (proj2 (Z.leb_le 0 _)) by lia.
  rewrite wrap_small by lia.
  assert (Hs : size (blit (buf b) (data_size_ b) d) = size (buf b))
    by (apply blit_length; lia).
  repeat split; simpl; try lia.
  - unfold buf_ok. simpl. lia.
  - unfold payload. simpl. apply take_blit_end; lia.
Qed.

(** The octets the room check of [push_item] counts: the text without its zero
    end. *)
Definition raw_size (a : arg) : Z :=
  match a with AInt T _ => Z.of_nat (sizeof T) | AStr s => size s | AOther => 0 end.

Definition arg_ok (a : arg) : Prop :=
  match a with AInt T _ => ity_ok T | AStr s => size s < 2 ^ 63 | AOther => True end.

(** A reference definition of [push_item] in terms of [encode]. *)
Definition push_ref (b : SmBufEx) (a : arg) : outcome (SmBufEx * bool) :=
  match a with
  | AOther => Ok (b, false)
  | _ =>
      let e := encode b a in
      if size (buf b) <? data_size_ b + raw_size a then Ok (b, false)
      else if (size (buf b) <=? data_size_ b)
              || (size (buf b) <? data_size_ b + size e)
      then Throw invalid_argument
      else Ok (with_buf b (blit (buf b) (data_size_ b) e)
                 (data_size_ b + size e), true)
  end.

Lemma encode_int_size b T v : size (encode b (AInt T v)) = Z.of_nat (sizeof T).
Proof. simpl. destruct (val_int_bigendian_ b); by autorewrite with fw. Qed.

Lemma push_int_ref b T v :
  wf b → ity_ok T → push_item b (AInt T v) = push_ref b (AInt T v).
Proof.
  intros Hwf HT. pose proof Hwf as [Hr Hb]. unfold buf_ok in Hb.
  assert (0 < Z.of_nat (sizeof T) ≤ 8) by (destruct HT as [->|[->|[->| ->]]]; lia).
  unfold push_item, push_ref. rewrite encode_int_size. cbn [raw_size].
  rewrite wrap_small by lia. destruct (_ <=? _) eqn:E1; reflect_bools.
  - rewrite (proj2 (Z.ltb_ge (size _) _)), (proj2 (Z.leb_gt (size _) _)) by lia.
    cbn [orb].
    rewrite <-(proj1 (push_len_blit b _ _ Hwf (encode_int_size b T v) E1)).
    cbn [encode]. unfold is_bigendian.
    destruct (val_int_bigendian_ b);
      [rewrite set_be_valid by (auto; lia)|rewrite set_le_valid by (auto; lia)];
      done.
  - by rewrite (proj2 (Z.ltb_lt (size _) _)) by lia.
Qed.

Lemma push_str_ref b s :
  wf b → size s < 2 ^ 63 → push_item b (AStr s) = push_ref b (AStr s).
Proof.
  intros Hwf Hs. pose proof Hwf as [Hr Hb]. unfold buf_ok in Hb.
  pose proof (size_nonneg s). pose proof (size_nonneg (until_zero s)).
  pose proof (until_zero_size s).
  unfold push_item, push_ref. cbn [raw_size]. rewrite wrap_small by lia.
  destruct (_ <=? _) eqn:E1; reflect_bools.
  2: { by rewrite (proj2 (Z.ltb_lt (size _) _)) by lia. }
  rewrite (proj2 (Z.ltb_ge (size _) _)) by lia.
  set (e := encode b (AStr s)).
  assert (Hss : set_string (buf b) (data_size_ b) s (val_str_zeroend_ b) =
    if (size (buf b) <=? data_size_ b) || (size (buf b) <? data_size_ b + size e)
    then Throw invalid_argument
    else Ok (blit (buf b) (data_size_ b) e, size e)).
  { unfold e, set_string, check_offset. cbn [encode].
    destruct (val_str_zeroend_ b); rewrite ?size_app, ?Z.add_0_r;
      change (size [x00]) with 1.
    - destruct (_ || _) eqn:E2.
      + rewrite is_valid_false; [done|done|lia|lia|].
        apply orb_true_iff in E2. destruct E2; reflect_bools; lia.
      + reflect_bools. rewrite is_valid_true by (auto; lia).
        cbn [negb mbind outcome_bind].
        by rewrite blit_blit by (change (size [x00]) with 1; lia).
    - destruct (_ || _) eqn:E2.
      + rewrite is_valid_false; [done|done|lia|lia|].
        apply orb_true_iff in E2. destruct E2; reflect_bools; lia.
      + reflect_bools. by rewrite is_valid_true by (auto; lia). }
  rewrite Hss. destruct (_ || _) eqn:E2; [done|]. reflect_bools.
  cbn [mbind outcome_bind]. f_equal. by apply push_len_blit.
Qed.

(** What a successful push gives. *)
Lemma push_ref_ok b a b' r :
  wf b → push_ref b a = Ok (b', r) →
  wf b' ∧ size (buf b') = size (buf b) ∧
  val_int_bigendian_ b' = val_int_bigendian_ b ∧
  val_str_zeroend_ b' = val_str_zeroend_ b ∧
  payload b' = payload b ++ (if r then encode b a else []).
Proof.
  intros Hwf H.
  assert (Hstay : Ok (b, false) = Ok (b', r) →
    wf b' ∧ size (buf b') = size (buf b) ∧
    val_int_bigendian_ b' = val_int_bigendian_ b ∧
    val_str_zeroend_ b' = val_str_zeroend_ b ∧
    payload b' = payload b ++ (if r then encode b a else [])).
  { intros [= <- <-]. split_and!; auto. by rewrite app_nil_r. }
  destruct a as [T v|s|]; unfold push_ref in H; [| |by apply Hstay];
    destruct (_ <? _) eqn:E1; auto; destruct (_ || _) eqn:E2; [done| |done|];
    injection H as <- <-; reflect_bools.
  - destruct (push_len_blit b (encode b (AInt T v)) _ Hwf eq_refl ltac:(lia))
      as (_ & ? & ? & ?). by split_and!.
  - destruct (push_len_blit b (encode b (AStr s)) _ Hwf eq_refl ltac:(lia))
      as (_ & ? & ? & ?). by split_and!.
Qed.

(** Two buffers with the same flags encode alike. *)
Definition same_shape (b b' : SmBufEx) : Prop :=
  size (buf b') = size (buf b) ∧
  val_int_bigendian_ b' = val_int_bigendian_ b ∧
  val_str_zeroend_ b' = val_str_zeroend_ b.

#[export] Instance same_shape_preorder : PreOrder same_shape.
Proof.
  split; [done|]. intros ??? (?&?&?) (?&?&?). unfold same_shape.
  split_and!; by etrans.
Qed.

#[export] Instance encode_proper :
  Proper (same_shape ==> eq ==> eq) encode.
Proof. intros b b' (_ & Hb & Hz) a ? <-. destruct a; simpl; by rewrite ?Hb, ?Hz. Qed.

(** An argument that needs room in the buffer and no more than it encodes to. *)
Definition pushable (b : SmBufEx) (a : arg) : Prop :=
  arg_ok a ∧ a ≠ AOther ∧ 0 < size (encode b a) ∧ raw_size a ≤ size (encode b a).

Lemma pushable_int b T v : ity_ok T → pushable b (AInt T v).
Proof.
  intros HT. unfold pushable. rewrite encode_int_size. split_and!; try done.
  destruct HT as [->|[->|[->| ->]]]; lia.
Qed.

Lemma pushable_str b s :
  val_str_zeroend_ b = true → no_zero s → size s < 2 ^ 63 → pushable b (AStr s).
Proof.
  intros Hz Hs ?. unfold pushable. simpl. rewrite Hz, until_zero_id by done.
  pose proof (size_nonneg s). rewrite size_app. change (size [x00]) with 1.
  split_and!; (done || lia).
Qed.

Lemma push_args_never_undef b r args :
  wf b → Forall arg_ok args →
  match push_args b r args with
  | Ok (b', _) => wf b' ∧ same_shape b b' ∧ payload b `prefix_of` payload b'
  | Throw e => e = invalid_argument
  | Undef => False
  end.
Proof.
  intros Hwf Ha. revert b r Hwf. induction Ha as [|a args Ha _ IH]; intros b r Hwf.
  - simpl. by split_and!.
  - cbn [push_args]. assert (push_item b a = push_ref b a) as ->.
    { destruct a; [by apply push_int_ref|by apply push_str_ref|done]. }
    destruct (push_ref b a) as [[b1 r1]|e|] eqn:E; cbn [mbind outcome_bind].
    + apply push_ref_ok in E as (Hwf1 & ? & ? & ? & Hp); [|done].
      specialize (IH b1 (r1 && r) Hwf1).
      destruct (push_args b1 _ args) as [[b2 r2]|e|]; try done.
      destruct IH as (? & ? & Hpre). split_and!; [done|by transitivity b1|].
      etrans; [|exact Hpre]. rewrite Hp. by apply prefix_app_r.
    + destruct a as [T v|s|]; unfold push_ref in E; try done;
        destruct (_ <? _); try done; destruct (_ || _); by simplify_eq.
    + destruct a as [T v|s|]; unfold push_ref in E; try done;
        destruct (_ <? _); try done; by destruct (_ || _).
Qed.

Lemma push_args_appends b args :
  wf b → Forall (pushable b) args →
  data_size_ b + size (concat (map (encode b) args)) ≤ size (buf b) →
  ∃ b', push_args b true args = Ok (b', true) ∧ wf b' ∧ same_shape b b' ∧
        payload b' = payload b ++ concat (map (encode b) args).
Proof.
  revert b. induction args as [|a args IH]; intros b Hwf Ha Hn; simpl.
  - exists b. split_and!; try done. by rewrite app_nil_r.
  - apply Forall_cons_iff in Ha as [(Hok & Hno & Hpos & Hraw) Hargs].
    cbn [map concat] in Hn. rewrite size_app in Hn.
    pose proof (size_nonneg (concat (map (encode b) args))).
    assert (push_item b a = push_ref b a) as ->.
    { destruct a; [by apply push_int_ref|by apply push_str_ref|done]. }
    assert (Hp : ∃ b1, push_ref b a = Ok (b1, true)).
    { pose proof Hwf as [? _].
      unfold push_ref. rewrite (proj2 (Z.ltb_ge (size _) (_ + raw_size a))) by lia.
      rewrite (proj2 (Z.leb_gt (size _) (data_size_ b))) by lia.
      rewrite (proj2 (Z.ltb_ge (size _) _)) by lia. destruct a; eauto. done. }
    destruct Hp as [b1 E]. rewrite E. cbn [mbind outcome_bind andb].
    apply push_ref_ok in E as (Hwf1 & ? & ? & ? & Hpay); [|done].
    assert (Hsh : same_shape b b1) by done.
    assert (Henc : map (encode b1) args = map (encode b) args)
      by (apply List.map_ext; intros; by rewrite Hsh).
    pose proof (payload_size _ Hwf). pose proof (payload_size _ Hwf1).
    rewrite Hpay, size_app in *.
    destruct (IH b1) as (b' & -> & ? & ? & Hpay'); [done| | |].
    + eapply Forall_impl; [|exact Hargs]. unfold pushable.
      intros x. by rewrite Hsh.
    + rewrite Henc. lia.
    + exists b'. split_and!; [done|done|by transitivity b1|].
      by rewrite Hpay', Henc, Hpay, app_assoc.
Qed.

(** ** Properties *)

(** C30. [push_item] behaves as its reference: [false] and no change when the
    counted octets do not fit, the encoded octets appended when they fit with
    the zero end, and [std::invalid_argument] in the gap between the two
    checks. *)
Theorem push_item_refines b a :
  wf b → arg_ok a → push_item b a = push_ref b a.
Proof.
  intros Hwf Ha. destruct a as [T v|s|]; [by apply push_int_ref|by apply push_str_ref|done].
Qed.

Lemma push_item_refines_witness :
  push_item (new 3 true true) (AStr (str "abc")) = Throw invalid_argument.
Proof.
  rewrite (push_item_refines (new 3 true true) (AStr (str "abc")));
    [reflexivity|apply new_wf; vm_compute; reflexivity|vm_compute; reflexivity].
Defined.

(** Pushing any arguments keeps the invariant [data_size_ <= size()], the size
    and flags of the buffer and the octets already pushed; the only way out is
    [std::invalid_argument]. *)
Theorem push_data_invariant b args :
  wf b → Forall arg_ok args →
  match push_data b args with
  | Ok (b', _) => wf b' ∧ same_shape b b' ∧ payload b `prefix_of` payload b'
  | Throw e => e = invalid_argument
  | Undef => False
  end.
Proof. apply push_args_never_undef. Qed.

Lemma push_data_invariant_witness :
  match push_data (new 4 true true) [AInt uint16_t 3; AOther; AInt uint16_t 258] with
  | Ok (b', _) => wf b' ∧ same_shape (new 4 true true) b' ∧
                  payload (new 4 true true) `prefix_of` payload b'
  | Throw e => e = invalid_argument
  | Undef => False
  end.
Proof.
  apply (push_data_invariant (new 4 true true));
    [apply new_wf; vm_compute; reflexivity|].
  constructor; [right; left; reflexivity|constructor; [exact I|]].
  constructor; [right; left; reflexivity|constructor].
Defined.

(** Arguments that fit are appended in order, each in its encoding. *)
Theorem push_data_appends b args :
  wf b → Forall (pushable b) args →
  data_size_ b + size (concat (map (encode b) args)) ≤ size (buf b) →
  ∃ b', push_data b args = Ok (b', true) ∧ wf b' ∧ same_shape b b' ∧
        payload b' = payload b ++ concat (map (encode b) args).
Proof. apply push_args_appends. Qed.

Lemma push_data_appends_witness :
  ∃ b', push_data (new 16 true true) [AInt uint16_t 5; AStr (str "err")]
        = Ok (b', true) ∧ payload b' = [x00; x05; x65; x72; x72; x00].
Proof.
  destruct (push_data_appends (new 16 true true) [AInt uint16_t 5; AStr (str "err")])
    as (b' & H1 & _ & _ & H2).
  - apply new_wf; vm_compute; reflexivity.
  - constructor; [apply pushable_int; right; left; reflexivity|].
    constructor; [|constructor].
    apply pushable_str; [reflexivity|by_decide|vm_compute; reflexivity].
  - vm_compute. discriminate.
  - exists b'. split; [exact H1|rewrite H2; vm_compute; reflexivity].
Defined.
