(* ===== verification/Options.v ===== *)
(** * Options: the request parser of [tftpOptions.h/.cpp]

    [class Options] holds what a TFTP request asks for; [buffer_parse] fills it
    from a received packet. Log messages are not modelled. The parser is split
    along its four blocks (request type, file name, transfer mode, options);
    the option loop runs on fuel and has no result ([None]) when it is used up, and
    [parse_opts_fuel] shows that with the fuel given to it there is always a result. *)

From Stdlib Require Import Strings.Byte.
From S2P Require Import Prelude Common SmBuf.

(** ** Constants *)

Definition dflt_blksize : Z := 512.
Definition dflt_timeout : Z := 10.
Definition dflt_tsize : Z := 0.
Definition dflt_windowsize : Z := 1.

Definition name_blksize : bytes := str "blksize".
Definition name_timeout : bytes := str "timeout".
Definition name_tsize : bytes := str "tsize".
Definition name_windowsize : bytes := str "windowsize".

(** ** Data *)

(** Whether the option was in the request, and its value. *)
Abbreviation OptInt := (bool * Z)%type.

Record Options := {
  request_type_ : SrvReq.t;
  filename_ : bytes;
  transfer_mode_ : TransfMode.t;
  blksize_ : OptInt;
  timeout_ : OptInt;
  tsize_ : OptInt;
  windowsize_ : OptInt
}.

Definition Options_default : Options := {|
  request_type_ := SrvReq.unknown;
  filename_ := [];
  transfer_mode_ := TransfMode.unknown;
  blksize_ := (false, dflt_blksize);
  timeout_ := (false, dflt_timeout);
  tsize_ := (false, dflt_tsize);
  windowsize_ := (false, dflt_windowsize)
|}.

(** ** Getters *)

Definition request_type (o : Options) : SrvReq.t := request_type_ o.
Definition filename (o : Options) : bytes := filename_ o.
Definition transfer_mode (o : Options) : TransfMode.t := transfer_mode_ o.
Definition blksize (o : Options) : Z := snd (blksize_ o).
Definition timeout (o : Options) : Z := snd (timeout_ o).
Definition tsize (o : Options) : Z := snd (tsize_ o).
Definition windowsize (o : Options) : Z := snd (windowsize_ o).

Definition was_set_blksize (o : Options) : bool := fst (blksize_ o).
Definition was_set_timeout (o : Options) : bool := fst (timeout_ o).
Definition was_set_tsize (o : Options) : bool := fst (tsize_ o).
Definition was_set_windowsize (o : Options) : bool := fst (windowsize_ o).

Definition was_set_any (o : Options) : bool :=
  was_set_blksize o || was_set_timeout o || was_set_tsize o || was_set_windowsize o.

(** ** Setters of the fields *)

Definition set_request (o : Options) (rq : SrvReq.t) : Options :=
  {| request_type_ := rq; filename_ := filename_ o;
     transfer_mode_ := transfer_mode_ o; blksize_ := blksize_ o;
     timeout_ := timeout_ o; tsize_ := tsize_ o; windowsize_ := windowsize_ o |}.

Definition set_filename (o : Options) (f : bytes) : Options :=
  {| request_type_ := request_type_ o; filename_ := f;
     transfer_mode_ := transfer_mode_ o; blksize_ := blksize_ o;
     timeout_ := timeout_ o; tsize_ := tsize_ o; windowsize_ := windowsize_ o |}.

Definition set_mode (o : Options) (m : TransfMode.t) : Options :=
  {| request_type_ := request_type_ o; filename_ := filename_ o;
     transfer_mode_ := m; blksize_ := blksize_ o;
     timeout_ := timeout_ o; tsize_ := tsize_ o; windowsize_ := windowsize_ o |}.

(** The assignment of a recognised option; an unknown name changes nothing. *)
Definition set_option (o : Options) (str_opt : bytes) (val : Z) : Options :=
  let with_opts b t s w :=
    {| request_type_ := request_type_ o; filename_ := filename_ o;
       transfer_mode_ := transfer_mode_ o; blksize_ := b; timeout_ := t;
       tsize_ := s; windowsize_ := w |} in
  if bool_decide (str_opt = name_blksize)
  then with_opts (true, val) (timeout_ o) (tsize_ o) (windowsize_ o)
  else if bool_decide (str_opt = name_timeout)
  then with_opts (blksize_ o) (true, val) (tsize_ o) (windowsize_ o)
  else if bool_decide (str_opt = name_tsize)
  then with_opts (blksize_ o) (timeout_ o) (true, val) (windowsize_ o)
  else if bool_decide (str_opt = name_windowsize)
  then with_opts (blksize_ o) (timeout_ o) (tsize_ o) (true, val)
  else o.

(** ** [buffer_parse] *)

(** The four blocks return [ret], the options and [curr_pos]. *)
Definition parse_request_type (buf : SmBuf) (buf_size : Z)
    : outcome (bool * Options * Z) :=
  let o := Options_default in
  if 2 <=? buf_size then
    rq_type ← get_be int16_t buf 0;
    if rq_type =? SrvReq_val SrvReq.read then Ok (true, set_request o SrvReq.read, 2)
    else if rq_type =? SrvReq_val SrvReq.write
    then Ok (true, set_request o SrvReq.write, 2)
    else Ok (false, o, 0)
  else Ok (false, o, 0).

Definition parse_filename (buf : SmBuf) (buf_size : Z) (o : Options) (curr_pos : Z)
    : outcome (bool * Options * Z) :=
  f ← get_string buf curr_pos (u64 (buf_size - curr_pos));
  let o := set_filename o f in
  if 0 <? size f then Ok (true, o, curr_pos + size f + 1)
  else Ok (false, o, curr_pos).

Definition mode_of_string (curr_mod : bytes) : TransfMode.t :=
  if bool_decide (curr_mod = str "netascii") then TransfMode.netascii
  else if bool_decide (curr_mod = str "octet") then TransfMode.octet
  else if bool_decide (curr_mod = str "binary") then TransfMode.binary
  else if bool_decide (curr_mod = str "mail") then TransfMode.mail
  else TransfMode.unknown.

Definition parse_mode (buf : SmBuf) (buf_size : Z) (o : Options) (curr_pos : Z)
    : outcome (bool * Options * Z) :=
  curr_mod ← get_string buf curr_pos (u64 (buf_size - curr_pos));
  if 0 <? size curr_mod then
    let curr_mod := do_lower curr_mod in
    Ok (true, set_mode o (mode_of_string curr_mod), curr_pos + size curr_mod + 1)
  else Ok (false, o, curr_pos).

(** A pair of texts: digits set the option, other values are skipped. *)
Definition parse_value (o : Options) (str_opt str_val : bytes) : outcome Options :=
  if is_digit_str str_val then
    val ← stoi str_val 10;
    Ok (set_option o str_opt val)
  else Ok o.

(** A call in the body of a loop that runs on fuel: what leaves the call leaves the loop. *)
Definition in_loop_body {A B} (x : outcome A) (k : A → option (outcome B))
    : option (outcome B) :=
  match x with
  | Ok a => k a
  | Throw e => Some (Throw e)
  | Undef => Some Undef
  end.

(** The loop over the options; [None] when the fuel is used up. *)
Fixpoint parse_opts (fuel : nat) (buf : SmBuf) (buf_size : Z) (o : Options)
    (curr_pos : Z) : option (outcome Options) :=
  match fuel with
  | O => None
  | S fuel =>
      if curr_pos <? buf_size then
        in_loop_body (get_string buf curr_pos (u64 (buf_size - curr_pos))) (λ str_opt,
        let str_opt := do_lower str_opt in
        let curr_pos := curr_pos + size str_opt + 1 in
        if buf_size <=? curr_pos then Some (Ok o)
        else
          in_loop_body (get_string buf curr_pos (u64 (buf_size - curr_pos))) (λ str_val,
          let curr_pos := curr_pos + size str_val + 1 in
          in_loop_body (parse_value o str_opt str_val) (λ o,
          parse_opts fuel buf buf_size o curr_pos)))
      else Some (Ok o)
  end.

Definition buffer_parse (buf : SmBuf) (buf_size : Z) : outcome (bool * Options) :=
  '(ret, o, curr_pos) ← parse_request_type buf buf_size;
  if negb ret then Ok (false, o) else
  '(ret, o, curr_pos) ← parse_filename buf buf_size o curr_pos;
  if negb ret then Ok (false, o) else
  '(ret, o, curr_pos) ← parse_mode buf buf_size o curr_pos;
  if negb ret then Ok (false, o) else
  o ← default Undef (parse_opts (S (Z.to_nat buf_size)) buf buf_size o curr_pos);
  Ok (true, o).

(** ** The request format

    A read or write request on the wire (RFC 1350 and RFC 2347): opcode, file
    name, mode, then pairs of option name and value, each text zero ended. *)
Record request := {
  rq_type : SrvReq.t;
  rq_filename : bytes;
  rq_mode : bytes;
  rq_opts : list (bytes * bytes)
}.

Definition zstr (s : bytes) : bytes := s ++ [x00].

Definition encode_opts (opts : list (bytes * bytes)) : bytes :=
  concat (map (λ '(n, v), zstr n ++ zstr v) opts).

Definition encode_request (rq : request) : bytes :=
  be_split 2 (SrvReq_val (rq_type rq)) ++ zstr (rq_filename rq)
    ++ zstr (rq_mode rq) ++ encode_opts (rq_opts rq).

Definition text_ok (s : bytes) : Prop := s ≠ [] ∧ no_zero s.

Definition request_ok (rq : request) : Prop :=
  rq_type rq ≠ SrvReq.unknown ∧ text_ok (rq_filename rq) ∧ text_ok (rq_mode rq) ∧
  Forall (λ nv : bytes * bytes, no_zero nv.1 ∧ no_zero nv.2) (rq_opts rq).

(** What a request asks for: options in order, the last one of a name wins. *)
Fixpoint apply_opts (o : Options) (opts : list (bytes * bytes)) : outcome Options :=
  match opts with
  | [] => Ok o
  | (n, v) :: opts => o ← parse_value o (do_lower n) v; apply_opts o opts
  end.

Definition request_base (rq : request) : Options :=
  set_mode (set_filename (set_request Options_default (rq_type rq)) (rq_filename rq))
    (mode_of_string (do_lower (rq_mode rq))).

(** ** Lemmas *)

Lemma size_zstr s : size (zstr s) = size s + 1.
Proof. unfold zstr. by rewrite size_app. Qed.

Lemma size_do_lower s : size (do_lower s) = size s.
Proof. unfold size. by rewrite do_lower_length. Qed.

Lemma text_ok_size s : text_ok s → 0 < size s.
Proof. intros [? _]. destruct s; [done|]. unfold size. simpl. lia. Qed.

(** [text_at buf n pos s]: the packet, the first [n] octets of [buf], has the
    zero-ended text [s] at [pos]. *)
Definition text_at (buf : SmBuf) (n pos : Z) (s : bytes) : Prop :=
  ∃ pre rest, buf = pre ++ zstr s ++ rest ∧ pos = size pre ∧
              pos + size s + 1 ≤ n ≤ size buf.

Lemma get_string_text buf n pos s :
  buf_ok buf → no_zero s → text_at buf n pos s →
  get_string buf pos (u64 (n - pos)) = Ok s.
Proof.
  intros Hb Hs (pre & rest & -> & -> & Hn). pose proof Hb as Hb'.
  unfold buf_ok in Hb'. pose proof (size_nonneg pre). pose proof (size_nonneg s).
  rewrite wrap_small by lia. rewrite get_string_in_bounds by (auto; lia).
  f_equal. unfold slice, size in *. rewrite Nat2Z.id, drop_app_length.
  unfold zstr. replace (Z.to_nat _)
    with (length (s ++ [x00]) + (Z.to_nat n - length pre - length s - 1))%nat
    by (rewrite length_app; simpl; lia).
  rewrite take_app_add, <-app_assoc. by apply until_zero_app_zero.
Qed.

Lemma parse_request_type_at t rest n :
  t ≠ SrvReq.unknown → buf_ok (be_split 2 (SrvReq_val t) ++ rest) → 2 ≤ n →
  parse_request_type (be_split 2 (SrvReq_val t) ++ rest) n
  = Ok (true, set_request Options_default t, 2).
Proof.
  intros Ht Hb Hn. unfold parse_request_type.
  set (h := be_split 2 (SrvReq_val t)) in *. pose proof (size_nonneg rest).
  assert (Hh : size h = 2) by apply size_be_split.
  rewrite (proj2 (Z.leb_le _ _)) by lia.
  rewrite get_be_valid; [|done|right; left; done|lia|rewrite size_app; simpl; lia].
  pose proof (slice_app_at [] h rest) as Hsl. rewrite Hh in Hsl.
  change (Z.of_nat (sizeof int16_t)) with 2.
  change (slice (h ++ rest) 0 2 = h) in Hsl. rewrite Hsl.
  cbn [mbind outcome_bind]. unfold h. rewrite be_combine_split. by destruct t.
Qed.

Lemma parse_filename_at buf n pos s o :
  buf_ok buf → text_ok s → text_at buf n pos s →
  parse_filename buf n o pos = Ok (true, set_filename o s, pos + size s + 1).
Proof.
  intros Hb Hs Hat. unfold parse_filename. pose proof (text_ok_size _ Hs).
  rewrite (get_string_text _ _ _ s) by (auto; apply Hs). cbn [mbind outcome_bind].
  by rewrite (proj2 (Z.ltb_lt _ _)) by lia.
Qed.

Lemma parse_mode_at buf n pos s o :
  buf_ok buf → text_ok s → text_at buf n pos s →
  parse_mode buf n o pos
  = Ok (true, set_mode o (mode_of_string (do_lower s)), pos + size s + 1).
Proof.
  intros Hb Hs Hat. unfold parse_mode. pose proof (text_ok_size _ Hs).
  rewrite (get_string_text _ _ _ s) by (auto; apply Hs). cbn [mbind outcome_bind].
  rewrite (proj2 (Z.ltb_lt _ _)) by lia. by rewrite size_do_lower.
Qed.

Lemma encode_opts_cons n v opts :
  encode_opts ((n, v) :: opts) = zstr n ++ zstr v ++ encode_opts opts.
Proof. unfold encode_opts. simpl. by rewrite <-app_assoc. Qed.

Lemma parse_opts_at opts buf n pos pre tail o fuel :
  buf_ok buf → buf = pre ++ encode_opts opts ++ tail → pos = size pre →
  n = size pre + size (encode_opts opts) →
  Forall (λ nv : bytes * bytes, no_zero nv.1 ∧ no_zero nv.2) opts →
  (length opts < fuel)%nat →
  parse_opts fuel buf n o pos = Some (apply_opts o opts).
Proof.
  revert pos pre o fuel.
  induction opts as [|[k v] opts IH]; intros pos pre o fuel Hb -> -> Hn Ho Hf;
    (destruct fuel as [|fuel]; [simpl in Hf; lia|]); cbn [parse_opts apply_opts].
  - rewrite (proj2 (Z.ltb_ge _ _)); [done|]. change (size (encode_opts [])) with 0 in Hn.
    lia.
  - apply Forall_cons_iff in Ho as [[Hk Hv] Ho]. simpl in Hk, Hv.
    rewrite encode_opts_cons in *. rewrite <-!app_assoc in *.
    rewrite !size_app, !size_zstr in Hn.
    pose proof (size_nonneg k). pose proof (size_nonneg v).
    pose proof (size_nonneg (encode_opts opts)). pose proof (size_nonneg tail).
    set (b := pre ++ zstr k ++ zstr v ++ encode_opts opts ++ tail) in *.
    assert (Hsb : n ≤ size b) by (unfold b; rewrite !size_app, !size_zstr; lia).
    rewrite (proj2 (Z.ltb_lt _ _)) by lia.
    rewrite (get_string_text _ _ _ k); [|done|done|].
    2: { exists pre, (zstr v ++ encode_opts opts ++ tail). split_and!; [done|done|lia|done]. }
    cbn [in_loop_body mbind outcome_bind]. rewrite size_do_lower.
    rewrite (proj2 (Z.leb_gt _ _)) by lia.
    assert (Hpk : size pre + size k + 1 = size (pre ++ zstr k))
      by (rewrite size_app, size_zstr; lia).
    rewrite (get_string_text _ _ _ v); [|done|done|].
    2: { exists (pre ++ zstr k), (encode_opts opts ++ tail).
         split_and!; [by unfold b; rewrite <-!app_assoc|done|lia|done]. }
    cbn [in_loop_body].
    destruct (parse_value o (do_lower k) v) as [o'| |]; cbn [in_loop_body mbind outcome_bind];
      [|done..].
    apply (IH _ (pre ++ zstr k ++ zstr v)); auto.
    + unfold b. by rewrite <-!app_assoc.
    + rewrite !size_app, !size_zstr. lia.
    + rewrite !size_app, !size_zstr. lia.
    + simpl in Hf. lia.
Qed.

Lemma encode_opts_length opts : (length opts ≤ length (encode_opts opts))%nat.
Proof.
  induction opts as [|[n v] opts IH]; [done|].
  change (encode_opts ((n, v) :: opts)) with ((zstr n ++ zstr v) ++ encode_opts opts).
  unfold zstr. rewrite !length_app. simpl. lia.
Qed.

(** The loop ends: once the fuel exceeds the octets left there is a result, and more
    fuel does not change it. *)
Lemma parse_opts_fuel f1 f2 buf buf_size o pos :
  (Z.to_nat (buf_size - pos) < f1)%nat → (Z.to_nat (buf_size - pos) < f2)%nat →
  ∃ r, parse_opts f1 buf buf_size o pos = Some r ∧ parse_opts f2 buf buf_size o pos = Some r.
Proof.
  revert f2 o pos. induction f1 as [|f1 IH]; intros f2 o pos H1 H2; [lia|].
  destruct f2 as [|f2]; [lia|]. cbn [parse_opts].
  destruct (pos <? buf_size) eqn:E; [|eauto]. reflect_bools.
  destruct (get_string buf pos _) as [s| |]; cbn [in_loop_body]; [|eauto..].
  destruct (_ <=? _); [eauto|].
  destruct (get_string buf _ _) as [v| |]; cbn [in_loop_body]; [|eauto..].
  destruct (parse_value _ _ _) as [o'| |]; cbn [in_loop_body]; [|eauto..].
  pose proof (size_nonneg (do_lower s)). pose proof (size_nonneg v).
  apply IH; lia.
Qed.

(** The options of a parsed request: values are what [std::stoi] accepts and
    the defaults are in range too. *)
Definition opts_wf (o : Options) : Prop :=
  0 ≤ blksize o ≤ INT_MAX ∧ 0 ≤ timeout o ≤ INT_MAX ∧
  0 ≤ tsize o ≤ INT_MAX ∧ 0 ≤ windowsize o ≤ INT_MAX.

Lemma Options_default_wf : opts_wf Options_default.
Proof. unfold opts_wf, INT_MAX. simpl. repeat split; (done || lia). Qed.

Lemma set_option_wf o n v : opts_wf o → 0 ≤ v ≤ INT_MAX → opts_wf (set_option o n v).
Proof.
  unfold opts_wf, set_option. intros ??.
  repeat case_bool_decide; simpl; unfold blksize, timeout, tsize, windowsize in *;
    simpl in *; tauto.
Qed.

Lemma parse_value_wf o n v o' :
  opts_wf o → parse_value o n v = Ok o' →
  opts_wf o' ∧ request_type_ o' = request_type_ o ∧ filename_ o' = filename_ o ∧
  transfer_mode_ o' = transfer_mode_ o.
Proof.
  unfold parse_value. intros Ho H. destruct (is_digit_str v) eqn:E; inv_ok; [|auto].
  rewrite stoi_digit_str in H0 by done. inv_ok. reflect_bools.
  assert (0 ≤ digits_val 10 0 v) by (by apply digits_val_nonneg).
  split; [by apply set_option_wf|]. unfold set_option.
  repeat case_bool_decide; done.
Qed.

Lemma parse_opts_wf fuel buf buf_size o pos o' :
  opts_wf o → parse_opts fuel buf buf_size o pos = Some (Ok o') →
  opts_wf o' ∧ request_type_ o' = request_type_ o ∧ filename_ o' = filename_ o ∧
  transfer_mode_ o' = transfer_mode_ o.
Proof.
  revert o pos. induction fuel as [|fuel IH]; intros o pos Ho H; [done|].
  cbn [parse_opts] in H. destruct (pos <? buf_size); [|by simplify_eq].
  destruct (get_string buf pos _) as [k| |]; cbn [in_loop_body] in H; [|done..].
  destruct (_ <=? _); [by simplify_eq|].
  destruct (get_string buf _ _) as [v| |]; cbn [in_loop_body] in H; [|done..].
  destruct (parse_value _ _ _) as [o1| |] eqn:Hv; cbn [in_loop_body] in H; [|done..].
  apply parse_value_wf in Hv as (?&?&?&?); [|done].
  apply IH in H as (?&?&?&?); [|done]. split_and!; congruence.
Qed.

Lemma parse_opts_some fuel buf buf_size o pos o' :
  default Undef (parse_opts fuel buf buf_size o pos) = Ok o' →
  parse_opts fuel buf buf_size o pos = Some (Ok o').
Proof. destruct (parse_opts _ _ _ _ _); cbn; [by intros ->|done]. Qed.

(** In a buffer that is exactly the packet, a text is read or rejected. *)
Lemma get_string_exact b pos :
  buf_ok b → 0 ≤ pos →
  get_string b pos (u64 (size b - pos)) = Throw invalid_argument ∨
  ∃ s, get_string b pos (u64 (size b - pos)) = Ok s.
Proof.
  intros Hb Hp. pose proof Hb as Hb'. unfold buf_ok in Hb'.
  destruct (decide (pos < size b)).
  - right. rewrite wrap_small by lia. eexists. apply get_string_in_bounds; auto; lia.
  - left. unfold get_string, check_offset, is_valid.
    by rewrite (proj2 (Z.ltb_ge pos (size b))) by lia.
Qed.

Lemma parse_value_safe o n v :
  parse_value o n v = Throw out_of_range ∨ ∃ o', parse_value o n v = Ok o'.
Proof.
  unfold parse_value. destruct (is_digit_str v) eqn:E; [|eauto].
  rewrite stoi_digit_str by done. destruct (_ <=? _); simpl; eauto.
Qed.

Lemma parse_opts_exact fuel b o pos :
  buf_ok b → 0 ≤ pos → (Z.to_nat (size b - pos) < fuel)%nat →
  ∃ r, parse_opts fuel b (size b) o pos = Some r ∧ r ≠ Undef.
Proof.
  intros Hb. revert o pos.
  induction fuel as [|fuel IH]; intros o pos Hp Hf; [lia|]. cbn [parse_opts].
  destruct (pos <? size b) eqn:E; [|by eexists]. reflect_bools.
  destruct (get_string_exact b pos Hb Hp) as [->|[s ->]]; [by eexists|].
  cbn [in_loop_body]. pose proof (size_nonneg (do_lower s)).
  set (p := pos + size (do_lower s) + 1) in *. destruct (size b <=? p); [by eexists|].
  destruct (get_string_exact b p Hb ltac:(lia)) as [->|[v ->]]; [by eexists|].
  cbn [in_loop_body]. pose proof (size_nonneg v).
  destruct (parse_value_safe o (do_lower s) v) as [->|[o' ->]]; [by eexists|].
  cbn [in_loop_body]. apply IH; lia.
Qed.

(** An option value that does not fit an [int] stops the whole parse. *)
Definition value_overflows (nv : bytes * bytes) : Prop :=
  is_digit_str nv.2 = true ∧ INT_MAX < digits_val 10 0 nv.2.

Lemma apply_opts_overflow o opts :
  Exists value_overflows opts → apply_opts o opts = Throw out_of_range.
Proof.
  intros H. revert o. induction H as [[n v] opts [Hd Hv]|[n v] opts H IH]; intros o;
    cbn [apply_opts].
  - unfold parse_value. simpl in Hd, Hv. rewrite Hd, stoi_digit_str by done.
    by rewrite (proj2 (Z.leb_gt _ _)) by lia.
  - destruct (parse_value_safe o (do_lower n) v) as [->|[o' ->]]; [done|]. apply IH.
Qed.

(** Options do not change the request. *)
Lemma apply_opts_request opts o o' :
  apply_opts o opts = Ok o' → request_type o' = request_type o ∧ filename o' = filename o.
Proof.
  revert o. induction opts as [|[n v] opts IH]; intros o E; cbn [apply_opts] in E;
    [by simplify_eq|].
  apply bind_Ok in E as (o1 & E1 & E). apply IH in E as [-> ->]. unfold parse_value in E1.
  destruct (is_digit_str v); [|by simplify_eq]. apply bind_Ok in E1 as (n' & _ & E1).
  simplify_eq. unfold set_option. by repeat case_bool_decide.
Qed.

(** The parser on an encoded request, whatever follows it in the buffer. *)
Lemma buffer_parse_encoded rq tail :
  request_ok rq → buf_ok (encode_request rq ++ tail) →
  buffer_parse (encode_request rq ++ tail) (size (encode_request rq))
  = (o ← apply_opts (request_base rq) (rq_opts rq); Ok (true, o)).
Proof.
  intros (Ht & Hf & Hm & Ho) Hb. unfold buffer_parse, request_base.
  set (h := be_split 2 (SrvReq_val (rq_type rq))).
  assert (Hh : size h = 2) by apply size_be_split.
  pose proof (encode_opts_length (rq_opts rq)).
  pose proof (size_nonneg (rq_filename rq)). pose proof (size_nonneg (rq_mode rq)).
  pose proof (size_nonneg (encode_opts (rq_opts rq))). pose proof (size_nonneg tail).
  set (n := size (encode_request rq)).
  assert (Hn : n = 2 + (size (rq_filename rq) + 1) + (size (rq_mode rq) + 1)
                   + size (encode_opts (rq_opts rq))).
  { unfold n, encode_request. fold h. rewrite !size_app, !size_zstr. lia. }
  assert (Hbuf : encode_request rq ++ tail = h ++ zstr (rq_filename rq)
    ++ zstr (rq_mode rq) ++ encode_opts (rq_opts rq) ++ tail)
    by (unfold encode_request; by rewrite <-!app_assoc).
  assert (Hsz : size (encode_request rq ++ tail) = n + size tail) by apply size_app.
  rewrite Hbuf in *. set (b := h ++ _) in *.
  assert (parse_request_type b n = Ok (true, set_request Options_default (rq_type rq), 2))
    as -> by (apply parse_request_type_at; auto; lia).
  cbn [mbind outcome_bind negb].
  rewrite (parse_filename_at _ _ _ (rq_filename rq)); [|done|done|].
  2: { eexists h, _. split_and!; [done|done|lia|lia]. }
  cbn [mbind outcome_bind negb].
  rewrite (parse_mode_at _ _ _ (rq_mode rq)); [|done|done|].
  2: { eexists (h ++ zstr (rq_filename rq)), _.
       split_and!; [by unfold b; rewrite <-app_assoc| |lia|lia].
       rewrite size_app, size_zstr. lia. }
  cbn [mbind outcome_bind negb].
  rewrite (parse_opts_at (rq_opts rq) _ _ _
    (h ++ zstr (rq_filename rq) ++ zstr (rq_mode rq)) tail); [done|done| | | |done|].
  - unfold b. by rewrite <-!app_assoc.
  - rewrite !size_app, !size_zstr. lia.
  - rewrite !size_app, !size_zstr. lia.
  - unfold size in Hn. lia.
Qed.

(** What a parse leaves in the options. *)
Lemma buffer_parse_sound buf buf_size ret o :
  buffer_parse buf buf_size = Ok (ret, o) →
  opts_wf o ∧
  (ret = true → request_type o ≠ SrvReq.unknown ∧ text_ok (filename o)).
Proof.
  unfold buffer_parse. intros H. pose proof Options_default_wf.
  apply bind_Ok in H as ([[r1 o1] p1] & H1 & H).
  assert (opts_wf o1 ∧ (r1 = true → request_type_ o1 ≠ SrvReq.unknown)) as [Hw1 Ht1].
  { unfold parse_request_type in H1. inv_ok; simplify_eq; by split. }
  destruct r1; [|simpl in H; inv_ok; by simplify_eq]. cbn [negb] in H.
  apply bind_Ok in H as ([[r2 o2] p2] & H2 & H). unfold parse_filename in H2.
  apply bind_Ok in H2 as (f & Hf & H2).
  assert (Hw2 : opts_wf (set_filename o1 f)) by exact Hw1.
  destruct (0 <? size f) eqn:E; simplify_eq/=; [|inv_ok; by simplify_eq].
  assert (Hok : text_ok f).
  { reflect_bools. split; [intros ->; by apply Z.lt_irrefl in E|].
    unfold get_string in Hf. inv_ok; apply until_zero_no_zero. }
  apply bind_Ok in H as ([[r3 o3] p3] & H3 & H). unfold parse_mode in H3.
  apply bind_Ok in H3 as (m & _ & H3).
  destruct (0 <? size m); simplify_eq/=; [|inv_ok; by simplify_eq].
  apply bind_Ok in H as (o4 & H4 & H). simplify_eq/=.
  apply (parse_opts_some (S (Z.to_nat buf_size))) in H4.
  apply parse_opts_wf in H4 as (? & Ht & Hn & _); [|exact Hw1].
  split; [done|]. intros _. unfold request_type, filename. rewrite Ht, Hn.
  split; [by apply Ht1|done].
Qed.

(** ** Properties *)

(** C18. Round trip: on a well-formed request followed by any octets of an older
    packet, the parser returns exactly what the request encodes; an option
    value that [std::stoi] rejects makes it throw. *)
Theorem buffer_parse_encode rq tail :
  request_ok rq → buf_ok (encode_request rq ++ tail) →
  buffer_parse (encode_request rq ++ tail) (size (encode_request rq))
  = (o ← apply_opts (request_base rq) (rq_opts rq); Ok (true, o)).
Proof. apply buffer_parse_encoded. Qed.

Definition sample_rq : request := {|
  rq_type := SrvReq.read; rq_filename := str "fw.bin"; rq_mode := str "OCTET";
  rq_opts := [(str "BlkSize", str "1024"); (str "tsize", str "0")]
|}.

Lemma sample_rq_ok : request_ok sample_rq.
Proof.
  split_and!; [discriminate|split; [discriminate|by_decide]|
    split; [discriminate|by_decide]|].
  repeat constructor; by_decide.
Qed.

Lemma buffer_parse_encode_witness :
  buffer_parse (encode_request sample_rq ++ replicate 20 xff)
    (size (encode_request sample_rq))
  = Ok (true,
      {| request_type_ := SrvReq.read; filename_ := str "fw.bin";
         transfer_mode_ := TransfMode.octet; blksize_ := (true, 1024);
         timeout_ := (false, 10); tsize_ := (true, 0); windowsize_ := (false, 1) |}).
Proof.
  rewrite (buffer_parse_encode sample_rq (replicate 20 xff));
    [vm_compute; reflexivity|apply sample_rq_ok|vm_compute; reflexivity].
Defined.

(** C32. A parsed request has option values in [0 .. INT_MAX]; an accepted one names
    a known request type and a non-empty file name without zero octets. *)
Theorem buffer_parse_wf buf buf_size ret o :
  buffer_parse buf buf_size = Ok (ret, o) →
  opts_wf o ∧
  (ret = true → request_type o ≠ SrvReq.unknown ∧ text_ok (filename o)).
Proof. apply buffer_parse_sound. Qed.

Lemma buffer_parse_wf_witness : opts_wf (request_base sample_rq).
Proof.
  refine (proj1 (buffer_parse_wf ([x00; x01] ++ zstr (str "fw.bin") ++ zstr (str "octet"))
    15 true (request_base sample_rq) _)).
  vm_compute. reflexivity.
Defined.

(** C33. The loop over the options ends, for any packet: it has a result within as many
    iterations as the packet has octets, plus one, which is the fuel [buffer_parse] gives
    it, and more iterations do not change it. *)
Theorem parse_opts_terminates buf buf_size o pos :
  0 ≤ pos →
  ∃ r, ∀ extra, parse_opts (S (Z.to_nat buf_size) + extra) buf buf_size o pos = Some r.
Proof.
  intros Hp. destruct (parse_opts_fuel (S (Z.to_nat buf_size)) (S (Z.to_nat buf_size))
    buf buf_size o pos ltac:(lia) ltac:(lia)) as (r & E & _).
  exists r. intros extra.
  destruct (parse_opts_fuel (S (Z.to_nat buf_size) + extra) (S (Z.to_nat buf_size))
    buf buf_size o pos ltac:(lia) ltac:(lia)) as (r' & E1 & E2). congruence.
Qed.

Definition two_opts : bytes := zstr (str "tsize") ++ zstr (str "1") ++ zstr (str "a") ++ zstr (str "b").

Lemma parse_opts_terminates_witness :
  parse_opts (S (Z.to_nat (size two_opts)) + 7) two_opts (size two_opts) Options_default 0
  = Some (Ok (set_option Options_default name_tsize 1)).
Proof.
  destruct (parse_opts_terminates two_opts (size two_opts) Options_default 0 ltac:(lia)) as [r Hr].
  rewrite (Hr 7%nat), <-(Hr 0%nat). vm_compute. reflexivity.
Defined.

(** A packet that fills its buffer is parsed without undefined behaviour, even
    when texts are missing or not terminated. *)
Theorem buffer_parse_exact b :
  buf_ok b → buffer_parse b (size b) ≠ Undef.
Proof.
  intros Hb. unfold buffer_parse, parse_request_type.
  destruct (2 <=? size b) eqn:E; [|done]. reflect_bools.
  rewrite get_be_valid; [|done|right; left; done|lia|simpl; lia].
  cbn [mbind outcome_bind].
  assert (Hrest : ∀ t, ('(ret, o, curr_pos) ←
      parse_filename b (size b) (set_request Options_default t) 2;
    if negb ret then Ok (false, o) else
    '(ret, o, curr_pos) ← parse_mode b (size b) o curr_pos;
    if negb ret then Ok (false, o) else
    o ← default Undef (parse_opts (S (Z.to_nat (size b))) b (size b) o curr_pos);
    Ok (true, o)) ≠ Undef).
  { intros t. unfold parse_filename.
    destruct (get_string_exact b 2 Hb ltac:(lia)) as [->|[f ->]]; [done|].
    cbn [mbind outcome_bind]. destruct (0 <? size f) eqn:Ef; [|done].
    cbn [mbind outcome_bind negb]. reflect_bools. unfold parse_mode.
    destruct (get_string_exact b (2 + size f + 1) Hb ltac:(lia)) as [->|[m ->]];
      [done|].
    cbn [mbind outcome_bind]. destruct (0 <? size m) eqn:Em; [|done].
    cbn [mbind outcome_bind negb]. reflect_bools. rewrite size_do_lower.
    destruct (parse_opts_exact (S (Z.to_nat (size b))) b
      (set_mode (set_filename (set_request Options_default t) f)
         (mode_of_string (do_lower m))) (2 + size f + 1 + size m + 1) Hb
      ltac:(lia) ltac:(lia)) as (r & -> & Hr). cbn. by destruct r. }
  destruct (_ =? _); [apply Hrest|]. destruct (_ =? _); [apply Hrest|done].
Qed.

Lemma buffer_parse_exact_witness :
  buffer_parse [x00; x01; x61; x62] (size [x00; x01; x61; x62]) ≠ Undef.
Proof. apply (buffer_parse_exact [x00; x01; x61; x62]). vm_compute. reflexivity. Defined.

(** A request with an option value beyond [INT_MAX] makes the parser leave with
    [std::out_of_range], which neither it nor its callers catch. *)
Theorem buffer_parse_overflow rq tail :
  request_ok rq → buf_ok (encode_request rq ++ tail) →
  Exists value_overflows (rq_opts rq) →
  buffer_parse (encode_request rq ++ tail) (size (encode_request rq))
  = Throw out_of_range.
Proof.
  intros Hrq Hb Hv. rewrite buffer_parse_encoded by done.
  by rewrite apply_opts_overflow.
Qed.

Lemma buffer_parse_overflow_witness :
  buffer_parse (encode_request
    {| rq_type := SrvReq.read; rq_filename := str "f"; rq_mode := str "octet";
       rq_opts := [(str "tsize", str "2147483648")] |} ++ [])
    (size (encode_request
    {| rq_type := SrvReq.read; rq_filename := str "f"; rq_mode := str "octet";
       rq_opts := [(str "tsize", str "2147483648")] |})) = Throw out_of_range.
Proof.
  apply buffer_parse_overflow; simpl.
  - split_and!; [discriminate|split; [discriminate|by_decide]|
      split; [discriminate|by_decide]|].
    repeat constructor; by_decide.
  - vm_compute. reflexivity.
  - apply Exists_cons_hd. split; vm_compute; reflexivity.
Defined.

(** A file name that runs to the end of the packet without a zero octet, in a
    buffer longer than the packet: the position of the transfer mode passes the
    end of the packet, the remaining length wraps around [size_t], and the
    parser has undefined behaviour. *)
Theorem buffer_parse_unterminated t f tail :
  t ≠ SrvReq.unknown → text_ok f → 2 ≤ size tail →
  buf_ok (be_split 2 (SrvReq_val t) ++ f ++ tail) →
  buffer_parse (be_split 2 (SrvReq_val t) ++ f ++ tail) (2 + size f) = Undef.
Proof.
  intros Ht Hf Htail Hb. set (h := be_split 2 (SrvReq_val t)) in *.
  assert (Hh : size h = 2) by apply size_be_split. set (b := h ++ f ++ tail) in *.
  pose proof (text_ok_size _ Hf). destruct Hf as [_ Hf].
  assert (Hsz : size b = 2 + size f + size tail)
    by (unfold b; rewrite !size_app; lia).
  pose proof Hb as Hb'. unfold buf_ok in Hb'. unfold buffer_parse.
  assert (parse_request_type b (2 + size f)
    = Ok (true, set_request Options_default t, 2)) as ->
    by (apply parse_request_type_at; auto; lia).
  cbn [mbind outcome_bind negb]. unfold parse_filename.
  rewrite wrap_small, get_string_in_bounds by (auto; lia).
  assert (slice b 2 (2 + size f - 2) = f) as ->.
  { replace (2 + size f - 2) with (size f) by lia. rewrite <-Hh. apply slice_app_at. }
  rewrite until_zero_id by done.
  cbn [mbind outcome_bind]. rewrite (proj2 (Z.ltb_lt _ _)) by lia.
  cbn [mbind outcome_bind negb]. unfold parse_mode.
  assert (u64 (2 + size f - (2 + size f + 1)) = 2 ^ 64 - 1) as ->.
  { replace (2 + size f - (2 + size f + 1)) with (-1) by lia. done. }
  by rewrite get_string_wraps by (auto; lia).
Qed.

Lemma buffer_parse_unterminated_witness :
  buffer_parse (be_split 2 (SrvReq_val SrvReq.read) ++ str "firmware" ++ [x00; x00])
    (2 + size (str "firmware")) = Undef.
Proof.
  apply (buffer_parse_unterminated SrvReq.read (str "firmware") [x00; x00]);
    [discriminate|split; [discriminate|by_decide]|vm_compute; discriminate|
     vm_compute; reflexivity].
Defined.

(** A request that ends after its file name, in a buffer longer than the packet:
    the transfer mode is read from the octets an older packet left there, and
    the request is accepted with it. *)
Theorem buffer_parse_stale_mode t f m tail :
  t ≠ SrvReq.unknown → text_ok f → text_ok m →
  buf_ok (be_split 2 (SrvReq_val t) ++ zstr f ++ zstr m ++ tail) →
  buffer_parse (be_split 2 (SrvReq_val t) ++ zstr f ++ zstr m ++ tail)
    (2 + size (zstr f))
  = Ok (true, set_mode (set_filename (set_request Options_default t) f)
                (mode_of_string (do_lower m))).
Proof.
  intros Ht Hf Hm Hb. set (h := be_split 2 (SrvReq_val t)) in *.
  assert (Hh : size h = 2) by apply size_be_split.
  set (b := h ++ zstr f ++ zstr m ++ tail) in *. rewrite size_zstr.
  pose proof (text_ok_size _ Hf). pose proof (text_ok_size _ Hm).
  pose proof (size_nonneg tail).
  assert (Hsz : size b = 2 + (size f + 1) + (size m + 1) + size tail)
    by (unfold b; rewrite !size_app, !size_zstr; lia).
  pose proof Hb as Hb'. unfold buf_ok in Hb'. unfold buffer_parse.
  assert (parse_request_type b (2 + (size f + 1))
    = Ok (true, set_request Options_default t, 2)) as ->
    by (apply parse_request_type_at; auto; lia).
  cbn [mbind outcome_bind negb].
  rewrite (parse_filename_at _ _ _ f); [|done|done|].
  2: { eexists h, _. split_and!; [done|done|lia|lia]. }
  cbn [mbind outcome_bind negb]. unfold parse_mode.
  replace (2 + (size f + 1) - (2 + size f + 1)) with 0 by lia.
  change (u64 0) with 0. rewrite get_string_to_end by (auto; lia).
  assert (Hsl : slice b (2 + size f + 1) (size b - (2 + size f + 1))
                = m ++ x00 :: tail).
  { unfold slice. rewrite take_ge by (rewrite length_drop; unfold size; lia).
    replace (Z.to_nat (2 + size f + 1)) with (length (h ++ zstr f)).
    2: { pose proof (size_app h (zstr f)) as E. rewrite size_zstr in E.
         unfold size in *. lia. }
    unfold b. rewrite app_assoc, drop_app_length. unfold zstr. by rewrite <-app_assoc. }
  rewrite Hsl, until_zero_app_zero by apply Hm. cbn [mbind outcome_bind].
  rewrite (proj2 (Z.ltb_lt _ _)) by lia. cbn [mbind outcome_bind negb parse_opts].
  rewrite size_do_lower. by rewrite (proj2 (Z.ltb_ge _ _)) by lia.
Qed.

Lemma buffer_parse_stale_mode_witness :
  buffer_parse (be_split 2 (SrvReq_val SrvReq.write) ++ zstr (str "fw.bin")
                  ++ zstr (str "netascii") ++ []) (2 + size (zstr (str "fw.bin")))
  = Ok (true, set_mode (set_filename (set_request Options_default SrvReq.write)
                (str "fw.bin")) TransfMode.netascii).
Proof.
  apply (buffer_parse_stale_mode SrvReq.write (str "fw.bin") (str "netascii") []);
    [discriminate|split; [discriminate|by_decide]|split; [discriminate|by_decide]|
     vm_compute; reflexivity].
Defined.
