(* ===== verification/Regex.v ===== *)
(** * Regex: [std::regex_search] on the patterns of the program

    The fragment of the ECMAScript grammar the program's patterns use: single
    characters and classes, greedy counted repetition of a class, sequence,
    ordered alternatives, capture groups and the anchors. The matcher is the
    backtracking search the standard prescribes for that grammar: alternatives
    in order, repetitions longest first, the leftmost start wins. *)

From Stdlib Require Import Strings.Byte.
From S2P Require Import Prelude Common.

Inductive re :=
  | Chr (p : byte → bool)
  | Rep (p : byte → bool) (lo : nat) (hi : option nat)
  | Seq (a b : re)
  | Alt (a b : re)
  | Grp (n : nat) (a : re)
  | Bol
  | Eol.

(** Capture groups: the start and end offsets of the ones that matched. *)
Abbreviation caps := (gmap nat (nat * nat)).

(** Length of the longest run of [p] at the head, at most [hi]. *)
Fixpoint run_len (p : byte → bool) (l : bytes) (hi : option nat) : nat :=
  match l, hi with
  | _, Some O => O
  | c :: l, Some (S h) => if p c then S (run_len p l (Some h)) else O
  | c :: l, None => if p c then S (run_len p l None) else O
  | [], _ => O
  end.

(** [k n], [k (n-1)], ..., [k lo]: the first that succeeds. *)
Fixpoint try_down {R} (n lo : nat) (k : nat → option R) : option R :=
  if (n <? lo)%nat then None
  else match k n with
       | Some r => Some r
       | None => match n with O => None | S n => try_down n lo k end
       end.

Fixpoint re_match {R} (r : re) (s : bytes) (i : nat) (c : caps)
    (k : nat → caps → option R) : option R :=
  match r with
  | Chr p =>
      match s !! i with
      | Some b => if p b then k (S i) c else None
      | None => None
      end
  | Rep p lo hi => try_down (run_len p (drop i s) hi) lo (λ n, k (i + n)%nat c)
  | Seq a b => re_match a s i c (λ j c, re_match b s j c k)
  | Alt a b =>
      match re_match a s i c k with
      | Some r => Some r
      | None => re_match b s i c k
      end
  | Grp n a => re_match a s i c (λ j c, k j (<[n := (i, j)]> c))
  | Bol => if (i =? 0)%nat then k i c else None
  | Eol => if (i =? length s)%nat then k i c else None
  end.

(** A match: its start, its end and the capture groups. *)
Record smatch := { sm_begin : nat; sm_end : nat; sm_caps : caps }.

Fixpoint search_from (n : nat) (r : re) (s : bytes) (i : nat) : option smatch :=
  match re_match r s i ∅ (λ j c, Some {| sm_begin := i; sm_end := j; sm_caps := c |}) with
  | Some m => Some m
  | None => match n with O => None | S n => search_from n r s (S i) end
  end.

Definition regex_search (r : re) (s : bytes) : option smatch :=
  search_from (length s) r s 0.

Definition sm_sub (s : bytes) (i j : nat) : bytes := take (j - i) (drop i s).

(** [sm[n].str()]: empty for a group that did not match. *)
Definition sm_str (s : bytes) (m : smatch) (n : nat) : bytes :=
  match sm_caps m !! n with Some (i, j) => sm_sub s i j | None => [] end.

Definition sm_prefix (s : bytes) (m : smatch) : bytes := take (sm_begin m) s.
Definition sm_suffix (s : bytes) (m : smatch) : bytes := drop (sm_end m) s.

(** ** Notation for patterns *)

Definition is_chr (c : byte) : byte → bool := λ b, bool_decide (b = c).

Definition is_hex (c : byte) : bool :=
  is_digit c
  || ((97 <=? byte_val c) && (byte_val c <=? 102))
  || ((65 <=? byte_val c) && (byte_val c <=? 70)).

Declare Scope re_scope.
Delimit Scope re_scope with re.
Notation "a ⋅ b" := (Seq a b) (at level 40, left associativity) : re_scope.
Notation "a ∥ b" := (Alt a b) (at level 50, left associativity) : re_scope.

(** ** The pattern of an MD5 sum, [constants::regex_template_md5] *)

Definition regex_template_md5 : re := Grp 1 (Rep is_hex 32 (Some 32%nat)).

(** ** Lemmas *)

Lemma run_len_max p l n :
  (run_len p l (Some n) ≤ n)%nat.
Proof.
  revert n. induction l as [|c l IH]; intros [|n]; simpl; try lia.
  destruct (p c); [specialize (IH n)|]; lia.
Qed.

Lemma run_len_length p l hi : (run_len p l hi ≤ length l)%nat.
Proof.
  revert hi. induction l as [|c l IH]; intros [[|n]|]; simpl; try lia;
    destruct (p c); try lia; [specialize (IH (Some n))|specialize (IH None)]; lia.
Qed.

(** A run of exactly [n] characters starts the text iff its first [n] are in the
    class. *)
Lemma run_len_full p l n :
  run_len p l (Some n) = n ↔
  (n ≤ length l)%nat ∧ Forall (λ c, p c = true) (take n l).
Proof.
  revert n. induction l as [|c l IH]; intros [|n]; simpl.
  - split; [split; [lia|constructor]|done].
  - split; [done|intros [? _]; lia].
  - split; [split; [lia|constructor]|done].
  - rewrite Forall_cons_iff. destruct (p c) eqn:E.
    + specialize (IH n). split.
      * intros [= H]. apply IH in H as []. split; [lia|done].
      * intros [? [_ ?]]. f_equal. apply IH. split; [lia|done].
    + split; [done|]. intros [_ [? _]]. done.
Qed.

(** The counted pattern at a position. *)
Lemma re_match_md5 {R} s i (k : nat → caps → option R) :
  re_match regex_template_md5 s i ∅ k =
  if bool_decide (run_len is_hex (drop i s) (Some 32%nat) = 32%nat)
  then k (i + 32)%nat {[ 1%nat := (i, (i + 32)%nat) ]} else None.
Proof.
  unfold regex_template_md5. cbn [re_match].
  pose proof (run_len_max is_hex (drop i s) 32).
  set (n := run_len is_hex (drop i s) (Some 32%nat)) in *. clearbody n.
  case_bool_decide as E.
  - subst n. cbn [try_down]. change ((32 <? 32)%nat) with false. cbv iota.
    rewrite insert_empty. by destruct (k _ _).
  - assert (Hn : (n <? 32)%nat = true) by (apply Nat.ltb_lt; lia).
    destruct n as [|n]; cbn [try_down]; by rewrite Hn.
Qed.

(** The first run of 32 hexadecimal digits. *)
Lemma search_md5_none n s i :
  search_from n regex_template_md5 s i = None ↔
  ∀ j, (i ≤ j ≤ i + n)%nat → run_len is_hex (drop j s) (Some 32%nat) ≠ 32%nat.
Proof.
  revert i. induction n as [|n IH]; intros i; cbn [search_from]; rewrite re_match_md5;
    case_bool_decide as E.
  - split; [done|]. intros H. destruct (H i); [lia|done].
  - split; [|done]. intros _ j Hj. by replace j with i by lia.
  - split; [done|]. intros H. destruct (H i); [lia|done].
  - rewrite IH. split; intros H j Hj; [|apply H; lia].
    destruct (decide (j = i)) as [->|]; [done|]. apply H. lia.
Qed.

Lemma search_md5_some n s i m :
  search_from n regex_template_md5 s i = Some m →
  run_len is_hex (drop (sm_begin m) s) (Some 32%nat) = 32%nat ∧
  sm_end m = (sm_begin m + 32)%nat ∧ (i ≤ sm_begin m)%nat ∧
  sm_caps m = {[ 1%nat := (sm_begin m, sm_end m) ]} ∧
  ∀ j, (i ≤ j < sm_begin m)%nat → run_len is_hex (drop j s) (Some 32%nat) ≠ 32%nat.
Proof.
  revert i. induction n as [|n IH]; intros i; cbn [search_from]; rewrite re_match_md5;
    case_bool_decide as E; intros H; simplify_eq/=.
  - split_and!; try done; try lia.
  - split_and!; try done; try lia.
  - apply IH in H as (? & ? & ? & ? & Hj). split_and!; try done; [lia|].
    intros j ?. destruct (decide (j = i)) as [->|]; [done|]. apply Hj. lia.
Qed.
