(* ===== verification/Addr.v ===== *)
(** * Addr: the socket address buffer of [tftpAddr.h/.cpp]

    [class Addr] is a [std::array<char, 30>] laid out as a [sockaddr_in] or a
    [sockaddr_in6], with the length handed to the socket calls. The family is
    in host order (little-endian), the port in network order. The text forms of
    network addresses are those of the C library: [inet_pton] and [inet_ntop]
    are parameters. *)

From Stdlib Require Import Strings.Byte.
From S2P Require Import Prelude Common SmBuf Regex.

Definition max_sockaddr_size : nat := 30.
Definition unknown_addr : bytes := str "???".

(** Constants of the socket interface on Linux. *)
Definition AF_INET : Z := 2.
Definition AF_INET6 : Z := 10.
Definition sizeof_sockaddr_in : Z := 16.
Definition sizeof_sockaddr_in6 : Z := 28.
Definition offset_sin_addr : Z := 4.
Definition offset_sin6_addr : Z := 8.

Record Addr := {
  data : bytes;        (** the 30 octets of the array *)
  data_size_ : Z       (** [socklen_t] *)
}.

#[export] Instance Addr_eq_decision : EqDecision Addr.
Proof. solve_decision. Defined.

Definition set_data (a : Addr) (d : bytes) : Addr :=
  {| data := d; data_size_ := data_size_ a |}.

Definition set_data_size (a : Addr) (n : Z) : Addr :=
  {| data := data a; data_size_ := n |}.

Definition clear (a : Addr) : Addr :=
  {| data := replicate max_sockaddr_size x00; data_size_ := 0 |}.

Definition Addr_new : Addr := clear {| data := []; data_size_ := 0 |}.

Definition data_size (a : Addr) : Z := data_size_ a.

Definition family (a : Addr) : Z := load 2 (data a) 0.

Definition port (a : Addr) : Z := bswap 2 (load 2 (data a) 2).

(** [assign(data_ptr, new_size)]; a null pointer changes nothing. The pointer
    must be readable for the octets copied. *)
Definition assign (a : Addr) (data_ptr : option bytes) (new_size : Z) : outcome Addr :=
  match data_ptr with
  | None => Ok a
  | Some src =>
      let n := Z.min (size (data a)) new_size in
      if size src <? n then Undef
      else Ok {| data := blit (data a) 0 (slice src 0 n); data_size_ := n |}
  end.

(** The non-const views set the length as a side effect. *)
Definition as_in (a : Addr) : Addr := set_data_size a sizeof_sockaddr_in.
Definition as_in6 (a : Addr) : Addr := set_data_size a sizeof_sockaddr_in6.

Definition set_family (a : Addr) (new_family : Z) : Addr :=
  {| data := store 2 (data a) 0 new_family;
     data_size_ :=
       if new_family =? AF_INET then sizeof_sockaddr_in
       else if new_family =? AF_INET6 then sizeof_sockaddr_in6
       else 0 |}.

Definition set_port_u16 (a : Addr) (new_port : Z) : Addr :=
  set_data a (store 2 (data a) 2 (bswap 2 (u16 new_port))).

Definition set_port_str (a : Addr) (adr : bytes) : Addr * bool :=
  match stoul adr with
  | Ok new_port => (set_port_u16 a (Z.land new_port 65535), true)
  | _ => (a, false)
  end.

Definition set_addr_in (a : Addr) (adr : bytes) : Addr :=
  let a := as_in (set_family a AF_INET) in
  set_data a (blit (data a) offset_sin_addr adr).

Definition set_addr_in6 (a : Addr) (adr : bytes) : Addr :=
  let a := as_in6 (set_family a AF_INET6) in
  set_data a (blit (data a) offset_sin6_addr adr).

(** [set_addr(sockaddr_in)]: family, port (given in network order), address. *)
Definition set_addr_sockaddr_in (a : Addr) (sin_family sin_port : Z)
    (sin_addr : bytes) : Addr * bool :=
  let a := set_family a sin_family in
  let a := set_port_u16 a (bswap 2 sin_port) in
  (set_addr_in a sin_addr, true).

(** The template argument of [set_port]: an integer, something a [std::string] is
    made from, or anything else. *)
Inductive port_arg := PortInt (n : Z) | PortString (s : bytes) | PortOther.

Definition set_port (a : Addr) (new_port : port_arg) : Addr * bool :=
  match new_port with
  | PortInt n => (set_port_u16 a (u16 n), true)
  | PortString s => set_port_str a s
  | PortOther => (a, false)
  end.

(** The template argument of [set_addr]. *)
Inductive addr_arg :=
  | AddrIn (adr : bytes)
  | AddrSockaddrIn (sin_family sin_port : Z) (sin_addr : bytes)
  | AddrIn6 (adr : bytes)
  | AddrString (s : bytes)
  | AddrOther.

Section text.
(** [inet_pton af text] is the binary address, if the text is one of the
    family; [inet_ntop af addr] is the text of a binary address. *)
Context (inet_pton : Z → bytes → option bytes).
Context (inet_ntop : Z → bytes → bytes).

Definition set_addr_str (a : Addr) (adr : bytes) : Addr * bool :=
  let c_str := until_zero adr in
  if family a =? AF_INET then
    let a := as_in a in
    match inet_pton AF_INET c_str with
    | Some v => (set_data a (blit (data a) offset_sin_addr v), true)
    | None => (a, false)
    end
  else if family a =? AF_INET6 then
    let a := as_in6 a in
    match inet_pton AF_INET6 c_str with
    | Some v => (set_data a (blit (data a) offset_sin6_addr v), true)
    | None => (a, false)
    end
  else (a, false).

Definition set_addr (a : Addr) (new_addr : addr_arg) : Addr * bool :=
  match new_addr with
  | AddrIn adr => (set_addr_in a adr, true)
  | AddrSockaddrIn f p adr => set_addr_sockaddr_in a f p adr
  | AddrIn6 adr => (set_addr_in6 a adr, true)
  | AddrString s => set_addr_str a s
  | AddrOther => (a, false)
  end.

(** The patterns of [set_string]. *)
Definition re_octets : re :=
  let d13 := Rep is_digit 1 (Some 3%nat) in
  let dot := Chr (is_chr x2e) in
  (d13 ⋅ dot ⋅ d13 ⋅ dot ⋅ d13 ⋅ dot ⋅ d13)%re.

Definition re4 : re :=
  (Bol ⋅ Grp 1 re_octets ⋅ Eol
   ∥ Grp 2 (Bol ⋅ Grp 3 re_octets ⋅ Chr (is_chr x3a)
            ⋅ Grp 4 (Rep is_digit 0 (Some 5%nat))) ⋅ Eol
   ∥ Bol ⋅ Chr (is_chr x3a) ⋅ Grp 5 (Rep is_digit 1 (Some 5%nat)) ⋅ Eol)%re.

Definition is_hex_colon (c : byte) : bool := is_hex c || is_chr x3a c.

Definition re6 : re :=
  (Bol ⋅ Rep (is_chr x5b) 0 (Some 1%nat) ⋅ Grp 1 (Rep is_hex_colon 0 None)
       ⋅ Rep (is_chr x5d) 0 (Some 1%nat) ⋅ Chr (is_chr x3a)
       ⋅ Grp 2 (Rep is_digit 1 (Some 5%nat)) ⋅ Eol
   ∥ Bol ⋅ Rep (is_chr x5b) 0 (Some 1%nat) ⋅ Grp 3 (Rep is_hex_colon 0 None)
       ⋅ Rep (is_chr x5d) 0 (Some 1%nat) ⋅ Eol)%re.

(** The first of two capture groups that is not empty, handed to a setter. *)
Definition set_first (set : Addr → bytes → Addr * bool) (a : Addr) (s1 s2 : bytes)
    : Addr * bool :=
  if negb (size s1 =? 0) then set a s1
  else if negb (size s2 =? 0) then set a s2
  else (a, false).

(** The result is {address set, port set}. *)
Definition set_string (a : Addr) (new_value : bytes) : Addr * (bool * bool) :=
  match regex_search re4 new_value, regex_search re6 new_value with
  | Some sm4, _ =>
      let a := set_family a AF_INET in
      let '(a, is_set_port) :=
        set_first set_port_str a (sm_str new_value sm4 5) (sm_str new_value sm4 4) in
      let '(a, is_set_addr) :=
        set_first set_addr_str a (sm_str new_value sm4 3) (sm_str new_value sm4 1) in
      (a, (is_set_addr, is_set_port))
  | None, Some sm6 =>
      let a := set_family a AF_INET6 in
      let '(a, is_set_port) :=
        set_first set_port_str a (sm_str new_value sm6 2) [] in
      let '(a, is_set_addr) :=
        set_first set_addr_str a (sm_str new_value sm6 3) (sm_str new_value sm6 1) in
      (a, (is_set_addr, is_set_port))
  | None, None => (a, (false, false))
  end.

Definition str_ (a : Addr) : bytes :=
  if family a =? AF_INET then
    inet_ntop AF_INET (slice (data a) offset_sin_addr 4) ++ str ":" ++ to_string (port a)
  else if family a =? AF_INET6 then
    str "[" ++ inet_ntop AF_INET6 (slice (data a) offset_sin6_addr 16) ++ str "]:"
      ++ to_string (port a)
  else unknown_addr.

(** [operator std::string]. *)
Definition to_std_string (a : Addr) : bytes := str_ a.

(** [sockaddr_to_str] of [tftpCommon.cpp]: the same text for a raw buffer, empty
    when it is too short or of another family. *)
Definition sockaddr_to_str (addr : bytes) : bytes :=
  let addr_dist := size addr in
  if addr_dist <? 2 then []
  else
    let curr_family := load 2 addr 0 in
    if curr_family =? AF_INET then
      if addr_dist <? sizeof_sockaddr_in then []
      else inet_ntop AF_INET (slice addr offset_sin_addr 4) ++ str ":"
             ++ to_string (bswap 2 (load 2 addr 2))
    else if curr_family =? AF_INET6 then
      if addr_dist <? sizeof_sockaddr_in6 then []
      else str "[" ++ inet_ntop AF_INET6 (slice addr offset_sin6_addr 16) ++ str "]:"
             ++ to_string (bswap 2 (load 2 addr 2))
    else [].
End text.

(** [operator==] of [std::array]: the octets, not the length. *)
Definition eqb (a b : Addr) : bool := bool_decide (data a = data b).

(** ** Invariant *)

Definition wf (a : Addr) : Prop := length (data a) = max_sockaddr_size.

Lemma wf_size a : wf a → size (data a) = 30.
Proof. unfold wf, size. by intros ->. Qed.

Lemma Addr_new_wf : wf Addr_new.
Proof. done. Qed.

Lemma blit_wf a off d :
  wf a → 0 ≤ off → off + size d ≤ 30 → wf (set_data a (blit (data a) off d)).
Proof.
  intros Ha ??. pose proof (wf_size _ Ha) as Hs.
  pose proof (blit_length (data a) off d). unfold wf in *. unfold size in *. simpl. lia.
Qed.

Lemma set_family_wf a f : wf a → wf (set_family a f).
Proof. intros Ha. apply (blit_wf a 0 (le_split 2 f)); autorewrite with fw; auto; lia. Qed.

Lemma set_port_u16_wf a p : wf a → wf (set_port_u16 a p).
Proof.
  intros Ha. apply (blit_wf a 2 (le_split 2 (bswap 2 (u16 p)))); autorewrite with fw;
    auto; lia.
Qed.

Lemma as_in_wf a : wf a → wf (as_in a).
Proof. done. Qed.

#[export] Hint Resolve Addr_new_wf set_family_wf set_port_u16_wf as_in_wf : fw.

(** A field of the address after a write to a disjoint or equal field. *)
Lemma slice_blit_ne l off d i n :
  0 ≤ off → off + size d ≤ size l → 0 ≤ i → 0 ≤ n → i + n ≤ size l →
  i + n ≤ off ∨ off + size d ≤ i → slice (blit l off d) i n = slice l i n.
Proof.
  intros ????? H. apply list_eq. intros k. unfold slice.
  destruct (decide (k < Z.to_nat n)%nat).
  - rewrite !lookup_take_lt, !lookup_drop by lia. apply blit_frame; lia.
  - rewrite !lookup_take_ge by lia. done.
Qed.

Lemma load_store_eq n b off v :
  0 ≤ off → off + Z.of_nat n ≤ size b →
  load n (store n b off v) off = wrap (8 * Z.of_nat n) v.
Proof.
  intros ??. unfold load, store. rewrite <-(size_le_split n v) at 1.
  rewrite slice_blit by (autorewrite with fw; lia). apply le_combine_split.
Qed.

Lemma load_store_ne n m b off i v :
  0 ≤ off → off + Z.of_nat n ≤ size b → 0 ≤ i → i + Z.of_nat m ≤ size b →
  i + Z.of_nat m ≤ off ∨ off + Z.of_nat n ≤ i →
  load m (store n b off v) i = load m b i.
Proof.
  intros. unfold load, store. by rewrite slice_blit_ne by (autorewrite with fw; lia).
Qed.

Lemma bswap_bswap n v : 0 ≤ v < 2 ^ (8 * Z.of_nat n) → bswap n (bswap n v) = v.
Proof.
  intros. unfold bswap at 1, be_split. rewrite le_split_bswap.
  unfold be_split. rewrite reverse_involutive, le_combine_split.
  by apply Z.mod_small.
Qed.

Lemma bswap_range n v : 0 ≤ bswap n v < 2 ^ (8 * Z.of_nat n).
Proof.
  unfold bswap. pose proof (le_combine_range (be_split n v)) as H.
  by rewrite size_be_split in H.
Qed.

Lemma port_set_port a p : wf a → port (set_port_u16 a p) = u16 p.
Proof.
  intros Ha. pose proof (wf_size _ Ha). unfold port, set_port_u16. simpl.
  rewrite load_store_eq by lia. rewrite (wrap_small (8 * Z.of_nat 2)) by apply bswap_range.
  apply bswap_bswap, wrap_range. lia.
Qed.

Lemma family_set_port a p : wf a → family (set_port_u16 a p) = family a.
Proof.
  intros Ha. pose proof (wf_size _ Ha). unfold family, set_port_u16. simpl.
  apply load_store_ne; lia.
Qed.

Lemma family_set_family a f : wf a → family (set_family a f) = u16 f.
Proof.
  intros Ha. pose proof (wf_size _ Ha). unfold family, set_family. simpl.
  rewrite load_store_eq; [done|lia|lia].
Qed.

Lemma port_set_family a f : wf a → port (set_family a f) = port a.
Proof.
  intros Ha. pose proof (wf_size _ Ha). unfold port, set_family. simpl.
  by rewrite load_store_ne by lia.
Qed.

Lemma slice_data_set_addr a off d :
  wf a → 0 ≤ off → off + size d ≤ 30 →
  slice (blit (data a) off d) off (size d) = d.
Proof. intros Ha ??. pose proof (wf_size _ Ha). apply slice_blit; lia. Qed.

(** ** Properties *)

(** The fields of an IPv4 address are independent: after setting the port and
    the address in turn each reads back as it was set (the port modulo 2^16),
    the array keeps its 30 octets, and the length is that of [sockaddr_in]. *)
Theorem set_addr_in_fields a p adr :
  wf a → size adr = 4 →
  let a' := set_addr_in (set_port_u16 a p) adr in
  wf a' ∧ family a' = AF_INET ∧ port a' = u16 p ∧
  slice (data a') offset_sin_addr 4 = adr ∧ data_size a' = sizeof_sockaddr_in ∧
  ∀ inet_ntop, str_ inet_ntop a' = inet_ntop AF_INET adr ++ str ":" ++ to_string (u16 p).
Proof.
  intros Ha Hadr. set (b := set_family (set_port_u16 a p) AF_INET).
  assert (Hb : wf b) by (unfold b; auto with fw). cbn zeta.
  pose proof (wf_size _ Hb) as Hs.
  change (set_addr_in (set_port_u16 a p) adr)
    with (set_data (as_in b) (blit (data b) offset_sin_addr adr)).
  assert (Hwf : wf (set_data (as_in b) (blit (data b) offset_sin_addr adr)))
    by (apply (blit_wf (as_in b)); [done|unfold offset_sin_addr; lia..]).
  assert (Hf : family (set_data (as_in b) (blit (data b) offset_sin_addr adr)) = AF_INET).
  { unfold family, load. cbn [data set_data as_in set_data_size].
    rewrite slice_blit_ne by (unfold offset_sin_addr; lia).
    change (family b = AF_INET). unfold b. rewrite family_set_family; auto with fw. }
  assert (Hp : port (set_data (as_in b) (blit (data b) offset_sin_addr adr)) = u16 p).
  { unfold port, load. cbn [data set_data as_in set_data_size].
    rewrite slice_blit_ne by (unfold offset_sin_addr; lia).
    change (port b = u16 p). unfold b.
    rewrite port_set_family, port_set_port; auto with fw. }
  assert (Hd : slice (blit (data b) offset_sin_addr adr) offset_sin_addr 4 = adr)
    by (rewrite <-Hadr; apply slice_data_set_addr; [done|unfold offset_sin_addr; lia..]).
  split_and!; [done|done|done|done|done|]. intros inet_ntop. unfold str_.
  rewrite Hf, Hp, Z.eqb_refl. cbn [data set_data as_in set_data_size]. by rewrite Hd.
Qed.

Lemma set_addr_in_fields_witness :
  port (set_addr_in (set_port_u16 Addr_new 65605) [x7f; x00; x00; x01]) = 69.
Proof.
  refine (proj1 (proj2 (proj2 (set_addr_in_fields Addr_new 65605
    [x7f; x00; x00; x01] _ _)))); reflexivity.
Defined.

(** The two conversions to text agree on an [Addr] of a known family, and differ
    only on the others: [str] gives the unknown mark, [sockaddr_to_str] nothing. *)
Theorem sockaddr_to_str_agrees inet_ntop a :
  wf a →
  sockaddr_to_str inet_ntop (data a)
  = if (family a =? AF_INET) || (family a =? AF_INET6) then str_ inet_ntop a else [].
Proof.
  intros Ha. pose proof (wf_size _ Ha) as Hs. unfold sockaddr_to_str, str_.
  rewrite Hs. change (load 2 (data a) 0) with (family a).
  change (bswap 2 (load 2 (data a) 2)) with (port a).
  change (30 <? 2) with false. change (30 <? sizeof_sockaddr_in) with false.
  change (30 <? sizeof_sockaddr_in6) with false. cbv iota.
  by destruct (family a =? AF_INET), (family a =? AF_INET6).
Qed.

Lemma sockaddr_to_str_agrees_witness :
  sockaddr_to_str (λ _ _, str "0.0.0.0") (data (set_port_u16 (set_family Addr_new AF_INET) 69))
  = str "0.0.0.0:69".
Proof.
  rewrite (sockaddr_to_str_agrees (λ _ _, str "0.0.0.0")
    (set_port_u16 (set_family Addr_new AF_INET) 69)); reflexivity.
Defined.

(** [set_string] on "fe80::1", which the interface documents as an address
    without a port: the first alternative of the pattern takes the last group
    as the port, the rest "fe80:" is what is handed to [inet_pton], and when
    that rejects it, as it must, the call reports a port and no address. *)
Theorem set_string_takes_port inet_pton a :
  wf a → inet_pton AF_INET6 (str "fe80:") = None →
  (set_string inet_pton a (str "fe80::1")).2 = (false, true) ∧
  port (set_string inet_pton a (str "fe80::1")).1 = 1.
Proof.
  intros Ha Hp. unfold set_string.
  assert (regex_search re4 (str "fe80::1") = None) as -> by (vm_compute; reflexivity).
  destruct (regex_search re6 (str "fe80::1")) as [m|] eqn:E; [|vm_compute in E; done].
  assert (sm_str (str "fe80::1") m 2 = str "1" ∧ sm_str (str "fe80::1") m 3 = [] ∧
          sm_str (str "fe80::1") m 1 = str "fe80:") as (-> & -> & ->).
  { vm_compute in E. injection E as <-. vm_compute. done. }
  unfold set_first. cbn [size length negb].
  assert (stoul (str "1") = Ok 1) as Hst by (vm_compute; reflexivity).
  unfold set_port_str. change (negb (size (str "1") =? 0)) with true. cbv iota.
  rewrite Hst. change (Z.land 1 65535) with 1.
  change (negb (size [] =? 0)) with false.
  change (negb (size (str "fe80:") =? 0)) with true. cbv iota.
  set (b := set_family a AF_INET6). assert (Hb : wf b) by (unfold b; auto with fw).
  assert (Hf : family (set_port_u16 b 1) = AF_INET6).
  { rewrite family_set_port by done. unfold b. by rewrite family_set_family. }
  unfold set_addr_str. rewrite Hf. change (AF_INET6 =? AF_INET) with false.
  rewrite Z.eqb_refl. change (until_zero (str "fe80:")) with (str "fe80:").
  rewrite Hp. split; [done|]. exact (port_set_port b 1 Hb).
Qed.

Lemma set_string_takes_port_witness :
  port (set_string (λ _ _, None) Addr_new (str "fe80::1")).1 = 1.
Proof.
  refine (proj2 (set_string_takes_port (λ _ _, None) Addr_new _ _)); reflexivity.
Defined.
