(* ===== verification/AddrText.v ===== *)
(** * AddrText: the texts of addresses

    [Addr::str] prints an address and [Addr::set_string] reads one with two regular
    expressions. Reading what was printed sets the address again: the round trip of
    the texts, for which the patterns are matched step by step. *)

From Stdlib Require Import Strings.Byte.
From S2P Require Import Prelude Common SmBuf Regex Addr.

(** ** Decimal texts *)

Abbreviation digits := (Forall (λ c, is_digit c = true)).

Lemma dec_digits_short k f n acc :
  (0 < k)%nat → 0 ≤ n < 10 ^ Z.of_nat k →
  (length (dec_digits f n acc) ≤ k + length acc)%nat.
Proof.
  revert f n acc. induction k as [|k IH]; intros f n acc Hk Hn; [lia|].
  destruct f as [|f]; cbn [dec_digits]; [lia|].
  destruct (n / 10 =? 0) eqn:E; reflect_bools; [cbn; lia|].
  rewrite Nat2Z.inj_succ, Z.pow_succ_r in Hn by lia.
  assert (0 ≤ n / 10 < 10 ^ Z.of_nat k)
    by (split; [apply Z.div_pos; lia|apply Z.div_lt_upper_bound; lia]).
  destruct k as [|k]; [cbn in *; lia|].
  specialize (IH f (n / 10) (byte_of (48 + n `mod` 10) :: acc)). cbn [length] in IH. lia.
Qed.

Lemma dec_short k n : (0 < k)%nat → 0 ≤ n < 10 ^ Z.of_nat k → (length (dec n) ≤ k)%nat.
Proof.
  intros Hk Hn. unfold dec. pose proof (dec_digits_short k (S (Z.to_nat (Z.log2 n))) n [] Hk Hn) as H.
  cbn [length] in H. rewrite Nat.add_0_r in H. exact H.
Qed.

Lemma dec_is_digits n : digits (dec n).
Proof. apply is_digit_str_spec, dec_digit_str. Qed.

Lemma dec_nonempty n : (0 < length (dec n))%nat.
Proof. destruct (dec_cons n) as (c & l & -> & _). cbn. lia. Qed.

Lemma dec_not_nil n : dec n ≠ [].
Proof. destruct (dec_cons n) as (c & l & -> & _). done. Qed.

Lemma stoul_dec n : 0 ≤ n < 2 ^ 64 → stoul (dec n) = Ok n.
Proof.
  intros Hn. unfold stoul. destruct (dec_cons n) as (c & l & E & Hc). rewrite E.
  rewrite strto_digit by done. rewrite <-E, dec_val by lia.
  by rewrite (proj2 (Z.ltb_lt _ _)) by lia.
Qed.

(** ** Matching *)

Section matching.
Context {R : Type}.
Implicit Types (s ds rest : bytes) (i n : nat).

Lemma run_len_app p ds rest hi :
  Forall (λ c, p c = true) ds → (∀ c, head rest = Some c → p c = false) →
  match hi with Some h => (length ds ≤ h)%nat | None => True end →
  run_len p (ds ++ rest) hi = length ds.
Proof.
  intros Hds Hrest. revert hi. induction Hds as [|c ds Hc _ IH]; intros hi Hh.
  - destruct rest as [|c rest]; [by destruct hi as [[]|]|]. cbn in *.
    specialize (Hrest c eq_refl). by destruct hi as [[]|]; cbn; rewrite ?Hrest.
  - cbn [app run_len length] in *.
    destruct hi as [[|h]|]; [lia|..]; cbn; rewrite Hc; f_equal; apply IH; (done || lia).
Qed.

Lemma try_down_first n lo (k : nat → option R) r :
  (lo ≤ n)%nat → k n = Some r → try_down n lo k = Some r.
Proof.
  intros Hlo Hk. destruct n; cbn [try_down];
    rewrite (proj2 (Nat.ltb_ge _ _)) by lia; by rewrite Hk.
Qed.

Lemma try_down_none n lo (k : nat → option R) :
  (∀ j, (j ≤ n)%nat → k j = None) → try_down n lo k = None.
Proof.
  induction n as [|n IH]; intros Hk; cbn [try_down]; destruct (_ <? _)%nat; try done;
    rewrite Hk by lia; [done|]. apply IH. intros. apply Hk. lia.
Qed.

Lemma try_down_only n lo (k : nat → option R) :
  (lo ≤ n)%nat → (∀ j, (j < n)%nat → k j = None) → try_down n lo k = k n.
Proof.
  intros Hlo Hk. destruct n; cbn [try_down];
    rewrite (proj2 (Nat.ltb_ge _ _)) by lia; destruct (k _); try done.
  apply try_down_none. intros. apply Hk. lia.
Qed.

Lemma re_match_seq a b s i (c : caps) (k : nat → caps → option R) :
  re_match (Seq a b) s i c k = re_match a s i c (λ j c, re_match b s j c k).
Proof. done. Qed.

Lemma re_match_grp n a s i (c : caps) (k : nat → caps → option R) :
  re_match (Grp n a) s i c k = re_match a s i c (λ j c, k j (<[n := (i, j)]> c)).
Proof. done. Qed.

Lemma match_chr ch s i rest (c : caps) (k : nat → caps → option R) :
  drop i s = ch :: rest → re_match (Chr (is_chr ch)) s i c k = k (S i) c.
Proof.
  intros Hs. cbn [re_match]. rewrite <-(Nat.add_0_r i) at 1. rewrite <-lookup_drop, Hs. cbn.
  unfold is_chr. by rewrite bool_decide_true.
Qed.

Lemma re_match_alt_skip a b s i (c : caps) (k : nat → caps → option R) :
  re_match a s i c k = None → re_match (Alt a b) s i c k = re_match b s i c k.
Proof. intros E. cbn [re_match]. by rewrite E. Qed.

Lemma re_match_alt_first a b s i (c : caps) (k : nat → caps → option R) r :
  re_match a s i c k = Some r → re_match (Alt a b) s i c k = Some r.
Proof. intros E. cbn [re_match]. by rewrite E. Qed.

Lemma re_match_bol s (c : caps) (k : nat → caps → option R) : re_match Bol s 0 c k = k 0%nat c.
Proof. done. Qed.

Lemma re_match_eol s (c : caps) (k : nat → caps → option R) :
  re_match Eol s (length s) c k = k (length s) c.
Proof. cbn [re_match]. by rewrite Nat.eqb_refl. Qed.

(** A run of a class that ends at a character outside of it, which comes next. *)
Lemma match_run_chr p ch s i c ds rest lo hi (f : nat → caps → caps) (k : nat → caps → option R) :
  drop i s = ds ++ ch :: rest → Forall (λ c, p c = true) ds → p ch = false →
  (lo ≤ length ds)%nat → match hi with Some h => (length ds ≤ h)%nat | None => True end →
  re_match (Rep p lo hi) s i c (λ j c, re_match (Chr (is_chr ch)) s j (f j c) k)
  = k (S (i + length ds)) (f (i + length ds)%nat c).
Proof.
  intros Hs Hds Hch Hlo Hhi. cbn [re_match]. rewrite Hs, run_len_app; [|done| |done].
  2: { by intros ? [= <-]. }
  assert (Hat : ∀ n, s !! (i + n)%nat = (ds ++ ch :: rest) !! n)
    by (intros; by rewrite <-Hs, lookup_drop).
  rewrite try_down_only; [|done|].
  - rewrite Hat, lookup_app_r, Nat.sub_diag by lia. cbn. unfold is_chr. by rewrite bool_decide_true.
  - intros j Hj. rewrite Hat, lookup_app_l by done.
    destruct (lookup_lt_is_Some_2 ds j Hj) as [x Hx]. rewrite Hx. unfold is_chr.
    case_bool_decide as E; [|done]. subst x. apply (Forall_lookup_1 _ _ _ _ Hds) in Hx. congruence.
Qed.

(** A run that does not reach the end of the text. *)
Lemma match_run_not_end p s i c ds rest lo hi (k : nat → caps → option R) :
  drop i s = ds ++ rest → Forall (λ c, p c = true) ds → rest ≠ [] →
  (∀ c, head rest = Some c → p c = false) →
  match hi with Some h => (length ds ≤ h)%nat | None => True end →
  (∀ j c, j ≠ length s → k j c = None) →
  re_match (Rep p lo hi) s i c k = None.
Proof.
  intros Hs Hds Hne Hr Hhi Hk. cbn [re_match]. rewrite Hs, run_len_app by done.
  apply try_down_none. intros j Hj. apply Hk.
  apply (f_equal length) in Hs. rewrite length_drop, length_app in Hs.
  destruct rest; [done|]. cbn in Hs. lia.
Qed.

(** The longest run is tried first. *)
Lemma match_run p s i c ds rest lo hi (k : nat → caps → option R) r :
  drop i s = ds ++ rest → Forall (λ c, p c = true) ds →
  (∀ c, head rest = Some c → p c = false) → (lo ≤ length ds)%nat →
  match hi with Some h => (length ds ≤ h)%nat | None => True end →
  k (i + length ds)%nat c = Some r → re_match (Rep p lo hi) s i c k = Some r.
Proof.
  intros Hs Hds Hr Hlo Hhi Hk. cbn [re_match]. rewrite Hs, run_len_app by done.
  apply try_down_first; [done|]. exact Hk.
Qed.
End matching.

(** ** The pattern of IPv4 *)

Definition ip4 (d1 d2 d3 d4 : bytes) : bytes :=
  d1 ++ x2e :: d2 ++ x2e :: d3 ++ x2e :: d4.

(** The digits of one octet. *)
Definition octet (d : bytes) : Prop := digits d ∧ (1 ≤ length d ≤ 3)%nat.

Lemma drop_next s i ds (ch : byte) rest :
  drop i s = ds ++ ch :: rest → drop (S (i + length ds)) s = rest.
Proof.
  intros Hs. replace (S (i + length ds))%nat with (i + (length ds + 1))%nat by lia.
  rewrite <-drop_drop, Hs, drop_app_add. done.
Qed.

Lemma match_octets {R} s i d1 d2 d3 d4 rest :
  octet d1 → octet d2 → octet d3 → drop i s = ip4 d1 d2 d3 d4 ++ rest →
  ∃ j, drop j s = d4 ++ rest ∧ (j + length d4 = i + length (ip4 d1 d2 d3 d4))%nat ∧
    ∀ c (k : nat → caps → option R),
      re_match re_octets s i c k = re_match (Rep is_digit 1 (Some 3%nat)) s j c k.
Proof.
  intros [H1 L1] [H2 L2] [H3 L3] Hs. unfold ip4 in Hs. rewrite <-!app_assoc in Hs.
  cbn [app] in Hs. rewrite <-!app_assoc in Hs. cbn [app] in Hs.
  rewrite <-!app_assoc in Hs. cbn [app] in Hs.
  pose proof (drop_next _ _ _ _ _ Hs) as Hs2. pose proof (drop_next _ _ _ _ _ Hs2) as Hs3.
  pose proof (drop_next _ _ _ _ _ Hs3) as Hs4.
  eexists. split; [exact Hs4|split].
  - unfold ip4. rewrite !length_app. cbn [length]. rewrite !length_app. cbn [length].
    rewrite !length_app. cbn [length]. lia.
  - intros c k. unfold re_octets. rewrite !re_match_seq.
    rewrite (match_run_chr _ _ _ _ _ _ _ _ _ (λ _ c, c) _ Hs) by (done || lia).
    rewrite (match_run_chr _ _ _ _ _ _ _ _ _ (λ _ c, c) _ Hs2) by (done || lia).
    rewrite (match_run_chr _ _ _ _ _ _ _ _ _ (λ _ c, c) _ Hs3) by (done || lia).
    reflexivity.
Qed.

Lemma sm_sub_after (a p : bytes) ch :
  sm_sub (a ++ ch :: p) (S (length a)) (S (length a) + length p) = p.
Proof.
  unfold sm_sub. replace (S (length a)) with (length a + 1)%nat by lia.
  rewrite drop_app_add. cbn. apply take_ge. lia.
Qed.

Lemma search_first r s m :
  re_match r s 0 ∅ (λ j c, Some {| sm_begin := 0; sm_end := j; sm_caps := c |}) = Some m →
  regex_search r s = Some m.
Proof. unfold regex_search. intros E. by destruct (length s); cbn [search_from]; rewrite E. Qed.

(** An address with a port does not match the pattern of an address alone. *)
Lemma ip4_not_alone {R} d1 d2 d3 d4 p c (k : nat → caps → option R) :
  octet d1 → octet d2 → octet d3 → octet d4 →
  re_match (Bol ⋅ Grp 1 re_octets ⋅ Eol)%re (ip4 d1 d2 d3 d4 ++ x3a :: p) 0 c k = None.
Proof.
  intros H1 H2 H3 [H4 L4]. rewrite !re_match_seq, re_match_bol, re_match_grp.
  destruct (match_octets (R:=R) (ip4 d1 d2 d3 d4 ++ x3a :: p) 0 d1 d2 d3 d4 (x3a :: p))
    as (j & Hj & _ & ->); [done..|].
  apply (match_run_not_end _ _ _ _ d4 (x3a :: p)); [done|done|done|by intros ? [= <-]|cbn; lia|].
  intros i c' Hi. cbn [re_match]. by rewrite (proj2 (Nat.eqb_neq _ _)).
Qed.

Lemma search_re4 d1 d2 d3 d4 p :
  octet d1 → octet d2 → octet d3 → octet d4 → digits p → (length p ≤ 5)%nat →
  let s := ip4 d1 d2 d3 d4 ++ x3a :: p in
  ∃ m, regex_search re4 s = Some m ∧ sm_str s m 5 = [] ∧ sm_str s m 4 = p ∧
       sm_str s m 3 = ip4 d1 d2 d3 d4.
Proof.
  intros H1 H2 H3 H4 Hp Lp s. set (n := length (ip4 d1 d2 d3 d4)).
  assert (Hn : length s = (S n + length p)%nat)
    by (unfold s; rewrite length_app; cbn [length]; lia).
  set (cs := <[2%nat := (0%nat, length s)]> (<[4%nat := (S n, length s)]>
              (<[3%nat := (0%nat, n)]> ∅)) : caps).
  exists {| sm_begin := 0; sm_end := length s; sm_caps := cs |}. split.
  - apply search_first. unfold re4. apply re_match_alt_first.
    rewrite re_match_alt_skip by (by apply ip4_not_alone).
    rewrite re_match_seq, re_match_grp, !re_match_seq, re_match_bol, re_match_grp.
    destruct (match_octets (R:=smatch) s 0 d1 d2 d3 d4 (x3a :: p)) as (j & Hj & Hlen & ->); [done..|].
    destruct H4 as [H4 L4].
    rewrite (match_run_chr _ _ _ _ _ _ _ _ _ (λ j c, <[3%nat := (0%nat, j)]> c) _ Hj)
      by (done || cbn; lia).
    pose proof (drop_next _ _ _ _ _ Hj) as Hp'. cbn [Nat.add] in Hlen. fold n in Hlen.
    rewrite Hlen in *. rewrite re_match_grp.
    apply (match_run _ _ _ _ p []); [by rewrite app_nil_r|done|done|cbn; lia..|].
    rewrite <-Hn. apply re_match_eol.
  - assert (cs !! 5%nat = None ∧ cs !! 4%nat = Some (S n, length s) ∧
            cs !! 3%nat = Some (0%nat, n)) as (E5 & E4 & E3)
      by (unfold cs; by simplify_map_eq).
    unfold sm_str. cbn [sm_caps]. rewrite E5, E4, E3. split; [done|]. split.
    + rewrite Hn. by apply sm_sub_after.
    + unfold sm_sub. rewrite Nat.sub_0_r, drop_0. apply take_app_length.
Qed.

(** ** The pattern of IPv6 *)

Lemma search_none r s :
  (∀ i, re_match r s i ∅ (λ j c, Some {| sm_begin := i; sm_end := j; sm_caps := c |}) = None) →
  regex_search r s = None.
Proof.
  intros H. unfold regex_search. generalize (length s), 0%nat. intros n.
  induction n as [|n IH]; intros i; cbn [search_from]; rewrite H; [done|apply IH].
Qed.

Lemma re4_bracket t : regex_search re4 (x5b :: t) = None.
Proof.
  apply search_none. intros [|i]; unfold re4, re_octets; cbn [re_match Nat.eqb]; [|done].
  by cbn.
Qed.

Lemma not_bracket h rest :
  Forall (λ c, is_hex_colon c = true) h →
  ∀ c, head (h ++ x5d :: rest) = Some c → is_chr x5b c = false.
Proof.
  intros [|x h' Hx _] c; cbn; intros [= <-]; [done|].
  unfold is_chr. by case_bool_decide; [subst x|].
Qed.

Lemma search_re6 h p :
  Forall (λ c, is_hex_colon c = true) h → digits p → (1 ≤ length p ≤ 5)%nat →
  let s := x5b :: h ++ x5d :: x3a :: p in
  ∃ m, regex_search re6 s = Some m ∧ sm_str s m 2 = p ∧ sm_str s m 3 = [] ∧ sm_str s m 1 = h.
Proof.
  intros Hh Hp Lp s. set (n := length h).
  assert (Hn : length s = (3 + n + length p)%nat)
    by (unfold s; cbn [length]; rewrite length_app; cbn [length]; lia).
  set (cs := <[2%nat := ((3 + n)%nat, length s)]> (<[1%nat := (1%nat, (1 + n)%nat)]> ∅) : caps).
  exists {| sm_begin := 0; sm_end := length s; sm_caps := cs |}.
  assert (D1 : drop 1 s = h ++ x5d :: x3a :: p) by done.
  pose proof (drop_next _ _ _ _ _ D1) as D2.
  pose proof (drop_next s _ [] _ _ D2) as D3. cbn [length] in D3. rewrite Nat.add_0_r in D3.
  assert (D0 : drop (1 + n) s = x5d :: x3a :: p) by (rewrite <-drop_drop, D1; apply drop_app_length).
  split.
  - apply search_first. unfold re6. apply re_match_alt_first.
    rewrite !re_match_seq, re_match_bol.
    apply (match_run _ _ _ _ [x5b] (h ++ x5d :: x3a :: p)); [done|by apply Forall_singleton|
      by apply not_bracket|cbn; lia..|]. rewrite re_match_grp.
    apply (match_run _ _ _ _ h (x5d :: x3a :: p)); [done|done|by intros ? [= <-]|lia|done|].
    apply (match_run _ _ _ _ [x5d] (x3a :: p)); [done|by apply Forall_singleton|
      by intros ? [= <-]|cbn; lia..|].
    fold n in D2. fold n. cbn [length]. replace (0 + 1 + n + 1)%nat with (S (1 + n)) by lia.
    rewrite (match_chr x3a s (S (1 + n)) p) by done. rewrite re_match_grp.
    apply (match_run _ _ _ _ p []); [by rewrite app_nil_r|done|done|cbn; lia..|].
    replace (S (S (1 + n)) + length p)%nat with (length s) by lia. apply re_match_eol.
  - assert (cs !! 2%nat = Some ((3 + n)%nat, length s) ∧ cs !! 3%nat = None ∧
            cs !! 1%nat = Some (1%nat, (1 + n)%nat)) as (E2 & E3 & E1)
      by (unfold cs; by simplify_map_eq).
    unfold sm_str. cbn [sm_caps]. rewrite E2, E3, E1. split_and!; [|done|].
    + rewrite Hn. pose proof (sm_sub_after (x5b :: h ++ [x5d]) p x3a) as E.
      cbn [length app] in E. rewrite length_app, <-app_assoc in E. cbn [length app] in E.
      fold n in E. etransitivity; [|exact E]. unfold s. f_equal; lia.
    + unfold sm_sub. replace (1 + n - 1)%nat with n by lia. rewrite D1. apply take_app_length.
Qed.

(** ** The round trip *)

(** The octets of the address, by its family. *)
Definition addr_octets (a : Addr) : bytes :=
  if family a =? AF_INET then slice (data a) offset_sin_addr 4
  else slice (data a) offset_sin6_addr 16.

(** Four octets in dotted decimal form. *)
Definition dotted (v : bytes) : bytes :=
  match map byte_val v with
  | [a; b; c; d] => ip4 (dec a) (dec b) (dec c) (dec d)
  | _ => []
  end.

Definition family_size (f : Z) : Z := if f =? AF_INET then 4 else 16.
Definition family_offset (f : Z) : Z := if f =? AF_INET then offset_sin_addr else offset_sin6_addr.

Lemma byte_octet b : octet (dec (byte_val b)).
Proof.
  pose proof (byte_val_range b). pose proof (dec_nonempty (byte_val b)).
  split; [apply dec_is_digits|]. split; [lia|]. apply dec_short; lia.
Qed.

Section text.
Context (inet_pton : Z → bytes → option bytes) (inet_ntop : Z → bytes → bytes).

(** Setting the family, the port and the address of a text. *)
Lemma set_parts b f p t v :
  wf b → f = AF_INET ∨ f = AF_INET6 → 0 ≤ p < 2 ^ 16 → no_zero t → size v = family_size f →
  inet_pton f t = Some v →
  let b2 := set_port_u16 (set_family b f) p in
  set_port_str (set_family b f) (dec p) = (b2, true) ∧
  ∃ b3, set_addr_str inet_pton b2 t = (b3, true) ∧
    wf b3 ∧ family b3 = f ∧ port b3 = p ∧ addr_octets b3 = v.
Proof.
  intros Hb Hf Hp Ht Hv Hpt b2.
  assert (Hwf : wf b2) by (unfold b2; auto with fw). pose proof (wf_size _ Hwf) as Hs.
  assert (Hfam : family b2 = f).
  { unfold b2. rewrite family_set_port, family_set_family by auto with fw.
    destruct Hf as [-> | ->]; reflexivity. }
  assert (Hport : port b2 = p).
  { unfold b2. rewrite port_set_port by auto with fw. apply wrap_small. lia. }
  split.
  { unfold set_port_str. rewrite stoul_dec by lia. change 65535 with (Z.ones 16).
    by rewrite Z.land_ones, Z.mod_small by lia. }
  set (b3 := {| data := blit (data b2) (family_offset f) v;
                data_size_ := if f =? AF_INET then sizeof_sockaddr_in else sizeof_sockaddr_in6 |}).
  assert (Hoff : 4 ≤ family_offset f ∧ family_offset f + size v ≤ 30)
    by (rewrite Hv; destruct Hf as [-> | ->]; split; vm_compute; discriminate).
  exists b3. split.
  { unfold set_addr_str. rewrite Hfam, (until_zero_id t Ht).
    destruct Hf as [-> | ->]; cbn [Z.eqb AF_INET AF_INET6]; by rewrite Hpt. }
  assert (Hfam3 : family b3 = f).
  { rewrite <-Hfam. unfold family, load, b3. cbn [data]. by rewrite slice_blit_ne by lia. }
  split_and!; [|done|..].
  - apply (blit_wf b2); [done|lia..].
  - rewrite <-Hport. unfold port, load, b3. cbn [data]. by rewrite slice_blit_ne by lia.
  - unfold addr_octets. rewrite Hfam3. unfold b3. cbn [data].
    assert (E : slice (blit (data b2) (family_offset f) v) (family_offset f) (family_size f) = v)
      by (rewrite <-Hv; apply slice_blit; lia).
    by destruct Hf as [-> | ->].
Qed.

(** The C library on the address of [a]: [inet_pton] reads what [inet_ntop] prints,
    an IPv4 address is printed in dotted form, an IPv6 address with hexadecimal
    digits and colons (which it is unless it stands for an IPv4 address). *)
Definition printable (a : Addr) : Prop :=
  let t := inet_ntop (family a) (addr_octets a) in
  inet_pton (family a) t = Some (addr_octets a) ∧
  (family a = AF_INET ∧ t = dotted (addr_octets a) ∨
   family a = AF_INET6 ∧ t ≠ [] ∧ Forall (λ c, is_hex_colon c = true) t).

Lemma addr_octets_size a :
  wf a → family a = AF_INET ∨ family a = AF_INET6 → size (addr_octets a) = family_size (family a).
Proof.
  intros Ha%wf_size Hf. unfold addr_octets, family_size.
  destruct Hf as [-> | ->]; apply slice_length; rewrite ?Ha; vm_compute; discriminate.
Qed.

Lemma port_range a : 0 ≤ port a < 2 ^ 16.
Proof. apply bswap_range. Qed.

Lemma set_first_one set (a : Addr) s1 s2 :
  s1 ≠ [] → set_first set a s1 s2 = set a s1 ∧ set_first set a [] s1 = set a s1.
Proof.
  intros Hs. unfold set_first. assert ((size s1 =? 0) = false) as ->; [|done].
  apply Z.eqb_neq. unfold size. by destruct s1.
Qed.

Lemma dotted_octets v :
  size v = 4 → ∃ d1 d2 d3 d4, dotted v = ip4 d1 d2 d3 d4 ∧
    octet d1 ∧ octet d2 ∧ octet d3 ∧ octet d4.
Proof.
  intros Hv. destruct v as [|v1 [|v2 [|v3 [|v4 [|]]]]]; try (unfold size in Hv; cbn in Hv; lia).
  eexists _, _, _, _. split; [reflexivity|]. split_and!; apply byte_octet.
Qed.

(** What reading an address of the family [f] with the port [p] leaves. *)
Definition reads_as (b : Addr) (text : bytes) (f p : Z) (v : bytes) : Prop :=
  ∃ b', set_string inet_pton b text = (b', (true, true)) ∧ wf b' ∧
    family b' = f ∧ port b' = p ∧ addr_octets b' = v.

Lemma ip4_no_zero d1 d2 d3 d4 :
  octet d1 → octet d2 → octet d3 → octet d4 → no_zero (ip4 d1 d2 d3 d4) ∧ ip4 d1 d2 d3 d4 ≠ [].
Proof.
  unfold octet. intros [H1%digits_no_zero L1] [H2%digits_no_zero _] [H3%digits_no_zero _]
    [H4%digits_no_zero _].
  split; [|unfold ip4; destruct d1; [cbn in L1; lia|done]].
  unfold ip4, no_zero in *. repeat rewrite ?elem_of_app, ?elem_of_cons.
  intuition discriminate.
Qed.

Lemma reads_ip4 b d1 d2 d3 d4 p v :
  wf b → octet d1 → octet d2 → octet d3 → octet d4 → 0 ≤ p < 2 ^ 16 → size v = 4 →
  inet_pton AF_INET (ip4 d1 d2 d3 d4) = Some v →
  reads_as b (ip4 d1 d2 d3 d4 ++ x3a :: dec p) AF_INET p v.
Proof.
  intros Hb H1 H2 H3 H4 Hp Hv Hpt. destruct (ip4_no_zero d1 d2 d3 d4) as [Hz Hne]; [done..|].
  destruct (search_re4 d1 d2 d3 d4 (dec p)) as (m & Em & E5 & E4 & E3);
    [done..|apply dec_is_digits|apply dec_short; lia|].
  destruct (set_parts b AF_INET p (ip4 d1 d2 d3 d4) v) as (E1 & b3 & E2 & Hb3); [auto..|].
  exists b3. split; [|exact Hb3]. unfold set_string. rewrite Em, E5, E4, E3.
  rewrite (proj2 (set_first_one set_port_str _ _ [] (dec_not_nil p))), E1.
  by rewrite (proj1 (set_first_one _ _ _ _ Hne)), E2.
Qed.

Lemma reads_ip6 b h p v :
  wf b → Forall (λ c, is_hex_colon c = true) h → h ≠ [] → 0 ≤ p < 2 ^ 16 → size v = 16 →
  inet_pton AF_INET6 h = Some v →
  reads_as b (x5b :: h ++ x5d :: x3a :: dec p) AF_INET6 p v.
Proof.
  intros Hb Hh Hne Hp Hv Hpt. pose proof (dec_nonempty p).
  destruct (search_re6 h (dec p)) as (m & Em & E2 & E3 & E1);
    [done|apply dec_is_digits|split; [lia|apply dec_short; lia]|].
  assert (Hz : no_zero h).
  { unfold no_zero. intros Hx. by apply (proj1 (list.Forall_forall _ _) Hh) in Hx. }
  destruct (set_parts b AF_INET6 p h v) as (P1 & b3 & P2 & Hb3); [auto..|].
  exists b3. split; [|exact Hb3]. unfold set_string. rewrite re4_bracket, Em, E2, E3, E1.
  rewrite (proj1 (set_first_one set_port_str _ _ [] (dec_not_nil p))), P1.
  by rewrite (proj2 (set_first_one _ _ _ [] Hne)), P2.
Qed.
End text.

(** ** Properties *)

(** C29. The round trip of addresses: for an IPv4 address, and for an IPv6 address that
    the C library prints with hexadecimal digits and colons only, [set_string] on the
    text [str] prints reports that it has set an address and a port, and the family, the
    port and the octets of the address are those of the printed one, whatever they were
    before. (An IPv6 address that stands for an IPv4 address is printed with dots and
    is not read back, see [mapped_not_read].) *)
Theorem set_string_str inet_pton inet_ntop a b :
  wf a → wf b → printable inet_pton inet_ntop a →
  reads_as inet_pton b (str_ inet_ntop a) (family a) (port a) (addr_octets a).
Proof.
  intros Ha Hb [Hpt Hf]. pose proof (port_range a) as Hp.
  pose proof (addr_octets_size a Ha ltac:(tauto)) as Hv.
  unfold str_. rewrite to_string_nat by lia. unfold addr_octets in *.
  destruct Hf as [[H4 Et]|(H6 & Htne & Hh)].
  - rewrite H4, Z.eqb_refl in *. destruct (dotted_octets _ Hv) as (d1 & d2 & d3 & d4 & Ed & ?&?&?&?).
    rewrite Et, Ed in *. by apply reads_ip4.
  - rewrite H6 in *. by apply reads_ip6.
Qed.

(** The address of the server in the tests of the repository, and one for IPv6. *)
Definition sample_octets : bytes := [x0c; x22; x38; x4e].
Definition sample_octets6 : bytes := [xfe; x80] ++ replicate 13 x00 ++ [x01].

Definition sample_addr : Addr := set_addr_in (set_port_u16 Addr_new 7777) sample_octets.
Definition sample_addr6 : Addr := set_addr_in6 (set_port_u16 Addr_new 69) sample_octets6.

(** The C library on these two. *)
Definition sample_ntop (f : Z) (v : bytes) : bytes :=
  if f =? AF_INET then str "12.34.56.78" else str "fe80::1".

Definition sample_pton (f : Z) (t : bytes) : option bytes :=
  if (f =? AF_INET) && bool_decide (t = str "12.34.56.78") then Some sample_octets
  else if (f =? AF_INET6) && bool_decide (t = str "fe80::1") then Some sample_octets6
  else None.

Lemma set_string_str_witness :
  reads_as sample_pton Addr_new (str "12.34.56.78:7777") AF_INET 7777 sample_octets ∧
  reads_as sample_pton sample_addr (str "[fe80::1]:69") AF_INET6 69 sample_octets6.
Proof.
  split.
  - refine (set_string_str sample_pton sample_ntop sample_addr Addr_new _ _ _);
      [reflexivity|reflexivity|].
    split; [vm_compute; reflexivity|]. left. split; vm_compute; reflexivity.
  - refine (set_string_str sample_pton sample_ntop sample_addr6 sample_addr _ _ _);
      [reflexivity|reflexivity|].
    split; [vm_compute; reflexivity|]. right. split; [reflexivity|]. split; [discriminate|].
    by_decide.
Defined.

(** The text of an address that stands for an IPv4 address has dots, which the pattern
    of [set_string] does not have: it is not read back. *)
Theorem mapped_not_read inet_pton b :
  set_string inet_pton b (str "[::ffff:1.2.3.4]:69") = (b, (false, false)).
Proof.
  unfold set_string.
  assert (regex_search re4 (str "[::ffff:1.2.3.4]:69") = None) as -> by (vm_compute; reflexivity).
  by assert (regex_search re6 (str "[::ffff:1.2.3.4]:69") = None) as -> by (vm_compute; reflexivity).
Qed.
