(* ===== verification/Settings.v ===== *)
(** * Settings: the settings storage of [tftpSettings.h/.cpp]

    [class Settings] and the loading of the command line. [getopt_long] of the
    C library is a parameter in the form of what it returns: the sequence of
    its results up to the [-1] that ends the loop. *)

From Stdlib Require Import Strings.Byte.
From S2P Require Import Prelude Common SmBuf Regex Addr.

Definition default_tftp_port : Z := 69.
Definition default_retransmit_count : Z := 3.
Definition default_fb_dialect : Z := 3.
Definition default_tftp_syslog_lvl : Z := 6.
Definition default_file_chmod : Z := 436.   (* 0664 *)
Definition default_fb_lib_name : bytes := str "libfbclient.so".

Record Settings := {
  is_daemon : bool;
  local_base_ : Addr;
  root_dir : bytes;
  backup_dirs : list bytes;
  lib_dir : bytes;
  lib_name : bytes;
  db : bytes;
  user : bytes;
  pass : bytes;
  role : bytes;
  dialect : Z;
  use_syslog : Z;
  log_ : bool;                  (** whether a custom logger is set *)
  retransmit_count_ : Z;
  file_chown_user : bytes;
  file_chown_grp : bytes;
  file_chmod : Z
}.

Definition Settings_new : Settings := {|
  is_daemon := false;
  local_base_ := set_port_u16 (set_family Addr_new AF_INET) default_tftp_port;
  root_dir := []; backup_dirs := []; lib_dir := [];
  lib_name := default_fb_lib_name;
  db := []; user := []; pass := []; role := [];
  dialect := default_fb_dialect;
  use_syslog := default_tftp_syslog_lvl;
  log_ := false;
  retransmit_count_ := default_retransmit_count;
  file_chown_user := []; file_chown_grp := [];
  file_chmod := default_file_chmod
|}.

(** [make_shared<Settings>(Settings{})]: a new settings object. *)
Definition Settings_create : Settings := Settings_new.

(** One result of [getopt_long]: a short option with its argument, or a long
    option by its index in [longOpts] (those with [val] 0). *)
Inductive getopt_result :=
  | ShortOpt (c : byte) (optarg : option bytes)
  | LongOpt (longIndex : Z) (optarg : option bytes).

(** Replacement of one field. *)
Definition with_addr (s : Settings) (a : Addr) : Settings :=
  {| is_daemon := is_daemon s; local_base_ := a; root_dir := root_dir s;
     backup_dirs := backup_dirs s; lib_dir := lib_dir s; lib_name := lib_name s;
     db := db s; user := user s; pass := pass s; role := role s;
     dialect := dialect s; use_syslog := use_syslog s; log_ := log_ s;
     retransmit_count_ := retransmit_count_ s; file_chown_user := file_chown_user s;
     file_chown_grp := file_chown_grp s; file_chmod := file_chmod s |}.

Definition with_dirs (s : Settings) (root : bytes) (dirs : list bytes) : Settings :=
  {| is_daemon := is_daemon s; local_base_ := local_base_ s; root_dir := root;
     backup_dirs := dirs; lib_dir := lib_dir s; lib_name := lib_name s;
     db := db s; user := user s; pass := pass s; role := role s;
     dialect := dialect s; use_syslog := use_syslog s; log_ := log_ s;
     retransmit_count_ := retransmit_count_ s; file_chown_user := file_chown_user s;
     file_chown_grp := file_chown_grp s; file_chmod := file_chmod s |}.

Definition with_fb (s : Settings) (ld ln d u p r : bytes) (di : Z) : Settings :=
  {| is_daemon := is_daemon s; local_base_ := local_base_ s; root_dir := root_dir s;
     backup_dirs := backup_dirs s; lib_dir := ld; lib_name := ln;
     db := d; user := u; pass := p; role := r;
     dialect := di; use_syslog := use_syslog s; log_ := log_ s;
     retransmit_count_ := retransmit_count_ s; file_chown_user := file_chown_user s;
     file_chown_grp := file_chown_grp s; file_chmod := file_chmod s |}.

Definition with_run (s : Settings) (dm : bool) (sl : Z) (lg : bool) (rt : Z) : Settings :=
  {| is_daemon := dm; local_base_ := local_base_ s; root_dir := root_dir s;
     backup_dirs := backup_dirs s; lib_dir := lib_dir s; lib_name := lib_name s;
     db := db s; user := user s; pass := pass s; role := role s;
     dialect := dialect s; use_syslog := sl; log_ := lg;
     retransmit_count_ := rt; file_chown_user := file_chown_user s;
     file_chown_grp := file_chown_grp s; file_chmod := file_chmod s |}.

Definition with_file (s : Settings) (cu cg : bytes) (cm : Z) : Settings :=
  {| is_daemon := is_daemon s; local_base_ := local_base_ s; root_dir := root_dir s;
     backup_dirs := backup_dirs s; lib_dir := lib_dir s; lib_name := lib_name s;
     db := db s; user := user s; pass := pass s; role := role s;
     dialect := dialect s; use_syslog := use_syslog s; log_ := log_ s;
     retransmit_count_ := retransmit_count_ s; file_chown_user := cu;
     file_chown_grp := cg; file_chmod := cm |}.

(** ** Output *)

Definition endl : bytes := [x0a].

(** What [out_id] and [out_help] write to the stream. *)
Definition out_id : bytes :=
  str "Simple tftp firmware server 'server-fw' v" ++ app_version ++ str " licensed GPL-3.0" ++ endl
  ++ str "(c) 2019-2021 Vitaliy.V.Shirinkin, e-mail: vitaliy.shirinkin@gmail.com" ++ endl.

Definition out_help (app : bytes) : bytes :=
  out_id
  ++ str "Some features:" ++ endl
  ++ str "  - Recursive search requested files by md5 sum in search directory" ++ endl
  ++ str "  - Use Firebird SQL server as file storage (optional requirement)" ++ endl
  ++ str "Usage: " ++ app ++ str " [<option1> [<option1 argument>]] [<option2> [<option2 argument>]] ... " ++ endl
  ++ str "Possible options:" ++ endl
  ++ str "  {-h|-H|-?|--help} Show help message" ++ endl
  ++ str "  {-l|-L|--ip|--listen} {<IPv4>|[<IPv6>]}[:port] Listening address and port" ++ endl
  ++ str "    (default 0.0.0.0:" ++ to_string default_tftp_port ++ str ")" ++ endl
  ++ str "    Sample IPv4: 192.168.0.1:69" ++ endl
  ++ str "    Sample IPv6: [::1]:69" ++ endl
  ++ str "  {-s|-S|--syslog} <0...7> SYSLOG level flooding (default " ++ to_string default_tftp_syslog_lvl ++ str ")" ++ endl
  ++ str "  --lib-dir <directory> System library directory" ++ endl
  ++ str "  --lib-name <name> Firebird library filename (default " ++ default_fb_lib_name ++ str ")" ++ endl
  ++ str "  --root-dir <directory> Server root directory" ++ endl
  ++ str "  --search <directory> Directory for recursive search by md5 sum (may be much)" ++ endl
  ++ str "  --fb-db <database> Firebird access database name" ++ endl
  ++ str "  --fb-user <username> Firebird access user name" ++ endl
  ++ str "  --fb-pass <password> Firebird access password" ++ endl
  ++ str "  --fb-role <role> Firebird access role" ++ endl
  ++ str "  --fb-dialect <1...3> Firebird server dialect (default " ++ to_string default_fb_dialect ++ str ")" ++ endl
  ++ str "  --daemon Run as daemon" ++ endl
  ++ str "  --retransmit <N> Maximum retransmit count if fail" ++ endl
  ++ str "  --file-chuser <user name> Set user owner for created files (default root)" ++ endl
  ++ str "  --file-chgrp <group name> Set group owner for created files (default root)" ++ endl
  ++ str "    Warning: if user/group not exist then use root" ++ endl
  ++ str "  --file-chmod <permissions> Set permissions for created files (default 0664)" ++ endl
  ++ str "    Warning: can set only r/w bits - maximum 0666; can't set x-bits and superbits" ++ endl.

(** [LOG_PRI] of syslog: the low three bits. *)
Definition LOG_PRI (p : Z) : Z := Z.land p 7.

Section load.
Context (inet_pton : Z → bytes → option bytes).

(** The [switch(longIndex)]; [--daemon] has no argument. *)
Definition load_long (s : Settings) (longIndex : Z) (optarg : option bytes)
    : outcome Settings :=
  let fb := with_fb s in
  match optarg with
  | None => Ok (if longIndex =? 13
                then with_run s true (use_syslog s) (log_ s) (retransmit_count_ s)
                else s)
  | Some v =>
      if longIndex =? 4 then
        Ok (fb v (lib_name s) (db s) (user s) (pass s) (role s) (dialect s))
      else if longIndex =? 5 then
        Ok (fb (lib_dir s) v (db s) (user s) (pass s) (role s) (dialect s))
      else if longIndex =? 6 then Ok (with_dirs s v (backup_dirs s))
      else if longIndex =? 7 then Ok (with_dirs s (root_dir s) (backup_dirs s ++ [v]))
      else if longIndex =? 8 then
        Ok (fb (lib_dir s) (lib_name s) v (user s) (pass s) (role s) (dialect s))
      else if longIndex =? 9 then
        Ok (fb (lib_dir s) (lib_name s) (db s) v (pass s) (role s) (dialect s))
      else if longIndex =? 10 then
        Ok (fb (lib_dir s) (lib_name s) (db s) (user s) v (role s) (dialect s))
      else if longIndex =? 11 then
        Ok (fb (lib_dir s) (lib_name s) (db s) (user s) (pass s) v (dialect s))
      else if longIndex =? 12 then
        try_catch
          (n ← stoul v;
           Ok (fb (lib_dir s) (lib_name s) (db s) (user s) (pass s) (role s)
                 (u16 (Z.land n 65535))))
          (λ _, Ok s)
      else if longIndex =? 13 then
        Ok (with_run s true (use_syslog s) (log_ s) (retransmit_count_ s))
      else if longIndex =? 14 then
        try_catch
          (n ← stoul v;
           Ok (with_run s (is_daemon s) (use_syslog s) (log_ s)
                 (u16 (Z.land n 65535))))
          (λ _, Ok s)
      else if longIndex =? 15 then
        Ok (with_file s v (file_chown_grp s) (file_chmod s))
      else if longIndex =? 16 then
        Ok (with_file s (file_chown_user s) v (file_chmod s))
      else if longIndex =? 17 then
        n ← stoi v 8;
        Ok (with_file s (file_chown_user s) (file_chown_grp s) n)
      else Ok s
  end.

(** The [switch(opt)]: the settings and [ret]. *)
Definition load_one (s : Settings) (ret : bool) (r : getopt_result)
    : outcome (Settings * bool) :=
  match r with
  | ShortOpt c optarg =>
      if bool_decide (c = x6c) then         (* 'l' *)
        match optarg with
        | Some v => Ok (with_addr s (set_string inet_pton (local_base_ s) v).1, ret)
        | None => Ok (s, ret)
        end
      else if bool_decide (c = x73) || bool_decide (c = x53) then  (* 's', 'S' *)
        match optarg with
        | Some v =>
            s ← try_catch
                  (n ← stoi v 10;
                   Ok (with_run s (is_daemon s) (LOG_PRI n) (log_ s)
                         (retransmit_count_ s)))
                  (λ _, Ok s);
            Ok (s, ret)
        | None => Ok (s, ret)
        end
      else if bool_decide (c = x68) || bool_decide (c = x48)
              || bool_decide (c = x3f)      (* 'h', 'H', '?' *)
      then Ok (s, false)
      else Ok (s, ret)
  | LongOpt i optarg => s ← load_long s i optarg; Ok (s, ret)
  end.

Fixpoint load_loop (s : Settings) (ret : bool) (opts : list getopt_result)
    : outcome (Settings * bool) :=
  match opts with
  | [] => Ok (s, ret)
  | r :: opts => '(s, ret) ← load_one s ret r; load_loop s ret opts
  end.

Definition load_options (s : Settings) (argc : Z) (opts : list getopt_result)
    : outcome (Settings * bool) :=
  let s := with_dirs s (root_dir s) [] in
  if 1 <? argc then load_loop s true opts else Ok (s, true).

(** ** Lemmas *)

(** The search directory an option adds, and whether it asks for the help. *)
Definition search_of (r : getopt_result) : option bytes :=
  match r with
  | LongOpt i (Some v) => if i =? 7 then Some v else None
  | _ => None
  end.

Definition is_help (r : getopt_result) : bool :=
  match r with
  | ShortOpt c _ => bool_decide (c = x68) || bool_decide (c = x48) || bool_decide (c = x3f)
  | _ => false
  end.

Lemma try_catch_ok {A} (c : outcome A) h a :
  try_catch c h = Ok a → (∃ e, c = Throw e ∧ h e = Ok a) ∨ c = Ok a.
Proof. destruct c; simpl; eauto. Qed.

Lemma load_long_dirs s i v s' :
  load_long s i v = Ok s' →
  backup_dirs s' = backup_dirs s ++ option_list (search_of (LongOpt i v)).
Proof.
  unfold load_long. destruct v as [v|]; cbn [search_of option_list].
  2: { intros [= <-]. destruct (i =? 13); simpl; by rewrite app_nil_r. }
  destruct (i =? 7) eqn:E7; reflect_bools.
  { subst i. simpl. by intros [= <-]. }
  rewrite app_nil_r. intros H. inv_ok; try done;
    try (apply try_catch_ok in H as [(e & _ & [= <-])|H]; inv_ok; done).
Qed.

Lemma load_one_dirs s ret r s' ret' :
  load_one s ret r = Ok (s', ret') →
  backup_dirs s' = backup_dirs s ++ option_list (search_of r) ∧
  ret' = ret && negb (is_help r).
Proof.
  destruct r as [c v|i v].
  - unfold load_one. cbn [search_of option_list is_help]. rewrite app_nil_r.
    case_bool_decide as El; [subst c|].
    { change (negb _) with true. rewrite andb_true_r.
      destruct v; intros; simplify_eq; split; reflexivity. }
    destruct (bool_decide (c = x73) || bool_decide (c = x53)) eqn:Es.
    { assert (bool_decide (c = x68) || bool_decide (c = x48) || bool_decide (c = x3f)
              = false) as ->.
      { apply orb_true_iff in Es as [->%bool_decide_eq_true| ->%bool_decide_eq_true];
          reflexivity. }
      rewrite andb_true_r. destruct v as [v|]; intros H; [|simplify_eq; split; reflexivity].
      apply bind_Ok in H as (s1 & H1 & H). simplify_eq.
      apply try_catch_ok in H1 as [(e & _ & [= <-])|H1]; inv_ok; split; reflexivity. }
    destruct (_ || _ || _); intros; simplify_eq; (split; [done|]); symmetry;
      [apply andb_false_r|apply andb_true_r].
  - cbn [load_one is_help]. intros H. apply bind_Ok in H as (s1 & H1 & H). simplify_eq.
    rewrite andb_true_r. split; [by apply load_long_dirs|done].
Qed.

Lemma load_loop_dirs s ret opts s' ret' :
  load_loop s ret opts = Ok (s', ret') →
  backup_dirs s' = backup_dirs s ++ omap search_of opts ∧
  ret' = ret && forallb (λ r, negb (is_help r)) opts.
Proof.
  revert s ret. induction opts as [|r opts IH]; intros s ret H.
  - simpl in *. simplify_eq. by rewrite app_nil_r, andb_true_r.
  - cbn [load_loop] in H. apply bind_Ok in H as ([s1 r1] & H1 & H).
    apply load_one_dirs in H1 as [Hd ->]. apply IH in H as [-> ->].
    rewrite Hd, <-app_assoc. cbn [forallb omap list_omap].
    split; [by destruct (search_of r)|by rewrite andb_assoc].
Qed.
End load.

(** ** Properties *)

(** The search directories after loading are exactly the arguments of [--search],
    in order, whatever they were before; and the result is [false] exactly when
    an option asked for the help. *)
Theorem load_options_search inet_pton s argc opts s' ret :
  1 < argc → load_options inet_pton s argc opts = Ok (s', ret) →
  backup_dirs s' = omap search_of opts ∧
  ret = forallb (λ r, negb (is_help r)) opts.
Proof.
  unfold load_options. intros Ha H. rewrite (proj2 (Z.ltb_lt _ _)) in H by lia.
  by apply load_loop_dirs in H.
Qed.

Definition sample_opts : list getopt_result :=
  [LongOpt 7 (Some (str "/a")); ShortOpt x73 (Some (str "x")); LongOpt 14 (Some (str "9"));
   LongOpt 7 (Some (str "/b"))].

Lemma load_options_search_witness :
  ∃ s', load_options (λ _ _, None) Settings_new 5 sample_opts = Ok (s', true) ∧
        backup_dirs s' = [str "/a"; str "/b"].
Proof.
  destruct (load_options (λ _ _, None) Settings_new 5 sample_opts) as [[s' r]| |] eqn:E;
    [|vm_compute in E; discriminate E..].
  destruct (load_options_search (λ _ _, None) Settings_new 5 sample_opts s' r)
    as [H1 H2]; [lia|exact E|].
  exists s'. rewrite H1, H2. split; reflexivity.
Defined.

(** The help text offers [-L] as a spelling of [-l], and [getopt_long] accepts it
    with an argument, but loading it changes nothing. *)
Theorem load_options_ignores_L inet_pton s ret v :
  load_one inet_pton s ret (ShortOpt x4c v) = Ok (s, ret).
Proof. reflexivity. Qed.

(** A [--file-chmod] argument that is not an octal number leaves [load_options]
    with an exception, unlike the other numeric options, which ignore it. *)
Theorem load_options_chmod_throws inet_pton s v e :
  stoi v 8 = Throw e →
  load_options inet_pton s 3 [LongOpt 17 (Some v)] = Throw e.
Proof. intros H. cbn. unfold load_long. cbn. by rewrite H. Qed.

Lemma load_options_chmod_throws_witness :
  load_options (λ _ _, None) Settings_new 3 [LongOpt 17 (Some (str "rw"))]
  = Throw invalid_argument.
Proof. apply load_options_chmod_throws. vm_compute. reflexivity. Defined.
