(* ===== verification/Base.v ===== *)
(** * Base: settings access and logging of [tftpBase.h/.cpp]

    [class Base] gives its subclasses (server, session, file manager) read
    access to the shared settings and a logger. The getters are functions of
    the settings object, as when they run alone; the locks they take, the
    sharing of the settings and concurrent calls are the subject of [Locks].
    [log] is the list of what it emits. *)

From Stdlib Require Import Strings.Byte.
From S2P Require Import Prelude Common SmBuf Regex Addr Settings.

(** [settings_ == nullptr] is replaced by new settings in the constructor. *)
Definition Base_new (sett : option Settings) : Settings :=
  default Settings_create sett.

(** [Base()] is [Base(nullptr)]. *)
Definition Base_default : Settings := Base_new None.

(** [get_ptr]: the settings themselves. *)
Definition get_ptr (s : Settings) : Settings := s.

(** [operator=]: the settings of the source are shared. *)
Definition Base_assign (this src : Settings) : Settings := src.

Definition server_addr (s : Settings) : Addr := local_base_ s.

(** A message goes to syslog when its level passes, and to the custom logger
    when there is one. *)
Inductive log_sink := to_syslog | to_custom.

Definition log (s : Settings) (lvl : LogLvl.t) (msg : bytes)
    : list (log_sink * LogLvl.t * bytes) :=
  (if LogLvl_val lvl <=? use_syslog s then [(to_syslog, lvl, msg)] else [])
  ++ (if log_ s then [(to_custom, lvl, msg)] else []).

Definition set_logger (s : Settings) (new_logger : bool) : Settings :=
  with_run s (is_daemon s) (use_syslog s) new_logger (retransmit_count_ s).

(** The last character is a slash. *)
Definition fin_slash (d : bytes) : bool := bool_decide (list.last d = Some x2f).

Definition get_root_dir (s : Settings) : bytes :=
  if negb (size (root_dir s) =? 0)
  then root_dir s ++ (if fin_slash (root_dir s) then [] else str "/")
  else [].

Definition get_lib_dir (s : Settings) : bytes :=
  lib_dir s ++ (if negb (size (lib_dir s) =? 0) && fin_slash (lib_dir s)
                then [] else str "/").

Definition get_lib_name_fb (s : Settings) : bytes := lib_name s.

Definition get_retransmit_count (s : Settings) : Z := retransmit_count_ s.

Definition get_connection (s : Settings) : bytes * bytes * bytes * bytes * Z :=
  (db s, user s, pass s, role s, dialect s).

Definition get_local_base_str (inet_ntop : Z → bytes → bytes) (s : Settings) : bytes :=
  str_ inet_ntop (local_base_ s).

Definition get_is_daemon (s : Settings) : bool := is_daemon s.

Definition get_serach_dir (s : Settings) : list bytes :=
  foldl (λ ret one_dir, ret ++ [one_dir]) [] (backup_dirs s).

Definition Base_load_options (inet_pton : Z → bytes → option bytes) (s : Settings)
    (argc : Z) (opts : list getopt_result) : outcome (Settings * bool) :=
  load_options inet_pton s argc opts.

Definition Base_out_help (s : Settings) (app : bytes) : bytes := out_help app.
Definition Base_out_id (s : Settings) : bytes := out_id.

Definition get_file_chmod (s : Settings) : Z := file_chmod s.
Definition get_file_chown_user (s : Settings) : bytes := file_chown_user s.
Definition get_file_chown_grp (s : Settings) : bytes := file_chown_grp s.

(** ** Lemmas *)

Lemma get_serach_dir_eq s : get_serach_dir s = backup_dirs s.
Proof.
  unfold get_serach_dir.
  assert (∀ acc l, foldl (λ ret (one_dir : bytes), ret ++ [one_dir]) acc l = acc ++ l) as H.
  { intros acc l. revert acc. induction l as [|d l IH]; intros acc; simpl.
    - by rewrite app_nil_r.
    - by rewrite IH, <-app_assoc. }
  apply H.
Qed.

Lemma last_app_slash d : list.last (d ++ str "/") = Some x2f.
Proof. by apply last_snoc. Qed.

(** ** Properties *)

(** The root directory is empty or ends with a slash, and one is added only when
    it is missing. *)
Theorem get_root_dir_slash s :
  (root_dir s = [] ∧ get_root_dir s = []) ∨
  (list.last (get_root_dir s) = Some x2f ∧
   (get_root_dir s = root_dir s ∨ get_root_dir s = root_dir s ++ str "/")).
Proof.
  unfold get_root_dir, fin_slash. destruct (root_dir s) as [|c l] eqn:E; [by left|].
  right. change (negb (size (c :: l) =? 0)) with true. cbv iota.
  case_bool_decide as H; [rewrite app_nil_r; by auto|].
  split; [apply last_app_slash|by right].
Qed.

(** A message of a level above [use_syslog] reaches only the custom logger; a
    message of a passing level reaches syslog first. *)
Theorem log_sinks s lvl msg :
  (to_syslog, lvl, msg) ∈ log s lvl msg ↔ LogLvl_val lvl ≤ use_syslog s.
Proof.
  unfold log. rewrite elem_of_app.
  destruct (LogLvl_val lvl <=? use_syslog s) eqn:E; reflect_bools; destruct (log_ s);
    rewrite ?list_elem_of_singleton; split; try lia; try tauto; try set_solver.
Qed.
