(* ===== verification/Locks.v ===== *)
(** * Locks: concurrent access to the settings of [tftpBase.h/.cpp]

    Every [Base] object has a [shared_mutex] of its own and a shared pointer to a
    settings object. A method is here a program ([prog]) of single accesses: it
    takes the lock, loads the pointer, reads or changes fields, and releases the
    lock when [lk] leaves its scope. Calls run concurrently ([lstep]); a
    [shared_mutex] is held by one unique or by any number of shared owners. As
    long as objects that share their settings are only read, concurrent calls
    have the effect of the functions of [Base], one after the other; without that
    condition they do not. *)

From Stdlib Require Import Strings.Byte.
From stdpp Require Import relations.
From S2P Require Import Prelude Common SmBuf Regex Addr Settings Base.

(** ** Fields *)
Module Fld.
Inductive t :=
  | is_daemon | local_base_ | root_dir | backup_dirs | lib_dir | lib_name | db | user
  | pass | role | dialect | use_syslog | log_ | retransmit_count_ | file_chown_user
  | file_chown_grp | file_chmod.

#[export] Instance t_eq_decision : EqDecision t.
Proof. solve_decision. Defined.
End Fld.

Definition fld_type (f : Fld.t) : Set :=
  match f with
  | Fld.is_daemon | Fld.log_ => bool
  | Fld.local_base_ => Addr
  | Fld.backup_dirs => list bytes
  | Fld.dialect | Fld.use_syslog | Fld.retransmit_count_ | Fld.file_chmod => Z
  | _ => bytes
  end.

Definition fget (s : Settings) (f : Fld.t) : fld_type f :=
  match f with
  | Fld.is_daemon => is_daemon s
  | Fld.local_base_ => local_base_ s
  | Fld.root_dir => root_dir s
  | Fld.backup_dirs => backup_dirs s
  | Fld.lib_dir => lib_dir s
  | Fld.lib_name => lib_name s
  | Fld.db => db s
  | Fld.user => user s
  | Fld.pass => pass s
  | Fld.role => role s
  | Fld.dialect => dialect s
  | Fld.use_syslog => use_syslog s
  | Fld.log_ => log_ s
  | Fld.retransmit_count_ => retransmit_count_ s
  | Fld.file_chown_user => file_chown_user s
  | Fld.file_chown_grp => file_chown_grp s
  | Fld.file_chmod => file_chmod s
  end.

(** ** Programs *)

Inductive mode := shared | unique.

#[export] Instance mode_eq_decision : EqDecision mode.
Proof. solve_decision. Defined.

(** What a method returns. *)
Inductive reply :=
  | RVoid
  | RAddr (a : Addr)
  | RText (b : bytes)
  | RNum (n : Z)
  | RFlag (b : bool)
  | RDirs (l : list bytes)
  | RConn (c : bytes * bytes * bytes * bytes * Z)
  | RLog (l : list (log_sink * LogLvl.t * bytes))
  | RLoad (r : outcome bool).

(** Objects and settings have numbers. [Change] is a change of the fields listed
    in one settings object, with a result. *)
Inductive prog :=
  | Ret (r : reply)
  | Lock (md : mode) (o : nat) (k : prog)
  | Unlock (o : nat) (k : prog)
  | LoadPtr (o : nat) (k : nat → prog)
  | StorePtr (o p : nat) (k : prog)
  | Read (p : nat) (f : Fld.t) (k : fld_type f → prog)
  | Change (p : nat) (fs : list Fld.t) (g : Settings → Settings * outcome bool)
      (k : outcome bool → prog).

(** [auto lk = begin_shared();] and [auto lk = begin_unique();]: the lock is held
    until the method returns. *)
Definition begin_shared (o : nat) (body : (reply → prog) → prog) : prog :=
  Lock shared o (body (λ r, Unlock o (Ret r))).

Definition begin_unique (o : nat) (body : (reply → prog) → prog) : prog :=
  Lock unique o (body (λ r, Unlock o (Ret r))).

(** [settings_->f]. *)
Definition arrow (o : nat) (f : Fld.t) (k : fld_type f → prog) : prog :=
  LoadPtr o (λ p, Read p f k).

(** ** The methods of [Base] *)

Section methods.
Context (inet_pton : Z → bytes → option bytes) (inet_ntop : Z → bytes → bytes).

Definition server_addr_prog (o : nat) : prog :=
  begin_shared o (λ ret, arrow o Fld.local_base_ (λ a, ret (RAddr a))).

Definition log_prog (lvl : LogLvl.t) (msg : bytes) (o : nat) : prog :=
  begin_shared o (λ ret,
    arrow o Fld.use_syslog (λ n,
      let out := if LogLvl_val lvl <=? n then [(to_syslog, lvl, msg)] else [] in
      arrow o Fld.log_ (λ b : bool,
        if b then arrow o Fld.log_ (λ _, ret (RLog (out ++ [(to_custom, lvl, msg)])))
        else ret (RLog out)))).

Definition set_logger_prog (new_logger : bool) (o : nat) : prog :=
  begin_unique o (λ ret,
    LoadPtr o (λ p,
      Change p [Fld.log_] (λ s, (set_logger s new_logger, Ok true)) (λ _, ret RVoid))).

Definition get_root_dir_prog (o : nat) : prog :=
  begin_shared o (λ ret,
    arrow o Fld.root_dir (λ d : bytes,
      if negb (size d =? 0) then
        arrow o Fld.root_dir (λ d : bytes,
          let concat (fin : bool) :=
            arrow o Fld.root_dir (λ d : bytes,
              ret (RText (d ++ (if fin then [] else str "/")))) in
          if negb (size d =? 0) then
            arrow o Fld.root_dir (λ d : bytes, concat (fin_slash d))
          else concat false)
      else ret (RText []))).

Definition get_lib_dir_prog (o : nat) : prog :=
  begin_shared o (λ ret,
    arrow o Fld.lib_dir (λ d : bytes,
      let concat (fin : bool) :=
        arrow o Fld.lib_dir (λ d : bytes,
          ret (RText (d ++ (if fin then [] else str "/")))) in
      if negb (size d =? 0) then
        arrow o Fld.lib_dir (λ d : bytes, concat (fin_slash d))
      else concat false)).

Definition get_lib_name_fb_prog (o : nat) : prog :=
  begin_shared o (λ ret, arrow o Fld.lib_name (λ b, ret (RText b))).

Definition get_retransmit_count_prog (o : nat) : prog :=
  begin_shared o (λ ret, arrow o Fld.retransmit_count_ (λ n, ret (RNum n))).

Definition get_connection_prog (o : nat) : prog :=
  begin_shared o (λ ret,
    arrow o Fld.db (λ d, arrow o Fld.user (λ u, arrow o Fld.pass (λ p,
    arrow o Fld.role (λ r, arrow o Fld.dialect (λ n, ret (RConn (d, u, p, r, n)))))))).

Definition get_local_base_str_prog (o : nat) : prog :=
  begin_shared o (λ ret, arrow o Fld.local_base_ (λ a, ret (RText (str_ inet_ntop a)))).

Definition get_is_daemon_prog (o : nat) : prog :=
  begin_shared o (λ ret, arrow o Fld.is_daemon (λ b, ret (RFlag b))).

Definition get_serach_dir_prog (o : nat) : prog :=
  begin_shared o (λ ret,
    arrow o Fld.backup_dirs (λ l : list bytes,
      ret (RDirs (foldl (λ acc one_dir, acc ++ [one_dir]) [] l)))).

(** The field an option of the command line sets. *)
Definition opt_fields (r : getopt_result) : list Fld.t :=
  match r with
  | ShortOpt c _ =>
      if bool_decide (c = x6c) then [Fld.local_base_]
      else if bool_decide (c = x73) || bool_decide (c = x53) then [Fld.use_syslog]
      else []
  | LongOpt i _ =>
      if i <? 4 then []
      else from_option (λ f, [f]) []
        ([Fld.lib_dir; Fld.lib_name; Fld.root_dir; Fld.backup_dirs; Fld.db; Fld.user;
          Fld.pass; Fld.role; Fld.dialect; Fld.is_daemon; Fld.retransmit_count_;
          Fld.file_chown_user; Fld.file_chown_grp; Fld.file_chmod] !! Z.to_nat (i - 4))
  end.

(** One option: an exception leaves the settings as they are. *)
Definition load_change (ret : bool) (r : getopt_result) (s : Settings)
    : Settings * outcome bool :=
  match load_one inet_pton s ret r with
  | Ok (s', ret') => (s', Ok ret')
  | Throw e => (s, Throw e)
  | Undef => (s, Undef)
  end.

(** The loop of [Settings::load_options], whose [this] is [p]; an exception
    leaves it, and releases the lock. *)
Fixpoint load_loop_prog (p : nat) (ret : bool) (opts : list getopt_result)
    (return_ : outcome bool → prog) : prog :=
  match opts with
  | [] => return_ (Ok ret)
  | r :: opts =>
      Change p (opt_fields r) (load_change ret r) (λ res,
        match res with
        | Ok ret => load_loop_prog p ret opts return_
        | _ => return_ res
        end)
  end.

Definition load_options_prog (argc : Z) (opts : list getopt_result) (o : nat) : prog :=
  begin_unique o (λ ret,
    LoadPtr o (λ p,
      Change p [Fld.backup_dirs] (λ s, (with_dirs s (root_dir s) [], Ok true)) (λ _,
        if 1 <? argc then load_loop_prog p true opts (λ r, ret (RLoad r))
        else ret (RLoad (Ok true))))).

Definition out_help_prog (app : bytes) (o : nat) : prog :=
  begin_shared o (λ ret, LoadPtr o (λ _, ret (RText (out_help app)))).

Definition out_id_prog (o : nat) : prog :=
  begin_shared o (λ ret, LoadPtr o (λ _, ret (RText out_id))).

Definition get_file_chmod_prog (o : nat) : prog :=
  begin_shared o (λ ret, arrow o Fld.file_chmod (λ n, ret (RNum n))).

Definition get_file_chown_user_prog (o : nat) : prog :=
  begin_shared o (λ ret, arrow o Fld.file_chown_user (λ b, ret (RText b))).

Definition get_file_chown_grp_prog (o : nat) : prog :=
  begin_shared o (λ ret, arrow o Fld.file_chown_grp (λ b, ret (RText b))).

(** [operator=]: the pointers are compared before the lock is taken, and the
    lock of the source is not. *)
Definition assign_prog (src o : nat) : prog :=
  LoadPtr o (λ p, LoadPtr src (λ q,
    if decide (p ≠ q) then
      begin_unique o (λ ret, LoadPtr src (λ q, StorePtr o q (ret RVoid)))
    else Ret RVoid)).

(** The methods that take the lock for everything they do. *)
Inductive method :=
  | m_server_addr | m_log (lvl : LogLvl.t) (msg : bytes) | m_set_logger (new_logger : bool)
  | m_get_root_dir | m_get_lib_dir | m_get_lib_name_fb | m_get_retransmit_count
  | m_get_connection | m_get_local_base_str | m_get_is_daemon | m_get_serach_dir
  | m_load_options (argc : Z) (opts : list getopt_result) | m_out_help (app : bytes)
  | m_out_id | m_get_file_chmod | m_get_file_chown_user | m_get_file_chown_grp.

Definition body (m : method) : nat → prog :=
  match m with
  | m_server_addr => server_addr_prog
  | m_log lvl msg => log_prog lvl msg
  | m_set_logger l => set_logger_prog l
  | m_get_root_dir => get_root_dir_prog
  | m_get_lib_dir => get_lib_dir_prog
  | m_get_lib_name_fb => get_lib_name_fb_prog
  | m_get_retransmit_count => get_retransmit_count_prog
  | m_get_connection => get_connection_prog
  | m_get_local_base_str => get_local_base_str_prog
  | m_get_is_daemon => get_is_daemon_prog
  | m_get_serach_dir => get_serach_dir_prog
  | m_load_options argc opts => load_options_prog argc opts
  | m_out_help app => out_help_prog app
  | m_out_id => out_id_prog
  | m_get_file_chmod => get_file_chmod_prog
  | m_get_file_chown_user => get_file_chown_user_prog
  | m_get_file_chown_grp => get_file_chown_grp_prog
  end.

Definition mode_of (m : method) : mode :=
  match m with m_set_logger _ | m_load_options _ _ => unique | _ => shared end.

(** What a method does when nothing runs beside it, by the functions of [Base].
    Options before one that throws have been stored. *)
Fixpoint load_partial (s : Settings) (ret : bool) (opts : list getopt_result)
    : Settings * outcome bool :=
  match opts with
  | [] => (s, Ok ret)
  | r :: opts =>
      match load_one inet_pton s ret r with
      | Ok (s, ret) => load_partial s ret opts
      | Throw e => (s, Throw e)
      | Undef => (s, Undef)
      end
  end.

Definition alone (m : method) (s : Settings) : Settings * reply :=
  match m with
  | m_server_addr => (s, RAddr (server_addr s))
  | m_log lvl msg => (s, RLog (log s lvl msg))
  | m_set_logger l => (set_logger s l, RVoid)
  | m_get_root_dir => (s, RText (get_root_dir s))
  | m_get_lib_dir => (s, RText (get_lib_dir s))
  | m_get_lib_name_fb => (s, RText (get_lib_name_fb s))
  | m_get_retransmit_count => (s, RNum (get_retransmit_count s))
  | m_get_connection => (s, RConn (get_connection s))
  | m_get_local_base_str => (s, RText (get_local_base_str inet_ntop s))
  | m_get_is_daemon => (s, RFlag (get_is_daemon s))
  | m_get_serach_dir => (s, RDirs (get_serach_dir s))
  | m_load_options argc opts =>
      let s := with_dirs s (root_dir s) [] in
      let '(s, r) := if 1 <? argc then load_partial s true opts else (s, Ok true) in
      (s, RLoad r)
  | m_out_help app => (s, RText (Base_out_help s app))
  | m_out_id => (s, RText (Base_out_id s))
  | m_get_file_chmod => (s, RNum (get_file_chmod s))
  | m_get_file_chown_user => (s, RText (get_file_chown_user s))
  | m_get_file_chown_grp => (s, RText (get_file_chown_grp s))
  end.
End methods.

(** ** Concurrent calls *)

(** A call under way: the lock it holds and what is left of it. *)
Record call := { held : option (nat * mode); rest : prog }.

(** The settings objects, the pointer of each [Base] object and the calls. *)
Record cfg := { heap : list Settings; ptrs : list nat; calls : list call }.

(** [shared_mutex]: a unique owner excludes every other, a shared owner every
    unique one. *)
Definition excludes (md : mode) (o : nat) (c : call) : bool :=
  match held c with
  | Some (o', md') => bool_decide (o' = o) && bool_decide (¬ (md = shared ∧ md' = shared))
  | None => false
  end.

Definition can_lock (md : mode) (o : nat) (cs : list call) : bool :=
  forallb (λ c, negb (excludes md o c)) cs.

(** The next access of call [i]; [None] when it waits or has returned. *)
Definition lstep (c : cfg) (i : nat) : option cfg :=
  t ← calls c !! i;
  let go h ps hd k :=
    Some {| heap := h; ptrs := ps; calls := <[i := {| held := hd; rest := k |}]> (calls c) |} in
  match rest t with
  | Ret _ => None
  | Lock md o k =>
      match held t with
      | None => if can_lock md o (calls c) then go (heap c) (ptrs c) (Some (o, md)) k else None
      | Some _ => None
      end
  | Unlock o k =>
      match held t with
      | Some (o', _) => if decide (o' = o) then go (heap c) (ptrs c) None k else None
      | None => None
      end
  | LoadPtr o k => p ← ptrs c !! o; go (heap c) (ptrs c) (held t) (k p)
  | StorePtr o p k => go (heap c) (<[o := p]> (ptrs c)) (held t) k
  | Read p f k => s ← heap c !! p; go (heap c) (ptrs c) (held t) (k (fget s f))
  | Change p _ g k =>
      s ← heap c !! p;
      let '(s', r) := g s in go (<[p := s']> (heap c)) (ptrs c) (held t) (k r)
  end.

Definition csteps : cfg → cfg → Prop := rtc (λ c c', ∃ i, lstep c i = Some c').

Fixpoint schedule (c : cfg) (js : list nat) : option cfg :=
  match js with
  | [] => Some c
  | j :: js => c' ← lstep c j; schedule c' js
  end.

Lemma schedule_steps c js c' : schedule c js = Some c' → csteps c c'.
Proof.
  revert c. induction js as [|j js IH]; intros c E; cbn in E; [by simplify_eq|].
  destruct (lstep c j) as [c1|] eqn:E1; [|done]. eapply rtc_l; [by exists j|by apply IH].
Qed.

Definition fresh (pr : prog) : call := {| held := None; rest := pr |}.

(** The memory a call accesses next, and whether it changes it. *)
Inductive access := APtr (o : nat) | AField (p : nat) (f : Fld.t).

Definition accesses (c : call) (a : access) (writes : bool) : Prop :=
  match rest c, a with
  | LoadPtr o _, APtr o' => o' = o ∧ writes = false
  | StorePtr o _ _, APtr o' => o' = o ∧ writes = true
  | Read p f _, AField p' f' => p' = p ∧ f' = f ∧ writes = false
  | Change p fs _ _, AField p' f' => p' = p ∧ f' ∈ fs ∧ writes = true
  | _, _ => False
  end.

(** Two calls are about to access the same memory, at least one to change it. *)
Definition race (c : cfg) : Prop :=
  ∃ i j ci cj a w, i ≠ j ∧ calls c !! i = Some ci ∧ calls c !! j = Some cj ∧
    accesses ci a w ∧ accesses cj a true.

(** ** Locked programs *)

(** What is left of a method of object [o] with settings [p] that holds its lock
    in mode [md]: everything up to the release. *)
Fixpoint locked (o p : nat) (md : mode) (pr : prog) : Prop :=
  match pr with
  | Unlock o' k => o' = o ∧ ∃ r, k = Ret r
  | LoadPtr o' k => o' = o ∧ locked o p md (k p)
  | Read p' f k => p' = p ∧ ∀ v, locked o p md (k v)
  | Change p' fs g k =>
      p' = p ∧ md = unique ∧ (∀ s f, f ∉ fs → fget (g s).1 f = fget s f) ∧
      ∀ r, locked o p md (k r)
  | Ret _ | Lock _ _ _ | StorePtr _ _ _ => False
  end.

(** The rest of such a program on the settings [s], undisturbed. *)
Fixpoint finish_ (p : nat) (pr : prog) (s : Settings) : Settings * reply :=
  match pr with
  | Ret r => (s, r)
  | Lock _ _ k | Unlock _ k | StorePtr _ _ k => finish_ p k s
  | LoadPtr _ k => finish_ p (k p) s
  | Read _ f k => finish_ p (k (fget s f)) s
  | Change _ _ g k => let '(s', r) := g s in finish_ p (k r) s'
  end.

Section bodies.
Context (inet_pton : Z → bytes → option bytes) (inet_ntop : Z → bytes → bytes).

(** An option changes its field only. *)
Lemma load_long_frame s i v s' f :
  load_long s i v = Ok s' → f ∉ opt_fields (LongOpt i v) → fget s' f = fget s f.
Proof.
  assert (Hi : ∀ k l, i = k → opt_fields (LongOpt k v) = l → f ∉ opt_fields (LongOpt i v) → f ∉ l)
    by (by intros k l -> ->).
  unfold load_long. destruct v as [v|]; intros E Hf.
  - repeat (destruct (i =? _) eqn:Ei; reflect_bools;
      [subst i; cbn in Hf|clear Ei]); try by simplify_eq.
    all: try (apply try_catch_ok in E as [(e & _ & E)|E]; [by simplify_eq|]).
    all: try (apply bind_Ok in E as (n & _ & E)).
    all: simplify_eq; destruct f; try done; by destruct Hf; constructor.
  - destruct (i =? 13) eqn:Ei; reflect_bools; [subst i; cbn in Hf|]; simplify_eq; [|done].
    destruct f; try done. by destruct Hf; constructor.
Qed.

Lemma load_change_frame ret r s f :
  f ∉ opt_fields r → fget (load_change inet_pton ret r s).1 f = fget s f.
Proof.
  intros Hf. unfold load_change. destruct (load_one _ s ret r) as [[s' ret']| |] eqn:E; [|done..].
  cbn. unfold load_one in E. destruct r as [c v|i v].
  2: { apply bind_Ok in E as (s1 & E & ?). simplify_eq. by eapply load_long_frame. }
  cbn in Hf. destruct (bool_decide (c = x6c)).
  { destruct v; simplify_eq; [|done]. destruct f; try done. by destruct Hf; constructor. }
  destruct (_ || _); [|destruct (_ || _); by simplify_eq].
  destruct v; [|by simplify_eq]. apply bind_Ok in E as (s1 & E & ?). simplify_eq.
  apply try_catch_ok in E as [(e & _ & E)|E]; [by simplify_eq|].
  apply bind_Ok in E as (n & _ & E). simplify_eq.
  destruct f; try done. by destruct Hf; constructor.
Qed.

Lemma load_loop_locked o p ret opts (k : outcome bool → prog) :
  (∀ r, locked o p unique (k r)) → locked o p unique (load_loop_prog inet_pton p ret opts k).
Proof.
  intros Hk. revert ret. induction opts as [|r opts IH]; intros ret; cbn; [done|].
  split_and!; try done; [intros; by apply load_change_frame|]. intros [?| |]; auto.
Qed.

(** Every method takes its lock, and then only does what the lock allows. *)
Lemma body_locked m o :
  ∃ k, body inet_pton inet_ntop m o = Lock (mode_of m) o k ∧ ∀ p, locked o p (mode_of m) k.
Proof.
  destruct m; eexists; (split; [reflexivity|]); intros p; cbn;
    repeat (split || intro || case_match || (eexists; reflexivity)); try done.
  - destruct f; try done. by destruct H; constructor.
  - destruct f; try done. by destruct H; constructor.
  - apply load_loop_locked. intros r0. cbn. eauto.
Qed.

Lemma load_loop_finish o p ret opts s :
  finish_ p (load_loop_prog inet_pton p ret opts (λ r, Unlock o (Ret (RLoad r)))) s
  = let '(s, r) := load_partial inet_pton s ret opts in (s, RLoad r).
Proof.
  revert ret s. induction opts as [|r opts IH]; intros ret s; cbn; [done|].
  unfold load_change. by destruct (load_one _ s ret r) as [[s' ret']| |].
Qed.

(** Undisturbed, the accesses of a method add up to the function of [Base]. *)
Lemma body_finish m o p s :
  finish_ p (body inet_pton inet_ntop m o) s = alone inet_pton inet_ntop m s.
Proof.
  destruct m; try reflexivity; cbn.
  - unfold log. destruct (log_ s); [done|]. cbn. by rewrite app_nil_r.
  - unfold get_root_dir. destruct (negb _) eqn:E; [|done]. cbn. by rewrite E.
  - unfold get_lib_dir. destruct (negb _) eqn:E; cbn; by rewrite ?E.
  - destruct (1 <? argc); [|done]. cbn. by rewrite load_loop_finish.
Qed.

(** ** Linearization *)

(** The calls of the program: an object and a method each. *)
Context (ps : list nat) (cs : list (nat * method)).

(** Objects that share their settings are only read. *)
Definition separate : Prop :=
  ∀ i j o1 m1 o2 m2 p, cs !! i = Some (o1, m1) → cs !! j = Some (o2, m2) →
    ps !! o1 = Some p → ps !! o2 = Some p → o1 ≠ o2 → mode_of m1 = shared ∧ mode_of m2 = shared.

(** The running server only reads: its sessions and file managers share the
    settings and call no method that changes them. *)
Lemma readers_separate : Forall (λ om, mode_of om.2 = shared) cs → separate.
Proof.
  intros Hall i j o1 m1 o2 m2 p Hi Hj _ _ _.
  split; [exact (Forall_lookup_1 _ _ _ _ Hall Hi)|exact (Forall_lookup_1 _ _ _ _ Hall Hj)].
Qed.

Definition in_range (h : list Settings) : Prop :=
  ∀ i o m, cs !! i = Some (o, m) → ∃ p s, ps !! o = Some p ∧ h !! p = Some s.

Definition started (h : list Settings) : cfg :=
  {| heap := h; ptrs := ps;
     calls := map (λ om, fresh (body inet_pton inet_ntop om.2 om.1)) cs |}.

(** The calls of [order], one after the other. *)
Fixpoint one_by_one (h : list Settings) (order : list nat)
    : option (list Settings * list (nat * reply)) :=
  match order with
  | [] => Some (h, [])
  | i :: order =>
      '(o, m) ← cs !! i; p ← ps !! o; s ← h !! p;
      let '(s', r) := alone inet_pton inet_ntop m s in
      '(h', rs) ← one_by_one (<[p := s']> h) order;
      Some (h', (i, r) :: rs)
  end.

(** Call [i], of method [m] on object [o] with settings [p]; [a] are the settings
    after the calls that have returned, [rs] their results. *)
Inductive call_inv (h a : list Settings) (rs : list (nat * reply)) (i o : nat) (m : method)
    (p : nat) : call → Prop :=
  | inv_waiting :
      i ∉ rs.*1 → call_inv h a rs i o m p (fresh (body inet_pton inet_ntop m o))
  | inv_running pr s s0 :
      i ∉ rs.*1 → locked o p (mode_of m) pr → h !! p = Some s → a !! p = Some s0 →
      finish_ p pr s = alone inet_pton inet_ntop m s0 →
      call_inv h a rs i o m p {| held := Some (o, mode_of m); rest := pr |}
  | inv_returned r : (i, r) ∈ rs → call_inv h a rs i o m p (fresh (Ret r)).

Record conf_inv (c : cfg) (a : list Settings) (rs : list (nat * reply)) : Prop := {
  ci_ptrs : ptrs c = ps;
  ci_dom p : is_Some (heap c !! p) ↔ is_Some (a !! p);
  ci_calls i o m p : cs !! i = Some (o, m) → ps !! o = Some p →
    ∃ t, calls c !! i = Some t ∧ call_inv (heap c) a rs i o m p t;
  ci_len : length (calls c) = length cs;
  ci_excl i j o1 m1 o2 m2 t1 t2 p : i ≠ j →
    cs !! i = Some (o1, m1) → cs !! j = Some (o2, m2) →
    ps !! o1 = Some p → ps !! o2 = Some p →
    calls c !! i = Some t1 → calls c !! j = Some t2 →
    is_Some (held t1) → is_Some (held t2) → mode_of m1 = shared ∧ mode_of m2 = shared;
  ci_heap p : heap c !! p = a !! p ∨
    ∃ i o m t, cs !! i = Some (o, m) ∧ ps !! o = Some p ∧ calls c !! i = Some t ∧
      is_Some (held t) ∧ mode_of m = unique
}.

Implicit Types (c : cfg) (t : call) (a h : list Settings) (rs : list (nat * reply)).

Lemma call_inv_held h a rs i o m p t hd :
  call_inv h a rs i o m p t → held t = Some hd → hd = (o, mode_of m).
Proof. by destruct 1; intros E; simplify_eq/=. Qed.

(** A call keeps its invariant when others return, and when the settings it does
    not look at change. *)
Lemma call_inv_other h a rs h' a' rs' i j r o m p q t :
  call_inv h a rs j o m q t → j ≠ i → rs' = rs ∨ rs' = rs ++ [(i, r)] →
  (∀ q, q ≠ p → h' !! q = h !! q ∧ a' !! q = a !! q) →
  (h' !! p = h !! p ∧ a' !! p = a !! p) ∨ (q = p → held t = None) →
  call_inv h' a' rs' j o m q t.
Proof.
  intros Ht Hij Hrs Hq Hp.
  assert (Hn : j ∉ rs.*1 → j ∉ rs'.*1).
  { destruct Hrs as [->| ->]; [done|]. rewrite fmap_app, elem_of_app. cbn.
    rewrite list_elem_of_singleton. tauto. }
  destruct Ht as [Hj|pr s s0 Hj Hl Hs Hs0 Hf|r' Hr].
  - apply inv_waiting. auto.
  - assert (h' !! q = h !! q ∧ a' !! q = a !! q) as [E1 E2].
    { destruct (decide (q = p)) as [->|]; [|by auto]. destruct Hp as [?|Hp]; [done|].
      by specialize (Hp eq_refl). }
    eapply inv_running; eauto; congruence.
  - apply inv_returned. destruct Hrs as [->| ->]; [done|]. apply elem_of_app. by left.
Qed.

(** No other call on the settings [p] excludes call [i] in mode [md]. *)
Definition no_conflict c (i : nat) (md : mode) (p : nat) : Prop :=
  ∀ j o m t, j ≠ i → cs !! j = Some (o, m) → ps !! o = Some p → calls c !! j = Some t →
    is_Some (held t) → md = shared ∧ mode_of m = shared.

Lemma no_conflict_heap c a rs i md p t o m :
  conf_inv c a rs → no_conflict c i md p → cs !! i = Some (o, m) →
  calls c !! i = Some t → (is_Some (held t) → mode_of m = shared) → heap c !! p = a !! p.
Proof.
  intros Hc Hn Hi Ht Hm. destruct (ci_heap _ _ _ Hc p) as [|(j & o' & m' & t' & Hj & Hp & Htj & Hh & Hu)];
    [done|].
  destruct (decide (j = i)) as [->|Hij].
  - simplify_eq. specialize (Hm Hh). congruence.
  - destruct (Hn j o' m' t') as [_ ?]; try done. congruence.
Qed.

Lemma conf_inv_step c a rs i o m p t t' h' a' rs' r :
  conf_inv c a rs → cs !! i = Some (o, m) → ps !! o = Some p → calls c !! i = Some t →
  (∀ q, q ≠ p → h' !! q = heap c !! q ∧ a' !! q = a !! q) →
  is_Some (h' !! p) → is_Some (a' !! p) →
  (h' !! p = heap c !! p ∧ a' !! p = a !! p) ∨ no_conflict c i unique p →
  rs' = rs ∨ rs' = rs ++ [(i, r)] →
  call_inv h' a' rs' i o m p t' →
  (is_Some (held t') → no_conflict c i (mode_of m) p) →
  h' !! p = a' !! p ∨ (is_Some (held t') ∧ mode_of m = unique) →
  conf_inv {| heap := h'; ptrs := ptrs c; calls := <[i := t']> (calls c) |} a' rs'.
Proof.
  intros Hc Hi Hp Ht Hq Hsh Hsa Hother Hrs Hinv Hexcl Hheap.
  pose proof (lookup_lt_Some _ _ _ Ht) as Hlt. split; cbn.
  - apply Hc.
  - intros q. destruct (decide (q = p)) as [->|Hne]; [done|].
    destruct (Hq q Hne) as [-> ->]. apply Hc.
  - intros j oj mj q Hj Hpj. destruct (decide (j = i)) as [->|Hij].
    { simplify_eq. exists t'. split; [by apply list_lookup_insert_eq|done]. }
    destruct (ci_calls _ _ _ Hc j oj mj q Hj Hpj) as (tj & Htj & Hjinv).
    exists tj. split; [by rewrite list_lookup_insert_ne|].
    eapply call_inv_other; try done. destruct Hother as [?|Hn]; [by left|right].
    intros ->. apply eq_None_not_Some. intros Hh. by destruct (Hn j oj mj tj).
  - rewrite length_insert. apply Hc.
  - intros j k o1 m1 o2 m2 t1 t2 q Hjk Hj Hk Hp1 Hp2 Ht1 Ht2 Hh1 Hh2.
    destruct (decide (j = i)) as [->|Hji]; [|destruct (decide (k = i)) as [->|Hki]].
    + rewrite list_lookup_insert_eq in Ht1 by done. simplify_eq.
      rewrite list_lookup_insert_ne in Ht2 by done. by eapply (Hexcl Hh1 k).
    + rewrite list_lookup_insert_eq in Ht2 by done. simplify_eq.
      rewrite list_lookup_insert_ne in Ht1 by done.
      destruct (Hexcl Hh2 j o1 m1 t1); done.
    + rewrite list_lookup_insert_ne in Ht1, Ht2 by done.
      eapply (ci_excl _ _ _ Hc j k); done.
  - intros q. destruct (decide (q = p)) as [->|Hne].
    + destruct Hheap as [|[Hh Hu]]; [by left|right]. exists i, o, m, t'.
      split_and!; try done. by apply list_lookup_insert_eq.
    + destruct (Hq q Hne) as [-> ->].
      destruct (ci_heap _ _ _ Hc q) as [|(j & o' & m' & t0 & Hj & Hpj & Htj & Hh & Hu)]; [by left|].
      right. exists j, o', m', t0. split_and!; try done.
      rewrite list_lookup_insert_ne; [done|]. intros ->. simplify_eq.
Qed.

(** The lock is granted: nobody on the settings is in the way. *)
Lemma can_lock_free c a rs i o m p :
  separate → conf_inv c a rs → cs !! i = Some (o, m) → ps !! o = Some p →
  can_lock (mode_of m) o (calls c) = true → no_conflict c i (mode_of m) p.
Proof.
  intros Hsep Hc Hi Hp Hl j oj mj tj Hij Hj Hpj Htj [hd Hh].
  destruct (decide (oj = o)) as [->|Hne]; [|by eapply (Hsep i j)].
  destruct (ci_calls _ _ _ Hc j o mj p Hj Hp) as (t & Ht & Hinv). simplify_eq.
  unfold can_lock in Hl. rewrite forallb_forall in Hl.
  specialize (Hl tj (proj1 (list_elem_of_In _ _) (list_elem_of_lookup_2 _ _ _ Htj))).
  apply negb_true_iff in Hl. unfold excludes in Hl. rewrite Hh in Hl.
  rewrite (call_inv_held _ _ _ _ _ _ _ _ _ Hinv Hh) in Hl.
  rewrite bool_decide_true in Hl by done. cbn in Hl. apply bool_decide_eq_false in Hl.
  destruct (mode_of m), (mode_of mj); try done; by destruct Hl; intros [??].
Qed.

(** A call that holds its lock. *)
Lemma held_no_conflict c a rs i o m p t :
  conf_inv c a rs → cs !! i = Some (o, m) → ps !! o = Some p → calls c !! i = Some t →
  is_Some (held t) → no_conflict c i (mode_of m) p.
Proof.
  intros Hc Hi Hp Ht Hh j oj mj tj Hij Hj Hpj Htj Hhj.
  by eapply (ci_excl _ _ _ Hc i j); [apply not_eq_sym|..].
Qed.

Lemma held_heap c a rs i o m p t :
  conf_inv c a rs → cs !! i = Some (o, m) → ps !! o = Some p → calls c !! i = Some t →
  is_Some (held t) → heap c !! p = a !! p ∨ mode_of m = unique.
Proof.
  intros Hc Hi Hp Ht Hh. destruct (mode_of m) eqn:Hm; [left|by right].
  eapply (no_conflict_heap c a rs i shared p); try done.
  rewrite <-Hm. by eapply held_no_conflict.
Qed.

(** The effect of a call in the order of the returns. *)
Definition returns a rs (i : nat) a' rs' : Prop :=
  ∃ o m p s s' r, (i ∉ rs.*1) ∧ cs !! i = Some (o, m) ∧ ps !! o = Some p ∧ a !! p = Some s ∧
    alone inet_pton inet_ntop m s = (s', r) ∧ a' = <[p := s']> a ∧ rs' = rs ++ [(i, r)].

(** What a call that holds its lock does next. *)
Lemma running_step c a rs i o m p pr s s0 c' :
  conf_inv c a rs → cs !! i = Some (o, m) → ps !! o = Some p →
  calls c !! i = Some {| held := Some (o, mode_of m); rest := pr |} →
  i ∉ rs.*1 → locked o p (mode_of m) pr → heap c !! p = Some s → a !! p = Some s0 →
  finish_ p pr s = alone inet_pton inet_ntop m s0 →
  lstep c i = Some c' →
  conf_inv c' a rs ∨ ∃ a' rs', conf_inv c' a' rs' ∧ returns a rs i a' rs'.
Proof.
  intros Hc Hi Hp Ht Hni Hl Hs Hs0 Hf E.
  pose proof (held_no_conflict _ _ _ _ _ _ _ _ Hc Hi Hp Ht (mk_is_Some _ _ eq_refl)) as Hnc.
  pose proof (held_heap _ _ _ _ _ _ _ _ Hc Hi Hp Ht (mk_is_Some _ _ eq_refl)) as Hha.
  unfold lstep in E. rewrite Ht in E. cbn in E.
  destruct pr as [r|md o' k|o' k|o' k|o' p' k|p' f k|p' fs g k]; try done; cbn in Hl, Hf.
  - destruct Hl as [-> [r ->]]. rewrite decide_True in E by done. simplify_eq. cbn in Hf.
    right. exists (<[p := s]> a), (rs ++ [(i, r)]). split.
    + eapply (conf_inv_step c a rs i o m p _ _ _ _ _ r); try done.
      * intros q Hq. by rewrite list_lookup_insert_ne.
      * rewrite list_lookup_insert_eq by (by eapply lookup_lt_Some). done.
      * destruct (mode_of m) eqn:Hm; [left|by right].
        destruct Hha as [Hha|]; [|done]. split; [done|].
        rewrite list_lookup_insert_eq by (by eapply lookup_lt_Some). congruence.
      * by right.
      * apply inv_returned, elem_of_app. right. by apply list_elem_of_singleton.
      * left. rewrite list_lookup_insert_eq by (by eapply lookup_lt_Some). done.
    + exists o, m, p, s0, s, r. by split_and!.
  - destruct Hl as [-> Hl]. assert (ptrs c !! o = Some p) as Hpc by (by rewrite (ci_ptrs _ _ _ Hc)).
    rewrite Hpc in E. cbn in E. simplify_eq. left.
    eapply (conf_inv_step c a rs i o m p _ _ _ _ _ RVoid); try done; [by left|by left| |].
    + by eapply inv_running.
    + destruct Hha; [by left|by right].
  - destruct Hl as [-> Hl]. rewrite Hs in E. cbn in E. simplify_eq. left.
    eapply (conf_inv_step c a rs i o m p _ _ _ _ _ RVoid); try done; [by left|by left| |].
    + by eapply inv_running.
    + destruct Hha; [by left|by right].
  - destruct Hl as (-> & Hm & _ & Hl). rewrite Hs in E. cbn in E.
    destruct (g s) as [s' r] eqn:Hg. simplify_eq. left.
    assert (Hlt : (p < length (heap c))%nat) by (by eapply lookup_lt_Some).
    eapply (conf_inv_step c a rs i o m p _ _ _ _ _ RVoid); try done.
    + intros q Hq. by rewrite list_lookup_insert_ne.
    + rewrite list_lookup_insert_eq by done. done.
    + right. by rewrite <-Hm.
    + by left.
    + eapply inv_running; try done. by apply list_lookup_insert_eq.
    + by right.
Qed.

Lemma lstep_inv c a rs i c' :
  separate → in_range a → conf_inv c a rs → lstep c i = Some c' →
  conf_inv c' a rs ∨ ∃ a' rs', conf_inv c' a' rs' ∧ returns a rs i a' rs'.
Proof.
  intros Hsep Hr Hc E. assert (Hlt : (i < length cs)%nat).
  { rewrite <-(ci_len _ _ _ Hc). unfold lstep in E.
    destruct (calls c !! i) eqn:Ht; [|done]. by eapply lookup_lt_Some. }
  destruct (lookup_lt_is_Some_2 cs i Hlt) as [[o m] Hi].
  destruct (Hr i o m Hi) as (p & s0 & Hp & Hs0).
  destruct (ci_calls _ _ _ Hc i o m p Hi Hp) as (t & Ht & Hinv).
  destruct Hinv as [Hni|pr s s1 Hni Hl Hs Hs1 Hf|r Hret].
  - left. destruct (body_locked m o) as (k & Hb & Hl).
    unfold lstep in E. rewrite Ht in E. cbn in E. rewrite Hb in E.
    destruct (can_lock _ _ _) eqn:Hcl; [|done]. simplify_eq.
    pose proof (can_lock_free _ _ _ _ _ _ _ Hsep Hc Hi Hp Hcl) as Hnc.
    assert (Hh : heap c !! p = a !! p).
    { eapply (no_conflict_heap c a rs i); try done. by intros [? ?]. }
    eapply (conf_inv_step c a rs i o m p _ _ _ _ _ RVoid); try done.
    + rewrite Hh. by eexists.
    + by left.
    + by left.
    + eapply inv_running; [done|apply Hl|by rewrite Hh|done|].
      rewrite <-(body_finish m o p). by rewrite Hb.
    + by left.
  - by eapply running_step.
  - unfold lstep in E. rewrite Ht in E. done.
Qed.

(** ** Executions *)

Lemma one_by_one_snoc h order a rs i o m p s s' r :
  one_by_one h order = Some (a, rs) → cs !! i = Some (o, m) → ps !! o = Some p →
  a !! p = Some s → alone inet_pton inet_ntop m s = (s', r) →
  one_by_one h (order ++ [i]) = Some (<[p := s']> a, rs ++ [(i, r)]).
Proof.
  intros E Hi Hp Hs Hm. revert h rs E.
  induction order as [|j order IH]; intros h rs E; cbn in E |- *.
  { simplify_eq. rewrite Hi. cbn. rewrite Hp. cbn. rewrite Hs. cbn. by rewrite Hm. }
  destruct (cs !! j) as [[oj mj]|]; [|done]. cbn in E |- *.
  destruct (ps !! oj) as [pj|]; [|done]. cbn in E |- *.
  destruct (h !! pj) as [sj|]; [|done]. cbn in E |- *.
  destruct (alone _ _ mj sj) as [sj' rj].
  destruct (one_by_one _ order) as [[a1 rs1]|] eqn:E1; [|done]. cbn in E. simplify_eq.
  by rewrite (IH _ _ E1).
Qed.

Lemma started_inv h : in_range h → conf_inv (started h) h [].
Proof.
  intros Hr. split; cbn; try done.
  - intros i o m p Hi Hp. eexists. split.
    + rewrite list_lookup_fmap, Hi. reflexivity.
    + apply inv_waiting. cbn. by apply not_elem_of_nil.
  - by rewrite length_map.
  - intros i j o1 m1 o2 m2 t1 t2 p _ Hi _ _ _ Ht1 _ Hh _.
    rewrite list_lookup_fmap, Hi in Ht1. simplify_eq/=. by destruct Hh.
  - by left.
Qed.

Lemma in_range_returns a rs i a' rs' : in_range a → returns a rs i a' rs' → in_range a'.
Proof.
  intros Hr (o & m & p & s & s' & r & _ & _ & _ & Hs & _ & -> & _) j oj mj Hj.
  destruct (Hr j oj mj Hj) as (q & sq & Hq & Hsq). exists q.
  destruct (decide (q = p)) as [->|Hne].
  - eexists. split; [done|]. apply list_lookup_insert_eq. by eapply lookup_lt_Some.
  - exists sq. split; [done|]. by rewrite list_lookup_insert_ne.
Qed.

Lemma csteps_inv h c :
  separate → in_range h → csteps (started h) c →
  ∃ order a rs, NoDup order ∧ order = rs.*1 ∧ one_by_one h order = Some (a, rs) ∧
    in_range a ∧ conf_inv c a rs.
Proof.
  intros Hsep Hr. revert c. apply rtc_ind_r; [|intros c1 c2 _ [i E] IH].
  { exists [], h, []. split_and!; try done; [constructor|by apply started_inv]. }
  destruct IH as (order & a & rs & Hnd & -> & Ho & Hra & Hinv).
  destruct (lstep_inv _ _ _ _ _ Hsep Hra Hinv E) as [Hinv'|(a' & rs' & Hinv' & Hret)].
  { by exists rs.*1, a, rs. }
  pose proof (in_range_returns _ _ _ _ _ Hra Hret) as Hra'.
  destruct Hret as (o & m & p & s & s' & r & Hni & Hi & Hp & Hs & Hm & -> & ->).
  exists (rs.*1 ++ [i]), (<[p := s']> a), (rs ++ [(i, r)]). split_and!; try done.
  - apply list.NoDup_app. split_and!; [done| |apply NoDup_singleton].
    intros j Hj ->%list_elem_of_singleton. done.
  - by rewrite fmap_app.
  - by eapply one_by_one_snoc.
Qed.

Lemma conf_call c a rs i t :
  in_range a → conf_inv c a rs → calls c !! i = Some t →
  ∃ o m p, cs !! i = Some (o, m) ∧ ps !! o = Some p.
Proof.
  intros Hr Hc Hk. apply lookup_lt_Some in Hk. rewrite (ci_len _ _ _ Hc) in Hk.
  destruct (lookup_lt_is_Some_2 _ _ Hk) as [[o m] E]. destruct (Hr _ _ _ E) as (p & _ & ? & _).
  eauto.
Qed.

(** No two calls are at a conflicting access. *)
Lemma accesses_held c a rs i o m p t ac w :
  conf_inv c a rs → cs !! i = Some (o, m) → ps !! o = Some p → calls c !! i = Some t →
  accesses t ac w →
  is_Some (held t) ∧ (w = true → mode_of m = unique) ∧
  match ac with APtr o' => w = false | AField q _ => q = p end.
Proof.
  intros Hc Hi Hp Ht Hac.
  destruct (ci_calls _ _ _ Hc i o m p Hi Hp) as (t' & Ht' & Hinv). simplify_eq.
  destruct Hinv as [_|pr s s0 _ Hl _ _ _|r _].
  - destruct (body_locked m o) as (k & Hb & _). unfold accesses in Hac. cbn in Hac.
    by rewrite Hb in Hac.
  - unfold accesses in Hac. cbn in *. split; [done|].
    destruct pr, ac; try done; cbn in Hl; destruct_and?; simplify_eq; by split.
  - done.
Qed.

Lemma conf_inv_no_race c a rs : in_range a → conf_inv c a rs → ¬ race c.
Proof.
  intros Hr Hc (i & j & ti & tj & ac & w & Hij & Hti & Htj & Hai & Haj).
  destruct (conf_call c a rs i ti Hr Hc Hti) as (o1 & m1 & p1 & Hi & Hp1).
  destruct (conf_call c a rs j tj Hr Hc Htj) as (o2 & m2 & p2 & Hj & Hp2).
  destruct (accesses_held _ _ _ _ _ _ _ _ _ _ Hc Hi Hp1 Hti Hai) as (Hh1 & _ & Hac1).
  destruct (accesses_held _ _ _ _ _ _ _ _ _ _ Hc Hj Hp2 Htj Haj) as (Hh2 & Hu & Hac2).
  destruct ac as [o'|q f]; [done|]. subst.
  destruct (ci_excl _ _ _ Hc i j o1 m1 o2 m2 ti tj p2) as [_ Hsh]; try done.
  rewrite (Hu eq_refl) in Hsh. done.
Qed.

(** Some call can go on unless all have returned. *)
Lemma conf_inv_progress c a rs i t :
  in_range a → conf_inv c a rs → calls c !! i = Some t → (∀ r, rest t ≠ Ret r) →
  ∃ j c', lstep c j = Some c'.
Proof.
  intros Hr Hc Ht Hnr.
  destruct (decide (Exists (λ t, is_Some (held t)) (calls c))) as [He|Hne].
  - apply list.Exists_exists in He as (tj & (j & Hj)%list_elem_of_lookup & Hh).
    destruct (conf_call c a rs j tj Hr Hc Hj) as (o & m & p & Hcj & Hp).
    destruct (ci_calls _ _ _ Hc j o m p Hcj Hp) as (t' & Ht' & Hinv). simplify_eq.
    destruct Hinv as [_|pr s s0 _ Hl Hs _ _|r _]; [by destruct Hh| |by destruct Hh].
    exists j. unfold lstep. rewrite Hj. cbn.
    destruct pr; try done; cbn in Hl.
    + destruct Hl as [-> _]. rewrite decide_True by done. eauto.
    + destruct Hl as [-> _]. rewrite (ci_ptrs _ _ _ Hc), Hp. cbn. eauto.
    + destruct Hl as [-> _]. rewrite Hs. cbn. eauto.
    + destruct Hl as [-> _]. rewrite Hs. cbn. destruct (g s). eauto.
  - apply not_Exists_Forall in Hne; [|apply _]. exists i.
    destruct (conf_call c a rs i t Hr Hc Ht) as (o & m & p & Hci & Hp).
    destruct (ci_calls _ _ _ Hc i o m p Hci Hp) as (t' & Ht' & Hinv). simplify_eq.
    destruct Hinv as [_|pr s s0|r _]; [| |by destruct (Hnr r)].
    2: { eapply Forall_lookup_1 in Hne; [|exact Ht]. by destruct Hne; eexists. }
    destruct (body_locked m o) as (k & Hb & _). unfold lstep. rewrite Ht. cbn. rewrite Hb.
    assert (can_lock (mode_of m) o (calls c) = true) as ->; [|eauto].
    apply forallb_forall. intros t' Hin%list_elem_of_In.
    apply (proj1 (list.Forall_forall _ _)) with (x := t') in Hne; [|done]. unfold excludes.
    cbn in Hne. destruct (held t') as [hd|]; [by destruct Hne; exists hd|done].
Qed.
End bodies.

(** ** Properties *)

(** C13. The settings are thread safe as long as objects that share them are only read:
    whatever calls run concurrently on whatever objects, those that have returned
    have returned what they return one after the other in some order, by the
    functions of [Base]; and once no lock is held the settings are what that
    order leaves. *)
Theorem calls_linearizable inet_pton inet_ntop ps cs h c :
  separate ps cs → in_range ps cs h → csteps (started inet_pton inet_ntop ps cs h) c →
  ∃ order h' rs, NoDup order ∧
    one_by_one inet_pton inet_ntop ps cs h order = Some (h', rs) ∧
    (∀ i r, calls c !! i = Some (fresh (Ret r)) → (i, r) ∈ rs) ∧
    (Forall (λ t, held t = None) (calls c) → heap c = h').
Proof.
  intros Hsep Hr Hs.
  destruct (csteps_inv _ _ _ _ _ _ Hsep Hr Hs) as (order & a & rs & Hnd & _ & Ho & Hra & Hc).
  exists order, a, rs. split_and!; try done.
  - intros i r Hi. destruct (conf_call _ _ _ _ _ _ _ _ _ Hra Hc Hi) as (o & m & p & Hci & Hp).
    destruct (ci_calls _ _ _ _ _ _ _ Hc i o m p Hci Hp) as (t & Ht & Hinv). simplify_eq.
    inversion Hinv as [Hw Hb|pr|r' Hr']; subst; [|done].
    destruct (body_locked inet_pton inet_ntop m o) as (k & Hk & _). congruence.
  - intros Hno. apply list_eq. intros q.
    destruct (ci_heap _ _ _ _ _ _ _ Hc q) as [|(i & o & m & t & _ & _ & Ht & [? Hh] & _)]; [done|].
    eapply Forall_lookup_1 in Hno; [|exact Ht]. cbn in Hno. congruence.
Qed.

(** Under the same condition no execution of the methods has a data race, and the
    calls never block each other for ever: unless all have returned, some call
    can go on. *)
Theorem calls_race_free inet_pton inet_ntop ps cs h c :
  separate ps cs → in_range ps cs h → csteps (started inet_pton inet_ntop ps cs h) c →
  ¬ race c ∧
  (∀ i t, calls c !! i = Some t → (∀ r, rest t ≠ Ret r) → ∃ j c', lstep c j = Some c').
Proof.
  intros Hsep Hr Hs.
  destruct (csteps_inv _ _ _ _ _ _ Hsep Hr Hs) as (_ & a & rs & _ & _ & _ & Hra & Hc).
  split; [by eapply conf_inv_no_race|]. intros i t Ht Hnr. by eapply conf_inv_progress.
Qed.

(** A writer on an object with settings of its own, and readers of shared ones. *)
Definition demo_ptrs : list nat := [0; 1; 1]%nat.

Definition demo_calls : list (nat * method) :=
  [(0, m_set_logger true); (1, m_get_connection); (2, m_log LogLvl.info (str "up"));
   (0, m_get_is_daemon)]%nat.

Lemma demo_separate : separate demo_ptrs demo_calls.
Proof.
  intros i j o1 m1 o2 m2 p Hi Hj Hp1 Hp2 Hne.
  destruct i as [|[|[|[|i]]]]; simplify_eq/=;
    destruct j as [|[|[|[|j]]]]; by simplify_eq/=.
Qed.

Lemma demo_in_range : in_range demo_ptrs demo_calls [Settings_new; Settings_new].
Proof.
  intros i o m Hi. destruct i as [|[|[|[|i]]]]; simplify_eq/=; eauto.
Qed.

Definition demo_sched : list nat := [0; 1; 1; 0; 1; 0; 2; 1; 0; 2]%nat.

Definition demo_cfg : cfg :=
  default (started (λ _ _, None) (λ _ _, []) demo_ptrs demo_calls [Settings_new; Settings_new])
    (schedule (started (λ _ _, None) (λ _ _, []) demo_ptrs demo_calls
       [Settings_new; Settings_new]) demo_sched).

Lemma demo_reached :
  csteps (started (λ _ _, None) (λ _ _, []) demo_ptrs demo_calls [Settings_new; Settings_new])
    demo_cfg.
Proof. apply (schedule_steps _ demo_sched). reflexivity. Qed.

Lemma calls_linearizable_witness :
  ∃ order h' rs, NoDup order ∧
    one_by_one (λ _ _, None) (λ _ _, []) demo_ptrs demo_calls [Settings_new; Settings_new] order
      = Some (h', rs) ∧ (0%nat, RVoid) ∈ rs.
Proof.
  destruct (calls_linearizable (λ _ _, None) (λ _ _, []) demo_ptrs demo_calls
    [Settings_new; Settings_new] demo_cfg demo_separate demo_in_range demo_reached)
    as (order & h' & rs & Hnd & E & Hr & _).
  exists order, h', rs. split; [exact Hnd|]. split; [exact E|]. apply Hr. reflexivity.
Defined.

Lemma calls_race_free_witness : ¬ race demo_cfg.
Proof.
  exact (proj1 (calls_race_free (λ _ _, None) (λ _ _, []) demo_ptrs demo_calls
    [Settings_new; Settings_new] demo_cfg demo_separate demo_in_range demo_reached)).
Defined.

(** The mutex belongs to the [Base] object and not to the settings. A server and
    a session share their settings but not the lock: a logger set in one while
    the other logs is a data race. *)
Theorem logger_race inet_pton inet_ntop s b lvl msg :
  ∃ c, csteps (started inet_pton inet_ntop [0; 0]%nat
                 [(0%nat, m_set_logger b); (1%nat, m_log lvl msg)] [s]) c ∧ race c.
Proof.
  eexists. split; [apply (schedule_steps _ [0; 0; 1; 1; 1; 1]%nat); reflexivity|].
  exists 1%nat, 0%nat. eexists _, _, (AField 0 Fld.log_), false.
  split_and!; [done|reflexivity|reflexivity|done|]. cbn. split_and!; try done. by constructor.
Qed.

(** Calls one after the other see the old user and password or the new ones. *)
Lemma untorn inet_pton inet_ntop u pw u0 pw0 order s h' rs d :
  let cs := [(0%nat, m_load_options 3 [LongOpt 9 (Some u); LongOpt 10 (Some pw)]);
             (1%nat, m_get_connection)] in
  (user s = u0 ∧ pass s = pw0) ∨ (user s = u ∧ pass s = pw) →
  one_by_one inet_pton inet_ntop [0; 0]%nat cs [s] order = Some (h', rs) →
  (1%nat, RConn d) ∈ rs →
  (d.1.1.1.2 = u0 ∧ d.1.1.2 = pw0) ∨ (d.1.1.1.2 = u ∧ d.1.1.2 = pw).
Proof.
  cbv zeta. revert s h' rs.
  induction order as [|i order IH]; intros s h' rs Hs E Hin; cbn [one_by_one] in E.
  { simplify_eq. by apply not_elem_of_nil in Hin. }
  destruct i as [|[|i]]; cbn [lookup list_lookup] in E; [| |done];
    cbn -[one_by_one] in E; destruct (one_by_one _ _ _ _ _ order) as [[h1 rs1]|] eqn:E1;
    cbn in E; simplify_eq; apply elem_of_cons in Hin as [Hin|Hin]; simplify_eq.
  - eapply IH; [|exact E1|exact Hin]. by right.
  - exact Hs.
  - by eapply IH.
Qed.

(** With settings shared in that way options are not loaded atomically either: the
    connection parameters read by the other object can be a user and a password
    that were never set together, which no order of the calls explains. *)
Theorem torn_connection inet_pton inet_ntop s u pw :
  user s ≠ u → pass s ≠ pw →
  let cs := [(0%nat, m_load_options 3 [LongOpt 9 (Some u); LongOpt 10 (Some pw)]);
             (1%nat, m_get_connection)] in
  let torn := RConn (db s, user s, pw, role s, dialect s) in
  (∃ c, csteps (started inet_pton inet_ntop [0; 0]%nat cs [s]) c ∧
        calls c !! 1%nat = Some (fresh (Ret torn))) ∧
  ∀ order h' rs,
    one_by_one inet_pton inet_ntop [0; 0]%nat cs [s] order = Some (h', rs) →
    (1%nat, torn) ∉ rs.
Proof.
  intros Hu Hp. cbv zeta. split.
  - eexists. split; [|].
    + apply (schedule_steps _ [1; 1; 1; 1; 1; 0; 0; 0; 0; 0; 1; 1; 1; 1; 1; 1; 1]%nat).
      vm_compute. reflexivity.
    + reflexivity.
  - intros order h' rs E Hin.
    destruct (untorn inet_pton inet_ntop u pw (user s) (pass s) order s h' rs _
      (or_introl (conj eq_refl eq_refl)) E Hin) as [[_ ?]|[? _]]; cbn in *; congruence.
Qed.

Lemma torn_connection_witness :
  ∃ c, csteps (started (λ _ _, None) (λ _ _, []) [0; 0]%nat
         [(0%nat, m_load_options 3 [LongOpt 9 (Some (str "admin")); LongOpt 10 (Some (str "new"))]);
          (1%nat, m_get_connection)] [Settings_new]) c ∧
    calls c !! 1%nat = Some (fresh (Ret (RConn ([], [], str "new", [], 3)))).
Proof.
  exact (proj1 (torn_connection (λ _ _, None) (λ _ _, []) Settings_new (str "admin") (str "new")
    ltac:(discriminate) ltac:(discriminate))).
Defined.

(** [operator=] reads the pointer of its source, and compares its own, without a
    lock: assigning from an object that is itself assigned to is a data race. *)
Theorem assign_race h :
  ∃ c, csteps {| heap := h; ptrs := [0; 1; 2]%nat;
                 calls := [fresh (assign_prog 1 0); fresh (assign_prog 2 1)] |} c ∧ race c.
Proof.
  eexists. split; [apply (schedule_steps _ [0; 1; 1; 1; 1]%nat); reflexivity|].
  exists 0%nat, 1%nat. eexists _, _, (APtr 1), false.
  split_and!; [done|reflexivity|reflexivity|done|done].
Qed.
