(* ===== verification/FileSys.v ===== *)
(** * FileSys: the file system and the file streams the program uses

    None of this is code of the repository: it is what [tftpDataMgrFile.cpp]
    relies on. Paths are the strings of [std::experimental::filesystem::path];
    the file system is an interface ([FileSystem]: operations, [FsLaws]: what
    the program relies on) with an in-memory instance, and [std::ifstream] and
    [std::ofstream] are state machines over it, as C++17 describes them.

    Stream buffers are not modelled: an accepted write is visible at once, and an
    error the buffer reports late is an error of [fs_close]. *)

From Stdlib Require Import Strings.Byte.
From S2P Require Import Prelude Common.

(** ** Paths *)

Abbreviation path := bytes.

(** What a system call sees of a path: [c_str()]. *)
Definition c_str (p : path) : bytes := until_zero p.

(** The text after the last slash, and the text up to and with it. *)
Fixpoint path_split (p : path) : path * path :=
  match p with
  | [] => ([], [])
  | c :: p' =>
      let '(d, f) := path_split p' in
      if bool_decide (d = []) then
        if bool_decide (c = x2f) then ([c], f) else ([], c :: f)
      else (c :: d, f)
  end.

Definition path_filename (p : path) : path := snd (path_split p).
Definition remove_filename (p : path) : path := fst (path_split p).

(** [a /= p] (of the file system TS): a slash is added unless one is there. *)
Definition starts_slash (p : path) : bool :=
  match p with c :: _ => bool_decide (c = x2f) | [] => false end.

Definition ends_slash (p : path) : bool := bool_decide (list.last p = Some x2f).

Definition path_append (a p : path) : path :=
  if bool_decide (a = []) || ends_slash a || bool_decide (p = []) || starts_slash p
  then a ++ p else a ++ str "/" ++ p.

(** A text cut before its last dot. *)
Fixpoint split_dot (f : bytes) : option (bytes * bytes) :=
  match f with
  | [] => None
  | c :: f' =>
      match split_dot f' with
      | Some (s, e) => Some (c :: s, e)
      | None => if bool_decide (c = x2e) then Some ([], f) else None
      end
  end.

Definition is_dots (f : bytes) : bool :=
  bool_decide (f = str ".") || bool_decide (f = str "..").

Definition extension (p : path) : path :=
  let f := path_filename p in
  if is_dots f then [] else
  match split_dot f with Some (_, e) => e | None => [] end.

(** [replace_extension] with the empty path, and [replace_filename]. *)
Definition drop_extension (p : path) : path :=
  let f := path_filename p in
  if is_dots f then p else
  match split_dot f with Some (s, _) => remove_filename p ++ s | None => p end.

Definition replace_filename (p r : path) : path := path_append (remove_filename p) r.

(** ** The file system *)

Inductive node :=
  | File (data : bytes) (mode uid gid : Z)
  | Dir
  | Special.

(** [stat(2)]: an error other than "not found" is reported. *)
Inductive stat_result :=
  | Found (n : node)
  | NotFound
  | StatError.

Class FileSystem (W : Type) := {
  fs_stat : W → bytes → stat_result;
  (** opening for reading succeeds *)
  fs_can_read : W → bytes → bool;
  (** the entries below a directory in the order they are visited, and whether
      the walk ends with an error *)
  fs_walk : W → bytes → list path * bool;
  (** open for writing: the file is created, or cut to length 0 *)
  fs_create : W → bytes → option W;
  (** write at an offset; [false] is a device error *)
  fs_pwrite : W → bytes → Z → bytes → W * bool;
  (** close after writing; [false] when pending data cannot be written *)
  fs_close : W → bytes → bool;
  fs_chown : W → bytes → Z → Z → option W;
  fs_chmod : W → bytes → Z → option W
}.

(** Writing [b] at [pos] of a file with content [d]: the gap beyond the end is
    filled with zeros. *)
Definition put (d : bytes) (pos : Z) (b : bytes) : bytes :=
  blit (d ++ replicate (Z.to_nat (pos - size d)) x00) pos b.

(** The content of a regular file. *)
Definition content {W} `{FileSystem W} (w : W) (p : bytes) : option bytes :=
  match fs_stat w p with Found (File d _ _ _) => Some d | _ => None end.

Class FsLaws (W : Type) `{FileSystem W} := {
  create_empty w w' p : fs_create w p = Some w' → content w' p = Some [];
  pwrite_content w w' p pos b d :
    content w p = Some d → 0 ≤ pos → fs_pwrite w p pos b = (w', true) →
    content w' p = Some (put d pos b);
  chown_owner w w' p u g d m u0 g0 :
    fs_stat w p = Found (File d m u0 g0) → fs_chown w p u g = Some w' →
    fs_stat w' p = Found (File d m u g);
  chmod_mode w w' p m d m0 u g :
    fs_stat w p = Found (File d m0 u g) → fs_chmod w p m = Some w' →
    fs_stat w' p = Found (File d m u g)
}.

(** Which names denote the same file (links, repeated slashes); the program makes no
    links, so this does not change. Names of one file see the same node, and an
    operation changes no other file; writing removes none. *)
Class FsFrame (W : Type) `{FileSystem W} := {
  same_file : bytes → bytes → bool;
  same_sym p q : same_file p q = same_file q p;
  same_stat w p q : same_file p q = true → fs_stat w p = fs_stat w q;
  create_frame w w' p q :
    fs_create w p = Some w' → same_file p q = false → fs_stat w' q = fs_stat w q;
  pwrite_frame w w' p q pos b ok :
    fs_pwrite w p pos b = (w', ok) → same_file p q = false → fs_stat w' q = fs_stat w q;
  pwrite_exists w w' p pos b ok :
    fs_pwrite w p pos b = (w', ok) → content w p ≠ None → content w' p ≠ None;
  chown_frame w w' p q u g :
    fs_chown w p u g = Some w' → same_file p q = false → fs_stat w' q = fs_stat w q;
  chmod_frame w w' p q m :
    fs_chmod w p m = Some w' → same_file p q = false → fs_stat w' q = fs_stat w q
}.

(** *** The calls of [filesystem] *)
Section calls.
Context {W : Type} `{FileSystem W}.

Definition exists_ (w : W) (p : path) : outcome bool :=
  match fs_stat w (c_str p) with
  | Found _ => Ok true
  | NotFound => Ok false
  | StatError => Throw filesystem_error
  end.

Definition is_directory (w : W) (p : path) : outcome bool :=
  match fs_stat w (c_str p) with
  | Found Dir => Ok true
  | Found _ | NotFound => Ok false
  | StatError => Throw filesystem_error
  end.

Definition is_regular_file (w : W) (p : path) : outcome bool :=
  match fs_stat w (c_str p) with
  | Found (File _ _ _ _) => Ok true
  | Found _ | NotFound => Ok false
  | StatError => Throw filesystem_error
  end.

Definition fs_file_size (w : W) (p : path) : outcome Z :=
  match content w (c_str p) with
  | Some d => Ok (size d)
  | None => Throw filesystem_error
  end.
End calls.

(** ** Input streams *)

Record ifstream := {
  in_path : bytes;
  in_open : bool;
  in_pos : Z;
  in_eof : bool;
  in_fail : bool
}.

Definition ifstream_closed : ifstream :=
  {| in_path := []; in_open := false; in_pos := 0; in_eof := false; in_fail := false |}.

Section ifstream.
Context {W : Type} `{FileSystem W}.

Definition in_open_file (w : W) (p : path) : ifstream :=
  if fs_can_read w (c_str p)
  then {| in_path := c_str p; in_open := true; in_pos := 0;
          in_eof := false; in_fail := false |}
  else {| in_path := []; in_open := false; in_pos := 0;
          in_eof := false; in_fail := true |}.

(** [close] of a stream that is not open fails. *)
Definition in_close (s : ifstream) : ifstream :=
  {| in_path := []; in_open := false; in_pos := 0; in_eof := in_eof s;
     in_fail := in_fail s || negb (in_open s) |}.

Definition tellg (s : ifstream) : Z := if in_fail s then -1 else in_pos s.

(** [eofbit] is cleared first; on a failed stream nothing else happens. *)
Definition seekg (s : ifstream) (pos : Z) : ifstream :=
  if in_fail s || (pos <? 0)
  then {| in_path := in_path s; in_open := in_open s; in_pos := in_pos s;
          in_eof := false; in_fail := true |}
  else {| in_path := in_path s; in_open := in_open s; in_pos := pos;
          in_eof := false; in_fail := false |}.

(** [read(s, n)]: what it extracts; a short read sets [eofbit] and [failbit]. *)
Definition in_read (w : W) (s : ifstream) (n : Z) : ifstream * bytes :=
  if in_fail s || in_eof s
  then ({| in_path := in_path s; in_open := in_open s; in_pos := in_pos s;
           in_eof := in_eof s; in_fail := true |}, [])
  else
    let d := slice (default [] (content w (in_path s))) (in_pos s) n in
    let short := size d <? n in
    ({| in_path := in_path s; in_open := in_open s; in_pos := in_pos s + size d;
        in_eof := short; in_fail := short |}, d).
End ifstream.

(** [getline(s, n, '\n')] on a fresh stream into [n] zero octets: at most [n-1]
    characters before the first end of line. *)
Fixpoint until_nl (l : bytes) : bytes :=
  match l with
  | [] => []
  | b :: l => if bool_decide (b = x0a) then [] else b :: until_nl l
  end.

Definition getline_zeros (n : nat) (d : bytes) : bytes :=
  let s := take (n - 1) (until_nl d) in
  s ++ replicate (n - length s) x00.

(** ** Output streams

    [out_bad] is [badbit] or [failbit]; [out_exc] says that [failbit] is in the
    exception mask. *)

Record ofstream := {
  out_path : bytes;
  out_open : bool;
  out_pos : Z;
  out_bad : bool;
  out_exc : bool
}.

Definition ofstream_closed : ofstream :=
  {| out_path := []; out_open := false; out_pos := 0; out_bad := false;
     out_exc := false |}.

(** The text of the exception a stream throws. *)
Definition ios_failure_what : bytes := str "basic_ios::clear: iostream error".

Section ofstream.
Context {W : Type} `{FileSystem W}.

(** [exceptions(exceptions() | failbit); open(p, out | binary)]: [None] when
    [open] throws. *)
Definition out_open_file (w : W) (p : path) : option (W * ofstream) :=
  match fs_create w (c_str p) with
  | Some w => Some (w, {| out_path := c_str p; out_open := true; out_pos := 0;
                          out_bad := false; out_exc := true |})
  | None => None
  end.

Definition out_failed : ofstream :=
  {| out_path := []; out_open := false; out_pos := 0; out_bad := true;
     out_exc := true |}.

Definition tellp (s : ofstream) : Z := if out_bad s then -1 else out_pos s.

Definition seekp (s : ofstream) (pos : Z) : outcome ofstream :=
  if out_bad s then Ok s
  else if pos <? 0 then
    if out_exc s then Throw ios_failure
    else Ok {| out_path := out_path s; out_open := out_open s;
               out_pos := out_pos s; out_bad := true; out_exc := out_exc s |}
  else Ok {| out_path := out_path s; out_open := out_open s; out_pos := pos;
             out_bad := false; out_exc := out_exc s |}.

(** A device error sets [badbit], which is not in the exception mask. *)
Definition out_write (w : W) (s : ofstream) (b : bytes) : W * ofstream :=
  if out_bad s then (w, s)
  else
    let '(w, ok) := fs_pwrite w (out_path s) (out_pos s) b in
    (w, {| out_path := out_path s; out_open := out_open s;
           out_pos := out_pos s + size b; out_bad := negb ok;
           out_exc := out_exc s |}).

Definition out_close (w : W) (s : ofstream) : outcome ofstream :=
  let ok := fs_close w (out_path s) in
  if negb ok && out_exc s then Throw ios_failure
  else Ok {| out_path := []; out_open := false; out_pos := 0;
             out_bad := out_bad s || negb ok; out_exc := out_exc s |}.
End ofstream.

(** ** An in-memory file system

    Files and directories by name; a limit on the size of a file is the device,
    the owner's read permission decides whether a file can be opened, and a
    component longer than [NAME_MAX] makes [stat] fail. *)

Definition NAME_MAX : Z := 255.

Record MemFs := { mem_nodes : list (bytes * node); mem_limit : Z }.

Fixpoint mem_lookup (l : list (bytes * node)) (p : bytes) : option node :=
  match l with
  | [] => None
  | (q, n) :: l => if bool_decide (q = p) then Some n else mem_lookup l p
  end.

Fixpoint mem_insert (l : list (bytes * node)) (p : bytes) (n : node)
    : list (bytes * node) :=
  match l with
  | [] => [(p, n)]
  | (q, k) :: l => if bool_decide (q = p) then (p, n) :: l else (q, k) :: mem_insert l p n
  end.

Definition mem_set (w : MemFs) (p : bytes) (n : node) : MemFs :=
  {| mem_nodes := mem_insert (mem_nodes w) p n; mem_limit := mem_limit w |}.

Definition mem_stat (w : MemFs) (p : bytes) : stat_result :=
  if NAME_MAX <? size (path_filename p) then StatError
  else match mem_lookup (mem_nodes w) p with Some n => Found n | None => NotFound end.

Definition below (d p : bytes) : bool :=
  bool_decide (d `prefix_of` p) && negb (bool_decide (d = p)).

#[export] Instance mem_fs : FileSystem MemFs := {
  fs_stat := mem_stat;
  fs_can_read w p :=
    match mem_stat w p with
    | Found (File _ m _ _) => negb (Z.land m 256 =? 0)
    | Found _ => true
    | _ => false
    end;
  fs_walk w d := (filter (λ p, below d p = true) (mem_nodes w).*1, false);
  fs_create w p :=
    match mem_stat w p with
    | NotFound => Some (mem_set w p (File [] 438 0 0))
    | Found (File _ m u g) => Some (mem_set w p (File [] m u g))
    | _ => None
    end;
  fs_pwrite w p pos b :=
    match mem_stat w p with
    | Found (File d m u g) =>
        if pos + size b <=? mem_limit w
        then (mem_set w p (File (put d pos b) m u g), true) else (w, false)
    | _ => (w, false)
    end;
  fs_close w p := true;
  fs_chown w p u g :=
    match mem_stat w p with
    | Found (File d m _ _) => Some (mem_set w p (File d m u g))
    | _ => None
    end;
  fs_chmod w p m :=
    match mem_stat w p with
    | Found (File d _ u g) => Some (mem_set w p (File d m u g))
    | _ => None
    end
}.

(** ** Lemmas *)

Lemma mem_lookup_insert l p n : mem_lookup (mem_insert l p n) p = Some n.
Proof.
  induction l as [|[q k] l IH]; simpl; [by rewrite bool_decide_true|].
  case_bool_decide; simpl; [by rewrite bool_decide_true|].
  by rewrite bool_decide_false.
Qed.

Lemma mem_stat_set w p n n' :
  mem_stat w p = Found n' ∨ mem_stat w p = NotFound →
  mem_stat (mem_set w p n) p = Found n.
Proof.
  unfold mem_stat, mem_set. simpl. destruct (_ <? _); [by intros [|]|].
  by rewrite mem_lookup_insert.
Qed.

#[export] Instance mem_fs_laws : FsLaws MemFs.
Proof.
  split; unfold content; simpl.
  - intros w w' p H. destruct (mem_stat w p) as [[d m u g| |]| |] eqn:E; simplify_eq/=.
    + by erewrite mem_stat_set by eauto.
    + by rewrite (mem_stat_set _ _ _ Dir) by eauto.
  - intros w w' p pos b d Hc ? H.
    destruct (mem_stat w p) as [[d' m u g| |]| |] eqn:E; simplify_eq/=.
    destruct (_ <=? _); simplify_eq/=. by erewrite mem_stat_set by eauto.
  - intros w w' p u g d m u0 g0 E H. rewrite E in H. simplify_eq/=.
    by erewrite mem_stat_set by eauto.
  - intros w w' p m d m0 u g E H. rewrite E in H. simplify_eq/=.
    by erewrite mem_stat_set by eauto.
Qed.

Lemma mem_lookup_insert_ne l p q n :
  p ≠ q → mem_lookup (mem_insert l p n) q = mem_lookup l q.
Proof.
  intros Hne. induction l as [|[k x] l IH]; simpl; [by rewrite bool_decide_false|].
  case_bool_decide; subst; simpl; [by rewrite !bool_decide_false|].
  by case_bool_decide.
Qed.

Lemma mem_stat_set_ne w p q n : p ≠ q → mem_stat (mem_set w p n) q = mem_stat w q.
Proof. intros. unfold mem_stat, mem_set. simpl. by rewrite mem_lookup_insert_ne. Qed.

#[export] Instance mem_fs_frame : FsFrame MemFs.
Proof.
  refine {| same_file p q := bool_decide (p = q) |}; simpl.
  - intros p q. by apply bool_decide_ext.
  - intros w p q Hpq%bool_decide_eq_true_1. by subst.
  - intros w w' p q E Hpq%bool_decide_eq_false_1.
    destruct (mem_stat w p) as [[]| |]; simplify_eq/=; by apply mem_stat_set_ne.
  - intros w w' p q pos b ok E Hpq%bool_decide_eq_false_1.
    destruct (mem_stat w p) as [[]| |]; simplify_eq/=; try done.
    destruct (_ <=? _); simplify_eq/=; [by apply mem_stat_set_ne|done].
  - intros w w' p pos b ok E Hc. unfold content in *. cbn in *.
    destruct (mem_stat w p) as [[]| |] eqn:Hp; simplify_eq/=; try done.
    destruct (_ <=? _); simplify_eq/=; [|by rewrite Hp].
    by rewrite (mem_stat_set _ _ _ _ (or_introl Hp)).
  - intros w w' p q u g E Hpq%bool_decide_eq_false_1.
    destruct (mem_stat w p) as [[]| |]; simplify_eq/=; by apply mem_stat_set_ne.
  - intros w w' p q m E Hpq%bool_decide_eq_false_1.
    destruct (mem_stat w p) as [[]| |]; simplify_eq/=; by apply mem_stat_set_ne.
Defined.

(** Writing inside a file or right at its end. *)
Lemma put_end d b : put d (size d) b = d ++ b.
Proof.
  unfold put. rewrite Z.sub_diag. simpl. rewrite app_nil_r. unfold blit, size.
  rewrite Nat2Z.id, take_ge, drop_ge by lia. by rewrite app_nil_r.
Qed.

Lemma put_size d pos b :
  0 ≤ pos → size (put d pos b) = Z.max (size d) (pos + size b).
Proof.
  intros. unfold put, blit, size. rewrite !length_app, length_take, length_drop,
    !length_app, length_replicate. lia.
Qed.

(** What was written is read back, and the rest of the file is kept. *)
Lemma slice_put d pos b : 0 ≤ pos → slice (put d pos b) pos (size b) = b.
Proof.
  intros. unfold put, blit, slice, size.
  rewrite drop_app_length' by (rewrite length_take, length_app, length_replicate; lia).
  rewrite Nat2Z.id. apply take_app_length.
Qed.

Lemma put_frame d pos b i :
  0 ≤ pos → (i < length d)%nat →
  Z.of_nat i < pos ∨ pos + size b ≤ Z.of_nat i → put d pos b !! i = d !! i.
Proof.
  unfold put, size. intros ? Hi Hr. set (d' := d ++ _).
  assert (Hd : d' !! i = d !! i) by (by apply lookup_app_l).
  assert (length d ≤ length d')%nat by (unfold d'; rewrite length_app; lia).
  assert (Z.to_nat pos ≤ length d')%nat
    by (unfold d', size; rewrite length_app, length_replicate; lia).
  rewrite <-Hd. unfold blit. destruct Hr.
  - rewrite lookup_app_l by (rewrite length_take; lia). apply lookup_take_lt. lia.
  - rewrite lookup_app_r by (rewrite length_take; lia).
    rewrite lookup_app_r by (rewrite length_take; lia).
    rewrite lookup_drop, length_take. f_equal. lia.
Qed.

Lemma put_put_same d pos b : 0 ≤ pos → put (put d pos b) pos b = put d pos b.
Proof.
  intros. apply list_eq. intros i.
  destruct (decide (i < length (put d pos b))%nat) as [Hi|Hi].
  - destruct (decide (Z.of_nat i < pos ∨ pos + size b ≤ Z.of_nat i)) as [|Hn];
      [by apply put_frame|].
    assert (Hs : slice (put (put d pos b) pos b) pos (size b)
                 = slice (put d pos b) pos (size b)) by (by rewrite !slice_put).
    apply (f_equal (.!! (i - Z.to_nat pos)%nat)) in Hs. unfold slice in Hs.
    unfold size in *. rewrite !lookup_take_lt, !lookup_drop in Hs by lia.
    by replace (Z.to_nat pos + (i - Z.to_nat pos))%nat with i in Hs by lia.
  - pose proof (put_size d pos b). pose proof (put_size (put d pos b) pos b).
    unfold size in *. rewrite !lookup_ge_None_2 by lia. done.
Qed.

#[export] Hint Rewrite put_end : fw.
