(* ===== verification/DataMgr.v ===== *)
(** * DataMgr: the data manager interface of [tftpDataMgr.h/.cpp]

    The abstract class [DataMgr] with its helpers, as a type class: [DataMgr] has
    the virtual methods, [DataMgrLaws] what a session relies on. [W] is the
    world a manager acts on, [M] the object. The error callback is modelled by
    the list of errors a call reports, in order.

    A session's theorems are proved against [DataMgrLaws]; [DataMgrFile]
    discharges it. *)

From Stdlib Require Import Strings.Byte.
From S2P Require Import Prelude Common SmBuf Options Regex Addr Settings FileSys.

(** An error code and its message. *)
Abbreviation error := (Z * bytes)%type.

(** [DataMgr::set_error_if_first]: the callback is called when there is one. *)
Definition forward_error (set_error_ : bool) (e_cod : Z) (e_msg : bytes) : list error :=
  if set_error_ then [(e_cod, e_msg)] else [].

(** [DataMgr::match_md5] *)
Definition match_md5 (val : bytes) : bool :=
  match regex_search regex_template_md5 val with
  | Some sm => (size (sm_prefix val sm) =? 0) && (size (sm_suffix val sm) =? 0)
  | None => false
  end.

(** ** The interface *)

Class DataMgr (W M : Type) := {
  dm_new : M;
  dm_active : M → bool;
  dm_init : M → W → Settings → Options → outcome (M * W * bool * list error);
  (** the octets of the range, the position *)
  dm_write : M → W → bytes → Z → outcome (M * W * Z * list error);
  (** the octets of the range before; the octets after *)
  dm_read : M → W → bytes → Z → outcome (M * bytes * Z * list error);
  dm_close : M → W → outcome (M * W)
}.

(** [reading m w d]: [m] delivers the file [d] from any position; [writing m w d]:
    what was stored through [m] so far is [d]. *)
Class DataMgrLaws (W M : Type) `{DataMgr W M} := {
  reading : M → W → bytes → Prop;
  writing : M → W → bytes → Prop;
  init_read m w sett opt m' w' errs :
    request_type opt = SrvReq.read →
    dm_init m w sett opt = Ok (m', w', true, errs) →
    w' = w ∧ errs = [] ∧ ∃ d, reading m' w' d;
  init_write m w sett opt m' w' errs :
    request_type opt = SrvReq.write →
    dm_init m w sett opt = Ok (m', w', true, errs) →
    errs = [] ∧ writing m' w' [];
  init_error m w sett opt m' w' errs :
    request_type opt ≠ SrvReq.unknown →
    dm_init m w sett opt = Ok (m', w', false, errs) →
    Exists (λ e, e.2 ≠ []) errs;
  read_block m w d rng pos :
    reading m w d → 0 ≤ pos ≤ size d → size d < 2 ^ 63 → rng ≠ [] →
    ∃ m', dm_read m w rng pos
          = Ok (m', blit rng 0 (slice d pos (size rng)),
                Z.min (size rng) (size d - pos), []) ∧
          (pos + size rng ≤ size d ∨ pos = size d → reading m' w d);
  read_beyond m w d rng pos :
    reading m w d → size d < pos < 2 ^ 63 →
    ∃ m', dm_read m w rng pos = Ok (m', rng, size d - pos, []) ∧ reading m' w d;
  write_block m w d b pos :
    writing m w d → 0 ≤ pos < 2 ^ 63 → b ≠ [] →
    ∃ m' w' r errs, dm_write m w b pos = Ok (m', w', r, errs) ∧
      ((r = size b ∧ errs = [] ∧ writing m' w' (put d pos b)) ∨
       (r = -1 ∧ Exists (λ e, e.2 ≠ []) errs));
  write_nothing m w d pos :
    writing m w d → dm_write m w [] pos = Ok (m, w, 0, [])
}.

(** ** Lemmas *)

Lemma search_md5_whole s m :
  search_from (length s) regex_template_md5 s 0 = Some m →
  sm_begin m = 0%nat → sm_end m = length s →
  length s = 32%nat ∧ Forall (λ c, is_hex c = true) s.
Proof.
  intros H Hb He. apply search_md5_some in H as (Hr & Hend & _).
  rewrite Hb in *. rewrite drop_0 in Hr. apply run_len_full in Hr as [_ Hf].
  assert (Hl : length s = 32%nat) by lia. split; [done|].
  by rewrite take_ge in Hf by lia.
Qed.

(** C27. A name is taken for an MD5 sum iff it consists of 32 hexadecimal digits. *)
Theorem match_md5_spec s :
  match_md5 s = true ↔ length s = 32%nat ∧ Forall (λ c, is_hex c = true) s.
Proof.
  unfold match_md5, regex_search. split.
  - destruct (search_from _ _ _ _) as [m|] eqn:E; [|done]. intros H. reflect_bools.
    pose proof (search_md5_some _ _ _ _ E) as (Hr & Hend & _).
    apply run_len_full in Hr as [Hl _]. rewrite length_drop in Hl.
    unfold size, sm_prefix, sm_suffix in *.
    rewrite length_take in *. rewrite length_drop in *.
    eapply search_md5_whole; [done|lia|lia].
  - intros [Hl Hf].
    assert (Hr : run_len is_hex (drop 0 s) (Some 32%nat) = 32%nat).
    { apply run_len_full. rewrite drop_0, take_ge by lia. split; [lia|done]. }
    destruct (search_from _ _ _ _) as [m|] eqn:E.
    + pose proof (search_md5_some _ _ _ _ E) as (_ & Hend & _ & _ & Hj).
      assert (sm_begin m = 0%nat) as Hb.
      { destruct (decide (sm_begin m = 0%nat)) as [|]; [done|].
        destruct (Hj 0%nat); [lia|done]. }
      unfold size, sm_prefix, sm_suffix. rewrite length_take, length_drop.
      apply andb_true_iff. split; apply Z.eqb_eq; lia.
    + exfalso. eapply search_md5_none in E; [|split; [apply Nat.le_refl|lia]]. done.
Qed.
