(* ===== verification/DataMgrFile.v ===== *)
(** * DataMgrFile: the file manager of [tftpDataMgrFile.h/.cpp]

    Requests are served from files: a read request by MD5 sum or by name from
    the root directory and the search directories, a write request into a new
    file of the root directory. Log messages are not modelled. The account
    databases ([getpwnam_r], [getgrnam_r]) are parameters. *)

From Stdlib Require Import Strings.Byte.
From S2P Require Import Prelude Common SmBuf Options Regex Addr Settings Base FileSys DataMgr.

Record DataMgrFile := {
  m_settings : Settings;
  m_set_error : bool;          (** the callback is set *)
  m_request_type : SrvReq.t;
  m_file_size : Z;
  m_filename : path;
  m_file_in : ifstream;
  m_file_out : ofstream
}.

Definition DataMgrFile_new : DataMgrFile := {|
  m_settings := Base_new None;
  m_set_error := false;
  m_request_type := SrvReq.unknown;
  m_file_size := 0;
  m_filename := [];
  m_file_in := ifstream_closed;
  m_file_out := ofstream_closed
|}.

Definition with_streams (m : DataMgrFile) (i : ifstream) (o : ofstream) : DataMgrFile :=
  {| m_settings := m_settings m; m_set_error := m_set_error m;
     m_request_type := m_request_type m; m_file_size := m_file_size m;
     m_filename := m_filename m; m_file_in := i; m_file_out := o |}.

Definition active (m : DataMgrFile) : bool :=
  (bool_decide (m_request_type m = SrvReq.read) && in_open (m_file_in m))
  || (bool_decide (m_request_type m = SrvReq.write) && out_open (m_file_out m)).

Section manager.
Context {W : Type} `{FileSystem W}.
Context (getpwnam getgrnam : bytes → option Z).

(** ** Search *)

(** The first line of a [.md5] file, in a string of 2048 octets. *)
Definition read_line1 (w : W) (curr : path) : bytes :=
  getline_zeros 2048
    (if fs_can_read w (c_str curr) then default [] (content w (c_str curr)) else []).

(** One entry of the directory: [Some] is the [return] of the loop body. *)
Definition search_entry (w : W) (md5sum : bytes) (curr : path) : outcome (option path) :=
  let ext := do_lower (extension curr) in
  if bool_decide (ext = str ".md5") then
    let line1 := read_line1 w curr in
    match regex_search regex_template_md5 line1 with
    | Some sm_sum =>
        if bool_decide (sm_str line1 sm_sum 1 = md5sum) then
          let curr := drop_extension curr in
          ex ← exists_ w curr;
          if (ex : bool) then Ok (Some curr)
          else if negb (size (sm_suffix line1 sm_sum) =? 0) then
            let curr := replace_filename curr (sm_suffix line1 sm_sum) in
            ex ← exists_ w curr;
            if (ex : bool) then Ok (Some curr) else Ok None
          else Ok None
        else Ok None
    | None => Ok None
    end
  else Ok None.

Fixpoint search_entries (w : W) (md5sum : bytes) (l : list path) (err : bool)
    : outcome (bool * path) :=
  match l with
  | [] => if err then Throw filesystem_error else Ok (false, [])
  | curr :: l =>
      r ← search_entry w md5sum curr;
      match r with
      | Some p => Ok (true, p)
      | None => search_entries w md5sum l err
      end
  end.

Definition search_by_md5 (w : W) (p : path) (md5sum : bytes) : outcome (bool * path) :=
  let '(l, err) := fs_walk w (c_str p) in search_entries w md5sum l err.

(** The directories are tried in order. *)
Fixpoint search_dirs_md5 (w : W) (md5sum : bytes) (dirs : list path)
    : outcome (bool * path) :=
  match dirs with
  | [] => Ok (false, [])
  | curr_dir :: dirs =>
      ex ← exists_ w curr_dir;
      isd ← (if (ex : bool) then is_directory w curr_dir else Ok false);
      if (isd : bool) then
        '(res, file) ← search_by_md5 w curr_dir md5sum;
        if (res : bool) then Ok (true, file) else search_dirs_md5 w md5sum dirs
      else search_dirs_md5 w md5sum dirs
  end.

Definition full_search_md5 (w : W) (sett : Settings) (md5sum : bytes)
    : outcome (bool * path) :=
  search_dirs_md5 w md5sum (get_root_dir sett :: get_serach_dir sett).

Fixpoint search_dirs_name (w : W) (name : bytes) (dirs : list path)
    : outcome (bool * path) :=
  match dirs with
  | [] => Ok (false, [])
  | dir :: dirs =>
      let curr_file := path_append dir name in
      ex ← exists_ w curr_file;
      reg ← (if (ex : bool) then is_regular_file w curr_file else Ok false);
      if (reg : bool) then Ok (true, curr_file) else search_dirs_name w name dirs
  end.

Definition full_search_name (w : W) (sett : Settings) (name : bytes)
    : outcome (bool * path) :=
  search_dirs_name w name (get_root_dir sett :: get_serach_dir sett).

(** ** [init] *)

Definition with_request (m : DataMgrFile) (sett : Settings) (rq : SrvReq.t) : DataMgrFile :=
  {| m_settings := sett; m_set_error := true; m_request_type := rq;
     m_file_size := m_file_size m; m_filename := m_filename m;
     m_file_in := m_file_in m; m_file_out := m_file_out m |}.

Definition with_opened (m : DataMgrFile) (fn : path) (sz : Z) (i : ifstream) (o : ofstream)
    : DataMgrFile :=
  {| m_settings := m_settings m; m_set_error := m_set_error m;
     m_request_type := m_request_type m; m_file_size := sz;
     m_filename := fn; m_file_in := i; m_file_out := o |}.

(** The file of a read request: by MD5 sum, else by name. *)
Definition find_file (w : W) (m : DataMgrFile) (name : bytes) : outcome (bool * path) :=
  '(ret, fn) ← (if match_md5 name then full_search_md5 w (m_settings m) name
                else Ok (false, m_filename m));
  if (ret : bool) then Ok (true, fn) else full_search_name w (m_settings m) name.

(** A first [open] with exceptions on tells errors; the stream is then closed,
    outside of the [try], and opened again. *)
Definition init_reading (m : DataMgrFile) (w : W) (name : bytes)
    : outcome (DataMgrFile * W * bool * list error) :=
  '(ret, fn) ← find_file w m name;
  if negb ret then
    Ok (with_opened m fn (m_file_size m) (m_file_in m) (m_file_out m), w, false,
        forward_error (m_set_error m) 1 (str "File not found"))
  else
    let file_in := in_open_file w fn in
    let closed := in_close file_in in
    if in_fail closed then Throw ios_failure
    else
      let file_in := in_open_file w fn in
      sz ← fs_file_size w fn;
      Ok (with_opened m fn sz file_in (m_file_out m), w, true, []).

Definition init_writing (m : DataMgrFile) (w : W) (name : bytes)
    : outcome (DataMgrFile * W * bool * list error) :=
  let fn := path_append (get_root_dir (m_settings m)) name in
  ex ← exists_ w fn;
  if (ex : bool) then
    Ok (with_opened m fn (m_file_size m) (m_file_in m) (m_file_out m), w, false,
        forward_error (m_set_error m) 6 (str "File already exists"))
  else
    match out_open_file w fn with
    | Some (w, file_out) =>
        Ok (with_opened m fn (m_file_size m) (m_file_in m) file_out, w, true, [])
    | None =>
        Ok (with_opened m fn (m_file_size m) (m_file_in m) out_failed, w, false,
            forward_error (m_set_error m) 0 ios_failure_what)
    end.

Definition init (m : DataMgrFile) (w : W) (sett : Settings) (opt : Options)
    : outcome (DataMgrFile * W * bool * list error) :=
  let m := with_request m sett (request_type opt) in
  match request_type opt with
  | SrvReq.read => init_reading m w (filename opt)
  | SrvReq.write => init_writing m w (filename opt)
  | SrvReq.unknown => Ok (m, w, false, [])
  end.

(** ** [write], [read]

    The difference of the two [ssize_t] values of [read] must fit the type. *)

Definition write (m : DataMgrFile) (w : W) (data : bytes) (position : Z)
    : outcome (DataMgrFile * W * Z * list error) :=
  if bool_decide (m_request_type m ≠ SrvReq.write) then Throw runtime_error
  else if out_open (m_file_out m) then
    if 0 <? size data then
      file_out ← (if tellp (m_file_out m) =? s64 position then Ok (m_file_out m)
                  else seekp (m_file_out m) (s64 position));
      let begin_pos := tellp file_out in
      if negb (tellp file_out =? s64 position) then
        Ok (with_streams m (m_file_in m) file_out, w, -1,
            forward_error (m_set_error m) 0 (str "Server write stream seek failed"))
      else
        let '(w, file_out) := out_write w file_out data in
        let end_pos := tellp file_out in
        let m := with_streams m (m_file_in m) file_out in
        if end_pos <? 0 then
          Ok (m, w, -1, forward_error (m_set_error m) 0
                (str "Server write stream failed - no writed data"))
        else Ok (m, w, end_pos - begin_pos, [])
    else Ok (m, w, 0, [])
  else Ok (m, w, -1,
           forward_error (m_set_error m) 0 (str "Server write stream not opened")).

Definition read (m : DataMgrFile) (w : W) (rng : bytes) (position : Z)
    : outcome (DataMgrFile * bytes * Z * list error) :=
  if bool_decide (m_request_type m ≠ SrvReq.read) then Throw runtime_error
  else if in_open (m_file_in m) then
    let buf_size := size rng in
    let file_in := if tellg (m_file_in m) =? s64 position then m_file_in m
                   else seekg (m_file_in m) (s64 position) in
    let ret_size := m_file_size m - s64 position in
    if 2 ^ 63 <=? ret_size then Undef
    else if 0 <? ret_size then
      let '(file_in, d) := in_read w file_in buf_size in
      Ok (with_streams m file_in (m_file_out m), blit rng 0 d,
          (if buf_size <? ret_size then buf_size else ret_size), [])
    else Ok (with_streams m file_in (m_file_out m), rng, ret_size, [])
  else Ok (m, rng, -1,
           forward_error (m_set_error m) 0 (str "Server read stream not opened")).

(** ** [close] *)

(** One permission bit of the mask. *)
Definition perm_bit (file_chmod bit curr_perm : Z) : Z :=
  if negb (Z.land file_chmod bit =? 0) then Z.lor curr_perm bit else curr_perm.

(** [S_IRUSR], [S_IWUSR], [S_IRGRP], [S_IWGRP], [S_IROTH], [S_IWOTH]. *)
Definition close_perms (file_chmod : Z) : Z :=
  let curr_perm := 0 in
  let curr_perm := perm_bit file_chmod 256 curr_perm in
  let curr_perm := perm_bit file_chmod 128 curr_perm in
  let curr_perm := perm_bit file_chmod 32 curr_perm in
  let curr_perm := perm_bit file_chmod 16 curr_perm in
  let curr_perm := perm_bit file_chmod 4 curr_perm in
  let curr_perm := perm_bit file_chmod 2 curr_perm in
  curr_perm.

Definition close_owner (m : DataMgrFile) (w : W) : W :=
  let user := get_file_chown_user (m_settings m) in
  let grp := get_file_chown_grp (m_settings m) in
  if (0 <? size user) || (0 <? size grp)
  then default w (fs_chown w (c_str (m_filename m))
         (get_uid_by_name getpwnam user) (get_gid_by_name getgrnam grp))
  else w.

(** Failures of [chown] and [chmod] are only logged. *)
Definition close (m : DataMgrFile) (w : W) : outcome (DataMgrFile * W) :=
  let file_in := if in_open (m_file_in m) then in_close (m_file_in m)
                 else m_file_in m in
  file_out ← (if out_open (m_file_out m) then out_close w (m_file_out m)
              else Ok (m_file_out m));
  let m := with_streams m file_in file_out in
  if bool_decide (m_request_type m = SrvReq.write) then
    let w := close_owner m w in
    let w := default w (fs_chmod w (c_str (m_filename m))
               (close_perms (get_file_chmod (m_settings m)))) in
    Ok (m, w)
  else Ok (m, w).
End manager.

#[export] Instance DataMgrFile_mgr {W} `{FileSystem W}
    (getpwnam getgrnam : bytes → option Z) : DataMgr W DataMgrFile := {
  dm_new := DataMgrFile_new;
  dm_active := active;
  dm_init := init;
  dm_write := write;
  dm_read := read;
  dm_close := close getpwnam getgrnam
}.

(** ** Lemmas *)

Section laws.
Context {W : Type} `{FsLaws W}.
Context (getpwnam getgrnam : bytes → option Z).

(** The manager delivers the file [d]. *)
Definition file_reading (m : DataMgrFile) (w : W) (d : bytes) : Prop :=
  m_request_type m = SrvReq.read ∧ in_open (m_file_in m) = true ∧
  in_fail (m_file_in m) = false ∧ in_eof (m_file_in m) = false ∧
  content w (in_path (m_file_in m)) = Some d ∧ m_file_size m = size d.

(** The manager stores into a file whose content is [d]. *)
Definition file_writing (m : DataMgrFile) (w : W) (d : bytes) : Prop :=
  m_request_type m = SrvReq.write ∧ out_open (m_file_out m) = true ∧
  out_bad (m_file_out m) = false ∧ out_exc (m_file_out m) = true ∧
  m_set_error m = true ∧ 0 ≤ out_pos (m_file_out m) ∧
  content w (out_path (m_file_out m)) = Some d.

Lemma in_close_opened w fn :
  in_fail (in_close (in_open_file w fn)) = negb (fs_can_read w (c_str fn)).
Proof. unfold in_open_file. by destruct (fs_can_read _ _). Qed.

Lemma init_reading_ok m w name m' w' errs :
  init_reading m w name = Ok (m', w', true, errs) →
  w' = w ∧ errs = [] ∧ m_request_type m' = m_request_type m ∧
  m_settings m' = m_settings m ∧
  find_file w m name = Ok (true, m_filename m') ∧
  fs_can_read w (c_str (m_filename m')) = true ∧
  m_file_in m' = in_open_file w (m_filename m') ∧
  content w (c_str (m_filename m')) ≠ None ∧
  fs_file_size w (m_filename m') = Ok (m_file_size m').
Proof.
  unfold init_reading. intros E. apply bind_Ok in E as ([ret fn] & Hf & E).
  destruct ret; cbn [negb] in E; [|done].
  destruct (in_fail (in_close _)) eqn:Hc; [done|].
  rewrite in_close_opened in Hc. reflect_bools.
  apply bind_Ok in E as (sz & Hs & E). simplify_eq/=. split_and!; try done.
  unfold fs_file_size in Hs. by destruct (content _ _).
Qed.

Lemma init_reading_reads m w name m' w' errs :
  m_request_type m = SrvReq.read →
  init_reading m w name = Ok (m', w', true, errs) →
  ∃ d, content w (c_str (m_filename m')) = Some d ∧ file_reading m' w d.
Proof.
  intros Hr (-> & -> & Hrt & _ & _ & Hcan & Hin & Hc & Hs)%init_reading_ok.
  destruct (content w _) as [d|] eqn:E; [|done]. exists d. split; [done|].
  unfold file_reading. rewrite Hin, Hrt. unfold in_open_file. rewrite Hcan. simpl.
  split_and!; try done. unfold fs_file_size in Hs. rewrite E in Hs. by simplify_eq.
Qed.

Lemma read_in_file m w d rng pos :
  file_reading m w d → 0 ≤ pos ≤ size d → size d < 2 ^ 63 → rng ≠ [] →
  ∃ m', read m w rng pos
        = Ok (m', blit rng 0 (slice d pos (size rng)),
              Z.min (size rng) (size d - pos), []) ∧
        (pos + size rng ≤ size d ∨ pos = size d → file_reading m' w d).
Proof.
  intros (Hr & Ho & Hf & He & Hc & Hs) Hp Hd Hrng. unfold read.
  rewrite bool_decide_false by (by rewrite Hr; auto). rewrite Ho, Hs.
  rewrite swrap_small by lia.
  assert (Hrs : 0 < size rng) by (destruct rng; [done|unfold size; simpl; lia]).
  set (f := if tellg (m_file_in m) =? pos then m_file_in m else seekg (m_file_in m) pos).
  assert (f = {| in_path := in_path (m_file_in m); in_open := true; in_pos := pos;
                 in_eof := false; in_fail := false |}) as ->.
  { unfold f, tellg, seekg. rewrite Hf. destruct (m_file_in m); simpl in *; subst.
    destruct (_ =? pos) eqn:E; reflect_bools; [by subst|].
    by rewrite (proj2 (Z.ltb_ge _ _)) by lia. }
  rewrite (proj2 (Z.leb_gt (2 ^ 63) _)) by lia.
  destruct (0 <? size d - pos) eqn:E; reflect_bools.
  - unfold in_read. simpl. rewrite Hc. simpl. eexists. split.
    { do 3 f_equal. destruct (_ <? _) eqn:E2; reflect_bools; lia. }
    intros Hle. destruct Hle as [Hle|]; [|lia].
    rewrite slice_length by lia. rewrite Z.ltb_irrefl. by split_and!.
  - assert (pos = size d) as -> by lia. eexists. split.
    { repeat f_equal; [|lia]. unfold slice, size. rewrite Nat2Z.id, drop_ge, take_nil by lia.
      done. }
    intros _. by split_and!.
Qed.

Lemma read_past_file m w d rng pos :
  file_reading m w d → size d < pos < 2 ^ 63 →
  ∃ m', read m w rng pos = Ok (m', rng, size d - pos, []) ∧ file_reading m' w d.
Proof.
  intros (Hr & Ho & Hf & He & Hc & Hs) Hp. pose proof (size_nonneg d). unfold read.
  rewrite bool_decide_false by (by rewrite Hr; auto). rewrite Ho, Hs.
  rewrite swrap_small by lia. rewrite (proj2 (Z.leb_gt (2 ^ 63) _)) by lia.
  rewrite (proj2 (Z.ltb_ge 0 _)) by lia. eexists. split; [done|].
  unfold tellg, seekg. rewrite Hf. destruct (m_file_in m); simpl in *; subst.
  destruct (_ =? pos); [by split_and!|]. rewrite (proj2 (Z.ltb_ge pos 0)) by lia.
  by split_and!.
Qed.

Lemma init_writing_writes m w name m' w' errs :
  m_request_type m = SrvReq.write → m_set_error m = true →
  init_writing m w name = Ok (m', w', true, errs) →
  errs = [] ∧ file_writing m' w' [] ∧
  m_filename m' = path_append (get_root_dir (m_settings m)) name ∧
  out_path (m_file_out m') = c_str (m_filename m') ∧
  exists_ w (m_filename m') = Ok false.
Proof.
  unfold init_writing. intros Hr Hs E. apply bind_Ok in E as (ex & Hex & E).
  destruct ex; [done|]. unfold out_open_file in E.
  destruct (fs_create _ _) as [w1|] eqn:Hc; simplify_eq/=.
  apply create_empty in Hc. by split_and!.
Qed.

Lemma init_error_text m w sett opt m' w' errs :
  request_type opt ≠ SrvReq.unknown → init m w sett opt = Ok (m', w', false, errs) →
  Exists (λ e, e.2 ≠ []) errs.
Proof.
  unfold init. intros Hr E. destruct (request_type opt); [done| |].
  - unfold init_reading in E. apply bind_Ok in E as ([ret fn] & _ & E).
    destruct ret; cbn [negb] in E.
    + destruct (in_fail (in_close _)); [done|]. apply bind_Ok in E as (? & _ & E). done.
    + simplify_eq/=. by constructor.
  - unfold init_writing in E. apply bind_Ok in E as (ex & _ & E).
    destruct ex; [simplify_eq/=; by constructor|].
    destruct (out_open_file _ _) as [[]|]; simplify_eq/=. by constructor.
Qed.

Lemma write_in_file m w d b pos :
  file_writing m w d → 0 ≤ pos < 2 ^ 63 → b ≠ [] →
  ∃ m' w' r errs, write m w b pos = Ok (m', w', r, errs) ∧
    ((r = size b ∧ errs = [] ∧ file_writing m' w' (put d pos b) ∧
      m_filename m' = m_filename m ∧ out_path (m_file_out m') = out_path (m_file_out m)) ∨
     (r = -1 ∧ Exists (λ e, e.2 ≠ []) errs ∧
      (fs_pwrite w (out_path (m_file_out m)) pos b).2 = false)).
Proof.
  intros (Hr & Ho & Hb & Hx & Hse & _ & Hc) Hp Hne. unfold write.
  rewrite bool_decide_false by (by rewrite Hr; auto). rewrite Ho.
  assert (Hbs : 0 < size b) by (destruct b; [done|unfold size; simpl; lia]).
  rewrite (proj2 (Z.ltb_lt _ _)) by lia. rewrite swrap_small by lia.
  set (f := {| out_path := out_path (m_file_out m); out_open := true; out_pos := pos;
               out_bad := false; out_exc := true |}).
  assert ((if tellp (m_file_out m) =? pos then Ok (m_file_out m)
           else seekp (m_file_out m) pos) = Ok f) as ->.
  { unfold f, tellp, seekp. rewrite Hb. destruct (m_file_out m); simpl in *; subst.
    destruct (_ =? pos) eqn:E; reflect_bools; [by subst|].
    by rewrite (proj2 (Z.ltb_ge _ _)) by lia. }
  cbn [mbind outcome_bind]. unfold tellp, out_write. simpl.
  rewrite Z.eqb_refl. simpl.
  destruct (fs_pwrite _ _ _ _) as [w' ok] eqn:Hpw. simpl. destruct ok; simpl.
  - rewrite (proj2 (Z.ltb_ge _ _)) by lia. do 4 eexists. split; [done|]. left.
    split_and!; [lia|done| |done|done].
    split_and!; try done; simpl; [lia|]. eapply pwrite_content; eauto; lia.
  - rewrite Hse. do 4 eexists. split; [done|]. right. split_and!; try done.
    by constructor.
Qed.

(** The message [write] sets when the device does not take the data. *)
Definition write_error : bytes := str "Server write stream failed - no writed data".

(** [write] refuses a block only when the device does, and leaves what the device
    left. *)
Lemma write_refused m w d b pos m' w' errs :
  file_writing m w d → 0 ≤ pos < 2 ^ 63 → write m w b pos = Ok (m', w', -1, errs) →
  fs_pwrite w (out_path (m_file_out m)) pos b = (w', false) ∧ errs = [(0, write_error)] ∧
  out_open (m_file_out m') = true ∧ out_path (m_file_out m') = out_path (m_file_out m).
Proof.
  intros (Hr & Ho & Hb & Hx & Hse & Hp0 & Hc) Hp. unfold write.
  rewrite bool_decide_false by (by rewrite Hr; auto). rewrite Ho.
  destruct (0 <? size b) eqn:Hsz; [|done]. rewrite swrap_small by lia. intros E.
  apply bind_Ok in E as (f & Ef & E).
  assert (Hf : out_open f = true ∧ out_bad f = false ∧ out_pos f = pos ∧
               out_path f = out_path (m_file_out m)).
  { unfold tellp in Ef. rewrite Hb in Ef. destruct (_ =? pos) eqn:Hq; reflect_bools; [by simplify_eq|].
    unfold seekp in Ef. rewrite Hb in Ef. rewrite (proj2 (Z.ltb_ge pos 0)) in Ef by lia.
    by simplify_eq. }
  destruct Hf as (Ho1 & Hb1 & Hq1 & Hpa). unfold tellp in E. rewrite Hb1, Hq1, Z.eqb_refl in E.
  cbn [negb] in E. unfold out_write in E. rewrite Hb1, Hq1, Hpa in E.
  destruct (fs_pwrite _ _ _ _) as [w1 [|]] eqn:Ew; cbn in E.
  - pose proof (size_nonneg b). rewrite (proj2 (Z.ltb_ge _ 0)) in E by lia.
    injection E as _ _ E _. reflect_bools. lia.
  - simplify_eq/=. rewrite Hse. done.
Qed.

Lemma write_none m w d pos :
  file_writing m w d → write m w [] pos = Ok (m, w, 0, []).
Proof.
  intros (Hr & Ho & _). unfold write. rewrite bool_decide_false by (by rewrite Hr; auto).
  by rewrite Ho.
Qed.

(** The file manager keeps the promises of the interface. *)
#[export] Instance DataMgrFile_laws :
  @DataMgrLaws W DataMgrFile (DataMgrFile_mgr getpwnam getgrnam).
Proof.
  refine {| reading := file_reading; writing := file_writing |}; simpl.
  - intros m w sett opt m' w' errs Hr E. unfold init in E. rewrite Hr in E.
    pose proof (init_reading_ok _ _ _ _ _ _ E) as (-> & -> & _).
    apply init_reading_reads in E as (d & _ & ?); [|done]. eauto.
  - intros m w sett opt m' w' errs Hr E. unfold init in E. rewrite Hr in E.
    by apply init_writing_writes in E as (? & ? & _).
  - intros. by eapply init_error_text.
  - intros. by apply read_in_file.
  - intros. by apply read_past_file.
  - intros m w d b pos Hw Hp Hne.
    destruct (write_in_file m w d b pos Hw Hp Hne)
      as (m' & w' & r & errs & E & Hcase).
    exists m', w', r, errs. split; [done|].
    destruct Hcase as [(? & ? & ? & _)|(? & ? & _)]; [by left|by right].
  - intros. by eapply write_none.
Defined.
End laws.

(** *** Search *)
Section search.
Context {W : Type} `{FileSystem W}.

Definition is_file (w : W) (p : path) : bool :=
  match content w (c_str p) with Some _ => true | None => false end.

(** A path can be tested. *)
Definition stat_ok (w : W) (p : path) : Prop := fs_stat w (c_str p) ≠ StatError.

(** What is under a path: a regular file, something else or nothing, or no answer. *)
Definition conclusive (w : W) (p : path) : bool :=
  match fs_stat w (c_str p) with
  | Found (File _ _ _ _) | StatError => true
  | _ => false
  end.

Lemma search_dirs_name_find w name dirs :
  search_dirs_name w name dirs =
  match list_find (λ p, conclusive w p = true) ((λ dir, path_append dir name) <$> dirs) with
  | Some (_, p) => if is_file w p then Ok (true, p) else Throw filesystem_error
  | None => Ok (false, [])
  end.
Proof.
  induction dirs as [|dir dirs IH]; cbn [search_dirs_name fmap list_fmap list_find]; [done|].
  unfold exists_, is_regular_file. case_decide as Hd; unfold conclusive in Hd.
  - unfold is_file, content. by destruct (fs_stat _ _) as [[]| |].
  - destruct (fs_stat _ _) as [[]| |]; try done; cbn [mbind outcome_bind]; rewrite IH;
      by destruct (list_find _ _) as [[]|].
Qed.

Lemma search_entry_sound w md5sum curr p :
  search_entry w md5sum curr = Ok (Some p) →
  exists_ w p = Ok true ∧ do_lower (extension curr) = str ".md5" ∧
  ∃ sm, regex_search regex_template_md5 (read_line1 w curr) = Some sm ∧
        sm_str (read_line1 w curr) sm 1 = md5sum ∧
        (p = drop_extension curr ∨
         p = replace_filename (drop_extension curr) (sm_suffix (read_line1 w curr) sm)).
Proof.
  unfold search_entry. case_bool_decide as He; [|done].
  destruct (regex_search _ _) as [sm|] eqn:Hsm; [|done].
  case_bool_decide as Hmd; [|done]. intros E. apply bind_Ok in E as (ex & Hex & E).
  destruct ex; [simplify_eq/=; eauto 10|]. destruct (negb _); [|done].
  apply bind_Ok in E as (ex & Hex' & E). destruct ex; simplify_eq/=. eauto 10.
Qed.

Lemma search_entries_sound w md5sum l err p :
  search_entries w md5sum l err = Ok (true, p) →
  ∃ curr, curr ∈ l ∧ search_entry w md5sum curr = Ok (Some p).
Proof.
  induction l as [|curr l IH]; cbn [search_entries]; [by destruct err|].
  intros E. apply bind_Ok in E as ([q|] & Hq & E); simplify_eq/=.
  - exists curr. split; [by left|done].
  - destruct (IH E) as (c & ? & ?). exists c. split; [by right|done].
Qed.

Lemma search_dirs_md5_sound w md5sum dirs p :
  search_dirs_md5 w md5sum dirs = Ok (true, p) →
  ∃ dir curr, dir ∈ dirs ∧ curr ∈ (fs_walk w (c_str dir)).1 ∧
              search_entry w md5sum curr = Ok (Some p).
Proof.
  induction dirs as [|dir dirs IH]; cbn [search_dirs_md5]; [done|].
  intros E. apply bind_Ok in E as (ex & _ & E). apply bind_Ok in E as (isd & _ & E).
  assert (search_dirs_md5 w md5sum dirs = Ok (true, p) →
    ∃ dir0 curr, dir0 ∈ dir :: dirs ∧ curr ∈ (fs_walk w (c_str dir0)).1 ∧
                 search_entry w md5sum curr = Ok (Some p)) as Hrest.
  { intros (d & c & ? & ? & ?)%IH. exists d, c. split_and!; try done. set_solver. }
  destruct isd; [|by auto]. apply bind_Ok in E as ([res file] & Hs & E).
  destruct res; [|by auto]. simplify_eq/=. unfold search_by_md5 in Hs.
  destruct (fs_walk w (c_str dir)) as [l err] eqn:Hl.
  apply search_entries_sound in Hs as (curr & ? & ?).
  exists dir, curr. split_and!; [set_solver|by rewrite Hl|done].
Qed.
End search.

(** *** Permissions *)

Lemma perm_bit_land m k acc :
  0 ≤ k → perm_bit m (2 ^ k) acc = Z.lor acc (Z.land m (2 ^ k)).
Proof.
  intros. unfold perm_bit. destruct (Z.land m (2 ^ k) =? 0) eqn:E; reflect_bools; simpl.
  - by rewrite E, Z.lor_0_r.
  - f_equal. apply Z.bits_inj'. intros n Hn.
    rewrite Z.land_spec, Z.pow2_bits_eqb by done.
    destruct (k =? n) eqn:Ek; [|by rewrite andb_false_r]. reflect_bools. subst n.
    rewrite andb_true_r. destruct (Z.testbit m k) eqn:Et; [done|].
    destruct E. apply Z.bits_inj'. intros n Hn'.
    rewrite Z.land_spec, Z.pow2_bits_eqb, Z.bits_0 by done.
    destruct (k =? n) eqn:Ek; reflect_bools; [subst; by rewrite Et|by rewrite andb_false_r].
Qed.

(** The permissions are the read and write bits of the setting, [0666]. *)
Lemma close_perms_land m : close_perms m = Z.land m 438.
Proof.
  unfold close_perms. rewrite (perm_bit_land m 8), (perm_bit_land m 7),
    (perm_bit_land m 5), (perm_bit_land m 4), (perm_bit_land m 2),
    (perm_bit_land m 1) by lia.
  rewrite Z.lor_0_l, <-!Z.land_lor_distr_r. done.
Qed.

(** *** Closing *)

Lemma close_without_owner {W} `{FileSystem W} pw gr m (w : W) :
  m_request_type m = SrvReq.write → out_open (m_file_out m) = false →
  file_chown_user (m_settings m) = [] → file_chown_grp (m_settings m) = [] →
  ∃ m1, close pw gr m w
        = Ok (m1, default w (fs_chmod w (c_str (m_filename m))
                               (Z.land (file_chmod (m_settings m)) 438))).
Proof.
  intros Hr Ho Hu Hg. unfold close. rewrite Ho. cbn [mbind outcome_bind].
  cbn [with_streams m_request_type m_settings m_filename]. rewrite Hr.
  rewrite bool_decide_true by done.
  unfold close_owner, get_file_chown_user, get_file_chown_grp, get_file_chmod.
  cbn [with_streams m_settings m_filename]. rewrite Hu, Hg.
  change (0 <? size []) with false. cbn [orb]. rewrite close_perms_land. eauto.
Qed.

(** *** Storing a sequence of blocks *)
Section store.
Context {W : Type} `{FsLaws W}.

(** The calls of [write] a session makes for consecutive blocks from number [k] on
    ([Session::receive_no_wait]: the position is [(k - 1) * bs]); the errors of a
    refused call end the session, [None] when no call was refused. *)
Fixpoint write_calls (m : DataMgrFile) (w : W) (bs k : Z) (blocks : list bytes)
    : outcome (DataMgrFile * W * option (list error)) :=
  match blocks with
  | [] => Ok (m, w, None)
  | b :: blocks =>
      '(m, w, r, errs) ← write m w b ((k - 1) * bs);
      if r <? 0 then Ok (m, w, Some errs) else write_calls m w bs (k + 1) blocks
  end.

Definition stored_until (p : bytes) (bs k : Z) (d : bytes) (blocks : list bytes) (w2 : W)
    : Prop :=
  ∃ j b w0, blocks !! j = Some b ∧ content w0 p = Some (d ++ concat (take j blocks)) ∧
    fs_pwrite w0 p ((k - 1 + Z.of_nat j) * bs) b = (w2, false).

Lemma write_calls_end m w d b bs k :
  file_writing m w d → size d = (k - 1) * bs → size d + size b < 2 ^ 63 →
  ∃ m' w', (write_calls m w bs k [b] = Ok (m', w', None) ∧ file_writing m' w' (d ++ b) ∧
            out_path (m_file_out m') = out_path (m_file_out m)) ∨
           (write_calls m w bs k [b] = Ok (m', w', Some [(0, write_error)]) ∧
            fs_pwrite w (out_path (m_file_out m)) (size d) b = (w', false)).
Proof.
  intros Hw Hd Hs. cbn [write_calls]. rewrite <-Hd. pose proof (size_nonneg d).
  destruct (decide (b = [])) as [->|Hb].
  { rewrite (write_none m w d _ Hw). cbn [mbind outcome_bind]. rewrite app_nil_r. eauto 10. }
  pose proof (size_nonneg b).
  destruct (write_in_file m w d b (size d) Hw ltac:(lia) Hb)
    as (m1 & w1 & r & errs & E & [(-> & -> & Hw1 & Hn & Ho)|(-> & _)]).
  - exists m1, w1. left. rewrite E. cbn [mbind outcome_bind].
    rewrite (proj2 (Z.ltb_ge _ _)) by lia. rewrite put_end in Hw1. done.
  - destruct (write_refused m w d b (size d) m1 w1 errs Hw ltac:(lia) E) as (? & -> & _).
    exists m1, w1. right. by rewrite E.
Qed.

Lemma write_calls_stores m w d full last bs k :
  file_writing m w d → size d = (k - 1) * bs → Forall (λ b, size b = bs) full →
  size d + size (concat (full ++ [last])) < 2 ^ 63 →
  ∃ m' w',
    (write_calls m w bs k (full ++ [last]) = Ok (m', w', None) ∧
     file_writing m' w' (d ++ concat (full ++ [last])) ∧
     out_path (m_file_out m') = out_path (m_file_out m)) ∨
    (write_calls m w bs k (full ++ [last]) = Ok (m', w', Some [(0, write_error)]) ∧
     stored_until (out_path (m_file_out m)) bs k d (full ++ [last]) w').
Proof.
  intros Hw Hd Hf. revert m w d k Hw Hd.
  induction Hf as [|b full Hb _ IH]; intros m w d k Hw Hd Hs.
  - cbn [app concat] in *. rewrite app_nil_r in *.
    destruct (write_calls_end m w d last bs k Hw Hd Hs)
      as (m' & w' & [?|[? Ew]]); exists m', w'; [by left|right].
    split; [done|]. exists 0%nat, last, w. cbn. rewrite app_nil_r.
    split_and!; [done|apply Hw|]. by rewrite Z.add_0_r, <-Hd.
  - cbn [app concat] in *. rewrite size_app in Hs.
    pose proof (size_nonneg (concat (full ++ [last]))).
    destruct (write_calls_end m w d b bs k Hw Hd ltac:(lia)) as (m1 & w1 & Hend).
    cbn [write_calls] in *.
    destruct (write m w b ((k - 1) * bs)) as [[[[m2 w2] r] errs]|e|] eqn:E;
      cbn [mbind outcome_bind] in *; [|by destruct Hend as [[? _]|[? _]]..].
    destruct (r <? 0); destruct Hend as [(? & Hw1 & Ho)|(? & Ew)]; simplify_eq.
    + exists m1, w1. right. split; [done|]. exists 0%nat, b, w. cbn. rewrite app_nil_r.
      split_and!; [done|apply Hw|]. by rewrite Z.add_0_r, <-Hd.
    + destruct (IH m1 w1 (d ++ b) (k + 1) Hw1) as (m' & w' & [(? & Hw' & Ho')|(? & Hj)]);
        rewrite ?size_app; [lia..| |]; exists m', w'; [left|right].
      * rewrite <-app_assoc in Hw'. split_and!; [done|done|congruence].
      * split; [done|]. destruct Hj as (j & b' & w0 & Hj & Hc & Hp). rewrite Ho in *.
        exists (S j), b', w0. cbn [take firstn concat lookup list_lookup].
        rewrite <-app_assoc in Hc. split_and!; [done|done|].
        by replace (k - 1 + Z.of_nat (S j)) with (k + 1 - 1 + Z.of_nat j) by lia.
Qed.
End store.

(** ** Properties *)

(** C21. After a successful start of a read request, [read] at any position of the
    file (one octet after its end included) puts the octets of the file that are
    there into the range, as many as fit, and returns their number. *)
Theorem read_delivers {W} `{FsLaws W} m (w : W) sett opt m' w' errs :
  request_type opt = SrvReq.read →
  init m w sett opt = Ok (m', w', true, errs) →
  ∃ d, content w (c_str (m_filename m')) = Some d ∧ w' = w ∧
    ∀ rng pos, rng ≠ [] → 0 ≤ pos ≤ size d → size d < 2 ^ 63 →
      ∃ m'', read m' w' rng pos
             = Ok (m'', blit rng 0 (slice d pos (size rng)),
                   Z.min (size rng) (size d - pos), []).
Proof.
  intros Hr E. unfold init in E. rewrite Hr in E.
  pose proof (init_reading_ok _ _ _ _ _ _ E) as (-> & _).
  apply init_reading_reads in E as (d & Hc & Hd); [|done].
  exists d. split_and!; try done. intros rng pos ???.
  destruct (read_in_file m' w d rng pos) as (m'' & ? & _); eauto.
Qed.

Definition demo_file : bytes := str "firmware image".

Definition demo_fs : MemFs := {|
  mem_nodes := [(str "/srv/", Dir);
                (str "/srv/fw.bin", File demo_file 436 0 0);
                (str "/alt/old.bin", File (str "old") 436 0 0)];
  mem_limit := 1000000
|}.

Definition demo_settings : Settings :=
  with_dirs Settings_new (str "/srv") [str "/alt"].

Definition demo_opt (rq : SrvReq.t) (name : bytes) : Options :=
  set_filename (set_request Options_default rq) name.

(** The manager and the files after a successful start. *)
Definition demo_start (rq : SrvReq.t) (name : bytes) : DataMgrFile * MemFs :=
  match init DataMgrFile_new demo_fs demo_settings (demo_opt rq name) with
  | Ok (m, w, true, []) => (m, w)
  | _ => (DataMgrFile_new, demo_fs)
  end.

Lemma read_delivers_witness :
  ∃ m'', read (demo_start SrvReq.read (str "fw.bin")).1 demo_fs (replicate 4 xff) 9
         = Ok (m'', str "imag", 4, []).
Proof.
  set (m' := (demo_start SrvReq.read (str "fw.bin")).1).
  destruct (read_delivers DataMgrFile_new demo_fs demo_settings
    (demo_opt SrvReq.read (str "fw.bin")) m' demo_fs []) as (d & Hc & _ & Hr);
    [reflexivity|vm_compute; reflexivity|].
  vm_compute in Hc. injection Hc as <-.
  destruct (Hr (replicate 4 xff) 9) as [m'' E];
    [discriminate|split; vm_compute; discriminate|vm_compute; reflexivity|].
  exists m''. rewrite E. vm_compute. reflexivity.
Defined.

(** C23. The start of an upload: when the target exists, [init] refuses the request with
    TFTP error 6 and changes nothing in the file system; when it does not, the manager
    stores into a new, empty file if the target can be created, and otherwise reports
    the error of the stream and changes nothing; when it cannot be tested, the
    exception leaves [init]. *)
Theorem init_write_exclusive {W} `{FsLaws W} m (w : W) sett opt :
  request_type opt = SrvReq.write →
  let fn := path_append (get_root_dir sett) (filename opt) in
  match exists_ w fn with
  | Ok true =>
      ∃ m', init m w sett opt = Ok (m', w, false, [(6, str "File already exists")]) ∧
            m_file_out m' = m_file_out m
  | Ok false =>
      match fs_create w (c_str fn) with
      | Some w1 => ∃ m', init m w sett opt = Ok (m', w1, true, []) ∧ m_filename m' = fn ∧
                         out_path (m_file_out m') = c_str fn ∧ file_writing m' w1 []
      | None => ∃ m', init m w sett opt = Ok (m', w, false, [(0, ios_failure_what)]) ∧
                      out_open (m_file_out m') = false
      end
  | _ => init m w sett opt = Throw filesystem_error
  end.
Proof.
  intros Hr fn. unfold init. rewrite Hr. unfold init_writing. cbn [m_settings with_request].
  fold fn. destruct (exists_ w fn) as [[]|e|] eqn:Ex; cbn [mbind outcome_bind].
  - eexists. by split.
  - unfold out_open_file. destruct (fs_create w (c_str fn)) as [w1|] eqn:Hc.
    + apply create_empty in Hc. eexists. by split_and!.
    + eexists. by split.
  - unfold exists_ in Ex. by destruct (fs_stat _ _); simplify_eq.
  - unfold exists_ in Ex. by destruct (fs_stat _ _).
Qed.

Lemma init_write_exclusive_witness :
  (∃ m', init DataMgrFile_new demo_fs demo_settings (demo_opt SrvReq.write (str "new.bin"))
         = Ok (m', (demo_start SrvReq.write (str "new.bin")).2, true, []) ∧
         out_path (m_file_out m') = str "/srv/new.bin") ∧
  ∃ m', init DataMgrFile_new demo_fs demo_settings (demo_opt SrvReq.write (str "fw.bin"))
        = Ok (m', demo_fs, false, [(6, str "File already exists")]).
Proof.
  split.
  - destruct (init_write_exclusive DataMgrFile_new demo_fs demo_settings
      (demo_opt SrvReq.write (str "new.bin")) eq_refl) as (m' & H1 & _ & H2 & _).
    exists m'. split; [exact H1|exact H2].
  - destruct (init_write_exclusive DataMgrFile_new demo_fs demo_settings
      (demo_opt SrvReq.write (str "fw.bin")) eq_refl) as (m' & H1 & _).
    exists m'. exact H1.
Defined.

(** C22. Storing: after a successful start of an upload, the blocks of a file (all but
    the last as long as the block size) are handed to [write] at the positions a
    session computes. Either no call is refused and the new file holds exactly their
    concatenation; or the device did not take one of the blocks, all blocks before it
    were stored, and this call returned [-1] with the error of a failed write. *)
Theorem write_stores {W} `{FsLaws W} m (w : W) sett opt m1 w1 errs bs full last :
  request_type opt = SrvReq.write →
  init m w sett opt = Ok (m1, w1, true, errs) →
  Forall (λ b, size b = bs) full → size (concat (full ++ [last])) < 2 ^ 63 →
  let p := c_str (m_filename m1) in
  ∃ m2 w2,
    (write_calls m1 w1 bs 1 (full ++ [last]) = Ok (m2, w2, None) ∧
     content w2 p = Some (concat (full ++ [last]))) ∨
    (write_calls m1 w1 bs 1 (full ++ [last]) = Ok (m2, w2, Some [(0, write_error)]) ∧
     ∃ j b w0, (full ++ [last]) !! j = Some b ∧
       content w0 p = Some (concat (take j (full ++ [last]))) ∧
       fs_pwrite w0 p (Z.of_nat j * bs) b = (w2, false)).
Proof.
  intros Hr E Hf Hs p. unfold init in E. rewrite Hr in E.
  apply init_writing_writes in E as (_ & Hw & _ & Hp & _); [|done|done].
  destruct (write_calls_stores m1 w1 [] full last bs 1 Hw ltac:(done) Hf Hs)
    as (m2 & w2 & [(E2 & Hw2 & Ho)|(E2 & Hj)]); exists m2, w2; [left|right].
  - split; [done|]. unfold p. rewrite <-Hp, <-Ho. apply Hw2.
  - split; [done|]. rewrite Hp in Hj. exact Hj.
Qed.

Lemma write_stores_witness :
  ∃ m2 w2,
    write_calls (demo_start SrvReq.write (str "new.bin")).1
      (demo_start SrvReq.write (str "new.bin")).2 6 1 [str "first "; str "second"; str "."]
    = Ok (m2, w2, None) ∧
    content w2 (str "/srv/new.bin") = Some (str "first second.").
Proof.
  destruct (write_stores DataMgrFile_new demo_fs demo_settings
    (demo_opt SrvReq.write (str "new.bin")) (demo_start SrvReq.write (str "new.bin")).1
    (demo_start SrvReq.write (str "new.bin")).2 [] 6 [str "first "; str "second"] (str "."))
    as (m2 & w2 & [[E H]|[E _]]);
    [reflexivity|vm_compute; reflexivity|repeat constructor|vm_compute; reflexivity|..].
  - exists m2, w2. split; [exact E|exact H].
  - vm_compute in E. discriminate E.
Defined.

(** C25. Search by name: of the paths of the name in the root directory and in the
    search directories, in their order, the first that is a regular file or cannot be
    tested decides: a file is the result, a failed test throws; the name is not
    found when none of them decides. *)
Theorem full_search_name_first {W} `{FileSystem W} (w : W) sett name :
  full_search_name w sett name =
  match list_find (λ p, conclusive w p = true)
          ((λ dir, path_append dir name) <$> (get_root_dir sett :: backup_dirs sett)) with
  | Some (_, p) => if is_file w p then Ok (true, p) else Throw filesystem_error
  | None => Ok (false, [])
  end.
Proof. unfold full_search_name. rewrite get_serach_dir_eq. apply search_dirs_name_find. Qed.

(** The search by name does not descend: a file in a directory below the root
    directory is found by its path only. *)
Theorem name_search_flat :
  let w := {| mem_nodes := [(str "/srv/", Dir); (str "/srv/v2", Dir);
                            (str "/srv/v2/fw.bin", File demo_file 436 0 0)];
              mem_limit := 1000000 |} in
  full_search_name w demo_settings (str "fw.bin") = Ok (false, []) ∧
  full_search_name w demo_settings (str "v2/fw.bin") = Ok (true, str "/srv/v2/fw.bin").
Proof. split; vm_compute; reflexivity. Qed.

(** Search by sum is sound: a path it returns exists and comes from a [.md5] file
    below one of the directories, whose first line holds the requested sum as
    its first run of 32 hexadecimal digits. *)
Theorem full_search_md5_sound {W} `{FileSystem W} (w : W) sett md5sum p :
  full_search_md5 w sett md5sum = Ok (true, p) →
  exists_ w p = Ok true ∧
  ∃ dir curr sm, dir ∈ get_root_dir sett :: backup_dirs sett ∧
    curr ∈ (fs_walk w (c_str dir)).1 ∧ do_lower (extension curr) = str ".md5" ∧
    regex_search regex_template_md5 (read_line1 w curr) = Some sm ∧
    sm_str (read_line1 w curr) sm 1 = md5sum ∧
    (p = drop_extension curr ∨
     p = replace_filename (drop_extension curr) (sm_suffix (read_line1 w curr) sm)).
Proof.
  unfold full_search_md5. rewrite get_serach_dir_eq.
  intros (dir & curr & Hd & Hc & Hs)%search_dirs_md5_sound.
  apply search_entry_sound in Hs as (Hex & He & sm & ? & ? & ?).
  split; [done|]. exists dir, curr, sm. by split_and!.
Qed.

Definition demo_md5 : bytes := str "0123456789abcdef0123456789ABCDEF".

Definition demo_md5_fs : MemFs := {|
  mem_nodes := [(str "/srv/", Dir);
                (str "/srv/fw.bin", File demo_file 436 0 0);
                (str "/srv/fw.bin.md5", File (demo_md5 ++ str "  x") 436 0 0)];
  mem_limit := 1000000
|}.

Lemma full_search_md5_sound_witness :
  exists_ demo_md5_fs (str "/srv/fw.bin") = Ok true.
Proof.
  refine (proj1 (full_search_md5_sound demo_md5_fs demo_settings demo_md5
    (str "/srv/fw.bin") _)).
  vm_compute. reflexivity.
Defined.

(** Closing an upload gives the file exactly the read and write bits of the
    [--file-chmod] setting, and keeps its content and owner when no owner is
    configured. *)
Theorem close_sets_mode {W} `{FsLaws W} pw gr m (w w1 : W) d md u g :
  m_request_type m = SrvReq.write → out_open (m_file_out m) = false →
  file_chown_user (m_settings m) = [] → file_chown_grp (m_settings m) = [] →
  fs_stat w (c_str (m_filename m)) = Found (File d md u g) →
  fs_chmod w (c_str (m_filename m)) (Z.land (file_chmod (m_settings m)) 438) = Some w1 →
  ∃ m1, close pw gr m w = Ok (m1, w1) ∧
    fs_stat w1 (c_str (m_filename m))
    = Found (File d (Z.land (file_chmod (m_settings m)) 438) u g).
Proof.
  intros Hr Ho Hu Hg Hst Hc. destruct (close_without_owner pw gr m w) as [m1 E]; auto.
  rewrite Hc in E. exists m1. split; [exact E|]. by eapply chmod_mode.
Qed.

(** A refused upload over an existing file leaves its content but still changes
    its permissions when the session closes its manager. *)
Theorem close_touches_existing {W} `{FsLaws W} pw gr (w w1 : W) sett opt d md u g :
  request_type opt = SrvReq.write →
  file_chown_user sett = [] → file_chown_grp sett = [] →
  let fn := path_append (get_root_dir sett) (filename opt) in
  fs_stat w (c_str fn) = Found (File d md u g) →
  fs_chmod w (c_str fn) (Z.land (file_chmod sett) 438) = Some w1 →
  ∃ m' m1, init DataMgrFile_new w sett opt
           = Ok (m', w, false, [(6, str "File already exists")]) ∧
    close pw gr m' w = Ok (m1, w1) ∧
    fs_stat w1 (c_str fn) = Found (File d (Z.land (file_chmod sett) 438) u g).
Proof.
  intros Hr Hu Hg fn Hst Hc. unfold init. rewrite Hr. unfold init_writing, exists_.
  cbn [m_settings with_request]. fold fn. rewrite Hst. cbn [mbind outcome_bind].
  set (m' := with_opened _ _ _ _ _).
  destruct (close_without_owner pw gr m' w) as [m1 E]; auto.
  cbn [m' with_opened with_request m_filename m_settings] in E. rewrite Hc in E.
  exists m', m1. split; [done|]. split; [exact E|]. by eapply chmod_mode.
Qed.

(** A request whose name cannot be tested in the root directory (a component
    longer than the file system allows) is not answered with an error: the
    exception of [filesystem::exists] leaves [init], and nothing catches it. *)
Theorem init_stat_error {W} `{FileSystem W} m (w : W) sett opt :
  request_type opt ≠ SrvReq.unknown → match_md5 (filename opt) = false →
  fs_stat w (c_str (path_append (get_root_dir sett) (filename opt))) = StatError →
  init m w sett opt = Throw filesystem_error.
Proof.
  intros Hr Hm Hs. unfold init. destruct (request_type opt); [done| |].
  - unfold init_reading, find_file. rewrite Hm. cbn [mbind outcome_bind].
    unfold full_search_name. cbn [search_dirs_name m_settings with_request].
    unfold exists_. by rewrite Hs.
  - unfold init_writing, exists_. cbn [m_settings with_request]. by rewrite Hs.
Qed.

Lemma close_sets_mode_witness :
  ∃ m1 w1, close (λ _, None) (λ _, None)
      {| m_settings := demo_settings; m_set_error := true;
         m_request_type := SrvReq.write; m_file_size := 0;
         m_filename := str "/srv/fw.bin"; m_file_in := ifstream_closed;
         m_file_out := ofstream_closed |} demo_fs = Ok (m1, w1) ∧
    fs_stat w1 (str "/srv/fw.bin") = Found (File demo_file 436 0 0).
Proof.
  destruct (close_sets_mode (λ _, None) (λ _, None)
      {| m_settings := demo_settings; m_set_error := true;
         m_request_type := SrvReq.write; m_file_size := 0;
         m_filename := str "/srv/fw.bin"; m_file_in := ifstream_closed;
         m_file_out := ofstream_closed |} demo_fs
      (mem_set demo_fs (str "/srv/fw.bin") (File demo_file 436 0 0))
      demo_file 436 0 0) as (m1 & H1 & H2); [reflexivity..|].
  eexists _, _. split; [exact H1|exact H2].
Defined.

Definition shared_fs : MemFs := {|
  mem_nodes := [(str "/srv/", Dir); (str "/srv/fw.bin", File demo_file 256 7 7)];
  mem_limit := 1000000
|}.

Lemma close_touches_existing_witness :
  ∃ m' m1 w1, init DataMgrFile_new shared_fs demo_settings
      (demo_opt SrvReq.write (str "fw.bin"))
      = Ok (m', shared_fs, false, [(6, str "File already exists")]) ∧
    close (λ _, None) (λ _, None) m' shared_fs = Ok (m1, w1) ∧
    fs_stat w1 (str "/srv/fw.bin") = Found (File demo_file 436 7 7).
Proof.
  destruct (close_touches_existing (λ _, None) (λ _, None) shared_fs
      (mem_set shared_fs (str "/srv/fw.bin") (File demo_file 436 7 7)) demo_settings
      (demo_opt SrvReq.write (str "fw.bin")) demo_file 256 7 7)
      as (m' & m1 & H1 & H2 & H3); [reflexivity..|].
  eexists _, _, _. split; [exact H1|split; [exact H2|exact H3]].
Defined.

Lemma init_stat_error_witness :
  init DataMgrFile_new demo_fs demo_settings
    (demo_opt SrvReq.read (replicate 256 x61)) = Throw filesystem_error.
Proof.
  apply (init_stat_error DataMgrFile_new demo_fs demo_settings
    (demo_opt SrvReq.read (replicate 256 x61)));
    [discriminate|vm_compute; reflexivity|vm_compute; reflexivity].
Defined.

Definition orphan_md5_fs : MemFs := {|
  mem_nodes := [(str "/srv/", Dir); (str "/srv/fw.bin.md5", File demo_md5 436 0 0)];
  mem_limit := 1000000
|}.

(** A [.md5] file that holds only the sum, and whose image is missing: the rest of
    the line buffer (zero octets) is taken for a file name, the directory itself
    is found under it, and [file_size] throws out of [init]. *)
Theorem init_md5_orphan m :
  init m orphan_md5_fs demo_settings (demo_opt SrvReq.read demo_md5)
  = Throw filesystem_error.
Proof. vm_compute. reflexivity. Qed.

(** A file that is found but cannot be opened: the first [open] fails, as it
    should, but [close] of the stream that is not open throws outside of the
    [try], so that [init] is left by an exception instead of an error. *)
Theorem init_unreadable {W} `{FileSystem W} m (w : W) sett opt fn :
  request_type opt = SrvReq.read →
  find_file w (with_request m sett SrvReq.read) (filename opt) = Ok (true, fn) →
  fs_can_read w (c_str fn) = false →
  init m w sett opt = Throw ios_failure.
Proof.
  intros Hr Hf Hc. unfold init. rewrite Hr. unfold init_reading. rewrite Hf.
  cbn [mbind outcome_bind negb]. unfold in_open_file. by rewrite Hc.
Qed.

(** A file nobody may read. *)
Definition secret_fs : MemFs := {|
  mem_nodes := [(str "/srv/", Dir); (str "/srv/fw.bin", File demo_file 0 0 0)];
  mem_limit := 1000000
|}.

Lemma init_unreadable_witness :
  init DataMgrFile_new secret_fs demo_settings (demo_opt SrvReq.read (str "fw.bin"))
  = Throw ios_failure.
Proof.
  apply (init_unreadable DataMgrFile_new secret_fs demo_settings
    (demo_opt SrvReq.read (str "fw.bin")) (str "/srv/fw.bin"));
    vm_compute; reflexivity.
Defined.
