(* ===== verification/FilePlaces.v ===== *)
(** * FilePlaces: which files a request reaches

    The file manager makes paths of the directories of the settings and of names a
    client has chosen. [resolved] is what a path denotes when it is followed from the
    root directory, name by name; [below] says that a path stays in a directory.
    The properties: which names stay below the configured directories, that other
    names reach every file of the host, and which file a request by sum gets. *)

From Stdlib Require Import Strings.Byte.
From S2P Require Import Prelude Common SmBuf Options Regex Addr Settings Base FileSys DataMgr.
From S2P Require Import DataMgrFile.

(** ** Paths, name by name *)

(** The texts between the slashes. *)
Fixpoint pieces (p : path) : list bytes :=
  match p with
  | [] => [[]]
  | c :: p =>
      if bool_decide (c = x2f) then [] :: pieces p
      else match pieces p with
           | x :: l => (c :: x) :: l
           | [] => [[c]]
           end
  end.

(** From the directory [st], a list of names from the root on, one name further. *)
Definition resolve_name (st : list bytes) (n : bytes) : list bytes :=
  if bool_decide (n = []) || bool_decide (n = str ".") then st
  else if bool_decide (n = str "..") then take (pred (length st)) st
  else st ++ [n].

Definition resolve (st : list bytes) (l : list bytes) : list bytes := foldl resolve_name st l.

Definition resolved (p : path) : list bytes := resolve [] (pieces p).

(** The path denotes the directory or something in it. *)
Definition below (dir p : path) : Prop := resolved dir `prefix_of` resolved p.

(** The names never lead above the start, where [k] is the current depth. *)
Fixpoint stays (k : nat) (l : list bytes) : bool :=
  match l with
  | [] => true
  | n :: l =>
      if bool_decide (n = []) || bool_decide (n = str ".") then stays k l
      else if bool_decide (n = str "..") then
        match k with O => false | S k => stays k l end
      else stays (S k) l
  end.

Lemma pieces_cons p : ∃ x l, pieces p = x :: l.
Proof.
  induction p as [|c p (x & l & E)]; cbn [pieces]; [by eexists _, _|].
  rewrite E. case_bool_decide; by eexists _, _.
Qed.

Lemma pieces_slash a b : pieces (a ++ x2f :: b) = pieces a ++ pieces b.
Proof.
  induction a as [|c a IH]; cbn [app pieces]; [by rewrite bool_decide_true|].
  rewrite IH. case_bool_decide; [done|]. by destruct (pieces_cons a) as (x & l & ->).
Qed.

(** A slash at the end or at the beginning changes nothing. *)
Lemma resolve_empty st l : resolve st ([] :: l) = resolve st l.
Proof. done. Qed.

Lemma resolved_slash a b : resolved (a ++ x2f :: b) = resolve (resolved a) (pieces b).
Proof. unfold resolved. rewrite pieces_slash. apply foldl_app. Qed.

Lemma resolved_append dir name :
  resolved (path_append dir name) = resolve (resolved dir) (pieces name).
Proof.
  unfold path_append. destruct (decide (dir = [])) as [->|Hd]; [by rewrite bool_decide_true|].
  rewrite bool_decide_false by done. cbn [orb]. unfold ends_slash.
  case_bool_decide as He; cbn [orb].
  { apply last_Some in He as [d ->]. rewrite <-app_assoc. cbn [app].
    by rewrite (resolved_slash d name), (resolved_slash d []). }
  case_bool_decide as Hn; cbn [orb]; [by rewrite Hn, app_nil_r|].
  destruct name as [|c name]; [done|]. cbn [starts_slash].
  case_bool_decide as Hc; [by rewrite Hc, resolved_slash|].
  apply (resolved_slash dir (c :: name)).
Qed.

Lemma resolve_stays st t l :
  stays (length t) l = true → ∃ t', resolve (st ++ t) l = st ++ t'.
Proof.
  revert t. induction l as [|n l IH]; intros t; [by exists t|].
  cbn [stays resolve foldl]. unfold resolve_name at 2.
  destruct (_ || _); [apply IH|]. case_bool_decide.
  - destruct t as [|x t _] using rev_ind; [done|]. rewrite length_app, Nat.add_comm. cbn [length plus].
    intros Hs. rewrite (app_assoc st), length_app, Nat.add_comm. cbn [length plus pred].
    rewrite take_app_length. by apply IH.
  - intros Hs. rewrite <-app_assoc. apply IH. by rewrite length_app, Nat.add_comm.
Qed.

Lemma append_below dir name : stays 0 (pieces name) = true → below dir (path_append dir name).
Proof.
  intros Hs. unfold below. rewrite resolved_append.
  destruct (resolve_stays (resolved dir) [] (pieces name) Hs) as [t Ht].
  rewrite app_nil_r in Ht. rewrite Ht. by exists t.
Qed.

(** ** Above the directory *)

(** [k] steps up. *)
Fixpoint climb (k : nat) : path :=
  match k with O => [] | S k => str "../" ++ climb k end.

Lemma pieces_climb k t : pieces (climb k ++ t) = replicate k (str "..") ++ pieces t.
Proof.
  induction k as [|k IH]; [done|]. cbn [climb replicate app]. rewrite <-IH.
  exact (pieces_slash (str "..") (climb k ++ t)).
Qed.

Lemma resolve_up st k l :
  (length st ≤ k)%nat → resolve st (replicate k (str "..") ++ l) = resolve [] l.
Proof.
  revert st. induction k as [|k IH]; intros st Hk.
  - destruct st; [done|]. simpl in Hk. lia.
  - cbn [replicate app resolve foldl].
    change (resolve_name st (str "..")) with (take (pred (length st)) st).
    apply IH. rewrite length_take. lia.
Qed.

(** A name that reaches the path [t] from the directory [dir]. *)
Definition name_of (dir t : path) : bytes := climb (length (resolved dir)) ++ t.

Lemma resolved_name_of dir t : resolved (path_append dir (name_of dir t)) = resolved t.
Proof.
  unfold name_of. rewrite resolved_append, pieces_climb. by apply resolve_up.
Qed.

(** ** File systems that follow paths so *)

(** Every directory a path goes through is there. *)
Definition walkable {W} `{FileSystem W} (w : W) (p : path) : Prop :=
  ∀ a b, p = a ++ x2f :: b → a ≠ [] → fs_stat w a = Found Dir.

Class FsResolve (W : Type) `{FileSystem W} := {
  resolve_stat w p q :
    walkable w p → walkable w q → resolved p = resolved q → fs_stat w p = fs_stat w q;
  resolve_read w p q :
    walkable w p → walkable w q → resolved p = resolved q →
    fs_can_read w p = fs_can_read w q
}.

(** *** An instance: [MemFs] with its paths resolved *)

Record PathFs := { path_mem : MemFs }.

(** The plain name of what a path denotes. *)
Definition plain (p : path) : path := concat (map (λ n, x2f :: n) (resolved p)).

#[export] Instance path_fs : FileSystem PathFs := {
  fs_stat w p := fs_stat (path_mem w) (plain p);
  fs_can_read w p := fs_can_read (path_mem w) (plain p);
  fs_walk w p := fs_walk (path_mem w) (plain p);
  fs_create w p := Build_PathFs <$> fs_create (path_mem w) (plain p);
  fs_pwrite w p pos b :=
    let '(w', ok) := fs_pwrite (path_mem w) (plain p) pos b in (Build_PathFs w', ok);
  fs_close w p := true;
  fs_chown w p u g := Build_PathFs <$> fs_chown (path_mem w) (plain p) u g;
  fs_chmod w p m := Build_PathFs <$> fs_chmod (path_mem w) (plain p) m
}.

#[export] Instance path_fs_laws : FsLaws PathFs.
Proof.
  split.
  - intros w w' p (v & E & ->)%fmap_Some. by apply (create_empty _ _ _ E).
  - intros w w' p pos b d Hc Hp. cbn [fs_pwrite path_fs].
    destruct (fs_pwrite (path_mem w) _ _ _) as [v ok] eqn:E. intros [= <- ->].
    exact (pwrite_content (W:=MemFs) _ _ _ _ _ _ Hc Hp E).
  - intros w w' p u g d m u0 g0 Hs (v & E & ->)%fmap_Some.
    exact (chown_owner (W:=MemFs) _ _ _ _ _ _ _ _ _ Hs E).
  - intros w w' p m d m0 u g Hs (v & E & ->)%fmap_Some.
    exact (chmod_mode (W:=MemFs) _ _ _ _ _ _ _ _ Hs E).
Qed.

(** Many names for one file: the names that resolve to the same path. *)
#[export] Instance path_fs_frame : FsFrame PathFs.
Proof.
  refine {| same_file p q := @same_file _ _ mem_fs_frame (plain p) (plain q) |}.
  - intros. apply same_sym.
  - intros w p q Hpq. exact (same_stat (path_mem w) _ _ Hpq).
  - intros w w' p q (v & E & ->)%fmap_Some. exact (create_frame (W:=MemFs) _ _ _ _ E).
  - intros w w' p q pos b ok. cbn [fs_pwrite path_fs].
    destruct (fs_pwrite (path_mem w) _ _ _) as [v ok'] eqn:E. intros [= <- ->].
    exact (pwrite_frame (W:=MemFs) _ _ _ _ _ _ _ E).
  - intros w w' p pos b ok. cbn [fs_pwrite path_fs].
    destruct (fs_pwrite (path_mem w) _ _ _) as [v ok'] eqn:E. intros [= <- ->].
    exact (pwrite_exists (W:=MemFs) _ _ _ _ _ _ E).
  - intros w w' p q u g (v & E & ->)%fmap_Some. exact (chown_frame (W:=MemFs) _ _ _ _ _ _ E).
  - intros w w' p q m (v & E & ->)%fmap_Some. exact (chmod_frame (W:=MemFs) _ _ _ _ _ E).
Defined.

#[export] Instance path_fs_resolve : FsResolve PathFs.
Proof.
  split; intros w p q _ _ E; cbn [fs_stat fs_can_read path_fs]; unfold plain; by rewrite E.
Qed.

(** ** Requests by name *)

Section names.
Context {W : Type} `{FileSystem W}.

Lemma full_search_name_dir (w : W) sett name p :
  full_search_name w sett name = Ok (true, p) →
  ∃ dir, dir ∈ get_root_dir sett :: backup_dirs sett ∧ p = path_append dir name.
Proof.
  unfold full_search_name. rewrite get_serach_dir_eq.
  induction (get_root_dir sett :: backup_dirs sett) as [|dir dirs IH];
    cbn [search_dirs_name]; [done|]. intros E.
  apply bind_Ok in E as (ex & _ & E). apply bind_Ok in E as (reg & _ & E).
  destruct reg; [simplify_eq; exists dir; split; [by left|done]|].
  destruct (IH E) as (d & Hd & ->). exists d. split; [by right|done].
Qed.

(** The root directory is searched first. *)
Lemma full_search_name_root (w : W) sett name d md u g :
  fs_stat w (c_str (path_append (get_root_dir sett) name)) = Found (File d md u g) →
  full_search_name w sett name = Ok (true, path_append (get_root_dir sett) name).
Proof.
  intros Hs. unfold full_search_name. cbn [search_dirs_name].
  unfold exists_, is_regular_file. by rewrite Hs.
Qed.

Lemma slash_not_md5 name : x2f ∈ name → match_md5 name = false.
Proof.
  intros Hin. apply not_true_is_false. intros [_ Hx]%match_md5_spec.
  apply list.Forall_forall with (x := x2f) in Hx; done.
Qed.

Lemma climb_no_zero k : no_zero (climb k).
Proof.
  unfold no_zero. induction k as [|k IH]; [apply not_elem_of_nil|].
  cbn [climb app]. intros [Hx|Hx]%elem_of_app; [|done]. revert Hx. by_decide.
Qed.

Lemma append_no_zero a b : no_zero a → no_zero b → no_zero (path_append a b).
Proof.
  unfold no_zero, path_append. intros Ha Hb.
  destruct (_ || _); cbn; rewrite ?elem_of_app, ?elem_of_cons; [tauto|].
  intros [?|[?|?]]; [tauto|done|tauto].
Qed.
End names.

(** ** Properties *)

(** C24. Names that stay: a request whose name never leads above its start (no [..], or
    only after as many names) and is no MD5 sum gets a file below the root directory
    or one of the search directories, and an upload creates its file below the root
    directory. *)
Theorem names_stay_below {W} `{FileSystem W} m (w : W) sett opt m' w' errs :
  request_type opt ≠ SrvReq.unknown → match_md5 (filename opt) = false →
  stays 0 (pieces (filename opt)) = true →
  init m w sett opt = Ok (m', w', true, errs) →
  ∃ dir, dir ∈ get_root_dir sett :: backup_dirs sett ∧ below dir (m_filename m') ∧
    (request_type opt = SrvReq.write → dir = get_root_dir sett).
Proof.
  intros Hr Hm Hs. unfold init. destruct (request_type opt) eqn:Hrq; [done|..]; intros E.
  - apply init_reading_ok in E as (_ & _ & _ & _ & Hf & _). unfold find_file in Hf.
    rewrite Hm in Hf. cbn [mbind outcome_bind m_settings with_request] in Hf.
    apply full_search_name_dir in Hf as (dir & Hd & ->). exists dir.
    split; [done|]. split; [by apply append_below|done].
  - unfold init_writing in E. apply bind_Ok in E as (ex & _ & E). destruct ex; [done|].
    destruct (out_open_file _ _) as [[w1 o]|]; [|done]. simplify_eq.
    exists (get_root_dir sett). split; [by left|]. split; [|done]. by apply append_below.
Qed.

Lemma names_stay_below_witness :
  below (str "/srv") (m_filename (demo_start SrvReq.write (str "a/../new.bin")).1).
Proof.
  destruct (names_stay_below DataMgrFile_new demo_fs demo_settings
    (demo_opt SrvReq.write (str "a/../new.bin"))
    (demo_start SrvReq.write (str "a/../new.bin")).1
    (demo_start SrvReq.write (str "a/../new.bin")).2 []) as (dir & _ & Hb & Hd);
    [discriminate|vm_compute; reflexivity|vm_compute; reflexivity|vm_compute; reflexivity|].
  rewrite (Hd eq_refl) in Hb. exact Hb.
Defined.

(** C36. Names that leave: for every absolute path [t] of the host there is a name with
    which a read request delivers the file at [t], whatever the root directory, as
    long as the server may read it, and with which a write request creates a file
    at [t]. *)
Theorem requests_leave_root {W} `{FsLaws W, !FsResolve W} m (w : W) sett opt t :
  let name := name_of (get_root_dir sett) t in
  let fn := path_append (get_root_dir sett) name in
  filename opt = name → starts_slash t = true → no_zero (get_root_dir sett) → no_zero t →
  walkable w t → walkable w fn →
  (∀ d md u g, request_type opt = SrvReq.read →
   fs_stat w t = Found (File d md u g) → fs_can_read w t = true →
   ∃ m', init m w sett opt = Ok (m', w, true, []) ∧ file_reading m' w d) ∧
  (∀ w1, request_type opt = SrvReq.write →
   fs_stat w t = NotFound → fs_create w fn = Some w1 → walkable w1 t → walkable w1 fn →
   ∃ m', init m w sett opt = Ok (m', w1, true, []) ∧
     file_writing m' w1 [] ∧ content w1 t = Some []).
Proof.
  intros name fn Hname Ht Hz Hzt Hwt Hwf.
  assert (Hc : c_str fn = fn).
  { apply until_zero_id, append_no_zero; [done|]. unfold name, name_of, no_zero.
    rewrite elem_of_app. intros [Hx|Hx]; [by apply climb_no_zero in Hx|done]. }
  assert (Hres : resolved fn = resolved t) by apply resolved_name_of.
  assert (Hmd : match_md5 name = false).
  { apply slash_not_md5. unfold name, name_of. apply elem_of_app. right.
    destruct t as [|c t]; [done|]. cbn in Ht. apply bool_decide_eq_true_1 in Ht as ->. by left. }
  assert (Hst : fs_stat w (c_str fn) = fs_stat w t)
    by (rewrite Hc; by apply resolve_stat).
  split.
  - intros d md u g Hrq Hs Hr. rewrite Hs in Hst.
    assert (Hcan : fs_can_read w (c_str fn) = true)
      by (rewrite Hc, (resolve_read w fn t); done).
    unfold init. rewrite Hrq, Hname. unfold init_reading, find_file. rewrite Hmd.
    cbn [mbind outcome_bind m_settings with_request].
    rewrite (full_search_name_root w sett name d md u g Hst). cbn [mbind outcome_bind negb].
    fold fn. unfold in_open_file, fs_file_size, content. rewrite Hcan, Hst.
    cbn. eexists. split; [done|]. split_and!; try done. cbn. unfold content. by rewrite Hst.
  - intros w1 Hrq Hs Hcr Hwt1 Hwf1. unfold init. rewrite Hrq, Hname. unfold init_writing, exists_.
    cbn [m_settings with_request]. fold name fn. rewrite Hst, Hs. cbn [mbind outcome_bind].
    unfold out_open_file. rewrite Hc, Hcr. apply create_empty in Hcr.
    eexists. split; [done|]. split; [by split_and!|].
    unfold content in *. by rewrite <-(resolve_stat w1 fn t).
Qed.

(** The server serves [/srv]; the host has a file it should not serve. *)
Definition host_fs : PathFs := {| path_mem := {|
  mem_nodes := [([], Dir); (str "/srv", Dir); (str "/etc", Dir);
                (str "/etc/secret", File (str "key") 256 0 0)];
  mem_limit := 1000000
|} |}.

Definition escape_name : bytes := str "..//etc/secret".

(** A check of [walkable] on a given path. *)
Definition walks {W} `{FileSystem W} (w : W) (p : path) : bool :=
  forallb (λ k, (k =? 0)%nat
                || match drop k p with c :: _ => negb (bool_decide (c = x2f)) | [] => true end
                || match fs_stat w (take k p) with Found Dir => true | _ => false end)
    (seq 0 (length p)).

Lemma walks_walkable {W} `{FileSystem W} (w : W) p : walks w p = true → walkable w p.
Proof.
  intros Hk a b -> Ha. unfold walks in Hk. rewrite forallb_forall in Hk.
  specialize (Hk (length a)). cbn beta in Hk. rewrite drop_app_length, take_app_length in Hk.
  destruct a as [|c a]; [done|]. cbn [length] in Hk. rewrite bool_decide_true in Hk by done.
  destruct (fs_stat w (c :: a)) as [[]| |]; try done;
    discriminate (Hk ltac:(apply in_seq; rewrite length_app; simpl; lia)).
Qed.

Lemma requests_leave_root_witness :
  ∃ m', init DataMgrFile_new host_fs demo_settings (demo_opt SrvReq.read escape_name)
        = Ok (m', host_fs, true, []) ∧ file_reading m' host_fs (str "key").
Proof.
  apply (proj1 (requests_leave_root DataMgrFile_new host_fs demo_settings
    (demo_opt SrvReq.read escape_name) (str "/etc/secret") ltac:(vm_compute; reflexivity)
    eq_refl ltac:(by_decide) ltac:(by_decide)
    ltac:(apply walks_walkable; vm_compute; reflexivity)
    ltac:(apply walks_walkable; vm_compute; reflexivity))
    (str "key") 256 0 0); vm_compute; reflexivity.
Defined.

(** *** Requests by sum

    The administrator makes the sums with [md5sum file > file.md5] (README): a file
    and, beside it, a [.md5] file whose text starts with the 32 digits of the sum and
    two spaces. *)

(** The name of the [.md5] file of [p]. *)
Definition md5_name (p : path) : path := p ++ str ".md5".

Lemma path_split_app p l :
  Forall (λ c, c ≠ x2f) l →
  path_split (p ++ l) = ((path_split p).1, (path_split p).2 ++ l).
Proof.
  intros Hl. induction p as [|c p IH]; cbn [app path_split fst snd].
  - induction Hl as [|c l Hc _ IHl]; [done|]. cbn [path_split]. rewrite IHl. cbn [app].
    by rewrite bool_decide_true, bool_decide_false.
  - rewrite IH. destruct (path_split p) as [d f]. cbn [fst snd].
    case_bool_decide; [|done]. by case_bool_decide.
Qed.

Lemma path_split_join p : (path_split p).1 ++ (path_split p).2 = p.
Proof.
  induction p as [|c p IH]; [done|]. cbn [path_split]. destruct (path_split p) as [d f].
  cbn [fst snd] in IH. rewrite <-IH. case_bool_decide as Hd; [|done]. rewrite Hd.
  by case_bool_decide.
Qed.

Lemma split_dot_md5 f : split_dot (f ++ str ".md5") = Some (f, str ".md5").
Proof. induction f as [|c f IH]; [done|]. cbn [app split_dot]. by rewrite IH. Qed.

Lemma is_dots_md5 f : is_dots (f ++ str ".md5") = false.
Proof.
  unfold is_dots. apply orb_false_intro; apply bool_decide_eq_false; intros E;
    apply (f_equal length) in E; rewrite length_app in E; cbn in E; lia.
Qed.

(** A [.md5] file is recognised, and its name gives back the name of the file. *)
Lemma md5_name_parts p :
  extension (md5_name p) = str ".md5" ∧ drop_extension (md5_name p) = p.
Proof.
  unfold extension, drop_extension, path_filename, remove_filename, md5_name.
  rewrite path_split_app by (repeat constructor; discriminate). cbn [fst snd].
  rewrite is_dots_md5, split_dot_md5. split; [done|apply path_split_join].
Qed.

(** A text that starts with a sum is found to hold this sum. *)
Lemma regex_search_sum s l :
  length s = 32%nat → Forall (λ c, is_hex c = true) s →
  ∃ sm, regex_search regex_template_md5 (s ++ l) = Some sm ∧ sm_str (s ++ l) sm 1 = s.
Proof.
  intros Hn Hh. unfold regex_search.
  assert (Hr : run_len is_hex (drop 0 (s ++ l)) (Some 32%nat) = 32%nat).
  { apply run_len_full. change (drop 0 (s ++ l)) with (s ++ l).
    split; [rewrite length_app; lia|by rewrite <-Hn, take_app_length]. }
  exists {| sm_begin := 0; sm_end := 32; sm_caps := {[ 1%nat := (0%nat, 32%nat) ]} |}.
  split.
  - destruct (length (s ++ l)); cbn [search_from]; by rewrite re_match_md5, bool_decide_true.
  - unfold sm_str, sm_sub. cbn [sm_caps]. rewrite lookup_singleton_eq.
    change (drop 0 (s ++ l)) with (s ++ l). change (32 - 0)%nat with 32%nat. by rewrite <-Hn, take_app_length.
Qed.

Lemma until_nl_hex s l :
  Forall (λ c, is_hex c = true) s → until_nl (s ++ l) = s ++ until_nl l.
Proof.
  induction 1 as [|c s Hc _ IH]; [done|]. cbn [app until_nl]. rewrite bool_decide_false.
  - by rewrite IH.
  - intros ->. done.
Qed.

Section sums.
Context {W : Type} `{FileSystem W}.

(** There is something under the path. *)
Definition is_there (w : W) (p : path) : bool :=
  match fs_stat w (c_str p) with Found _ => true | _ => false end.

Definition is_dir (w : W) (p : path) : bool :=
  match fs_stat w (c_str p) with Found Dir => true | _ => false end.

(** [md5sum p > p.md5] has been run, with the result [s]. *)
Definition summed (w : W) (p : path) (s : bytes) : Prop :=
  is_there w p = true ∧ fs_can_read w (c_str (md5_name p)) = true ∧
  length s = 32%nat ∧ Forall (λ c, is_hex c = true) s ∧
  ∃ rest, content w (c_str (md5_name p)) = Some (s ++ str "  " ++ rest).

(** Below one of the directories there is a file with this sum. *)
Definition recorded (w : W) (dirs : list path) (p : path) (s : bytes) : Prop :=
  ∃ dir, dir ∈ dirs ∧ is_dir w dir = true ∧
    md5_name p ∈ (fs_walk w (c_str dir)).1 ∧ summed w p s.

(** A directory kept as the README says: it can be walked, and every [.md5] file in
    it was made by [md5sum]. *)
Definition archive (w : W) (dir : path) : Prop :=
  stat_ok w dir ∧
  (is_dir w dir = true → (fs_walk w (c_str dir)).2 = false ∧
   ∀ curr, curr ∈ (fs_walk w (c_str dir)).1 → do_lower (extension curr) = str ".md5" →
     ∃ p s, curr = md5_name p ∧ summed w p s).

Lemma read_line1_sum w p s :
  summed w p s → ∃ l, read_line1 w (md5_name p) = s ++ l.
Proof.
  intros (_ & Hr & Hn & Hh & rest & Hc).
  assert (E : read_line1 w (md5_name p) = getline_zeros 2048 (s ++ str "  " ++ rest)).
  { unfold read_line1. by rewrite Hr, Hc. }
  rewrite E. unfold getline_zeros. rewrite until_nl_hex by done.
  rewrite take_app_ge by lia. rewrite <-(app_assoc s). eauto.
Qed.

Lemma summed_unique w p s s' : summed w p s → summed w p s' → s = s'.
Proof.
  intros (_ & _ & Hn & _ & r & E) (_ & _ & Hn' & _ & r' & E'). rewrite E in E'.
  injection E' as E'. apply app_inj_1 in E' as [? _]; [done|]. by rewrite Hn, Hn'.
Qed.

Lemma search_entry_summed w md5sum p s :
  summed w p s →
  search_entry w md5sum (md5_name p) = Ok (if bool_decide (s = md5sum) then Some p else None).
Proof.
  intros Hs. destruct (read_line1_sum _ _ _ Hs) as [l El].
  destruct Hs as (Ht & _ & Hn & Hh & _).
  destruct (regex_search_sum s l Hn Hh) as (sm & Esm & E1).
  destruct (md5_name_parts p) as [Ex Ed].
  unfold search_entry. rewrite Ex, bool_decide_true by done. rewrite El, Esm, E1, Ed.
  case_bool_decide; [|done]. unfold exists_, is_there in *. by destruct (fs_stat _ _).
Qed.

Lemma search_entries_archive w md5sum l :
  (∀ curr, curr ∈ l → do_lower (extension curr) = str ".md5" →
     ∃ p s, curr = md5_name p ∧ summed w p s) →
  (∃ p, md5_name p ∈ l ∧ summed w p md5sum ∧
        search_entries w md5sum l false = Ok (true, p)) ∨
  ((∀ p, md5_name p ∈ l → ¬ summed w p md5sum) ∧
   search_entries w md5sum l false = Ok (false, [])).
Proof.
  induction l as [|curr l IH]; intros Hl; cbn [search_entries].
  { right. split; [|done]. by intros p Hp%not_elem_of_nil. }
  destruct IH as [(p & Hp & Hs & IH)|[Hn IH]]; [by intros; apply Hl; [right|]|..];
    (destruct (decide (do_lower (extension curr) = str ".md5")) as [He|He];
     [destruct (Hl curr ltac:(left) He) as (q & s & -> & Hq);
      rewrite (search_entry_summed _ _ _ _ Hq); case_bool_decide; subst
     |unfold search_entry; rewrite bool_decide_false by done]); cbn [mbind outcome_bind].
  - left. exists q. split_and!; [left|done|done].
  - left. exists p. split_and!; [by right|done|done].
  - left. exists p. split_and!; [by right|done|done].
  - left. exists q. split_and!; [left|done|done].
  - right. split; [|done]. intros p [Hp| Hp]%elem_of_cons Hs; [|by eapply Hn].
    apply (app_inj_2 p q) in Hp as [-> _]; [|done]. by apply (summed_unique _ _ _ _ Hs) in Hq.
  - right. split; [|done]. intros p [<-|Hp]%elem_of_cons Hs; [|by eapply Hn].
    by rewrite (proj1 (md5_name_parts p)) in He.
Qed.

Lemma search_dirs_archive w md5sum dirs :
  Forall (archive w) dirs →
  (∃ p, recorded w dirs p md5sum ∧ search_dirs_md5 w md5sum dirs = Ok (true, p)) ∨
  ((∀ p, ¬ recorded w dirs p md5sum) ∧ search_dirs_md5 w md5sum dirs = Ok (false, [])).
Proof.
  induction 1 as [|dir dirs [Hs Ha] _ IH].
  { right. split; [|done]. by intros p (dir & ?%not_elem_of_nil & _). }
  assert (Hstep : search_dirs_md5 w md5sum (dir :: dirs) =
    if is_dir w dir then
      '(res, file) ← search_by_md5 w dir md5sum;
      if (res : bool) then Ok (true, file) else search_dirs_md5 w md5sum dirs
    else search_dirs_md5 w md5sum dirs).
  { cbn [search_dirs_md5]. unfold stat_ok, exists_, is_directory, is_dir in *.
    by destruct (fs_stat _ _) as [[]| |]. }
  rewrite Hstep. clear Hstep.
  assert (Hlater : ∀ p, recorded w dirs p md5sum → recorded w (dir :: dirs) p md5sum).
  { intros p (e & ? & ?). exists e. split; [by right|done]. }
  destruct (is_dir w dir) eqn:Hd.
  - destruct (Ha eq_refl) as [He Hl]. unfold search_by_md5.
    destruct (fs_walk w (c_str dir)) as [l err] eqn:Hwalk. cbn [fst snd] in *. subst err.
    destruct (search_entries_archive w md5sum l Hl) as [(p & ? & ? & ->)|[Hn ->]];
      cbn [mbind outcome_bind].
    { left. exists p. split; [|done]. exists dir. rewrite Hwalk. by split_and!; [left|..]. }
    destruct IH as [(p & ? & ?)|[Hn' ?]]; [left; eauto|right]. split; [|done].
    intros p (e & [->|He]%elem_of_cons & Hed & Hin & Hsum).
    + rewrite Hwalk in Hin. by eapply Hn.
    + apply (Hn' p). by exists e.
  - destruct IH as [(p & ? & ?)|[Hn' ?]]; [left; eauto|right]. split; [|done].
    intros p (e & [->|He]%elem_of_cons & Hed & Hin & Hsum); [congruence|].
    apply (Hn' p). by exists e.
Qed.
End sums.

(** C26. Requests by sum, in directories kept as the README says (every [.md5] file is
    the output of [md5sum file > file.md5], the directories can be walked): the search
    finds a file whose sum is the requested one whenever there is one below the root
    directory or a search directory, in any depth, and finds nothing otherwise. *)
Theorem sums_found {W} `{FileSystem W} (w : W) sett md5sum :
  let dirs := get_root_dir sett :: backup_dirs sett in
  Forall (archive w) dirs →
  (∃ p, recorded w dirs p md5sum ∧ full_search_md5 w sett md5sum = Ok (true, p)) ∨
  ((∀ p, ¬ recorded w dirs p md5sum) ∧ full_search_md5 w sett md5sum = Ok (false, [])).
Proof.
  intros dirs Ha. unfold full_search_md5. rewrite get_serach_dir_eq.
  by apply search_dirs_archive.
Qed.

Definition sums_fs : MemFs := {|
  mem_nodes := [(str "/srv/", Dir); (str "/srv/fw.bin", File (str "other") 436 0 0);
                (str "/alt", Dir); (str "/alt/v2", Dir);
                (str "/alt/v2/fw.bin.md5", File (demo_md5 ++ str "  fw.bin" ++ [x0a]) 436 0 0);
                (str "/alt/v2/fw.bin", File demo_file 436 0 0)];
  mem_limit := 1000000
|}.

Lemma sums_fs_archive dir : dir = str "/srv/" ∨ dir = str "/alt" → archive sums_fs dir.
Proof.
  intros Hdir. split; [by destruct Hdir as [-> | ->]|]. intros _.
  split; [by destruct Hdir as [-> | ->]|].
  assert (Hsum : summed sums_fs (str "/alt/v2/fw.bin") demo_md5).
  { split_and!; try by_decide. eexists. vm_compute. reflexivity. }
  destruct Hdir as [-> | ->]; intros curr Hc He; vm_compute in Hc;
    repeat (apply elem_of_cons in Hc as [-> | Hc]; [try by (vm_compute in He; discriminate He)|]);
    try by (apply not_elem_of_nil in Hc).
  exists (str "/alt/v2/fw.bin"), demo_md5. split; [vm_compute; reflexivity|exact Hsum].
Qed.

Lemma sums_found_witness :
  full_search_md5 sums_fs demo_settings demo_md5 = Ok (true, str "/alt/v2/fw.bin").
Proof.
  assert (Ha : Forall (archive sums_fs)
                 (get_root_dir demo_settings :: backup_dirs demo_settings)).
  { apply List.Forall_forall. intros dir [<-|[<-|[]]]; apply sums_fs_archive;
      [left|right]; reflexivity. }
  destruct (sums_found sums_fs demo_settings demo_md5 Ha) as [(p & _ & E)|[_ E]].
  - rewrite E. vm_compute in E. injection E as <-. reflexivity.
  - vm_compute in E. discriminate E.
Defined.

(** The line [md5sum] writes has two spaces between the sum and the name: the name a
    [.md5] file lists is looked up with the spaces and is not found; a line without
    the spaces works. *)
Definition listed_fs (sep : bytes) : MemFs := {|
  mem_nodes := [(str "/srv/", Dir);
                (str "/srv/list.md5", File (demo_md5 ++ sep ++ str "fw.bin") 436 0 0);
                (str "/srv/fw.bin", File demo_file 436 0 0)];
  mem_limit := 1000000
|}.

Theorem listed_name_not_found :
  full_search_md5 (listed_fs (str "  ")) demo_settings demo_md5 = Ok (false, []) ∧
  ∃ p, full_search_md5 (listed_fs []) demo_settings demo_md5 = Ok (true, p) ∧
       c_str p = str "/srv/fw.bin".
Proof.
  split; [vm_compute; reflexivity|]. eexists. split; vm_compute; reflexivity.
Qed.
