(* ===== verification/Session.v ===== *)
(** * Session: the transfer state machine of [tftpSession.h/.cpp]

    One session serves one request. [Session] is the object, [locals] the local
    variables of [run], [step] one iteration of its loop and [run_loop] the loop.
    What the operating system answers during one iteration is a [tick]: the
    time, the outcome of [recvfrom] and of [sendto], and of [socket] and [bind].
    The datagrams handed to [sendto] are collected in [sent], oldest first. The
    data manager is used through its interface only. Log messages are not
    modelled. *)

From Stdlib Require Import Strings.Byte.
From S2P Require Import Prelude Common SmBuf Options Regex Addr Settings Base.
From S2P Require Import FileSys DataMgr SmBufEx.

(** ** State *)

Record Session (M : Type) := {
  settings_ : Settings;
  stat_ : State.t;
  finished_ : bool;
  my_addr_ : Addr;
  cl_addr_ : Addr;
  socket_ : Z;
  stage_ : Z;                    (** full number of the block, a [size_t] *)
  error_code_ : Z;
  error_message_ : bytes;
  opt_ : Options;
  file_man_ : option M           (** [None] is the null pointer *)
}.
Arguments settings_ {M}. Arguments stat_ {M}. Arguments finished_ {M}.
Arguments my_addr_ {M}. Arguments cl_addr_ {M}. Arguments socket_ {M}.
Arguments stage_ {M}. Arguments error_code_ {M}. Arguments error_message_ {M}.
Arguments opt_ {M}. Arguments file_man_ {M}.

Inductive recv_result :=
  | RxAgain                              (** no packet: [EAGAIN] *)
  | RxError                              (** any other error *)
  | RxPkt (data : bytes) (from : Addr).

Record tick := {
  now : Z;
  rx : recv_result;
  tx : Z;
  sock : Z;
  bound : bool
}.

Record locals := {
  last_blk_processed_ : bool;
  retr_count : Z;
  local_buf : SmBufEx;
  oper_time_ : Z
}.

Section session.
Context {W M : Type} `{DataMgr W M}.

Definition Session_new (new_settings : option Settings) : Session M := {|
  settings_ := Base_new new_settings;
  stat_ := State.need_init;
  finished_ := false;
  my_addr_ := Addr_new;
  cl_addr_ := Addr_new;
  socket_ := 0;
  stage_ := 0;
  error_code_ := 0;
  error_message_ := [];
  opt_ := Options_default;
  file_man_ := None
|}.

(** [Session()] is [Session(nullptr)]; [Session(base)] shares the settings. *)
Definition Session_default : Session M := Session_new None.

Definition Session_of_base (base : Settings) : Session M := Session_new (Some (get_ptr base)).

(** *** Replacement of fields *)

Definition with_stat (s : Session M) (v : State.t) : Session M :=
  {| settings_ := settings_ s; stat_ := v; finished_ := finished_ s;
     my_addr_ := my_addr_ s; cl_addr_ := cl_addr_ s; socket_ := socket_ s;
     stage_ := stage_ s; error_code_ := error_code_ s;
     error_message_ := error_message_ s; opt_ := opt_ s; file_man_ := file_man_ s |}.

Definition with_stage (s : Session M) (v : Z) : Session M :=
  {| settings_ := settings_ s; stat_ := stat_ s; finished_ := finished_ s;
     my_addr_ := my_addr_ s; cl_addr_ := cl_addr_ s; socket_ := socket_ s;
     stage_ := v; error_code_ := error_code_ s;
     error_message_ := error_message_ s; opt_ := opt_ s; file_man_ := file_man_ s |}.

Definition with_error (s : Session M) (c : Z) (m : bytes) : Session M :=
  {| settings_ := settings_ s; stat_ := stat_ s; finished_ := finished_ s;
     my_addr_ := my_addr_ s; cl_addr_ := cl_addr_ s; socket_ := socket_ s;
     stage_ := stage_ s; error_code_ := c; error_message_ := m;
     opt_ := opt_ s; file_man_ := file_man_ s |}.

Definition with_man (s : Session M) (m : option M) : Session M :=
  {| settings_ := settings_ s; stat_ := stat_ s; finished_ := finished_ s;
     my_addr_ := my_addr_ s; cl_addr_ := cl_addr_ s; socket_ := socket_ s;
     stage_ := stage_ s; error_code_ := error_code_ s;
     error_message_ := error_message_ s; opt_ := opt_ s; file_man_ := m |}.

Definition with_socket (s : Session M) (v : Z) : Session M :=
  {| settings_ := settings_ s; stat_ := stat_ s; finished_ := finished_ s;
     my_addr_ := my_addr_ s; cl_addr_ := cl_addr_ s; socket_ := v;
     stage_ := stage_ s; error_code_ := error_code_ s;
     error_message_ := error_message_ s; opt_ := opt_ s; file_man_ := file_man_ s |}.

Definition with_request_ (s : Session M) (my cl : Addr) (o : Options) : Session M :=
  {| settings_ := settings_ s; stat_ := stat_ s; finished_ := finished_ s;
     my_addr_ := my; cl_addr_ := cl; socket_ := socket_ s;
     stage_ := stage_ s; error_code_ := error_code_ s;
     error_message_ := error_message_ s; opt_ := o; file_man_ := file_man_ s |}.

(** ** Operations *)

(** [operator=(Session &&)]: this and the moved session afterwards. *)
Definition Session_move (this val : Session M) : Session M * Session M :=
  ({| settings_ := settings_ val; stat_ := stat_ val; finished_ := finished_ val;
      my_addr_ := my_addr_ val; cl_addr_ := cl_addr_ val; socket_ := socket_ val;
      stage_ := stage_ val; error_code_ := error_code_ val;
      error_message_ := error_message_ val; opt_ := opt_ val;
      file_man_ := file_man_ val |},
   {| settings_ := settings_ val; stat_ := stat_ val; finished_ := finished_ val;
      my_addr_ := my_addr_ val; cl_addr_ := cl_addr_ val; socket_ := socket_ val;
      stage_ := stage_ val; error_code_ := error_code_ val;
      error_message_ := error_message_ this; opt_ := opt_ this;
      file_man_ := file_man_ this |}).

(** The transitions [switch_to] allows. *)
Definition switch_allowed (stat new_state : State.t) : bool :=
  match stat with
  | State.need_init =>
      match new_state with
      | State.finish | State.error_and_stop | State.ack_options
      | State.data_tx | State.ack_tx => true
      | _ => false
      end
  | State.error_and_stop =>
      match new_state with State.finish => true | _ => false end
  | State.ack_options =>
      match new_state with
      | State.data_rx | State.data_tx | State.ack_rx | State.ack_tx => true
      | _ => false
      end
  | State.data_tx =>
      match new_state with State.ack_rx | State.error_and_stop => true | _ => false end
  | State.data_rx =>
      match new_state with State.ack_tx | State.retransmit => true | _ => false end
  | State.ack_tx =>
      match new_state with State.data_rx | State.finish => true | _ => false end
  | State.ack_rx =>
      match new_state with
      | State.data_tx | State.retransmit | State.finish => true
      | _ => false
      end
  | State.retransmit =>
      match new_state with
      | State.data_tx | State.ack_tx | State.error_and_stop => true
      | _ => false
      end
  | State.finish => false
  end.

Definition switch_to (s : Session M) (new_state : State.t) : Session M * bool :=
  let ret := bool_decide (stat_ s = new_state) || switch_allowed (stat_ s) new_state in
  if ret then (with_stat s new_state, true) else (with_stat s State.finish, false).

Definition is_finished (s : Session M) : bool := bool_decide (stat_ s = State.finish).

Definition block_size (s : Session M) : Z := u16 (blksize (opt_ s)).

Definition blk_num_local (s : Session M) : Z := Z.land (stage_ s) 0xFFFF.

Definition was_error (s : Session M) : bool :=
  (0 <? error_code_ s) || (0 <? size (error_message_ s)).

Definition set_error_if_first (s : Session M) (e_cod : Z) (e_msg : bytes) : Session M :=
  if negb (was_error s) then with_error s e_cod e_msg else s.

(** The errors a call of the data manager reported through the callback. *)
Definition report (s : Session M) (errs : list error) : Session M :=
  foldl (λ s e, set_error_if_first s e.1 e.2) s errs.

Definition Session_windowsize (s : Session M) : Z :=
  if windowsize (opt_ s) <? 1 then 1 else windowsize (opt_ s).

Definition is_window_close (s : Session M) (curr_stage : Z) : bool :=
  curr_stage `mod` Session_windowsize s =? 0.

Definition step_back_window (s : Session M) (curr_stage : Z) : Z :=
  if 0 <? curr_stage then
    let new_stage :=
      if 1 <? Session_windowsize s
      then curr_stage - curr_stage `mod` Session_windowsize s
      else curr_stage - 1 in
    if new_stage =? 0 then 1 else new_stage
  else curr_stage.

Definition prepare (s : Session M) (remote_addr : Addr) (pkt_data : SmBuf)
    (pkt_data_size : Z) : outcome (Session M * bool) :=
  let my := set_port_u16 (server_addr (settings_ s)) 0 in
  '(ret, o) ← buffer_parse pkt_data pkt_data_size;
  Ok (with_request_ s my remote_addr o, ret).

Definition init (s : Session M) (w : W) (t : tick) : outcome (Session M * W * bool) :=
  let s := with_socket s (sock t) in
  let ret := 0 <=? socket_ s in
  let ret := ret && bound t in
  if ret then
    '(m, w, init_stream, errs) ← dm_init dm_new w (settings_ s) (opt_ s);
    let s := report (with_man s (Some m)) errs in
    let s := if negb init_stream
             then set_error_if_first s 0
                    (str "Unknown stream initialize error; break session")
             else s in
    Ok (s, w, true)
  else Ok (s, w, false).

(** *** Packets *)

(** A call of [push_data] whose result is not used. *)
Definition push (b : SmBufEx) (args : list arg) : outcome SmBufEx :=
  '(b, _) ← push_data b args; Ok b.

Definition push_option (b : SmBufEx) (was_set : bool) (name : bytes) (val : Z)
    : outcome SmBufEx :=
  if was_set then
    b ← push b [AStr name];
    push b [AStr (to_string val)]
  else Ok b.

Definition construct_opt_reply (s : Session M) (b : SmBufEx) : outcome SmBufEx :=
  let o := opt_ s in
  b ← push (clear b) [AInt uint16_t 6];
  b ← push_option b (was_set_blksize o) name_blksize (blksize o);
  b ← push_option b (was_set_timeout o) name_timeout (timeout o);
  b ← push_option b (was_set_tsize o) name_tsize (tsize o);
  b ← push_option b (was_set_windowsize o) name_windowsize (windowsize o);
  Ok (if data_size b <? 4 then clear b else b).

Definition construct_error (s : Session M) (b : SmBufEx) : outcome (Session M * SmBufEx) :=
  let s := if negb (was_error s) then with_error s 0 (str "Undefined error") else s in
  b ← push (clear b) [AInt uint16_t 5; AInt uint16_t (error_code_ s);
                      AStr (error_message_ s)];
  Ok (s, b).

(** The position of block [stage_]: arithmetic of [size_t]. *)
Definition block_position (s : Session M) : Z := u64 (u64 (stage_ s - 1) * block_size s).

(** The range given to [read] must lie in the buffer. *)
Definition construct_data (s : Session M) (w : W) (b : SmBufEx)
    : outcome (Session M * SmBufEx) :=
  b ← push (clear b) [AInt uint16_t 3; AInt uint16_t (blk_num_local s)];
  match file_man_ s with
  | None => Undef
  | Some m =>
      if size (buf b) <? data_size b + block_size s then Undef
      else
        '(m, rng, ret, errs) ←
          dm_read m w (slice (buf b) (data_size b) (block_size s)) (block_position s);
        let b := with_buf b (blit (buf b) (data_size b) rng) (data_size_ b) in
        let s := report (with_man s (Some m)) errs in
        if 0 <=? ret then
          b ← data_size_reset b (data_size b + ret);
          Ok (s, b)
        else Ok (set_error_if_first s 0 (str "Failed prepare data to send"), b)
  end.

Definition construct_ack (s : Session M) (b : SmBufEx) : outcome SmBufEx :=
  push (clear b) [AInt uint16_t 4; AInt uint16_t (blk_num_local s)].

(** *** Input and output *)

(** The datagram given to [sendto], if any, and the result. *)
Definition transmit_no_wait (s : Session M) (b : SmBufEx) (t : tick) : list bytes * bool :=
  if 0 <? data_size b
  then ([payload b], (tx t =? data_size b) && negb (was_error s))
  else ([], false).

(** The checks of the number of a received block against the current one. The sum of
    signed integers stays in range as long as [stage_] is below [2^62]. *)
Definition rx_stage (s : Session M) (rx_blk : Z) : Z :=
  s64 (stage_ s) + rx_blk - blk_num_local s.

Definition stage_in_range (s : Session M) (rx_blk : Z) : bool :=
  (0 <=? rx_stage s rx_blk) && (rx_stage s rx_blk <=? s64 (u64 (stage_ s + 1))).

Definition sync_stage (s : Session M) (rx_blk : Z) : Session M :=
  if negb (blk_num_local s =? rx_blk) then with_stage s (u64 (rx_stage s rx_blk)) else s.

Definition receive_data (s : Session M) (w : W) (b : SmBufEx) (rx_blk rx_pkt_size : Z)
    : outcome (Session M * W * SmBufEx * TripleResult.t) :=
  if negb (stage_in_range s rx_blk)
  then Ok (set_error_if_first s 0 (str "Error received number data block"), w, b,
           TripleResult.fail)
  else
    let s := sync_stage s rx_blk in
    match file_man_ s with
    | None => Undef
    | Some m =>
        '(m, w, stored_data_size, errs) ←
          dm_write m w (slice (buf b) 4 (rx_pkt_size - 4)) (block_position s);
        let s := report (with_man s (Some m)) errs in
        if stored_data_size <? 0
        then Ok (set_error_if_first s 0 (str "Error when try to store data"), w, b,
                 TripleResult.fail)
        else Ok (s, w, b, TripleResult.ok)
    end.

Definition receive_ack (s : Session M) (w : W) (b : SmBufEx) (rx_blk : Z)
    : Session M * W * SmBufEx * TripleResult.t :=
  if negb (stage_in_range s rx_blk)
  then (set_error_if_first s 0 (str "Error received number ack block"), w, b,
        TripleResult.fail)
  else (sync_stage s rx_blk, w, b, TripleResult.ok).

Definition receive_no_wait (s : Session M) (w : W) (b : SmBufEx) (t : tick)
    : outcome (Session M * W * SmBufEx * TripleResult.t) :=
  match rx t with
  | RxAgain => Ok (s, w, b, TripleResult.nop)
  | RxError => Ok (s, w, b, TripleResult.fail)
  | RxPkt d from =>
      let d := take (length (buf b)) d in
      let rx_pkt_size := size d in
      b ← data_size_reset (with_buf b (blit (buf b) 0 d) (data_size_ b)) rx_pkt_size;
      rx_op ← (if 3 <? rx_pkt_size then get_be uint16_t (buf b) 0 else Ok 0);
      rx_blk ← (if 3 <? rx_pkt_size then get_be uint16_t (buf b) 2 else Ok 0);
      (** the message of an ERROR packet, for the log *)
      _ ← (if rx_op =? 5 then get_string (buf b) 4 0 else Ok []);
      if negb (eqb from (cl_addr_ s)) then Ok (s, w, b, TripleResult.nop)
      else if (rx_op =? 3) && bool_decide (stat_ s = State.data_rx)
      then receive_data s w b rx_blk rx_pkt_size
      else if (rx_op =? 4) && bool_decide (stat_ s = State.ack_rx)
      then Ok (receive_ack s w b rx_blk)
      else Ok (s, w, b, TripleResult.nop)
  end.

(** ** [run] *)

Record run_st := {
  ses : Session M;
  world : W;
  loc : locals;
  sent : list bytes
}.

Definition with_buffer (l : locals) (b : SmBufEx) : locals :=
  {| last_blk_processed_ := last_blk_processed_ l; retr_count := retr_count l;
     local_buf := b; oper_time_ := oper_time_ l |}.

Definition with_last (l : locals) (v : bool) : locals :=
  {| last_blk_processed_ := v; retr_count := retr_count l;
     local_buf := local_buf l; oper_time_ := oper_time_ l |}.

Definition timeout_reset (l : locals) (t : tick) : locals :=
  {| last_blk_processed_ := last_blk_processed_ l; retr_count := retr_count l;
     local_buf := local_buf l; oper_time_ := now t |}.

(** [opt_.timeout() + 1] is an addition of [int]. *)
Definition timeout_pass (s : Session M) (l : locals) (t : tick) : outcome bool :=
  if timeout (opt_ s) =? INT_MAX then Undef
  else Ok (now t - oper_time_ l <? timeout (opt_ s) + 1).

(** [local_buf.data_size() != (block_size() + 4U)] *)
Definition is_last (s : Session M) (b : SmBufEx) : bool :=
  negb (data_size b =? block_size s + 4).

Definition goto (s : Session M) (new_state : State.t) : Session M :=
  fst (switch_to s new_state).

Definition step_need_init (r : run_st) (t : tick) : outcome run_st :=
  '(s, w, ok) ← init (ses r) (world r) t;
  let s := if (ok : bool) then
             if was_error s then goto s State.error_and_stop
             else goto s State.ack_options
           else goto s State.finish in
  Ok {| ses := s; world := w; loc := loc r; sent := sent r |}.

Definition step_error_and_stop (r : run_st) (t : tick) : outcome run_st :=
  let s := ses r in
  '(s, b, out) ←
    (if was_error s then
       '(s, b) ← construct_error s (local_buf (loc r));
       Ok (s, b, fst (transmit_no_wait s b t))
     else Ok (s, local_buf (loc r), []));
  Ok {| ses := goto s State.finish; world := world r;
        loc := with_buffer (loc r) b; sent := sent r ++ out |}.

Definition step_ack_options (r : run_st) (t : tick) : outcome run_st :=
  let s := ses r in
  '(b, out) ←
    (if was_set_any (opt_ s) then
       b ← construct_opt_reply s (local_buf (loc r));
       Ok (b, fst (transmit_no_wait s b t))
     else Ok (local_buf (loc r), []));
  let l := timeout_reset (with_buffer (loc r) b) t in
  let s :=
    match request_type (opt_ s) with
    | SrvReq.unknown => goto s State.error_and_stop
    | SrvReq.read =>
        if was_set_any (opt_ s) then with_stage (goto s State.ack_rx) 0
        else with_stage (goto s State.data_tx) 1
    | SrvReq.write =>
        if was_set_any (opt_ s) then with_stage (goto s State.data_rx) 1
        else goto (with_stage s 0) State.ack_tx
    end in
  Ok {| ses := s; world := world r; loc := l; sent := sent r ++ out |}.

Definition step_data_tx (r : run_st) (t : tick) : outcome run_st :=
  '(s, b) ← construct_data (ses r) (world r) (local_buf (loc r));
  let l := with_buffer (loc r) b in
  if negb (was_error s) && (0 <? data_size b) then
    let out := fst (transmit_no_wait s b t) in
    let l := with_last l (is_last s b) in
    if is_window_close s (stage_ s) || last_blk_processed_ l then
      Ok {| ses := goto s State.ack_rx; world := world r; loc := timeout_reset l t;
            sent := sent r ++ out |}
    else Ok {| ses := s; world := world r; loc := l; sent := sent r ++ out |}
  else Ok {| ses := goto s State.error_and_stop; world := world r; loc := l;
             sent := sent r |}.

Definition step_data_rx (r : run_st) (t : tick) : outcome run_st :=
  '(s, w, b, res) ← receive_no_wait (ses r) (world r) (local_buf (loc r)) t;
  let l := with_buffer (loc r) b in
  match res with
  | TripleResult.nop =>
      pass ← timeout_pass s l t;
      Ok {| ses := if (pass : bool) then s else goto s State.retransmit;
            world := w; loc := l; sent := sent r |}
  | TripleResult.ok =>
      let l := with_last l (is_last s b) in
      if is_window_close s (stage_ s)
      then Ok {| ses := goto s State.ack_tx; world := w; loc := l; sent := sent r |}
      else Ok {| ses := with_stage s (u64 (stage_ s + 1)); world := w;
                 loc := timeout_reset l t; sent := sent r |}
  | TripleResult.fail =>
      Ok {| ses := goto s State.error_and_stop; world := w; loc := l; sent := sent r |}
  end.

Definition step_ack_tx (r : run_st) (t : tick) : outcome run_st :=
  b ← construct_ack (ses r) (local_buf (loc r));
  let out := fst (transmit_no_wait (ses r) b t) in
  let s := with_stage (ses r) (u64 (stage_ (ses r) + 1)) in
  let l := with_buffer (loc r) b in
  if last_blk_processed_ l
  then Ok {| ses := goto s State.finish; world := world r; loc := l;
             sent := sent r ++ out |}
  else Ok {| ses := goto s State.data_rx; world := world r; loc := timeout_reset l t;
             sent := sent r ++ out |}.

Definition step_ack_rx (r : run_st) (t : tick) : outcome run_st :=
  '(s, w, b, res) ← receive_no_wait (ses r) (world r) (local_buf (loc r)) t;
  let l := with_buffer (loc r) b in
  match res with
  | TripleResult.nop =>
      pass ← timeout_pass s l t;
      Ok {| ses := if (pass : bool) then s else goto s State.retransmit;
            world := w; loc := l; sent := sent r |}
  | TripleResult.ok =>
      if last_blk_processed_ l
      then Ok {| ses := goto s State.finish; world := w; loc := l; sent := sent r |}
      else let s := goto s State.data_tx in
           Ok {| ses := with_stage s (u64 (stage_ s + 1)); world := w;
                 loc := timeout_reset l t; sent := sent r |}
  | TripleResult.fail =>
      Ok {| ses := goto s State.error_and_stop; world := w; loc := l; sent := sent r |}
  end.

(** [++retr_count] counts in 16 bits. *)
Definition step_retransmit (r : run_st) (t : tick) : outcome run_st :=
  let s := ses r in
  let l := {| last_blk_processed_ := last_blk_processed_ (loc r);
              retr_count := u16 (retr_count (loc r) + 1);
              local_buf := local_buf (loc r); oper_time_ := oper_time_ (loc r) |} in
  if get_retransmit_count (settings_ s) <? retr_count l
  then Ok {| ses := goto s State.error_and_stop; world := world r; loc := l;
             sent := sent r |}
  else
    let s := match request_type (opt_ s) with
             | SrvReq.unknown => goto s State.error_and_stop
             | SrvReq.read => goto s State.data_tx
             | SrvReq.write => goto s State.ack_tx
             end in
    Ok {| ses := s; world := world r; loc := timeout_reset l t; sent := sent r |}.

(** The body of the loop. *)
Definition step (r : run_st) (t : tick) : outcome run_st :=
  match stat_ (ses r) with
  | State.need_init => step_need_init r t
  | State.error_and_stop => step_error_and_stop r t
  | State.ack_options => step_ack_options r t
  | State.data_tx => step_data_tx r t
  | State.data_rx => step_data_rx r t
  | State.ack_tx => step_ack_tx r t
  | State.ack_rx => step_ack_rx r t
  | State.retransmit => step_retransmit r t
  | State.finish => Ok r
  end.

(** The loop over the ticks of an execution: it stops at [finish], or is still
    running when the ticks end. *)
Fixpoint run_loop (r : run_st) (ts : list tick) : outcome run_st :=
  if is_finished (ses r) then Ok r
  else match ts with
       | [] => Ok r
       | t :: ts => r ← step r t; run_loop r ts
       end.

Definition run_start (s : Session M) (w : W) : run_st :=
  {| ses := with_stage s 0; world := w;
     loc := {| last_blk_processed_ := false; retr_count := 0;
               local_buf := new_default (Z.to_nat 0xFFFF); oper_time_ := 0 |};
     sent := [] |}.

(** [socket_close(); file_man_->close();] after the loop. *)
Definition run_end (r : run_st) : outcome run_st :=
  match file_man_ (ses r) with
  | None => Undef
  | Some m =>
      '(m, w) ← dm_close m (world r);
      Ok {| ses := with_man (ses r) (Some m); world := w; loc := loc r; sent := sent r |}
  end.

(** The whole of [run]; [None] while it has not returned. *)
Definition run (s : Session M) (w : W) (ts : list tick) : outcome (option run_st) :=
  r ← run_loop (run_start s w) ts;
  if is_finished (ses r) then r ← run_end r; Ok (Some r) else Ok None.
End session.

Arguments run_st : clear implicits.

(** ** The loop *)
Section loop.
Context {W M : Type} `{DataMgr W M}.
Implicit Types r : run_st W M.

Lemma run_loop_finished r ts : stat_ (ses r) = State.finish → run_loop r ts = Ok r.
Proof.
  intros Hf. destruct ts; cbn [run_loop]; unfold is_finished;
    by rewrite bool_decide_true.
Qed.

Lemma run_loop_cons r t ts :
  stat_ (ses r) ≠ State.finish →
  run_loop r (t :: ts) = (r' ← step r t; run_loop r' ts).
Proof.
  intros Hf. cbn [run_loop]. unfold is_finished. by rewrite bool_decide_false.
Qed.

Lemma run_loop_app r ts1 ts2 r1 :
  run_loop r ts1 = Ok r1 → run_loop r (ts1 ++ ts2) = run_loop r1 ts2.
Proof.
  revert r. induction ts1 as [|t ts1 IH]; intros r E.
  - simpl in E. destruct (is_finished (ses r)); by simplify_eq.
  - destruct (decide (stat_ (ses r) = State.finish)) as [Hf|Hf].
    + rewrite run_loop_finished in E by done. simplify_eq.
      by rewrite !run_loop_finished.
    + cbn [app]. rewrite run_loop_cons in E |- * by done.
      apply bind_Ok in E as (r' & -> & E). cbn [mbind outcome_bind]. by apply IH.
Qed.
End loop.
