(* ===== verification/SessionPackets.v ===== *)
(** * SessionPackets: the datagrams of a session

    The four packets a session builds ([construct_*] of [tftpSession.cpp]) as
    octet strings, and what [receive_no_wait] makes of a received one. *)

From Stdlib Require Import Strings.Byte.
From S2P Require Import Prelude Common SmBuf Options Regex Addr Settings Base.
From S2P Require Import FileSys DataMgr SmBufEx Session.

(** ** Packet formats (RFC 1350, RFC 2347) *)

Definition data_packet (n : Z) (d : bytes) : bytes := be_split 2 3 ++ be_split 2 n ++ d.
Definition ack_packet (n : Z) : bytes := be_split 2 4 ++ be_split 2 n.
Definition error_packet (c : Z) (m : bytes) : bytes :=
  be_split 2 5 ++ be_split 2 c ++ zstr m.

(** The options the server confirms, with the values it has. *)
Definition oack_opts (o : Options) : list (bytes * bytes) :=
  (if was_set_blksize o then [(name_blksize, to_string (blksize o))] else [])
  ++ (if was_set_timeout o then [(name_timeout, to_string (timeout o))] else [])
  ++ (if was_set_tsize o then [(name_tsize, to_string (tsize o))] else [])
  ++ (if was_set_windowsize o then [(name_windowsize, to_string (windowsize o))] else []).

Definition oack_packet (o : Options) : bytes := be_split 2 6 ++ encode_opts (oack_opts o).

(** The buffer of [run]: of the size it is made with, network order, zero ended
    texts. *)
Definition run_buf (b : SmBufEx) : Prop :=
  SmBufEx.wf b ∧ size (buf b) = 0xFFFF ∧
  val_int_bigendian_ b = true ∧ val_str_zeroend_ b = true.

(** ** Lemmas *)

Lemma run_buf_new : run_buf (new_default (Z.to_nat 0xFFFF)).
Proof.
  split; [apply new_wf; vm_compute; done|]. split; [|done].
  unfold new_default, new, size. cbn [buf]. rewrite length_replicate. lia.
Qed.

Lemma run_buf_clear b : run_buf b → run_buf (clear b).
Proof.
  intros ((? & ?) & ? & ?). split; [by apply clear_wf|done].
Qed.

Lemma run_buf_shape b b' :
  run_buf b → SmBufEx.wf b' → same_shape b b' → run_buf b'.
Proof. intros (_ & ? & ? & ?) ? (? & ? & ?). split_and!; congruence. Qed.

(** What is pushed into the buffer is the packet when it fits. *)
Lemma push_fits b args :
  run_buf b → Forall (pushable b) args →
  data_size b + size (concat (map (encode b) args)) ≤ 0xFFFF →
  ∃ b', push b args = Ok b' ∧ run_buf b' ∧
        payload b' = payload b ++ concat (map (encode b) args) ∧
        data_size b' = data_size b + size (concat (map (encode b) args)).
Proof.
  intros Hb Ha Hs. pose proof Hb as (Hwf & Hsz & _).
  destruct (push_args_appends b args) as (b' & E & Hwf' & Hsh & Hp); auto.
  { unfold data_size in Hs. lia. }
  exists b'. unfold push, push_data. rewrite E. split_and!; auto.
  - by eapply run_buf_shape.
  - unfold data_size. rewrite <-(payload_size b'), <-(payload_size b), Hp by done.
    apply size_app.
Qed.

Lemma encode_u16 b v : run_buf b → encode b (AInt uint16_t v) = be_split 2 v.
Proof. intros (_ & _ & Hb & _). simpl. by rewrite Hb. Qed.

Lemma encode_text b s : run_buf b → no_zero s → encode b (AStr s) = zstr s.
Proof.
  intros (_ & _ & _ & Hz) Hs. simpl. rewrite Hz, until_zero_id by done. done.
Qed.

Lemma data_size_clear b : data_size (clear b) = 0.
Proof. done. Qed.

Lemma size_nil : size [] = 0.
Proof. done. Qed.

Lemma u16_ok : ity_ok uint16_t.
Proof. right. by left. Qed.

Lemma push_header b x y :
  run_buf b →
  ∃ b', push (clear b) [AInt uint16_t x; AInt uint16_t y] = Ok b' ∧ run_buf b' ∧
        payload b' = be_split 2 x ++ be_split 2 y ∧ data_size b' = 4.
Proof.
  intros Hb. apply run_buf_clear in Hb.
  destruct (push_fits (clear b) [AInt uint16_t x; AInt uint16_t y])
    as (b' & E & Hb' & Hp & Hd); auto.
  - do 2 (constructor; [apply pushable_int, u16_ok|]). constructor.
  - cbn [map concat]. rewrite !encode_u16, !size_app, !size_be_split, data_size_clear, size_nil by done. lia.
  - exists b'. cbn [map concat] in Hp, Hd. rewrite !encode_u16, app_nil_r in Hp, Hd by done.
    by split_and!.
Qed.

Lemma be_split_land n : be_split 2 (Z.land n 0xFFFF) = be_split 2 n.
Proof.
  change 0xFFFF with (Z.ones 16). rewrite Z.land_ones by lia.
  apply (be_split_wrap 2).
Qed.

(** *** Option values as text *)

Lemma dec_digits_length_le f n acc :
  (length (dec_digits f n acc) ≤ f + length acc)%nat.
Proof.
  revert n acc. induction f as [|f IH]; intros n acc; cbn [dec_digits]; [lia|].
  destruct (_ =? 0); simpl; [lia|].
  specialize (IH (n / 10) (byte_of (48 + n `mod` 10) :: acc)). simpl in IH. lia.
Qed.

Lemma size_dec n : 0 ≤ n ≤ INT_MAX → size (dec n) ≤ 31.
Proof.
  intros Hn. unfold dec, size.
  pose proof (dec_digits_length_le (S (Z.to_nat (Z.log2 n))) n []) as Hl.
  change (length (@nil byte)) with 0%nat in Hl.
  pose proof (Z.log2_le_mono n INT_MAX ltac:(lia)) as Hm. change (Z.log2 INT_MAX) with 30 in Hm.
  lia.
Qed.

Lemma parse_value_dec o n v :
  0 ≤ v ≤ INT_MAX → parse_value o n (to_string v) = Ok (set_option o n v).
Proof.
  intros. rewrite to_string_nat by lia. unfold parse_value.
  rewrite dec_digit_str, stoi_dec by done. done.
Qed.

(** The confirmed options, as the client reads them. *)
Definition confirmed (o : Options) : Options := {|
  request_type_ := SrvReq.unknown; filename_ := []; transfer_mode_ := TransfMode.unknown;
  blksize_ := if was_set_blksize o then (true, blksize o) else (false, dflt_blksize);
  timeout_ := if was_set_timeout o then (true, timeout o) else (false, dflt_timeout);
  tsize_ := if was_set_tsize o then (true, tsize o) else (false, dflt_tsize);
  windowsize_ := if was_set_windowsize o then (true, windowsize o)
                 else (false, dflt_windowsize)
|}.

Lemma apply_oack_opts o :
  opts_wf o → apply_opts Options_default (oack_opts o) = Ok (confirmed o).
Proof.
  intros (? & ? & ? & ?). unfold oack_opts, confirmed.
  destruct (was_set_blksize o), (was_set_timeout o), (was_set_tsize o),
    (was_set_windowsize o); cbn [app apply_opts];
    repeat (rewrite parse_value_dec by done; cbn [mbind outcome_bind]); done.
Qed.

Lemma name_ok n :
  n ∈ [name_blksize; name_timeout; name_tsize; name_windowsize] →
  no_zero n ∧ size n ≤ 10.
Proof.
  rewrite !elem_of_cons, elem_of_nil. intros [->|[->|[->|[->|[]]]]];
    (split; [by_decide|vm_compute; discriminate]).
Qed.

Lemma oack_opts_no_zero o :
  opts_wf o → Forall (λ nv : bytes * bytes, no_zero nv.1 ∧ no_zero nv.2) (oack_opts o).
Proof.
  intros (? & ? & ? & ?). unfold oack_opts.
  assert (Hone : ∀ (ws : bool) n v, no_zero n → 0 ≤ v →
    Forall (λ nv : bytes * bytes, no_zero nv.1 ∧ no_zero nv.2)
      (if ws then [(n, to_string v)] else [])).
  { intros [] n v ??; constructor; [|constructor]. cbn [fst snd].
    rewrite to_string_nat by done. auto using dec_no_zero. }
  rewrite !Forall_app. split_and!; (apply Hone; [by_decide|lia]).
Qed.

Lemma push_option_fits b ws name v :
  run_buf b → name ∈ [name_blksize; name_timeout; name_tsize; name_windowsize] →
  0 ≤ v ≤ INT_MAX → data_size b ≤ 60000 →
  ∃ b', push_option b ws name v = Ok b' ∧ run_buf b' ∧
        payload b' = payload b ++ encode_opts (if ws then [(name, to_string v)] else []) ∧
        data_size b ≤ data_size b' ≤ data_size b + 50.
Proof.
  intros Hb Hn Hv Hd. destruct ws; unfold push_option.
  2: { exists b. split_and!; auto; [by rewrite app_nil_r|lia|lia]. }
  destruct (name_ok name Hn) as [Hz Hs]. pose proof (size_nonneg name).
  pose proof (size_dec v Hv). pose proof (size_nonneg (dec v)).
  rewrite to_string_nat by lia.
  assert (Hpush : ∀ c t, run_buf c → no_zero t → size t ≤ 40 → data_size c ≤ 60100 →
    ∃ c', push c [AStr t] = Ok c' ∧ run_buf c' ∧ payload c' = payload c ++ zstr t ∧
          data_size c' = data_size c + size t + 1).
  { intros c t Hc Ht Hst Hdc. destruct (push_fits c [AStr t]) as (c' & E & Hc' & Hp & Hdc');
      auto.
    - constructor; [|constructor]. apply pushable_str; [apply Hc|done|lia].
    - cbn [map concat]. rewrite encode_text, app_nil_r, size_zstr by done. lia.
    - exists c'. cbn [map concat] in Hp, Hdc'. rewrite encode_text, app_nil_r in Hp by done.
      rewrite encode_text, app_nil_r, size_zstr in Hdc' by done. split_and!; auto. lia. }
  destruct (Hpush b name) as (b1 & -> & Hb1 & Hp1 & Hd1); [done|done|lia|lia|].
  cbn [mbind outcome_bind].
  destruct (Hpush b1 (dec v)) as (b2 & -> & Hb2 & Hp2 & Hd2);
    [done|apply dec_no_zero|lia|lia|].
  exists b2. split_and!; auto; [|lia|lia].
  rewrite Hp2, Hp1, encode_opts_cons, <-!app_assoc. change (encode_opts []) with (@nil byte).
  by rewrite app_nil_r.
Qed.

Section packets.
Context {W M : Type} `{DataMgr W M}.
Implicit Types (s : Session M) (w : W).

Lemma construct_ack_packet s b :
  run_buf b →
  ∃ b', construct_ack s b = Ok b' ∧ run_buf b' ∧ payload b' = ack_packet (stage_ s) ∧
        data_size b' = 4.
Proof.
  intros Hb. destruct (push_header b 4 (blk_num_local s) Hb) as (b' & ? & ? & Hp & ?).
  exists b'. split_and!; auto. rewrite Hp. unfold blk_num_local.
  by rewrite be_split_land.
Qed.

Lemma construct_error_packet s b :
  run_buf b → was_error s = true → no_zero (error_message_ s) →
  size (error_message_ s) ≤ 60000 →
  ∃ b', construct_error s b = Ok (s, b') ∧ run_buf b' ∧
        payload b' = error_packet (error_code_ s) (error_message_ s) ∧
        0 < data_size b'.
Proof.
  intros Hb He Hz Hs. apply run_buf_clear in Hb. unfold construct_error. rewrite He.
  cbn [negb]. pose proof (size_nonneg (error_message_ s)).
  pose proof (encode_text (clear b) (error_message_ s) Hb Hz) as Ht.
  destruct (push_fits (clear b) [AInt uint16_t 5; AInt uint16_t (error_code_ s);
      AStr (error_message_ s)]) as (b' & E & Hb' & Hp & Hd); auto.
  - constructor; [apply pushable_int, u16_ok|].
    constructor; [apply pushable_int, u16_ok|].
    constructor; [|constructor]. apply pushable_str; [apply Hb|done|lia].
  - cbn [map concat]. rewrite Ht, !encode_u16, !size_app, !size_be_split, size_zstr,
      data_size_clear, size_nil by done. lia.
  - exists b'. rewrite E. cbn [map concat] in Hp, Hd.
    rewrite Ht, !encode_u16, app_nil_r in Hp, Hd by done. split_and!; auto.
    rewrite Hd, !size_app, !size_be_split, size_zstr, data_size_clear. lia.
Qed.

Lemma encode_opts_app l k : encode_opts (l ++ k) = encode_opts l ++ encode_opts k.
Proof. unfold encode_opts. by rewrite map_app, concat_app. Qed.

Lemma construct_opt_reply_packet s b :
  run_buf b → opts_wf (opt_ s) → was_set_any (opt_ s) = true →
  ∃ b', construct_opt_reply s b = Ok b' ∧ run_buf b' ∧
        payload b' = oack_packet (opt_ s) ∧ 0 < data_size b'.
Proof.
  intros Hb (H1 & H2 & H3 & H4) Hany. apply run_buf_clear in Hb. unfold construct_opt_reply.
  destruct (push_fits (clear b) [AInt uint16_t 6]) as (b0 & -> & Hb0 & Hp0 & Hd0); auto.
  { constructor; [apply pushable_int, u16_ok|constructor]. }
  { cbn [map concat]. rewrite encode_u16, app_nil_r, size_be_split by done. done. }
  cbn [map concat] in Hp0, Hd0. rewrite encode_u16, app_nil_r in Hp0, Hd0 by done.
  rewrite size_be_split, data_size_clear in Hd0. cbn [mbind outcome_bind].
  destruct (push_option_fits b0 (was_set_blksize (opt_ s)) name_blksize
    (blksize (opt_ s))) as (b1 & -> & Hb1 & Hp1 & Hd1); auto; [by_decide|lia|].
  cbn [mbind outcome_bind].
  destruct (push_option_fits b1 (was_set_timeout (opt_ s)) name_timeout
    (timeout (opt_ s))) as (b2 & -> & Hb2 & Hp2 & Hd2); auto; [by_decide|lia|].
  cbn [mbind outcome_bind].
  destruct (push_option_fits b2 (was_set_tsize (opt_ s)) name_tsize
    (tsize (opt_ s))) as (b3 & -> & Hb3 & Hp3 & Hd3); auto; [by_decide|lia|].
  cbn [mbind outcome_bind].
  destruct (push_option_fits b3 (was_set_windowsize (opt_ s)) name_windowsize
    (windowsize (opt_ s))) as (b4 & -> & Hb4 & Hp4 & Hd4); auto; [by_decide|lia|].
  cbn [mbind outcome_bind].
  assert (Hp : payload b4 = oack_packet (opt_ s)).
  { rewrite Hp4, Hp3, Hp2, Hp1, Hp0. unfold oack_packet, oack_opts.
    rewrite !encode_opts_app, <-!app_assoc. done. }
  assert (Hsz : 4 ≤ data_size b4).
  { unfold data_size. rewrite <-(payload_size b4), Hp by apply Hb4. unfold oack_packet.
    rewrite size_app, size_be_split.
    pose proof (encode_opts_length (oack_opts (opt_ s))) as Hl.
    assert (2 ≤ size (encode_opts (oack_opts (opt_ s)))); [|lia].
    unfold oack_opts, was_set_any in *. unfold size.
    destruct (was_set_blksize _), (was_set_timeout _), (was_set_tsize _),
      (was_set_windowsize _); try done; cbn [app]; rewrite encode_opts_cons;
      unfold zstr; rewrite !length_app; simpl; lia. }
  rewrite (proj2 (Z.ltb_ge _ _)) by lia. exists b4. split_and!; auto. lia.
Qed.

(** *** DATA *)

(** The header, then the range filled by [read]. *)
Lemma payload_data b hd rng n k :
  run_buf b → payload b = hd → data_size_ b = n → size hd = n →
  n + size rng ≤ 0xFFFF → 0 ≤ k ≤ size rng →
  ∃ b', data_size_reset (with_buf b (blit (buf b) n rng) n) (n + k) = Ok b' ∧
        run_buf b' ∧ payload b' = hd ++ take (Z.to_nat k) rng ∧ data_size_ b' = n + k.
Proof.
  intros ((Hr & Hok) & Hsz & Hbe & Hz) Hp <- Hd Hs Hk. unfold data_size_reset.
  assert (Hlen : size (blit (buf b) (data_size_ b) rng) = size (buf b))
    by (apply blit_length; lia).
  cbn [buf with_buf]. rewrite Hlen, (proj2 (Z.ltb_ge _ _)) by lia. eexists.
  split; [done|]. cbn [buf with_buf data_size_]. split_and!; try done; try lia.
  - unfold run_buf, SmBufEx.wf, buf_ok in *. cbn [buf with_buf data_size_
      val_int_bigendian_ val_str_zeroend_]. split_and!; (done || lia).
  - unfold payload. cbn [buf with_buf data_size_].
    unfold payload in Hp. unfold blit. rewrite Hp, <-Hd. unfold size in *.
    replace (Z.to_nat (Z.of_nat (length hd) + k)) with (length hd + Z.to_nat k)%nat by lia.
    rewrite take_app_add, take_app_le by lia. done.
Qed.

Lemma size_slice_min d pos n :
  0 ≤ pos ≤ size d → 0 ≤ n → size (slice d pos n) = Z.min n (size d - pos).
Proof. unfold size, slice. intros. rewrite length_take, length_drop. lia. Qed.

Lemma block_position_eq s :
  1 ≤ stage_ s < 2 ^ 64 → (stage_ s - 1) * block_size s < 2 ^ 63 →
  block_position s = (stage_ s - 1) * block_size s.
Proof.
  intros ? Hp. unfold block_position, block_size in *.
  pose proof (wrap_range 16 (blksize (opt_ s)) ltac:(lia)).
  rewrite (wrap_small 64 (stage_ s - 1)) by lia. apply wrap_small. nia.
Qed.

(** *** Receiving *)

(** Opcode and block number of a received packet; 0 when it is too short. *)
Definition rx_op_of (d : bytes) : Z :=
  if 3 <? size d then be_combine (slice d 0 2) else 0.

Definition rx_blk_of (d : bytes) : Z :=
  if 3 <? size d then be_combine (slice d 2 2) else 0.

(** The octets [recvfrom] delivers: what fits the buffer. *)
Definition delivered (d : bytes) : bytes := take (Z.to_nat 0xFFFF) d.

Definition received (b b' : SmBufEx) (d : bytes) : Prop :=
  run_buf b' ∧ payload b' = d ∧ data_size_ b' = size d ∧
  buf b' = blit (buf b) 0 d.

Lemma receive_fills b d :
  run_buf b → size d ≤ 0xFFFF →
  ∃ b', data_size_reset (with_buf b (blit (buf b) 0 d) (data_size_ b)) (size d) = Ok b' ∧
        received b b' d.
Proof.
  intros (Hwf & Hsz & Hbe & Hz) Hd. unfold data_size_reset. pose proof (size_nonneg d).
  assert (Hlen : size (blit (buf b) 0 d) = size (buf b)) by (apply blit_length; lia).
  cbn [buf with_buf]. rewrite Hlen, (proj2 (Z.ltb_ge _ _)) by lia. eexists.
  split; [done|]. unfold received, run_buf, SmBufEx.wf, buf_ok, payload.
  cbn [buf with_buf data_size_ val_int_bigendian_ val_str_zeroend_].
  split_and!; try done; try lia.
  replace (size d) with (0 + size d) by lia. rewrite take_blit_end by lia. done.
Qed.

Lemma get_be_u16 b off :
  buf_ok b → 0 ≤ off → off + 2 ≤ size b →
  get_be uint16_t b off = Ok (be_combine (slice b off 2)).
Proof.
  intros. rewrite get_be_valid by (auto using u16_ok; simpl; lia).
  change (Z.of_nat (sizeof uint16_t)) with 2. f_equal. apply wrap_small.
  pose proof (be_combine_range (slice b off 2)) as Hr.
  rewrite slice_length in Hr by lia. done.
Qed.

Lemma slice_received b b' d off :
  received b b' d → 0 ≤ off → off + 2 ≤ size d → slice (buf b') off 2 = slice d off 2.
Proof.
  intros (_ & Hp & Hd & _) ??. rewrite <-Hp. unfold payload.
  rewrite slice_take; [done|lia|lia|lia].
Qed.

(** [receive_no_wait] on a packet: the buffer holds it, then the case on its
    sender, its opcode and the state. *)
Lemma receive_packet s w b t d from :
  run_buf b → rx t = RxPkt d from →
  ∃ b', received b b' (delivered d) ∧
    receive_no_wait s w b t =
    (if negb (eqb from (cl_addr_ s)) then Ok (s, w, b', TripleResult.nop)
     else if (rx_op_of (delivered d) =? 3) && bool_decide (stat_ s = State.data_rx)
     then receive_data s w b' (rx_blk_of (delivered d)) (size (delivered d))
     else if (rx_op_of (delivered d) =? 4) && bool_decide (stat_ s = State.ack_rx)
     then Ok (receive_ack s w b' (rx_blk_of (delivered d)))
     else Ok (s, w, b', TripleResult.nop)).
Proof.
  intros Hb Hrx. unfold receive_no_wait. rewrite Hrx. pose proof Hb as (_ & Hsz & _).
  replace (length (buf b)) with (Z.to_nat 0xFFFF) by (unfold size in Hsz; lia).
  fold (delivered d). set (d' := delivered d).
  assert (Hd : size d' ≤ 0xFFFF).
  { unfold d', delivered, size. rewrite length_take. lia. }
  destruct (receive_fills b d' Hb Hd) as (b' & -> & Hrec). exists b'. split; [done|].
  cbn [mbind outcome_bind]. pose proof Hrec as (((_ & Hok) & Hsz' & _) & _).
  assert ((if 3 <? size d' then get_be uint16_t (buf b') 0 else Ok 0) = Ok (rx_op_of d'))
    as ->.
  { unfold rx_op_of. destruct (3 <? size d') eqn:E; reflect_bools; [|done].
    rewrite get_be_u16, (slice_received b b' d') by (auto; lia). done. }
  assert ((if 3 <? size d' then get_be uint16_t (buf b') 2 else Ok 0) = Ok (rx_blk_of d'))
    as ->.
  { unfold rx_blk_of. destruct (3 <? size d') eqn:E; reflect_bools; [|done].
    rewrite get_be_u16, (slice_received b b' d') by (auto; lia). done. }
  cbn [mbind outcome_bind].
  assert (∃ m, (if rx_op_of d' =? 5 then get_string (buf b') 4 0 else Ok []) = Ok m)
    as [m ->].
  { destruct (_ =? 5); [|by eexists]. rewrite get_string_to_end by (auto; lia). eauto. }
  done.
Qed.

Lemma delivered_id d : size d ≤ 0xFFFF → delivered d = d.
Proof. unfold delivered, size. intros. apply take_ge. lia. Qed.

Lemma size_ack n : size (ack_packet n) = 4.
Proof. unfold ack_packet. by rewrite size_app, !size_be_split. Qed.

Lemma ack_packet_fields n :
  0 ≤ n < 2 ^ 16 → rx_op_of (ack_packet n) = 4 ∧ rx_blk_of (ack_packet n) = n.
Proof.
  intros Hn. unfold rx_op_of, rx_blk_of. rewrite size_ack. change (3 <? 4) with true.
  cbv iota. unfold ack_packet. split.
  - pose proof (slice_app_at [] (be_split 2 4) (be_split 2 n)) as E.
    rewrite size_be_split in E. change (slice (be_split 2 4 ++ be_split 2 n) 0 2
      = be_split 2 4) in E. by rewrite E.
  - pose proof (slice_app_at (be_split 2 4) (be_split 2 n) []) as E.
    rewrite !size_be_split, app_nil_r in E. change (Z.of_nat 2) with 2 in E.
    rewrite E, be_combine_split. apply Z.mod_small. done.
Qed.

Lemma size_data n d : size (data_packet n d) = 4 + size d.
Proof. unfold data_packet. rewrite !size_app, !size_be_split. lia. Qed.

Lemma data_packet_fields n d :
  0 ≤ n < 2 ^ 16 → rx_op_of (data_packet n d) = 3 ∧ rx_blk_of (data_packet n d) = n.
Proof.
  intros Hn. unfold rx_op_of, rx_blk_of. rewrite size_data.
  pose proof (size_nonneg d). rewrite (proj2 (Z.ltb_lt 3 _)) by lia.
  unfold data_packet. split.
  - pose proof (slice_app_at [] (be_split 2 3) (be_split 2 n ++ d)) as E.
    rewrite size_be_split in E. change (slice (be_split 2 3 ++ be_split 2 n ++ d) 0 2
      = be_split 2 3) in E. by rewrite E.
  - pose proof (slice_app_at (be_split 2 3) (be_split 2 n) d) as E.
    rewrite !size_be_split in E. change (Z.of_nat 2) with 2 in E.
    rewrite E, be_combine_split. apply Z.mod_small. done.
Qed.

Context `{!DataMgrLaws W M}.

Lemma construct_data_packet s w b m d :
  run_buf b → file_man_ s = Some m → reading m w d → size d < 2 ^ 63 →
  0 < block_size s ≤ 65531 → 1 ≤ stage_ s < 2 ^ 64 →
  let pos := (stage_ s - 1) * block_size s in
  pos ≤ size d →
  ∃ m' b', construct_data s w b = Ok (with_man s (Some m'), b') ∧ run_buf b' ∧
    payload b' = data_packet (stage_ s) (slice d pos (block_size s)) ∧
    data_size b' = 4 + Z.min (block_size s) (size d - pos) ∧
    (pos + block_size s ≤ size d ∨ pos = size d → reading m' w d).
Proof.
  intros Hb Hm Hr Hd Hbs Hst pos Hpos. unfold construct_data.
  destruct (push_header b 3 (blk_num_local s) Hb) as (b1 & -> & Hb1 & Hp1 & Hd1).
  unfold data_size in Hd1 |- *.
  cbn [mbind outcome_bind]. rewrite Hm, Hd1. pose proof Hb1 as ((_ & _) & Hsz & _).
  rewrite (proj2 (Z.ltb_ge (size (buf b1)) _)) by lia.
  rewrite block_position_eq by (fold pos; lia). fold pos.
  assert (Hpp : 0 ≤ pos) by (unfold pos; nia).
  set (rng := slice (buf b1) 4 (block_size s)).
  assert (Hrs : size rng = block_size s) by (apply slice_length; lia).
  destruct (read_block m w d rng pos Hr) as (m' & -> & Hr'); [lia|lia| |].
  { intros E. rewrite E, size_nil in Hrs. lia. }
  cbn [mbind outcome_bind with_buf data_size_]. rewrite Hrs in *.
  set (k := Z.min (block_size s) (size d - pos)) in *.
  set (sl := slice d pos (block_size s)).
  assert (Hsl : size sl = k) by (apply size_slice_min; lia).
  rewrite (proj2 (Z.leb_le 0 k)) by lia.
  destruct (payload_data b1 (be_split 2 3 ++ be_split 2 (blk_num_local s))
    (blit rng 0 sl) 4 k Hb1 Hp1 Hd1) as (b2 & E & Hb2 & Hp2 & Hd2).
  { by rewrite size_app, !size_be_split. }
  { rewrite blit_length by lia. lia. }
  { rewrite blit_length by lia. lia. }
  rewrite E.
  exists m', b2. cbn [mbind outcome_bind report foldl]. split_and!; auto.
  - rewrite Hp2. unfold data_packet, blk_num_local. rewrite be_split_land.
    rewrite <-app_assoc. do 2 f_equal.
    replace (Z.to_nat k) with (Z.to_nat (0 + size sl)) by lia.
    rewrite take_blit_end by lia. done.
Qed.
End packets.

(** ** Properties *)

(** C28. The OACK packet confirms exactly the options of the request: it is opcode 6
    followed by each option that was set with its value, and the server's own
    option parser reads those values back from it. *)
Theorem oack_confirms {M} (s : Session M) b :
  run_buf b → opts_wf (opt_ s) → was_set_any (opt_ s) = true →
  ∃ b', construct_opt_reply s b = Ok b' ∧
    payload b' = be_split 2 6 ++ encode_opts (oack_opts (opt_ s)) ∧
    parse_opts (S (Z.to_nat (data_size b'))) (payload b') (data_size b')
      Options_default 2 = Some (Ok (confirmed (opt_ s))).
Proof.
  intros Hb Ho Hany.
  destruct (construct_opt_reply_packet s b Hb Ho Hany) as (b' & E & Hb' & Hp & _).
  exists b'. split_and!; [done|done|].
  assert (Hd : data_size b' = 2 + size (encode_opts (oack_opts (opt_ s)))).
  { unfold data_size. rewrite <-(payload_size b'), Hp by apply Hb'. unfold oack_packet.
    by rewrite size_app, size_be_split. }
  rewrite <-(apply_oack_opts (opt_ s)) by done.
  apply (parse_opts_at _ _ _ _ (be_split 2 6) []).
  - unfold buf_ok. pose proof (payload_size b') as Hs. pose proof Hb' as ((? & ?) & ? & _).
    rewrite Hs by apply Hb'. lia.
  - by rewrite Hp, app_nil_r.
  - by rewrite size_be_split.
  - by rewrite size_be_split.
  - by apply oack_opts_no_zero.
  - pose proof (encode_opts_length (oack_opts (opt_ s))). unfold size in Hd. lia.
Qed.

Definition oack_session : Session unit :=
  with_request_ (Session_new None) Addr_new Addr_new
    (set_option (set_option Options_default name_blksize 1024) name_tsize 0).

Lemma oack_confirms_witness :
  ∃ b', construct_opt_reply oack_session (new_default (Z.to_nat 0xFFFF)) = Ok b' ∧
        payload b' = [x00; x06] ++ zstr (str "blksize") ++ zstr (str "1024")
                       ++ zstr (str "tsize") ++ zstr (str "0").
Proof.
  destruct (oack_confirms oack_session (new_default (Z.to_nat 0xFFFF)))
    as (b' & E & Hp & _);
    [apply run_buf_new|repeat split; vm_compute; discriminate|reflexivity|].
  exists b'. split; [exact E|]. rewrite Hp. vm_compute. reflexivity.
Defined.
