(* ===== verification/SessionSafety.v ===== *)
(** * SessionSafety: what holds of a session on every execution

    Theorems about [run] of [tftpSession.cpp] for arbitrary ticks: any network,
    any client, any clock. [session_step] is one iteration of the loop that has
    not ended; [rtc session_step] are the states an execution can reach. *)

From Stdlib Require Import Strings.Byte.
From stdpp Require Import relations.
From S2P Require Import Prelude Common SmBuf Options Regex Addr Settings Base.
From S2P Require Import FileSys DataMgr SmBufEx Session SessionPackets.

(** ** What never changes *)

(** From [s] to [s'] the request, the peer and the settings stay, and an error
    that is set stays as it is. *)
Definition evolves {M} (s s' : Session M) : Prop :=
  settings_ s' = settings_ s ∧ my_addr_ s' = my_addr_ s ∧ cl_addr_ s' = cl_addr_ s ∧
  opt_ s' = opt_ s ∧
  (was_error s = true →
   error_code_ s' = error_code_ s ∧ error_message_ s' = error_message_ s).

#[export] Instance evolves_preorder {M} : PreOrder (@evolves M).
Proof.
  split; [done|]. intros s1 s2 s3 (?&?&?&?&H12) (?&?&?&?&H23).
  split_and!; try congruence. intros He. destruct (H12 He) as [Hc Hm].
  destruct H23 as [Hc' Hm']; [|split; congruence].
  unfold was_error in *. by rewrite Hc, Hm.
Qed.

Section evolves.
Context {W M : Type} `{DataMgr W M}.
Implicit Types (s : Session M) (w : W) (r : run_st W M).

Lemma evolves_stat s v : evolves s (with_stat s v).
Proof. done. Qed.

Lemma evolves_stage s v : evolves s (with_stage s v).
Proof. done. Qed.

Lemma evolves_man s v : evolves s (with_man s v).
Proof. done. Qed.

Lemma evolves_socket s v : evolves s (with_socket s v).
Proof. done. Qed.

Lemma evolves_goto s v : evolves s (goto s v).
Proof. unfold goto, switch_to. by destruct (_ || _). Qed.

Lemma evolves_error s c m : evolves s (set_error_if_first s c m).
Proof.
  unfold set_error_if_first. destruct (was_error s) eqn:E; [done|].
  unfold evolves. rewrite E. by split_and!.
Qed.

Lemma evolves_report s errs : evolves s (report s errs).
Proof.
  unfold report. revert s. induction errs as [|e errs IH]; intros s; simpl; [done|].
  etrans; [apply evolves_error|apply IH].
Qed.

Lemma evolves_sync s n : evolves s (sync_stage s n).
Proof. unfold sync_stage. by destruct (negb _). Qed.
End evolves.

#[export] Hint Resolve evolves_stat evolves_stage evolves_man evolves_socket
  evolves_goto evolves_error evolves_report evolves_sync : fw.

(** A chain of updates, one at a time. *)
Ltac evolves_tac :=
  repeat match goal with
  | |- evolves ?s ?s => reflexivity
  | |- evolves _ (if ?b then _ else _) => destruct b
  | |- evolves _ (match ?b with _ => _ end) => destruct b
  | |- evolves _ (?f ?s _) => etransitivity; [|solve [auto with fw]]
  | |- evolves _ (?f ?s _ _) => etransitivity; [|solve [auto with fw]]
  end; auto with fw.

Section frame.
Context {W M : Type} `{DataMgr W M}.
Implicit Types (s : Session M) (w : W) (r : run_st W M).

Lemma init_evolves s w t s' w' ok : init s w t = Ok (s', w', ok) → evolves s s'.
Proof.
  unfold init. intros E. destruct (_ && _); [|inv_ok; simplify_eq/=; evolves_tac].
  apply bind_Ok in E as ([[[m w1] b] errs] & _ & E). simplify_eq/=. evolves_tac.
Qed.

Lemma construct_error_evolves s b s' b' :
  construct_error s b = Ok (s', b') → evolves s s'.
Proof.
  unfold construct_error. intros E. apply bind_Ok in E as (b1 & _ & E). simplify_eq/=.
  destruct (was_error s) eqn:He; [done|]. unfold evolves. rewrite He. by split_and!.
Qed.

Lemma construct_data_evolves s w b s' b' :
  construct_data s w b = Ok (s', b') → evolves s s'.
Proof.
  unfold construct_data. intros E. apply bind_Ok in E as (b1 & _ & E).
  destruct (file_man_ s) as [m|]; [|done]. destruct (_ <? _); [done|].
  apply bind_Ok in E as ([[[m1 rng] ret] errs] & _ & E).
  destruct (0 <=? ret).
  - apply bind_Ok in E as (b2 & _ & E). simplify_eq/=. evolves_tac.
  - simplify_eq/=. evolves_tac.
Qed.

Lemma receive_data_evolves s w b n k s' w' b' res :
  receive_data s w b n k = Ok (s', w', b', res) →
  evolves s s' ∧ stat_ s' = stat_ s ∧ b' = b.
Proof.
  assert (Hr : ∀ s0 errs, stat_ (report s0 errs) = stat_ s0).
  { intros s0 errs. revert s0. unfold report. induction errs as [|e errs IH]; intros s0;
      simpl; [done|]. rewrite IH. unfold set_error_if_first. by destruct (negb _). }
  assert (He : ∀ s0 c m, stat_ (set_error_if_first s0 c m) = stat_ s0).
  { intros. unfold set_error_if_first. by destruct (negb _). }
  assert (Hs : stat_ (sync_stage s n) = stat_ s).
  { unfold sync_stage. by destruct (negb _). }
  unfold receive_data. intros E. destruct (negb _).
  { simplify_eq/=. split_and!; [evolves_tac|apply He|done]. }
  destruct (file_man_ _) as [m|]; [|done].
  apply bind_Ok in E as ([[[m1 w1] st] errs] & _ & E). destruct (st <? 0); simplify_eq/=.
  - split_and!; [evolves_tac|by rewrite He, Hr|done].
  - split_and!; [evolves_tac|by rewrite Hr|done].
Qed.

Lemma receive_evolves s w b t s' w' b' res :
  receive_no_wait s w b t = Ok (s', w', b', res) → evolves s s' ∧ stat_ s' = stat_ s.
Proof.
  unfold receive_no_wait. destruct (rx t) as [| |d from]; intros E;
    [by simplify_eq|by simplify_eq|].
  apply bind_Ok in E as (b1 & _ & E). apply bind_Ok in E as (op & _ & E).
  apply bind_Ok in E as (blk & _ & E). apply bind_Ok in E as (msg & _ & E).
  destruct (negb _); [by simplify_eq|]. destruct (_ && _).
  { by apply receive_data_evolves in E as (? & ? & _). }
  destruct (_ && _); [|by simplify_eq]. unfold receive_ack in E.
  destruct (negb _); simplify_eq/=.
  - split; [evolves_tac|]. unfold set_error_if_first. by destruct (negb _).
  - split; [evolves_tac|]. unfold sync_stage. by destruct (negb _).
Qed.

(** One iteration keeps the request and the first error and only appends to what
    was sent. *)
Lemma step_evolves r t r' :
  step r t = Ok r' → evolves (ses r) (ses r') ∧ sent r `prefix_of` sent r'.
Proof.
  assert (Hp : ∀ l : list bytes, sent r `prefix_of` sent r ++ l)
    by (intros; by apply prefix_app_r).
  unfold step. destruct (stat_ (ses r)); intros E.
  - unfold step_need_init in E. apply bind_Ok in E as ([[s w] ok] & Hi & E).
    apply init_evolves in Hi. simplify_eq/=. split; [|done]. etrans; [exact Hi|].
    evolves_tac.
  - unfold step_error_and_stop in E. apply bind_Ok in E as ([[s b] out] & Hi & E).
    assert (evolves (ses r) s).
    { destruct (was_error _); [|by simplify_eq].
      apply bind_Ok in Hi as ([s1 b1] & Hc & Hi). simplify_eq/=.
      by eapply construct_error_evolves. }
    simplify_eq/=. split; [|by auto]. etrans; [done|]. evolves_tac.
  - unfold step_ack_options in E. apply bind_Ok in E as ([b out] & _ & E).
    simplify_eq/=. split; [|by auto]. destruct (request_type _); evolves_tac.
  - unfold step_data_tx in E. apply bind_Ok in E as ([s b] & Hc & E).
    apply construct_data_evolves in Hc. destruct (_ && _); [destruct (_ || _)|];
      simplify_eq/=; (split; [|by auto]); etrans; try exact Hc; evolves_tac.
  - unfold step_data_rx in E. apply bind_Ok in E as ([[[s w] b] res] & Hc & E).
    apply receive_evolves in Hc as [Hc _]. destruct res; cbv zeta in E; inv_ok;
      simplify_eq/=; (split; [|done]); etrans; try exact Hc; evolves_tac.
  - unfold step_ack_tx in E. apply bind_Ok in E as (b & _ & E). cbv zeta in E.
    destruct (last_blk_processed_ _); simplify_eq/=; (split; [|by auto]); evolves_tac.
  - unfold step_ack_rx in E. apply bind_Ok in E as ([[[s w] b] res] & Hc & E).
    apply receive_evolves in Hc as [Hc _]. destruct res; cbv zeta in E; inv_ok;
      simplify_eq/=; (split; [|done]); etrans; try exact Hc; evolves_tac.
  - unfold step_retransmit in E. cbv zeta in E.
    destruct (_ <? _); simplify_eq/=; (split; [|done]); evolves_tac.
  - by simplify_eq.
Qed.
End frame.

(** ** The state machine *)

Definition session_step {W M} `{DataMgr W M} (r r' : run_st W M) : Prop :=
  stat_ (ses r) ≠ State.finish ∧ ∃ t, step r t = Ok r'.

(** The transitions of the loop of [run]. *)
Inductive trans (o : Options) : State.t → State.t → Prop :=
  | trans_init_failed : trans o State.need_init State.finish
  | trans_init_error : trans o State.need_init State.error_and_stop
  | trans_init_done : trans o State.need_init State.ack_options
  | trans_error_sent : trans o State.error_and_stop State.finish
  | trans_no_request :
      request_type o = SrvReq.unknown → trans o State.ack_options State.finish
  | trans_read_oack :
      request_type o = SrvReq.read → was_set_any o = true →
      trans o State.ack_options State.ack_rx
  | trans_read :
      request_type o = SrvReq.read → was_set_any o = false →
      trans o State.ack_options State.data_tx
  | trans_write_oack :
      request_type o = SrvReq.write → was_set_any o = true →
      trans o State.ack_options State.data_rx
  | trans_write :
      request_type o = SrvReq.write → was_set_any o = false →
      trans o State.ack_options State.ack_tx
  | trans_next_of_window : trans o State.data_tx State.data_tx
  | trans_window_sent : trans o State.data_tx State.ack_rx
  | trans_read_error : trans o State.data_tx State.error_and_stop
  | trans_data_wait : trans o State.data_rx State.data_rx
  | trans_data_timeout : trans o State.data_rx State.retransmit
  | trans_window_received : trans o State.data_rx State.ack_tx
  | trans_data_failed : trans o State.data_rx State.finish
  | trans_ack_sent : trans o State.ack_tx State.data_rx
  | trans_last_ack_sent : trans o State.ack_tx State.finish
  | trans_ack_wait : trans o State.ack_rx State.ack_rx
  | trans_ack_timeout : trans o State.ack_rx State.retransmit
  | trans_acked : trans o State.ack_rx State.data_tx
  | trans_all_acked : trans o State.ack_rx State.finish
  | trans_give_up : trans o State.retransmit State.error_and_stop
  | trans_data_again :
      request_type o = SrvReq.read → trans o State.retransmit State.data_tx
  | trans_ack_again :
      request_type o = SrvReq.write → trans o State.retransmit State.ack_tx.

#[export] Hint Constructors trans : fw.

Section transitions.
Context {W M : Type} `{DataMgr W M}.
Implicit Types (s : Session M) (w : W) (r : run_st W M).

Lemma stat_goto s v :
  stat_ (goto s v) =
  if bool_decide (stat_ s = v) || switch_allowed (stat_ s) v then v else State.finish.
Proof. unfold goto, switch_to. by destruct (_ || _). Qed.

Lemma goto_allowed s v : switch_allowed (stat_ s) v = true → goto s v = with_stat s v.
Proof. unfold goto, switch_to. intros ->. by rewrite orb_true_r. Qed.

Lemma stat_error s c m : stat_ (set_error_if_first s c m) = stat_ s.
Proof. unfold set_error_if_first. by destruct (negb _). Qed.

Lemma stat_report s errs : stat_ (report s errs) = stat_ s.
Proof.
  unfold report. revert s. induction errs as [|e errs IH]; intros s; simpl; [done|].
  by rewrite IH, stat_error.
Qed.

Lemma stat_init s w t s' w' ok : init s w t = Ok (s', w', ok) → stat_ s' = stat_ s.
Proof.
  unfold init. intros E. destruct (_ && _); [|inv_ok; by simplify_eq/=].
  apply bind_Ok in E as ([[[m w1] b] errs] & _ & E). simplify_eq/=.
  destruct b; simpl; rewrite ?stat_error; by rewrite stat_report.
Qed.

Lemma stat_construct_error s b s' b' :
  construct_error s b = Ok (s', b') → stat_ s' = stat_ s.
Proof.
  unfold construct_error. intros E. apply bind_Ok in E as (b1 & _ & E). simplify_eq/=.
  by destruct (was_error s).
Qed.

Lemma stat_construct_data s w b s' b' :
  construct_data s w b = Ok (s', b') → stat_ s' = stat_ s.
Proof.
  unfold construct_data. intros E. apply bind_Ok in E as (b1 & _ & E).
  destruct (file_man_ s) as [m|]; [|done]. destruct (_ <? _); [done|].
  apply bind_Ok in E as ([[[m1 rng] ret] errs] & _ & E). destruct (0 <=? ret).
  - apply bind_Ok in E as (b2 & _ & E). simplify_eq/=. by rewrite stat_report.
  - simplify_eq/=. by rewrite stat_error, stat_report.
Qed.

(** A successful [init]. *)
Lemma need_init_done r t m w :
  stat_ (ses r) = State.need_init → was_error (ses r) = false →
  0 ≤ sock t → bound t = true →
  dm_init dm_new (world r) (settings_ (ses r)) (opt_ (ses r)) = Ok (m, w, true, []) →
  step r t = Ok {| ses := with_stat (with_man (with_socket (ses r) (sock t)) (Some m))
                            State.ack_options;
                   world := w; loc := loc r; sent := sent r |}.
Proof.
  intros Hst He Hs Hb Hi. unfold step. rewrite Hst. unfold step_need_init, init.
  cbn [with_socket socket_ settings_ opt_]. rewrite (proj2 (Z.leb_le _ _)), Hb by done.
  cbn [andb]. rewrite Hi. cbn [mbind outcome_bind negb report foldl].
  change (was_error (with_man (with_socket (ses r) (sock t)) (Some m)))
    with (was_error (ses r)). rewrite He.
  by rewrite goto_allowed by (simpl; by rewrite Hst).
Qed.

Lemma step_trans r t r' :
  stat_ (ses r) ≠ State.finish → step r t = Ok r' →
  trans (opt_ (ses r)) (stat_ (ses r)) (stat_ (ses r')).
Proof.
  intros Hnf. unfold step. destruct (stat_ (ses r)) eqn:Hst; intros E; [..|done].
  - unfold step_need_init in E. apply bind_Ok in E as ([[s w] ok] & Hi & E).
    apply stat_init in Hi. simplify_eq/=.
    destruct ok; [destruct (was_error s)|]; rewrite stat_goto, Hi, Hst; auto with fw.
  - unfold step_error_and_stop in E. apply bind_Ok in E as ([[s b] out] & Hi & E).
    assert (stat_ s = stat_ (ses r)) as Hs.
    { destruct (was_error _); [|by simplify_eq].
      apply bind_Ok in Hi as ([s1 b1] & Hc & Hi). simplify_eq/=.
      by eapply stat_construct_error. }
    simplify_eq/=. rewrite stat_goto, Hs, Hst. auto with fw.
  - unfold step_ack_options in E. apply bind_Ok in E as ([b out] & _ & E).
    simplify_eq/=. destruct (request_type _) eqn:Hr; [|destruct (was_set_any _) eqn:Ha..];
      cbn [stat_ with_stage]; rewrite stat_goto; cbn [stat_ with_stage]; rewrite Hst;
      auto with fw.
  - unfold step_data_tx in E. apply bind_Ok in E as ([s b] & Hc & E).
    apply stat_construct_data in Hc. destruct (_ && _); [destruct (_ || _)|];
      simplify_eq/=; rewrite ?stat_goto, ?Hc, ?Hst; auto with fw.
  - unfold step_data_rx in E. apply bind_Ok in E as ([[[s w] b] res] & Hc & E).
    apply receive_evolves in Hc as [_ Hc]. destruct res; cbv zeta in E; inv_ok;
      simplify_eq/=; try (destruct (_ : bool)); rewrite ?stat_goto, ?Hc, ?Hst; auto with fw.
  - unfold step_ack_tx in E. apply bind_Ok in E as (b & _ & E). cbv zeta in E.
    destruct (last_blk_processed_ _); simplify_eq/=; rewrite stat_goto; simpl;
      rewrite Hst; auto with fw.
  - unfold step_ack_rx in E. apply bind_Ok in E as ([[[s w] b] res] & Hc & E).
    apply receive_evolves in Hc as [_ Hc]. destruct res; cbv zeta in E; inv_ok;
      simplify_eq/=; try (destruct (_ : bool)); rewrite ?stat_goto, ?Hc, ?Hst; auto with fw.
  - unfold step_retransmit in E. cbv zeta in E. destruct (_ <? _); simplify_eq/=.
    + rewrite stat_goto, Hst. auto with fw.
    + destruct (request_type _) eqn:Hr; rewrite stat_goto, Hst; auto with fw.
Qed.
End transitions.

(** ** Retransmissions *)

Section retransmit.
Context {W M : Type} `{DataMgr W M}.
Implicit Types (s : Session M) (w : W) (r : run_st W M).

(** How often an execution passes the state [retransmit]. *)
Fixpoint retransmits r (ts : list tick) : nat :=
  if is_finished (ses r) then 0%nat
  else match ts with
       | [] => 0%nat
       | t :: ts =>
           match step r t with
           | Ok r' =>
               ((if decide (stat_ (ses r) = State.retransmit) then 1 else 0)
                + retransmits r' ts)%nat
           | _ => 0%nat
           end
       end.

Lemma step_retr_count r t r' :
  step r t = Ok r' → stat_ (ses r) ≠ State.retransmit →
  retr_count (loc r') = retr_count (loc r).
Proof.
  unfold step. destruct (stat_ (ses r)); intros E Hn; try done.
  - unfold step_need_init in E. by apply bind_Ok in E as ([[s w] ok] & _ & [= <-]).
  - unfold step_error_and_stop in E.
    by apply bind_Ok in E as ([[s b] out] & _ & [= <-]).
  - unfold step_ack_options in E. by apply bind_Ok in E as ([b out] & _ & [= <-]).
  - unfold step_data_tx in E. apply bind_Ok in E as ([s b] & _ & E).
    destruct (_ && _); [destruct (_ || _)|]; by simplify_eq/=.
  - unfold step_data_rx in E. apply bind_Ok in E as ([[[s w] b] res] & _ & E).
    destruct res; cbv zeta in E; inv_ok; by simplify_eq/=.
  - unfold step_ack_tx in E. apply bind_Ok in E as (b & _ & E). cbv zeta in E.
    destruct (last_blk_processed_ _); by simplify_eq/=.
  - unfold step_ack_rx in E. apply bind_Ok in E as ([[[s w] b] res] & _ & E).
    destruct res; cbv zeta in E; inv_ok; by simplify_eq/=.
  - by simplify_eq.
Qed.

(** The counter never passes the limit by more than one, and then the session is
    about to end. *)
Definition retr_inv (limit : Z) r : Prop :=
  get_retransmit_count (settings_ (ses r)) = limit ∧
  (0 ≤ retr_count (loc r) ≤ limit ∨
   (retr_count (loc r) = limit + 1 ∧
    (stat_ (ses r) = State.error_and_stop ∨ stat_ (ses r) = State.finish))).

Lemma retr_inv_step limit r t r' :
  0 ≤ limit < 65535 → stat_ (ses r) ≠ State.finish → retr_inv limit r →
  step r t = Ok r' →
  retr_inv limit r' ∧
  retr_count (loc r') = retr_count (loc r)
    + (if decide (stat_ (ses r) = State.retransmit) then 1 else 0).
Proof.
  intros Hl Hnf (Hlim & Hc) E. pose proof (step_evolves _ _ _ E) as [(Hs & _) _].
  assert (Hlim' : get_retransmit_count (settings_ (ses r')) = limit) by (by rewrite Hs).
  case_decide as Hr.
  - destruct Hc as [Hc|[_ [|]]]; [|congruence..].
    unfold step in E. rewrite Hr in E. unfold step_retransmit in E. cbv zeta in E.
    cbn [retr_count] in E. rewrite Hlim in E. rewrite wrap_small in E by lia.
    destruct (limit <? _) eqn:El; reflect_bools; simplify_eq/=.
    + split; [|done]. split; [done|]. right. split; [simpl; lia|]. left. simpl.
      by rewrite stat_goto, Hr.
    + split; [|done]. split; [done|]. left. simpl. lia.
  - rewrite Z.add_0_r. pose proof (step_retr_count _ _ _ E Hr) as Hrc. split; [|done].
    split; [done|]. rewrite Hrc. destruct Hc as [|[? [He|]]]; [by left| |done].
    right. split; [done|]. right. pose proof (step_trans _ _ _ Hnf E) as Ht.
    rewrite He in Ht. inversion Ht. congruence.
Qed.

Lemma retransmits_le limit r ts :
  0 ≤ limit < 65535 → retr_inv limit r →
  Z.of_nat (retransmits r ts) ≤ limit + 1 - retr_count (loc r).
Proof.
  intros Hl. revert r. induction ts as [|t ts IH]; intros r Hr; cbn [retransmits].
  - assert (retr_count (loc r) ≤ limit + 1) by (destruct Hr as [_ [|[]]]; lia).
    destruct (is_finished _); simpl; lia.
  - assert (retr_count (loc r) ≤ limit + 1) by (destruct Hr as [_ [|[]]]; lia).
    unfold is_finished. case_bool_decide; [simpl; lia|].
    destruct (step r t) as [r'| |] eqn:E; [|simpl; lia..].
    apply (retr_inv_step limit) in E as [Hr' Hc]; auto.
    specialize (IH r' Hr'). case_decide; lia.
Qed.
End retransmit.

(** ** Properties *)

(** C15. The loop moves only along the transitions of [trans]. In particular
    [error_and_stop], the only state that sends an ERROR packet, is entered only
    from [need_init], [data_tx] and [retransmit]. *)
Theorem step_transition {W M} `{DataMgr W M} (r : run_st W M) t r' :
  stat_ (ses r) ≠ State.finish → step r t = Ok r' →
  trans (opt_ (ses r)) (stat_ (ses r)) (stat_ (ses r')) ∧
  (stat_ (ses r') = State.error_and_stop →
   stat_ (ses r) ∈ [State.need_init; State.data_tx; State.retransmit]).
Proof.
  intros Hnf E. pose proof (step_trans r t r' Hnf E) as Ht. split; [done|].
  intros He. rewrite He in Ht. inversion Ht; by_decide.
Qed.

(** A manager without any data, for states that do not use one. *)
Definition no_mgr : DataMgr unit unit := {|
  dm_new := tt;
  dm_active _ := false;
  dm_init m w _ _ := Ok (m, w, false, []);
  dm_write m w _ _ := Ok (m, w, -1, []);
  dm_read m _ rng _ := Ok (m, rng, -1, []);
  dm_close m w := Ok (m, w)
|}.

Definition quiet_tick : tick :=
  {| now := 1000; rx := RxAgain; tx := 0; sock := 5; bound := true |}.

Definition start_st (v : State.t) : run_st unit unit :=
  run_start (with_stat (Session_new None) v) tt.

(** The session without a request after one retransmission. *)
Definition stopping_st : run_st unit unit := {|
  ses := goto (ses (start_st State.retransmit)) State.error_and_stop;
  world := tt;
  loc := timeout_reset {| last_blk_processed_ := false; retr_count := 1;
           local_buf := new_default (Z.to_nat 0xFFFF); oper_time_ := 0 |} quiet_tick;
  sent := []
|}.

Lemma step_transition_witness :
  trans Options_default State.retransmit State.error_and_stop.
Proof.
  refine (proj1 (@step_transition _ _ no_mgr (start_st State.retransmit) quiet_tick
    stopping_st _ _)); [discriminate|reflexivity].
Defined.

(** C16. Along any execution the request, the peer and the settings of a session stay
    the same, the first error is kept, and what was sent is only added to. *)
Theorem session_frame {W M} `{DataMgr W M} (r r' : run_st W M) :
  rtc session_step r r' →
  opt_ (ses r') = opt_ (ses r) ∧ cl_addr_ (ses r') = cl_addr_ (ses r) ∧
  settings_ (ses r') = settings_ (ses r) ∧ sent r `prefix_of` sent r' ∧
  (was_error (ses r) = true →
   error_code_ (ses r') = error_code_ (ses r) ∧
   error_message_ (ses r') = error_message_ (ses r)).
Proof.
  intros Hr. assert (evolves (ses r) (ses r') ∧ sent r `prefix_of` sent r')
    as [(? & ? & ? & ? & ?) ?]; [|by split_and!].
  induction Hr as [|r1 r2 r3 [_ [t E]] _ [IH1 IH2]]; [done|].
  apply step_evolves in E as [??]. split; by etrans.
Qed.

Lemma session_frame_witness :
  opt_ (ses stopping_st) = opt_ (ses (start_st State.retransmit)) ∧
  sent (start_st State.retransmit) `prefix_of` sent stopping_st.
Proof.
  destruct (@session_frame _ _ no_mgr (start_st State.retransmit) stopping_st)
    as (H1 & _ & _ & H2 & _); [|split; [exact H1|exact H2]].
  apply rtc_once. split; [discriminate|]. exists quiet_tick. reflexivity.
Defined.

(** C14. A session passes the state [retransmit] at most [retransmit_count + 1] times,
    whatever the client and the clock do, for every setting below 65535. (The counter
    has 16 bits: with [--retransmit 65535] it never exceeds the limit, see
    [silent_client_forever].) *)
Theorem retransmits_bounded {W M} `{DataMgr W M} (s : Session M) (w : W) ts :
  0 ≤ get_retransmit_count (settings_ s) < 65535 →
  Z.of_nat (retransmits (run_start s w) ts) ≤ get_retransmit_count (settings_ s) + 1.
Proof.
  intros Hl. pose proof (retransmits_le (get_retransmit_count (settings_ s))
    (run_start s w) ts Hl) as Hr.
  cbn [run_start loc retr_count] in Hr. rewrite Z.sub_0_r in Hr. apply Hr.
  split; [done|]. left. simpl. lia.
Qed.

(** A failed reception ends a session without an ERROR packet: [switch_to] does not
    allow [error_and_stop] from the two receiving states and goes to [finish]. *)
Theorem receive_failure_silent {W M} `{DataMgr W M} (r : run_st W M) t s w b :
  stat_ (ses r) = State.data_rx ∨ stat_ (ses r) = State.ack_rx →
  receive_no_wait (ses r) (world r) (local_buf (loc r)) t
  = Ok (s, w, b, TripleResult.fail) →
  ∃ r', step r t = Ok r' ∧ stat_ (ses r') = State.finish ∧ sent r' = sent r.
Proof.
  intros Hst E. pose proof (receive_evolves _ _ _ _ _ _ _ _ E) as [_ Hs].
  unfold step, step_data_rx, step_ack_rx.
  destruct Hst as [Hst|Hst]; rewrite Hst, E; cbn [mbind outcome_bind]; eexists;
    (split; [done|]); cbn [ses sent]; by rewrite stat_goto, Hs, Hst.
Qed.

Lemma receive_failure_silent_witness :
  ∃ r', @step _ _ no_mgr (start_st State.ack_rx)
          {| now := 0; rx := RxError; tx := 0; sock := 5; bound := true |} = Ok r' ∧
        stat_ (ses r') = State.finish ∧ sent r' = [].
Proof.
  exact (@receive_failure_silent _ _ no_mgr (start_st State.ack_rx)
    {| now := 0; rx := RxError; tx := 0; sock := 5; bound := true |}
    (ses (start_st State.ack_rx)) tt (new_default (Z.to_nat 0xFFFF))
    (or_intror eq_refl) eq_refl).
Defined.

(** A datagram from another address changes neither the transfer nor the files:
    the session waits on (or finds that its time is up) and only the local
    buffer is overwritten. *)
Theorem foreign_packet_ignored {W M} `{DataMgr W M} (r : run_st W M) t d from :
  stat_ (ses r) = State.data_rx ∨ stat_ (ses r) = State.ack_rx →
  run_buf (local_buf (loc r)) → timeout (opt_ (ses r)) ≠ INT_MAX →
  rx t = RxPkt d from → eqb from (cl_addr_ (ses r)) = false →
  ∃ b, run_buf b ∧ step r t =
    Ok {| ses := if now t - oper_time_ (loc r) <? timeout (opt_ (ses r)) + 1
                 then ses r else with_stat (ses r) State.retransmit;
          world := world r; loc := with_buffer (loc r) b; sent := sent r |}.
Proof.
  intros Hst Hb Hto Hrx Hf.
  destruct (receive_packet (ses r) (world r) (local_buf (loc r)) t d from Hb Hrx)
    as (b & (Hb' & _) & E).
  rewrite Hf in E. cbn [negb] in E. exists b. split; [done|].
  unfold step, step_data_rx, step_ack_rx.
  destruct Hst as [Hst|Hst]; rewrite Hst, E; cbn [mbind outcome_bind];
    unfold timeout_pass; rewrite (proj2 (Z.eqb_neq _ _)) by done;
    cbn [mbind outcome_bind oper_time_ with_buffer]; unfold goto, switch_to;
    rewrite Hst; by destruct (_ <? _).
Qed.

Lemma foreign_packet_ignored_witness :
  ∃ b, run_buf b ∧
    @step _ _ no_mgr (start_st State.ack_rx)
      {| now := 5; rx := RxPkt (ack_packet 0) (set_port_u16 Addr_new 1); tx := 0;
         sock := 5; bound := true |}
    = Ok {| ses := ses (start_st State.ack_rx); world := tt;
            loc := with_buffer (loc (start_st State.ack_rx)) b; sent := [] |}.
Proof.
  exact (@foreign_packet_ignored _ _ no_mgr (start_st State.ack_rx)
    {| now := 5; rx := RxPkt (ack_packet 0) (set_port_u16 Addr_new 1); tx := 0;
       sock := 5; bound := true |} (ack_packet 0) (set_port_u16 Addr_new 1)
    (or_intror eq_refl) run_buf_new ltac:(discriminate) eq_refl eq_refl).
Defined.

(** A session whose socket cannot be opened or bound leaves the loop at once and
    then calls [close] through a null pointer. *)
Theorem run_without_socket {W M} `{DataMgr W M} (s : Session M) (w : W) t ts :
  stat_ s = State.need_init → file_man_ s = None →
  (sock t < 0 ∨ bound t = false) → run s w (t :: ts) = Undef.
Proof.
  intros Hst Hm Hs. unfold run.
  rewrite run_loop_cons by (cbn [run_start ses with_stage stat_]; by rewrite Hst).
  unfold step. change (stat_ (ses (run_start s w))) with (stat_ s). rewrite Hst.
  unfold step_need_init, init. cbn [run_start ses with_socket socket_].
  assert ((0 <=? sock t) && bound t = false) as ->.
  { destruct Hs as [Hs| ->]; [by rewrite (proj2 (Z.leb_gt _ _))|apply andb_false_r]. }
  cbn [mbind outcome_bind loc world sent]. set (s' := goto _ State.finish).
  assert (stat_ s' = State.finish) as Hf.
  { unfold s'. rewrite stat_goto. simpl. by rewrite Hst. }
  assert (file_man_ s' = None) as Hn.
  { unfold s', goto, switch_to. by destruct (_ || _). }
  rewrite run_loop_finished by done. cbn [mbind outcome_bind ses]. unfold is_finished.
  rewrite bool_decide_true by done. unfold run_end. cbn [ses]. by rewrite Hn.
Qed.

Lemma run_without_socket_witness :
  @run _ _ no_mgr (Session_new None) tt
    [{| now := 0; rx := RxAgain; tx := 0; sock := -1; bound := false |}] = Undef.
Proof.
  apply (@run_without_socket _ _ no_mgr (Session_new None) tt);
    [reflexivity|reflexivity|left; reflexivity].
Defined.
