(* ===== verification/SessionRead.v ===== *)
(** * SessionRead: a read request delivers the file

    The execution of [run] of [tftpSession.cpp] for a read request with a window
    of one block and a client that acknowledges every block: what is sent are
    the blocks of the file in order, and the session ends after the last one.
    Between a block and its acknowledgement any number of other datagrams and
    empty polls may come. The data manager is any that keeps [DataMgrLaws]. *)

From Stdlib Require Import Strings.Byte.
From S2P Require Import Prelude Common SmBuf Options Regex Addr Settings Base.
From S2P Require Import FileSys DataMgr DataMgrFile SmBufEx Session SessionPackets SessionSafety.

(** ** The blocks of a file *)

Definition block (d : bytes) (bs k : Z) : bytes := slice d ((k - 1) * bs) bs.

(** The last block is the first that is not full. *)
Definition block_count (d : bytes) (bs : Z) : nat := Z.to_nat (size d / bs + 1).

Definition blocks (d : bytes) (bs k : Z) (n : nat) : list bytes :=
  map (λ i : nat, block d bs (k + Z.of_nat i)) (seq 0 n).

Definition data_packets (d : bytes) (bs k : Z) (n : nat) : list bytes :=
  map (λ i : nat, data_packet (k + Z.of_nat i) (block d bs (k + Z.of_nat i))) (seq 0 n).

Lemma slice_add d off n k :
  0 ≤ off → 0 ≤ n → 0 ≤ k → slice d off (n + k) = slice d off n ++ slice d (off + n) k.
Proof.
  intros. unfold slice. rewrite !Z2Nat.inj_add by lia.
  rewrite <-drop_drop, <-take_take_drop. done.
Qed.

Lemma blocks_concat d bs k n :
  0 ≤ bs → 1 ≤ k → concat (blocks d bs k n) = slice d ((k - 1) * bs) (Z.of_nat n * bs).
Proof.
  intros Hbs Hk. induction n as [|n IH]; [done|].
  unfold blocks in *. rewrite seq_S, map_app, concat_app, IH. cbn [map concat].
  rewrite app_nil_r. replace (Z.of_nat (S n) * bs) with (Z.of_nat n * bs + bs) by lia.
  rewrite slice_add by nia. f_equal. unfold block. f_equal. lia.
Qed.

Lemma blocks_all d bs :
  0 < bs → concat (blocks d bs 1 (block_count d bs)) = d.
Proof.
  intros Hbs. rewrite blocks_concat by lia. unfold slice, block_count.
  pose proof (size_nonneg d). pose proof (Z.div_pos (size d) bs ltac:(lia) Hbs).
  pose proof (Z.mul_succ_div_gt (size d) bs Hbs). unfold size in *.
  rewrite Z2Nat.id by lia. rewrite take_ge; [done|]. rewrite length_drop. nia.
Qed.

(** ** Schedules *)

(** Something that is not a packet with opcode [op] of the client, in time. *)
Definition noise (op : Z) (o : Options) (cl : Addr) (t0 : Z) (t : tick) : Prop :=
  now t - t0 < timeout o + 1 ∧
  (rx t = RxAgain ∨
   ∃ d from, rx t = RxPkt d from ∧
             (eqb from cl = false ∨ rx_op_of (delivered d) ≠ op)).

(** Sending a packet, waiting, and the acknowledgement of block [k]. *)
Record exchange := { ex_send : tick; ex_noise : list tick; ex_ack : tick }.

Definition ex_ticks (e : exchange) : list tick := ex_send e :: ex_noise e ++ [ex_ack e].

Definition acked (cl : Addr) (k : Z) (t : tick) : Prop :=
  ∃ from, rx t = RxPkt (ack_packet k) from ∧ eqb from cl = true.

Definition exchange_ok (o : Options) (cl : Addr) (k : Z) (e : exchange) : Prop :=
  Forall (noise 4 o cl (now (ex_send e))) (ex_noise e) ∧ acked cl k (ex_ack e).

(** The exchanges of the blocks from [k] on. *)
Fixpoint exchanges_ok (o : Options) (cl : Addr) (k : Z) (es : list exchange) : Prop :=
  match es with
  | [] => True
  | e :: es => exchange_ok o cl k e ∧ exchanges_ok o cl (k + 1) es
  end.

Section read.
Context {W M : Type} `{DataMgrLaws W M}.
Implicit Types (s : Session M) (w : W) (r : run_st W M).

(** [r'] is [r] with another packet in the buffer. *)
Definition same_but_buffer r r' : Prop :=
  ∃ b, run_buf b ∧ r' = {| ses := ses r; world := world r;
                           loc := with_buffer (loc r) b; sent := sent r |}.

(** The receiving states and the opcode each waits for. *)
Definition waits_for r (op : Z) : Prop :=
  (stat_ (ses r) = State.ack_rx ∧ op = 4) ∨ (stat_ (ses r) = State.data_rx ∧ op = 3).

Lemma wait_noise r op t :
  waits_for r op → run_buf (local_buf (loc r)) → timeout (opt_ (ses r)) ≠ INT_MAX →
  noise op (opt_ (ses r)) (cl_addr_ (ses r)) (oper_time_ (loc r)) t →
  ∃ r', step r t = Ok r' ∧ same_but_buffer r r'.
Proof.
  intros Hst Hb Hto [Htime Hrx]. unfold step, step_ack_rx, step_data_rx.
  assert (∃ b, run_buf b ∧ receive_no_wait (ses r) (world r) (local_buf (loc r)) t
    = Ok (ses r, world r, b, TripleResult.nop)) as (b & Hb' & E).
  { destruct Hrx as [Hrx|(d & from & Hrx & Hd)].
    - exists (local_buf (loc r)). split; [done|]. unfold receive_no_wait. by rewrite Hrx.
    - destruct (receive_packet (ses r) (world r) (local_buf (loc r)) t d from Hb Hrx)
        as (b & (Hb' & _) & E). exists b. split; [done|]. rewrite E.
      destruct (eqb from _) eqn:Ef; [|done]. destruct Hd as [|Hd]; [done|].
      destruct Hst as [[-> ->]|[-> ->]]; cbn [negb];
        rewrite (proj2 (Z.eqb_neq _ _) Hd); cbn [andb].
      + rewrite (bool_decide_false (State.ack_rx = State.data_rx)) by done.
        by rewrite andb_false_r.
      + rewrite (bool_decide_false (State.data_rx = State.ack_rx)) by done.
        by rewrite andb_false_r. }
  exists {| ses := ses r; world := world r; loc := with_buffer (loc r) b; sent := sent r |}.
  split; [|by exists b].
  destruct Hst as [[-> _]|[-> _]]; rewrite E; cbn [mbind outcome_bind];
    unfold timeout_pass; rewrite (proj2 (Z.eqb_neq _ _)) by done;
    cbn [mbind outcome_bind oper_time_ with_buffer];
    by rewrite (proj2 (Z.ltb_lt _ _)) by done.
Qed.

Lemma wait_noises r op ts :
  waits_for r op → run_buf (local_buf (loc r)) → timeout (opt_ (ses r)) ≠ INT_MAX →
  Forall (noise op (opt_ (ses r)) (cl_addr_ (ses r)) (oper_time_ (loc r))) ts →
  ∃ r', run_loop r ts = Ok r' ∧ same_but_buffer r r'.
Proof.
  intros Hst Hb Hto Hts. revert r Hst Hb Hto Hts.
  induction ts as [|t ts IH]; intros r Hst Hb Hto Hts.
  - exists r. split; [cbn [run_loop]; by destruct (is_finished _)|].
    exists (local_buf (loc r)). split; [done|]. by destruct r as [? ? [] ?].
  - apply Forall_cons_iff in Hts as [Ht Hts].
    destruct (wait_noise r op t Hst Hb Hto Ht) as (r1 & E1 & b1 & Hb1 & ->).
    rewrite run_loop_cons by (destruct Hst as [[-> _]|[-> _]]; done).
    rewrite E1. cbn [mbind outcome_bind].
    destruct (IH {| ses := ses r; world := world r; loc := with_buffer (loc r) b1;
                    sent := sent r |}) as (r' & E & b & Hb' & ->); try done.
    eexists. split; [exact E|]. by exists b.
Qed.

Lemma blk_num_local_mod s : blk_num_local s = stage_ s `mod` 2 ^ 16.
Proof. unfold blk_num_local. change 0xFFFF with (Z.ones 16). by apply Z.land_ones. Qed.

(** The acknowledgement of the current block. *)
Lemma ack_rx_acked r t :
  stat_ (ses r) = State.ack_rx → run_buf (local_buf (loc r)) →
  0 ≤ stage_ (ses r) < 2 ^ 63 - 1 → acked (cl_addr_ (ses r)) (stage_ (ses r)) t →
  ∃ b, run_buf b ∧ step r t = Ok
    (if last_blk_processed_ (loc r)
     then {| ses := with_stat (ses r) State.finish; world := world r;
             loc := with_buffer (loc r) b; sent := sent r |}
     else {| ses := with_stage (with_stat (ses r) State.data_tx) (stage_ (ses r) + 1);
             world := world r; loc := timeout_reset (with_buffer (loc r) b) t;
             sent := sent r |}).
Proof.
  intros Hst Hb Hstage (from & Hrx & Hf).
  destruct (receive_packet (ses r) (world r) (local_buf (loc r)) t _ from Hb Hrx)
    as (b & (Hb' & _) & E).
  pose proof (Z.mod_pos_bound (stage_ (ses r)) (2 ^ 16) ltac:(lia)) as Hmod.
  assert (Hpk : ack_packet (stage_ (ses r)) = ack_packet (stage_ (ses r) `mod` 2 ^ 16)).
  { unfold ack_packet. f_equal. symmetry. apply (be_split_wrap 2). }
  rewrite delivered_id in E by (rewrite size_ack; lia). rewrite Hpk in E.
  destruct (ack_packet_fields (stage_ (ses r) `mod` 2 ^ 16) Hmod) as [Eop Eblk].
  rewrite Eop, Eblk, Hf, Hst in E. cbn [negb andb Z.eqb Pos.eqb] in E.
  rewrite bool_decide_true in E by done.
  unfold receive_ack, stage_in_range, rx_stage, sync_stage in E.
  rewrite blk_num_local_mod, Z.eqb_refl, (swrap_small 64 (stage_ (ses r))) in E by lia.
  rewrite (wrap_small 64), (swrap_small 64 (stage_ (ses r) + 1)) in E by lia.
  rewrite (proj2 (Z.leb_le 0 _)) in E by lia.
  rewrite (proj2 (Z.leb_le _ (stage_ (ses r) + 1))) in E by lia. cbn [andb negb] in E.
  exists b. split; [done|]. unfold step. rewrite Hst. unfold step_ack_rx. rewrite E.
  cbn [mbind outcome_bind last_blk_processed_ with_buffer].
  rewrite !goto_allowed by (by rewrite Hst). destruct (last_blk_processed_ _); [done|].
  cbn [stage_ with_stat]. by rewrite (wrap_small 64 (stage_ (ses r) + 1)) by lia.
Qed.

(** The parameters of the transfer: block size within the buffer, a window of one
    block, a timeout that can be added to. *)
Definition transfer_params s : Prop :=
  0 < block_size s ≤ 65531 ∧ Session_windowsize s = 1 ∧ timeout (opt_ s) ≠ INT_MAX.

(** About to send block [k] of [d]. *)
Definition sending (d : bytes) (k : Z) r : Prop :=
  stat_ (ses r) = State.data_tx ∧ stage_ (ses r) = k ∧ was_error (ses r) = false ∧
  run_buf (local_buf (loc r)) ∧
  ∃ m, file_man_ (ses r) = Some m ∧ reading m (world r) d.

Lemma data_tx_sends r t d k :
  transfer_params (ses r) → sending d k r → size d < 2 ^ 63 →
  1 ≤ k < 2 ^ 63 → (k - 1) * block_size (ses r) ≤ size d →
  ∃ m b, run_buf b ∧
    step r t = Ok
      {| ses := with_stat (with_man (ses r) (Some m)) State.ack_rx; world := world r;
         loc := timeout_reset (with_last (with_buffer (loc r) b)
                  (negb (k * block_size (ses r) <=? size d))) t;
         sent := sent r ++ [data_packet k (block d (block_size (ses r)) k)] |} ∧
    (k * block_size (ses r) ≤ size d → reading m (world r) d).
Proof.
  intros (Hbs & Hwin & Hto) (Hst & <- & He & Hb & m & Hm & Hr) Hd Hk Hpos.
  set (bs := block_size (ses r)) in *. set (k := stage_ (ses r)) in *.
  destruct (construct_data_packet (ses r) (world r) (local_buf (loc r)) m d)
    as (m' & b & E & Hb' & Hp & Hds & Hr'); auto; [lia|]. fold bs k in Hp, Hds, Hr'.
  exists m', b. split; [done|]. split; [|intros; apply Hr'; lia].
  unfold step. rewrite Hst. unfold step_data_tx. rewrite E. cbn [mbind outcome_bind].
  change (was_error (with_man (ses r) (Some m'))) with (was_error (ses r)). rewrite He.
  rewrite (proj2 (Z.ltb_lt 0 (data_size b))) by lia. cbn [negb andb].
  unfold transmit_no_wait. rewrite (proj2 (Z.ltb_lt 0 (data_size b))) by lia.
  assert (Hwc : is_window_close (with_man (ses r) (Some m')) (stage_ (with_man (ses r) (Some m')))
    = true).
  { unfold is_window_close.
    change (Session_windowsize (with_man (ses r) (Some m'))) with (Session_windowsize (ses r)).
    by rewrite Hwin, Z.mod_1_r. }
  rewrite Hwc. cbn [orb fst]. rewrite goto_allowed by (simpl; by rewrite Hst).
  rewrite Hp. do 3 f_equal. unfold is_last.
  change (block_size (with_man (ses r) (Some m'))) with bs.
  replace (data_size b =? bs + 4) with (k * bs <=? size d); [done|].
  rewrite Hds. destruct (_ <=? _) eqn:El; reflect_bools; symmetry;
    [apply Z.eqb_eq|apply Z.eqb_neq]; lia.
Qed.

(** One block and its acknowledgement: the next block, or the end. *)
Lemma exchange_runs r e d k :
  transfer_params (ses r) → sending d k r → size d < 2 ^ 63 →
  1 ≤ k < 2 ^ 63 - 1 → (k - 1) * block_size (ses r) ≤ size d →
  exchange_ok (opt_ (ses r)) (cl_addr_ (ses r)) k e →
  ∃ r', run_loop r (ex_ticks e) = Ok r' ∧
    opt_ (ses r') = opt_ (ses r) ∧ cl_addr_ (ses r') = cl_addr_ (ses r) ∧
    was_error (ses r') = false ∧ world r' = world r ∧
    sent r' = sent r ++ [data_packet k (block d (block_size (ses r)) k)] ∧
    (if k * block_size (ses r) <=? size d then sending d (k + 1) r'
     else stat_ (ses r') = State.finish).
Proof.
  intros Hpar Hs Hd Hk Hpos [Hnoise Hack]. pose proof Hs as (Hst & Hstage & He & _).
  destruct (data_tx_sends r (ex_send e) d k) as (m & b & Hb & E & Hr); auto; [lia|].
  unfold ex_ticks. rewrite run_loop_cons by (by rewrite Hst). rewrite E.
  cbn [mbind outcome_bind].
  set (r1 := {| ses := _; world := _; loc := _; sent := _ |}).
  destruct (wait_noises r1 4 (ex_noise e)) as (r2 & E2 & b2 & Hb2 & ->);
    [by left|done|apply Hpar|done|].
  rewrite (run_loop_app _ _ _ _ E2).
  set (r2 := {| ses := ses r1; world := _; loc := _; sent := _ |}).
  destruct (ack_rx_acked r2 (ex_ack e)) as (b3 & Hb3 & E3); try done.
  { cbn [r2 r1 ses stage_ with_stat with_man]. lia. }
  { cbn [r2 r1 ses stage_ with_stat with_man cl_addr_]. by rewrite Hstage. }
  rewrite run_loop_cons by done. rewrite E3. cbn [mbind outcome_bind].
  cbn [r2 r1 loc with_buffer timeout_reset with_last last_blk_processed_].
  eexists. split; [cbn [run_loop]; by destruct (is_finished _)|].
  destruct (_ <=? size d) eqn:El; reflect_bools; cbn [negb]; split_and!; try done.
  cbn. rewrite Hstage. split_and!; try done. exists m. auto.
Qed.

(** All remaining blocks. *)
Lemma exchanges_run es r d k :
  transfer_params (ses r) → sending d k r → size d < 2 ^ 62 →
  1 ≤ k → (k - 1) * block_size (ses r) ≤ size d →
  Z.of_nat (length es) = size d / block_size (ses r) + 2 - k →
  exchanges_ok (opt_ (ses r)) (cl_addr_ (ses r)) k es →
  ∃ r', run_loop r (concat (map ex_ticks es)) = Ok r' ∧
    stat_ (ses r') = State.finish ∧ was_error (ses r') = false ∧ world r' = world r ∧
    sent r' = sent r ++ data_packets d (block_size (ses r)) k (length es).
Proof.
  revert r k. induction es as [|e es IH]; intros r k Hpar Hs Hd Hk Hpos Hn Hes.
  all: pose proof Hpar as ((Hbs & _) & _); set (bs := block_size (ses r)) in *.
  { simpl in Hn. assert (k - 1 ≤ size d / bs) by (apply Z.div_le_lower_bound; nia). lia. }
  destruct Hes as [He Hes]. pose proof (size_nonneg d). assert (size d < 2 ^ 63 - 1) by lia.
  assert (k < 2 ^ 63 - 1).
  { assert (k - 1 ≤ size d / bs) by (apply Z.div_le_lower_bound; nia).
    assert (size d / bs ≤ size d) by (apply Z.div_le_upper_bound; nia). lia. }
  destruct (exchange_runs r e d k) as (r1 & E1 & Ho & Hcl & Her & Hw & Hsent & Hcase);
    [done|done|lia|lia|done|done|]. cbn [map concat]. rewrite (run_loop_app _ _ _ _ E1).
  assert (Hbs1 : block_size (ses r1) = bs) by (unfold bs, block_size; by rewrite Ho).
  assert (Hdp : data_packets d bs k (S (length es))
    = data_packet k (block d bs k) :: data_packets d bs (k + 1) (length es)).
  { unfold data_packets. cbn [seq map]. rewrite Z.add_0_r. f_equal.
    rewrite <-seq_shift, List.map_map. apply List.map_ext. intros i.
    by replace (k + Z.of_nat (S i)) with (k + 1 + Z.of_nat i) by lia. }
  fold bs in Hcase. destruct (k * bs <=? size d) eqn:El; reflect_bools.
  - destruct (IH r1 (k + 1)) as (r' & E & Hf & He' & Hw' & Hs'); auto.
    + unfold transfer_params, Session_windowsize. rewrite Hbs1, Ho. exact Hpar.
    + lia.
    + rewrite Hbs1. nia.
    + rewrite Hbs1. simpl in Hn. lia.
    + by rewrite Ho, Hcl.
    + exists r'. split_and!; auto; [congruence|]. rewrite Hs', Hsent, Hbs1.
      cbn [length]. fold bs. by rewrite Hdp, <-app_assoc.
  - assert (size d / bs < k) by (apply Z.div_lt_upper_bound; nia).
    destruct es; [|simpl in Hn; lia]. exists r1. split_and!; auto.
    + by rewrite run_loop_finished.
    + rewrite Hsent. cbn [length] in *. by rewrite Hdp.
Qed.

(** *** The opening: the request is confirmed when it has options *)

Definition opening_ok (o : Options) (cl : Addr) (ts : list tick) : Prop :=
  if was_set_any o then ∃ e, ts = ex_ticks e ∧ exchange_ok o cl 0 e
  else ∃ t, ts = [t].

Lemma opening_runs r ts d m :
  stat_ (ses r) = State.ack_options → was_error (ses r) = false →
  request_type (opt_ (ses r)) = SrvReq.read → opts_wf (opt_ (ses r)) →
  transfer_params (ses r) → run_buf (local_buf (loc r)) →
  last_blk_processed_ (loc r) = false →
  file_man_ (ses r) = Some m → reading m (world r) d →
  opening_ok (opt_ (ses r)) (cl_addr_ (ses r)) ts →
  ∃ r', run_loop r ts = Ok r' ∧ sending d 1 r' ∧
    opt_ (ses r') = opt_ (ses r) ∧ cl_addr_ (ses r') = cl_addr_ (ses r) ∧
    world r' = world r ∧
    sent r' = sent r ++ (if was_set_any (opt_ (ses r))
                         then [oack_packet (opt_ (ses r))] else []).
Proof.
  intros Hst He Hrq Ho Hpar Hb Hlast Hm Hr. unfold opening_ok.
  destruct (was_set_any _) eqn:Hany.
  - intros (e & -> & Hnoise & Hack). unfold ex_ticks.
    destruct (construct_opt_reply_packet (ses r) (local_buf (loc r)) Hb Ho Hany)
      as (b & E & Hb' & Hp & Hd).
    rewrite run_loop_cons by (by rewrite Hst). unfold step at 1. rewrite Hst.
    unfold step_ack_options. rewrite Hany, Hrq, E. cbn [mbind outcome_bind].
    unfold transmit_no_wait. rewrite (proj2 (Z.ltb_lt 0 (data_size b))) by done.
    cbn [fst].
    rewrite Hp, goto_allowed by (by rewrite Hst).
    set (r1 := {| ses := _; world := _; loc := _; sent := _ |}).
    destruct (wait_noises r1 4 (ex_noise e)) as (r2 & E2 & b2 & Hb2 & ->);
      [by left|done|apply Hpar|done|].
    rewrite (run_loop_app _ _ _ _ E2).
    set (r2 := {| ses := ses r1; world := _; loc := _; sent := _ |}).
    destruct (ack_rx_acked r2 (ex_ack e)) as (b3 & Hb3 & E3); try done.
    rewrite run_loop_cons by done. rewrite E3. cbn [mbind outcome_bind].
    cbn [r2 r1 loc with_buffer timeout_reset last_blk_processed_]. rewrite Hlast.
    eexists. split; [cbn [run_loop]; by destruct (is_finished _)|].
    split_and!; try done. split_and!; try done. by exists m.
  - intros (t & ->). rewrite run_loop_cons by (by rewrite Hst). unfold step at 1.
    rewrite Hst. unfold step_ack_options. rewrite Hany, Hrq. cbn [mbind outcome_bind].
    rewrite goto_allowed by (by rewrite Hst).
    eexists. split; [cbn [run_loop]; by destruct (is_finished _)|].
    split_and!; try done. split_and!; try done. by exists m.
Qed.
End read.

(** ** Properties *)

(** A whole read transfer in lock step: with a client that acknowledges every
    block in time, amid any other datagrams, the session confirms the options
    when there are some, sends the DATA packets 1, 2, ... with the consecutive
    blocks of the file, ends without an error after the first block that is not
    full, and the blocks put together are the file. *)
Theorem read_transfer {W M} `{DataMgrLaws W M} (s : Session M) (w : W) m d t0 ts es :
  stat_ s = State.need_init → was_error s = false →
  request_type (opt_ s) = SrvReq.read → opts_wf (opt_ s) → transfer_params s →
  0 ≤ sock t0 → bound t0 = true →
  dm_init dm_new w (settings_ s) (opt_ s) = Ok (m, w, true, []) →
  reading m w d → size d < 2 ^ 62 →
  opening_ok (opt_ s) (cl_addr_ s) ts →
  length es = block_count d (block_size s) →
  exchanges_ok (opt_ s) (cl_addr_ s) 1 es →
  ∃ r, run_loop (run_start s w) (t0 :: ts ++ concat (map ex_ticks es)) = Ok r ∧
    stat_ (ses r) = State.finish ∧ was_error (ses r) = false ∧ world r = w ∧
    sent r = (if was_set_any (opt_ s) then [oack_packet (opt_ s)] else [])
             ++ data_packets d (block_size s) 1 (block_count d (block_size s)) ∧
    concat (blocks d (block_size s) 1 (block_count d (block_size s))) = d.
Proof.
  intros Hst He Hrq Ho Hpar Hsock Hbound Hi Hr Hd Hts Hes Hex.
  pose proof Hpar as ((Hbs & _) & _). pose proof (size_nonneg d).
  rewrite run_loop_cons by (cbn [run_start ses with_stage stat_]; by rewrite Hst).
  rewrite (need_init_done (run_start s w) t0 m w) by done. cbn [mbind outcome_bind].
  set (r1 := {| ses := _; world := _; loc := _; sent := _ |}).
  destruct (opening_runs r1 ts d m) as (r2 & E2 & Hs2 & Ho2 & Hcl2 & Hw2 & Hsent2);
    [reflexivity|exact He|exact Hrq|exact Ho|exact Hpar|apply run_buf_new|reflexivity|
     reflexivity|exact Hr|exact Hts|].
  rewrite (run_loop_app _ _ _ _ E2).
  change (opt_ (ses r1)) with (opt_ s) in Ho2, Hsent2.
  change (cl_addr_ (ses r1)) with (cl_addr_ s) in Hcl2.
  assert (Hbs2 : block_size (ses r2) = block_size s) by (unfold block_size; by rewrite Ho2).
  destruct (exchanges_run es r2 d 1) as (r & E & Hf & He' & Hw & Hsent); try done.
  - unfold transfer_params, Session_windowsize. by rewrite Hbs2, Ho2.
  - rewrite Hbs2, Hes. unfold block_count.
    pose proof (Z.div_pos (size d) (block_size s) ltac:(lia) Hbs). lia.
  - by rewrite Ho2, Hcl2.
  - exists r. split_and!; try done; [by rewrite Hw, Hw2| |by apply blocks_all].
    rewrite Hsent, Hsent2, Hbs2, Hes. done.
Qed.

(** *** A concrete transfer *)

Definition demo_client : Addr := set_port_u16 (set_family Addr_new AF_INET) 3000.

(** A session that serves [opt] on the demonstration files. *)
Definition demo_session (opt : Options) : Session DataMgrFile :=
  with_request_ (Session_new (Some demo_settings)) Addr_new demo_client opt.

Definition demo_read_opt : Options :=
  set_option (demo_opt SrvReq.read (str "fw.bin")) name_blksize 8.

Definition demo_tick (v : recv_result) : tick :=
  {| now := 100; rx := v; tx := 0; sock := 5; bound := true |}.

(** Block [k] is acknowledged after an empty poll and an intruder's datagram. *)
Definition demo_exchange (k : Z) : exchange := {|
  ex_send := demo_tick RxAgain;
  ex_noise := [demo_tick RxAgain; demo_tick (RxPkt (ack_packet 9) Addr_new)];
  ex_ack := demo_tick (RxPkt (ack_packet k) demo_client)
|}.

#[export] Instance demo_mgr : DataMgr MemFs DataMgrFile :=
  DataMgrFile_mgr (λ _, None) (λ _, None).

#[export] Instance demo_laws : DataMgrLaws MemFs DataMgrFile :=
  DataMgrFile_laws (λ _, None) (λ _, None).

Definition demo_reader (opt : Options) : DataMgrFile :=
  match dm_init dm_new demo_fs demo_settings opt with
  | Ok (m, _, _, _) => m
  | _ => DataMgrFile_new
  end.

Lemma demo_exchange_ok (o : Options) k :
  timeout o = 10 → exchange_ok o demo_client k (demo_exchange k).
Proof.
  intros Ht. split.
  - constructor; [|constructor; [|constructor]]; (split; [rewrite Ht; reflexivity|]).
    + left. reflexivity.
    + right. eexists _, _. split; [reflexivity|]. left. vm_compute. reflexivity.
  - eexists. split; [reflexivity|]. vm_compute. reflexivity.
Qed.

Lemma read_transfer_witness :
  ∃ r, run_loop (run_start (demo_session demo_read_opt) demo_fs)
         (demo_tick RxAgain :: ex_ticks (demo_exchange 0)
            ++ concat (map ex_ticks [demo_exchange 1; demo_exchange 2])) = Ok r ∧
       stat_ (ses r) = State.finish ∧
       sent r = [oack_packet demo_read_opt; data_packet 1 (str "firmware");
                 data_packet 2 (str " image")].
Proof.
  destruct (read_transfer (demo_session demo_read_opt) demo_fs (demo_reader demo_read_opt)
    demo_file (demo_tick RxAgain) (ex_ticks (demo_exchange 0))
    [demo_exchange 1; demo_exchange 2]) as (r & E & Hf & _ & _ & Hs & _).
  - reflexivity.
  - reflexivity.
  - reflexivity.
  - split_and!; vm_compute; discriminate.
  - split_and!; vm_compute; (reflexivity || discriminate).
  - vm_compute. discriminate.
  - reflexivity.
  - vm_compute. reflexivity.
  - split_and!; vm_compute; reflexivity.
  - vm_compute. reflexivity.
  - exists (demo_exchange 0). split; [reflexivity|].
    apply demo_exchange_ok. reflexivity.
  - vm_compute. reflexivity.
  - split; [|split; [|exact I]]; apply demo_exchange_ok; reflexivity.
  - exists r. split; [exact E|]. split; [exact Hf|]. rewrite Hs.
    vm_compute. reflexivity.
Defined.

(** ** Executions that go wrong *)

Definition at_time (n : Z) (v : recv_result) : tick :=
  {| now := n; rx := v; tx := 0; sock := 5; bound := true |}.

(** The datagrams of an execution. *)
Definition sent_by {W M} `{DataMgr W M} (s : Session M) (w : W) (ts : list tick)
    : list bytes :=
  match run_loop (run_start s w) ts with Ok r => sent r | _ => [] end.

(** A late acknowledgement of the OACK: after the timeout the session is in
    [data_tx] with [stage_] 0 and asks for the block before the file. The seek to
    a negative position fails the stream, DATA 0 is sent from the old content of
    the buffer, and when the acknowledgement arrives DATA 1 is still not the
    first block of the file, although nothing reported an error. *)
Theorem late_ack_corrupts :
  sent_by (demo_session demo_read_opt) demo_fs
    [at_time 100 RxAgain; at_time 100 RxAgain; at_time 200 RxAgain; at_time 200 RxAgain;
     at_time 200 RxAgain; at_time 201 (RxPkt (ack_packet 0) demo_client);
     at_time 201 RxAgain]
  = [oack_packet demo_read_opt;
     data_packet 0 (drop 4 (oack_packet demo_read_opt));
     data_packet 1 (drop 4 (oack_packet demo_read_opt))].
Proof. vm_compute. reflexivity. Qed.

(** Retransmission of the last block after a datagram of an intruder: the stream
    is at the end of the file and reads nothing, so the octets the intruder left
    in the buffer go out as block 1 of the file. *)
Theorem last_block_injection :
  sent_by (demo_session (demo_opt SrvReq.read (str "fw.bin"))) demo_fs
    [at_time 100 RxAgain; at_time 100 RxAgain; at_time 100 RxAgain;
     at_time 100 (RxPkt (str "0000attack payload") Addr_new);
     at_time 200 RxAgain; at_time 200 RxAgain; at_time 200 RxAgain]
  = [data_packet 1 demo_file; data_packet 1 (str "attack payload")].
Proof. vm_compute. reflexivity. Qed.

Section window.
Context {W M : Type} `{DataMgrLaws W M}.

(** Inside a window the session repeats its block. *)
Lemma window_step (r : run_st W M) t d k :
  0 < block_size (ses r) ≤ 65531 → sending d k r → size d < 2 ^ 63 →
  1 ≤ k < 2 ^ 63 → k * block_size (ses r) ≤ size d →
  k `mod` Session_windowsize (ses r) ≠ 0 →
  ∃ m b, run_buf b ∧ reading m (world r) d ∧
    step r t = Ok
      {| ses := with_man (ses r) (Some m); world := world r;
         loc := with_last (with_buffer (loc r) b) false;
         sent := sent r ++ [data_packet k (block d (block_size (ses r)) k)] |}.
Proof.
  intros Hbs (Hst & <- & He & Hb & m & Hm & Hr) Hd Hk Hpos Hwin.
  set (bs := block_size (ses r)) in *. set (k := stage_ (ses r)) in *.
  destruct (construct_data_packet (ses r) (world r) (local_buf (loc r)) m d)
    as (m' & b & E & Hb' & Hp & Hds & Hr'); auto; [lia|fold k bs; lia|].
  fold bs k in Hp, Hds, Hr'.
  exists m', b. split; [done|]. split; [apply Hr'; lia|].
  unfold step. rewrite Hst. unfold step_data_tx. rewrite E. cbn [mbind outcome_bind].
  change (was_error (with_man (ses r) (Some m'))) with (was_error (ses r)). rewrite He.
  unfold transmit_no_wait. rewrite (proj2 (Z.ltb_lt 0 (data_size b))) by lia.
  cbn [negb andb fst].
  assert (Hl : is_last (with_man (ses r) (Some m')) b = false).
  { unfold is_last. change (block_size (with_man (ses r) (Some m'))) with bs.
    rewrite (proj2 (Z.eqb_eq _ _)) by lia. done. }
  assert (Hwc : is_window_close (with_man (ses r) (Some m'))
                  (stage_ (with_man (ses r) (Some m'))) = false).
  { unfold is_window_close. change (stage_ (with_man (ses r) (Some m'))) with k.
    change (Session_windowsize (with_man (ses r) (Some m')))
      with (Session_windowsize (ses r)). by apply Z.eqb_neq. }
  rewrite Hl, Hwc. cbn [orb last_blk_processed_ with_last]. by rewrite Hp.
Qed.
End window.

(** With a window of several blocks a read request gets no further than its first
    block: [stage_] is not increased inside a window, so the session sends the
    same full block in every iteration, for ever, and never waits for the
    client. *)
Theorem window_livelock {W M} `{DataMgrLaws W M} (r : run_st W M) ts d k :
  0 < block_size (ses r) ≤ 65531 → sending d k r → size d < 2 ^ 63 →
  1 ≤ k < 2 ^ 63 → k * block_size (ses r) ≤ size d →
  k `mod` Session_windowsize (ses r) ≠ 0 →
  ∃ r', run_loop r ts = Ok r' ∧ sending d k r' ∧
    sent r' = sent r ++ replicate (length ts)
                          (data_packet k (block d (block_size (ses r)) k)).
Proof.
  intros Hbs Hs Hd Hk Hpos Hwin. revert r Hbs Hs Hpos Hwin.
  induction ts as [|t ts IH]; intros r Hbs Hs Hpos Hwin.
  - exists r. split; [cbn [run_loop]; by destruct (is_finished _)|].
    split; [done|]. by rewrite app_nil_r.
  - destruct (window_step r t d k) as (m & b & Hb & Hr & E); auto.
    pose proof Hs as (Hst & Hstage & He & _).
    rewrite run_loop_cons by (by rewrite Hst). rewrite E. cbn [mbind outcome_bind].
    set (r1 := {| ses := _; world := _; loc := _; sent := _ |}).
    destruct (IH r1) as (r' & E' & Hs' & Hsent'); auto.
    { split_and!; try done. by exists m. }
    exists r'. split_and!; auto. rewrite Hsent'. cbn [r1 sent length replicate].
    by rewrite <-app_assoc.
Qed.

(** A session in [data_tx] with a window of four blocks. *)
Definition demo_window_opt : Options :=
  set_option demo_read_opt name_windowsize 4.

Definition demo_window_st : run_st MemFs DataMgrFile := {|
  ses := with_stage (with_stat (with_man (demo_session demo_window_opt)
           (Some (demo_reader demo_window_opt))) State.data_tx) 1;
  world := demo_fs;
  loc := loc (run_start (demo_session demo_window_opt) demo_fs);
  sent := []
|}.

Lemma window_livelock_witness :
  ∃ r', run_loop demo_window_st (replicate 1000 (demo_tick RxAgain)) = Ok r' ∧
        sent r' = replicate 1000 (data_packet 1 (str "firmware")).
Proof.
  destruct (window_livelock demo_window_st (replicate 1000 (demo_tick RxAgain)) demo_file 1)
    as (r' & E & _ & Hs).
  - split; vm_compute; (reflexivity || discriminate).
  - split; [reflexivity|]. split; [reflexivity|]. split; [reflexivity|].
    split; [apply run_buf_new|]. exists (demo_reader demo_window_opt).
    split; [reflexivity|]. split_and!; vm_compute; reflexivity.
  - vm_compute. reflexivity.
  - split; vm_compute; (reflexivity || discriminate).
  - vm_compute. discriminate.
  - vm_compute. discriminate.
  - exists r'. split; [exact E|]. rewrite Hs. vm_compute. reflexivity.
Defined.

(** A block size above 65531 (the option is not limited by the parser) makes the
    range of the block pass the end of the local buffer. *)
Theorem oversized_block_undefined {W M} `{DataMgr W M} (r : run_st W M) t m :
  stat_ (ses r) = State.data_tx → run_buf (local_buf (loc r)) →
  file_man_ (ses r) = Some m → 65531 < block_size (ses r) → step r t = Undef.
Proof.
  intros Hst Hb Hm Hbs. unfold step. rewrite Hst. unfold step_data_tx, construct_data.
  destruct (push_header (local_buf (loc r)) 3 (blk_num_local (ses r)) Hb)
    as (b & -> & (_ & Hsz & _) & _ & Hd).
  cbn [mbind outcome_bind]. rewrite Hm, Hd.
  by rewrite (proj2 (Z.ltb_lt _ _)) by lia.
Qed.

Lemma oversized_block_undefined_witness :
  step {| ses := with_stage (with_stat (with_man
                   (demo_session (set_option demo_read_opt name_blksize 65535))
                   (Some (demo_reader demo_read_opt))) State.data_tx) 1;
          world := demo_fs;
          loc := loc (run_start (demo_session demo_read_opt) demo_fs);
          sent := [] |} (demo_tick RxAgain) = Undef.
Proof.
  apply (oversized_block_undefined _ (demo_tick RxAgain) (demo_reader demo_read_opt));
    [reflexivity|apply run_buf_new|reflexivity|vm_compute; reflexivity].
Defined.

(** ** A silent client *)

Section silent.
Context {W M : Type} `{DataMgrLaws W M}.
Implicit Types r : run_st W M.

(** Waiting for the acknowledgement of the full block [k]. *)
Definition awaiting (d : bytes) (k : Z) r : Prop :=
  stat_ (ses r) = State.ack_rx ∧ stage_ (ses r) = k ∧ was_error (ses r) = false ∧
  run_buf (local_buf (loc r)) ∧ last_blk_processed_ (loc r) = false ∧
  ∃ m, file_man_ (ses r) = Some m ∧ reading m (world r) d.

(** A poll after the timeout, the iteration of [retransmit] and the one after it. *)
Fixpoint silent_ok (o : Options) (t0 : Z) (cs : list (tick * tick * tick)) : Prop :=
  match cs with
  | [] => True
  | (t1, t2, t3) :: cs =>
      rx t1 = RxAgain ∧ timeout o + 1 ≤ now t1 - t0 ∧ silent_ok o (now t3) cs
  end.

Definition silent_ticks (cs : list (tick * tick * tick)) : list tick :=
  concat (map (λ '(t1, t2, t3), [t1; t2; t3]) cs).

(** The poll that finds the time is up. *)
Lemma timeout_step r t :
  stat_ (ses r) = State.ack_rx → timeout (opt_ (ses r)) ≠ INT_MAX →
  rx t = RxAgain → timeout (opt_ (ses r)) + 1 ≤ now t - oper_time_ (loc r) →
  step r t = Ok {| ses := with_stat (ses r) State.retransmit; world := world r;
                   loc := loc r; sent := sent r |}.
Proof.
  intros Hst Hto Hrx Ht. unfold step. rewrite Hst. unfold step_ack_rx, receive_no_wait.
  rewrite Hrx. cbn [mbind outcome_bind]. unfold timeout_pass.
  rewrite (proj2 (Z.eqb_neq _ _)) by done. cbn [mbind outcome_bind oper_time_ with_buffer].
  rewrite (proj2 (Z.ltb_ge _ _)) by lia. rewrite goto_allowed by (by rewrite Hst).
  by destruct r as [? ? [] ?].
Qed.

Lemma retransmit_step r t :
  stat_ (ses r) = State.retransmit → request_type (opt_ (ses r)) = SrvReq.read →
  0 ≤ retr_count (loc r) < 65535 →
  step r t = Ok
    (let l := {| last_blk_processed_ := last_blk_processed_ (loc r);
                 retr_count := retr_count (loc r) + 1;
                 local_buf := local_buf (loc r); oper_time_ := oper_time_ (loc r) |} in
     if get_retransmit_count (settings_ (ses r)) <? retr_count (loc r) + 1
     then {| ses := with_stat (ses r) State.error_and_stop; world := world r; loc := l;
             sent := sent r |}
     else {| ses := with_stat (ses r) State.data_tx; world := world r;
             loc := timeout_reset l t; sent := sent r |}).
Proof.
  intros Hst Hrq Hc. unfold step. rewrite Hst. unfold step_retransmit. cbv zeta.
  cbn [retr_count]. rewrite wrap_small by lia. rewrite Hrq.
  rewrite !goto_allowed by (by rewrite Hst). by destruct (_ <? _).
Qed.

Lemma silent_runs cs r d k :
  transfer_params (ses r) → request_type (opt_ (ses r)) = SrvReq.read →
  awaiting d k r → size d < 2 ^ 63 → 1 ≤ k < 2 ^ 63 → k * block_size (ses r) ≤ size d →
  0 ≤ retr_count (loc r) → get_retransmit_count (settings_ (ses r)) < 65535 →
  Z.of_nat (length cs)
    = get_retransmit_count (settings_ (ses r)) + 1 - retr_count (loc r) →
  (0 < length cs)%nat →
  silent_ok (opt_ (ses r)) (oper_time_ (loc r)) cs →
  ∃ r', run_loop r (silent_ticks cs) = Ok r' ∧ stat_ (ses r') = State.finish ∧
    sent r' = sent r ++ replicate (length cs - 1)
                          (data_packet k (block d (block_size (ses r)) k)).
Proof.
  revert r. induction cs as [|[[t1 t2] t3] cs IH];
    intros r Hpar Hrq Haw Hd Hk Hpos Hc Hlim Hn Hlen Hsil; [simpl in Hlen; lia|].
  pose proof Haw as (Hst & Hstage & He & Hb & Hlast & m & Hm & Hr).
  destruct Hsil as (Hrx & Ht & Hsil). pose proof Hpar as (Hbs & Hwin & Hto).
  change (silent_ticks ((t1, t2, t3) :: cs)) with (t1 :: t2 :: t3 :: silent_ticks cs).
  rewrite run_loop_cons by (by rewrite Hst). rewrite timeout_step by done.
  cbn [mbind outcome_bind]. set (r1 := {| ses := _; world := _; loc := _; sent := _ |}).
  cbn [length] in Hn. rewrite run_loop_cons by done.
  rewrite retransmit_step; [|done|done|cbn [r1 loc]; lia].
  cbn [mbind outcome_bind r1 ses loc world sent settings_ with_stat].
  destruct (_ <? _) eqn:El; reflect_bools.
  - (* the limit is passed *)
    assert (cs = []) as -> by (destruct cs; [done|simpl in Hn; lia]).
    rewrite run_loop_cons by done. unfold step, step_error_and_stop. cbn [ses stat_ with_stat].
    change (was_error (with_stat (with_stat (ses r) State.retransmit) State.error_and_stop))
      with (was_error (ses r)). rewrite He. cbn [mbind outcome_bind].
    rewrite goto_allowed by done. eexists. split; [apply run_loop_finished; done|].
    split; [done|]. by cbn [sent length replicate].
  - set (r2 := {| ses := _; world := _; loc := _; sent := _ |}).
    destruct (data_tx_sends r2 t3 d k) as (m' & b & Hb' & E & Hr'); [done| |lia|lia| |].
    { split_and!; try done. by exists m. }
    { change (block_size (ses r2)) with (block_size (ses r)). nia. }
    rewrite run_loop_cons by done. rewrite E. cbn [mbind outcome_bind].
    set (r3 := {| ses := _; world := _; loc := _; sent := _ |}).
    assert (Hcs : (0 < length cs)%nat) by lia.
    destruct (IH r3) as (r' & E' & Hf & Hs'); try done.
    + split_and!; try done.
      * cbn [r3 loc timeout_reset with_last last_blk_processed_].
        change (block_size (ses r2)) with (block_size (ses r)).
        by rewrite (proj2 (Z.leb_le _ _)).
      * exists m'. split; [done|]. apply Hr'. done.
    + cbn. lia.
    + cbn [r3 r2 loc timeout_reset with_last with_buffer retr_count ses].
      change (settings_ _) with (settings_ (ses r)). lia.
    + exists r'. split_and!; try done. rewrite Hs'. cbn [length].
      replace (S (length cs) - 1)%nat with (S (length cs - 1)) by lia.
      cbn [replicate r3 r2 sent]. by rewrite <-app_assoc.
Qed.

(** With the limit 65535 the counter wraps around before it exceeds it. *)
Lemma retransmit_wraps r t :
  stat_ (ses r) = State.retransmit → request_type (opt_ (ses r)) = SrvReq.read →
  get_retransmit_count (settings_ (ses r)) = 65535 →
  step r t = Ok {| ses := with_stat (ses r) State.data_tx; world := world r;
    loc := timeout_reset {| last_blk_processed_ := last_blk_processed_ (loc r);
                            retr_count := u16 (retr_count (loc r) + 1);
                            local_buf := local_buf (loc r); oper_time_ := oper_time_ (loc r) |} t;
    sent := sent r |}.
Proof.
  intros Hst Hrq Hl. unfold step. rewrite Hst. unfold step_retransmit. cbv zeta.
  cbn [retr_count]. pose proof (wrap_range 16 (retr_count (loc r) + 1) ltac:(lia)).
  rewrite Hl, (proj2 (Z.ltb_ge _ _)) by lia. rewrite Hrq.
  by rewrite !goto_allowed by (by rewrite Hst).
Qed.

Lemma silent_forever cs r d k :
  transfer_params (ses r) → request_type (opt_ (ses r)) = SrvReq.read →
  awaiting d k r → size d < 2 ^ 63 → 1 ≤ k < 2 ^ 63 → k * block_size (ses r) ≤ size d →
  get_retransmit_count (settings_ (ses r)) = 65535 →
  silent_ok (opt_ (ses r)) (oper_time_ (loc r)) cs →
  ∃ r', run_loop r (silent_ticks cs) = Ok r' ∧ awaiting d k r' ∧
    sent r' = sent r ++ replicate (length cs) (data_packet k (block d (block_size (ses r)) k)).
Proof.
  revert r. induction cs as [|[[t1 t2] t3] cs IH]; intros r Hpar Hrq Haw Hd Hk Hpos Hlim Hsil.
  { exists r. cbn [replicate length]. rewrite app_nil_r. split_and!; [|done..].
    cbn [silent_ticks concat map run_loop]. by destruct (is_finished _). }
  pose proof Haw as (Hst & Hstage & He & Hb & Hlast & m & Hm & Hr).
  destruct Hsil as (Hrx & Ht & Hsil). pose proof Hpar as (Hbs & Hwin & Hto).
  change (silent_ticks ((t1, t2, t3) :: cs)) with (t1 :: t2 :: t3 :: silent_ticks cs).
  rewrite run_loop_cons by (by rewrite Hst). rewrite timeout_step by done.
  cbn [mbind outcome_bind]. rewrite run_loop_cons by done.
  rewrite retransmit_wraps by done. cbn [mbind outcome_bind].
  set (r2 := {| ses := _; world := _; loc := _; sent := _ |}).
  destruct (data_tx_sends r2 t3 d k) as (m' & b & Hb' & E & Hr'); [done| |lia|lia| |].
  { split_and!; try done. by exists m. }
  { change (block_size (ses r2)) with (block_size (ses r)). nia. }
  rewrite run_loop_cons by done. rewrite E. cbn [mbind outcome_bind].
  set (r3 := {| ses := _; world := _; loc := _; sent := _ |}).
  destruct (IH r3) as (r' & E' & Haw' & Hs'); try done.
  - split_and!; try done.
    + cbn [r3 loc timeout_reset with_last last_blk_processed_].
      change (block_size (ses r2)) with (block_size (ses r)).
      by rewrite (proj2 (Z.leb_le _ _)).
    + exists m'. split; [done|]. apply Hr'. done.
  - exists r'. split_and!; try done. rewrite Hs'. cbn [length replicate r3 r2 sent].
    by rewrite <-app_assoc.
Qed.
End silent.


Definition demo_await_st : run_st MemFs DataMgrFile := {|
  ses := with_stage (with_stat (with_man (demo_session demo_read_opt)
           (Some (demo_reader demo_read_opt))) State.ack_rx) 1;
  world := demo_fs;
  loc := loc (run_start (demo_session demo_read_opt) demo_fs);
  sent := []
|}.

Definition demo_silence : list (tick * tick * tick) :=
  map (λ i, (at_time (20 * i) RxAgain, at_time (20 * i) RxAgain, at_time (20 * i) RxAgain))
    [1; 2; 3; 4].


(** The limit 65535, which [--retransmit] accepts, is none: the block is sent again
    after every timeout, however often, and the session never ends. *)
Theorem silent_client_forever {W M} `{DataMgrLaws W M} (r : run_st W M) cs d k :
  transfer_params (ses r) → request_type (opt_ (ses r)) = SrvReq.read →
  awaiting d k r → size d < 2 ^ 63 → 1 ≤ k < 2 ^ 63 → k * block_size (ses r) ≤ size d →
  get_retransmit_count (settings_ (ses r)) = 65535 →
  silent_ok (opt_ (ses r)) (oper_time_ (loc r)) cs →
  ∃ r', run_loop r (silent_ticks cs) = Ok r' ∧ stat_ (ses r') = State.ack_rx ∧
    sent r' = sent r ++ replicate (length cs) (data_packet k (block d (block_size (ses r)) k)).
Proof.
  intros. destruct (silent_forever cs r d k) as (r' & ? & (? & _) & ?); eauto.
Qed.

(** A download whose client confirms the options and then says no more. *)
Definition demo_lost : list tick :=
  [at_time 0 RxAgain; at_time 0 RxAgain; at_time 0 (RxPkt (ack_packet 0) demo_client);
   at_time 0 RxAgain] ++ silent_ticks demo_silence.

Lemma retransmits_bounded_witness :
  retransmits (run_start (demo_session demo_read_opt) demo_fs) demo_lost = 4%nat ∧
  Z.of_nat (retransmits (run_start (demo_session demo_read_opt) demo_fs)
              (demo_lost ++ demo_lost)) ≤ 4.
Proof.
  split; [vm_compute; reflexivity|].
  apply (retransmits_bounded (demo_session demo_read_opt) demo_fs (demo_lost ++ demo_lost)).
  vm_compute. split; [discriminate|reflexivity].
Defined.
