(* ===== verification/SessionWrite.v ===== *)
(** * SessionWrite: sessions of write requests

    What the executions of [run] of [tftpSession.cpp] for write requests share: the
    opening of a transfer, the acknowledgement of a block, and what it means that the
    data manager refuses to store one. Whole transfers are the subject of
    [SessionTraffic] and [SessionRepeats]. *)

From Stdlib Require Import Strings.Byte.
From S2P Require Import Prelude Common SmBuf Options Regex Addr Settings Base.
From S2P Require Import FileSys DataMgr DataMgrFile SmBufEx Session SessionPackets SessionSafety SessionRead.

Section write.
Context {W M : Type} `{DataMgrLaws W M}.
Implicit Types (s : Session M) (w : W) (r : run_st W M).

(** Waiting for block [k], with [d] stored so far. *)
Definition receiving (d : bytes) (k : Z) r : Prop :=
  stat_ (ses r) = State.data_rx ∧ stage_ (ses r) = k ∧ was_error (ses r) = false ∧
  run_buf (local_buf (loc r)) ∧ size d = (k - 1) * block_size (ses r) ∧
  ∃ m, file_man_ (ses r) = Some m ∧ writing m (world r) d.

(** The session has ended because the manager refused to store block [k], which is
    [b], when its file held [d]: the files are what the refused call left, and the
    error of the session is one the manager has reported. *)
Definition refused (bs : Z) (d : bytes) (k : Z) (b : bytes) r : Prop :=
  stat_ (ses r) = State.finish ∧ was_error (ses r) = true ∧
  ∃ m w m' errs, writing m w d ∧ 0 ≤ (k - 1) * bs < 2 ^ 63 ∧
    dm_write m w b ((k - 1) * bs) = Ok (m', world r, -1, errs) ∧
    file_man_ (ses r) = Some m' ∧ (error_code_ (ses r), error_message_ (ses r)) ∈ errs.

Lemma was_error_report s errs :
  Exists (λ e, e.2 ≠ []) errs → was_error (report s errs) = true.
Proof.
  assert (Hmono : ∀ s0 es, was_error s0 = true → was_error (report s0 es) = true).
  { intros s0 es He. pose proof (evolves_report s0 es) as (_ & _ & _ & _ & Hk).
    destruct (Hk He) as [Hc Hm]. unfold was_error in *. by rewrite Hc, Hm. }
  intros Hx. revert s. induction Hx as [[c m] es Hm|e es _ IH]; intros s.
  - change (report s ((c, m) :: es)) with (report (set_error_if_first s c m) es).
    apply Hmono. unfold set_error_if_first. destruct (was_error s) eqn:E; [done|].
    unfold was_error. cbn [negb with_error error_code_ error_message_].
    destruct m as [|x m]; [done|]. apply orb_true_iff. right. apply Z.ltb_lt.
    unfold size. simpl. lia.
  - apply (IH (set_error_if_first s e.1 e.2)).
Qed.

Lemma man_report s errs : file_man_ (report s errs) = file_man_ s.
Proof.
  unfold report. revert s. induction errs as [|e errs IH]; intros s; [done|]. simpl.
  rewrite IH. unfold set_error_if_first. by destruct (negb _).
Qed.

Lemma report_kept s errs :
  was_error s = true →
  error_code_ (report s errs) = error_code_ s ∧ error_message_ (report s errs) = error_message_ s.
Proof. intros He. by pose proof (evolves_report s errs) as (_ & _ & _ & _ & Hk); apply Hk. Qed.

(** The error a session gets is one of those reported. *)
Lemma report_in s errs :
  was_error s = false → Exists (λ e, e.2 ≠ []) errs →
  (error_code_ (report s errs), error_message_ (report s errs)) ∈ errs.
Proof.
  revert s. induction errs as [|[c m] errs IH]; intros s He Hx; [by inversion Hx|].
  change (report s ((c, m) :: errs)) with (report (set_error_if_first s c m) errs).
  unfold set_error_if_first. rewrite He. cbn [negb].
  destruct (was_error (with_error s c m)) eqn:Hw.
  - destruct (report_kept _ errs Hw) as [-> ->]. by left.
  - right. apply IH; [done|]. inversion Hx as [? ? Hm|]; [|done]. subst. cbn in Hm.
    unfold was_error in Hw. cbn in Hw. apply orb_false_iff in Hw as [_ Hw]. reflect_bools.
    destruct m; [done|]. unfold size in Hw. cbn in Hw. lia.
Qed.

Lemma report_refused s m w d k b m' w' errs bs l out :
  was_error s = false → writing m w d → 0 ≤ (k - 1) * bs < 2 ^ 63 →
  dm_write m w b ((k - 1) * bs) = Ok (m', w', -1, errs) →
  Exists (λ e, e.2 ≠ []) errs →
  refused bs d k b {| ses := with_stat (report (with_man (with_stage s k) (Some m')) errs)
                               State.finish; world := w'; loc := l; sent := out |}.
Proof.
  intros He Hw Hk Ew Hx. set (s1 := with_man (with_stage s k) (Some m')).
  split; [done|]. split; [exact (was_error_report s1 errs Hx)|].
  exists m, w, m', errs. split; [done|]. split; [done|]. split; [done|].
  split; [apply (man_report s1)|by apply report_in].
Qed.

(** What the packet of block [k] holds after its header. *)
Lemma received_block b b' k d :
  received b b' (data_packet k d) → slice (buf b') 4 (size (data_packet k d) - 4) = d.
Proof.
  intros (_ & Hp & Hd & _). rewrite size_data in *. pose proof (size_nonneg d).
  replace (4 + size d - 4) with (size d) by lia.
  rewrite <-(slice_take (buf b') (Z.to_nat (data_size_ b'))) by lia.
  change (take (Z.to_nat (data_size_ b')) (buf b')) with (payload b'). rewrite Hp.
  pose proof (slice_app_at (be_split 2 3 ++ be_split 2 k) d []) as E.
  rewrite size_app, !size_be_split, app_nil_r, <-app_assoc in E. exact E.
Qed.

(** The acknowledgement of block [stage_]. *)
Lemma ack_tx_sends r t :
  stat_ (ses r) = State.ack_tx → run_buf (local_buf (loc r)) →
  0 ≤ stage_ (ses r) < 2 ^ 63 →
  ∃ b, run_buf b ∧ step r t = Ok
    {| ses := with_stat (with_stage (ses r) (stage_ (ses r) + 1))
                (if last_blk_processed_ (loc r) then State.finish else State.data_rx);
       world := world r;
       loc := (if last_blk_processed_ (loc r) then with_buffer (loc r) b
               else timeout_reset (with_buffer (loc r) b) t);
       sent := sent r ++ [ack_packet (stage_ (ses r))] |}.
Proof.
  intros Hst Hb Hs. destruct (construct_ack_packet (ses r) (local_buf (loc r)) Hb)
    as (b & E & Hb' & Hp & Hd).
  exists b. split; [done|]. unfold step. rewrite Hst. unfold step_ack_tx. rewrite E.
  cbn [mbind outcome_bind]. unfold transmit_no_wait. rewrite Hd.
  cbn [fst Z.ltb Z.compare last_blk_processed_ with_buffer]. rewrite Hp.
  rewrite (wrap_small 64 (stage_ (ses r) + 1)) by lia.
  rewrite !goto_allowed by (simpl; by rewrite Hst). by destruct (last_blk_processed_ _).
Qed.

(** The execution ended because the manager refused one of the blocks [bl], each with
    its number, when its file held a [d] with [P]. *)
Definition ends_failed r (ts : list tick) (bs : Z) (P : bytes → Prop) (bl : list (Z * bytes))
    : Prop :=
  ∃ r' d k b, run_loop r ts = Ok r' ∧ refused bs d k b r' ∧ P d ∧ (k, b) ∈ bl.

(** [r'] has stored [d] and is done. *)
Definition stored (d : bytes) r : Prop :=
  stat_ (ses r) = State.finish ∧ was_error (ses r) = false ∧
  ∃ m, file_man_ (ses r) = Some m ∧ writing m (world r) d.

Lemma ends_failed_weaken r ts ts' bs (P Q : bytes → Prop) bl bl' :
  ends_failed r ts bs P bl → (∀ d, P d → Q d) → bl ⊆ bl' → ends_failed r (ts ++ ts') bs Q bl'.
Proof.
  intros (r' & d & k & b & E & Hr & HP & Hin) HQ Hsub. exists r', d, k, b.
  split_and!; [|done|by apply HQ|by apply Hsub]. rewrite (run_loop_app _ _ _ _ E).
  by apply run_loop_finished, Hr.
Qed.

Lemma ends_failed_app r r1 ts ts' bs P bl bl' :
  run_loop r ts = Ok r1 → ends_failed r1 ts' bs P bl → bl ⊆ bl' →
  ends_failed r (ts ++ ts') bs P bl'.
Proof.
  intros E1 (r' & d & k & b & E & Hr & HP & Hin) Hsub. exists r', d, k, b.
  split_and!; [|done|done|by apply Hsub]. by rewrite (run_loop_app _ _ _ _ E1).
Qed.

(** *** The opening: the options are confirmed, or block 0 is acknowledged *)

Definition write_opening (o : Options) (ts : list tick) (t0 : Z) : Prop :=
  if was_set_any o then ∃ t, ts = [t] ∧ t0 = now t
  else ∃ t1 t2, ts = [t1; t2] ∧ t0 = now t2.

Lemma write_opening_runs r ts t0 m :
  stat_ (ses r) = State.ack_options → was_error (ses r) = false →
  request_type (opt_ (ses r)) = SrvReq.write → opts_wf (opt_ (ses r)) →
  run_buf (local_buf (loc r)) → last_blk_processed_ (loc r) = false →
  file_man_ (ses r) = Some m → writing m (world r) [] →
  write_opening (opt_ (ses r)) ts t0 →
  ∃ r', run_loop r ts = Ok r' ∧ receiving [] 1 r' ∧ oper_time_ (loc r') = t0 ∧
    opt_ (ses r') = opt_ (ses r) ∧ cl_addr_ (ses r') = cl_addr_ (ses r) ∧
    sent r' = sent r ++ [if was_set_any (opt_ (ses r))
                         then oack_packet (opt_ (ses r)) else ack_packet 0].
Proof.
  intros Hst He Hrq Ho Hb Hlast Hm Hw. unfold write_opening.
  destruct (was_set_any _) eqn:Hany.
  - intros (t & -> & ->).
    destruct (construct_opt_reply_packet (ses r) (local_buf (loc r)) Hb Ho Hany)
      as (b & E & Hb' & Hp & Hd).
    rewrite run_loop_cons by (by rewrite Hst). unfold step at 1. rewrite Hst.
    unfold step_ack_options. rewrite Hany, Hrq, E. cbn [mbind outcome_bind].
    unfold transmit_no_wait. rewrite (proj2 (Z.ltb_lt 0 (data_size b))) by done.
    cbn [fst]. rewrite Hp, goto_allowed by (by rewrite Hst).
    eexists. split; [cbn [run_loop]; by destruct (is_finished _)|].
    split_and!; try done. split_and!; try done. by exists m.
  - intros (t1 & t2 & -> & ->). rewrite run_loop_cons by (by rewrite Hst).
    unfold step at 1. rewrite Hst. unfold step_ack_options. rewrite Hany, Hrq.
    cbn [mbind outcome_bind]. rewrite goto_allowed by (simpl; by rewrite Hst).
    rewrite app_nil_r.
    set (r1 := {| ses := _; world := _; loc := _; sent := _ |}).
    destruct (ack_tx_sends r1 t2) as (b & Hb' & E); [done|done|done|].
    rewrite run_loop_cons by done. rewrite E. cbn [mbind outcome_bind].
    cbn [r1 loc timeout_reset with_buffer last_blk_processed_]. rewrite Hlast.
    eexists. split; [cbn [run_loop]; by destruct (is_finished _)|].
    split_and!; try done. split_and!; try done. by exists m.
Qed.
End write.

(** *** A concrete request *)

Definition demo_write_opt : Options :=
  set_option (demo_opt SrvReq.write (str "new.bin")) name_blksize 8.

Definition demo_write_world : MemFs :=
  match dm_init dm_new demo_fs demo_settings demo_write_opt with
  | Ok (_, w, _, _) => w
  | _ => demo_fs
  end.

(** ** Executions that go wrong *)

(** A first DATA packet with number 0 passes the checks of the block number, and
    the position of block 0 is negative: the stream throws, and nothing in the
    thread of the session catches the exception. *)
Theorem block_zero_throws :
  run_loop (run_start (demo_session (demo_opt SrvReq.write (str "new.bin"))) demo_fs)
    [demo_tick RxAgain; demo_tick RxAgain; demo_tick RxAgain;
     demo_tick (RxPkt (data_packet 0 (str "x")) demo_client)]
  = Throw ios_failure.
Proof. vm_compute. reflexivity. Qed.

(** With a window of two blocks, an upload whose last block has an odd number is
    stored but not acknowledged when it arrives: the session waits for a block
    that does not come, and what it sends after the timeout acknowledges that
    block. *)
Theorem odd_last_block_not_acked :
  sent_by (demo_session (set_option demo_write_opt name_windowsize 2)) demo_fs
    [at_time 100 RxAgain; at_time 100 RxAgain;
     at_time 100 (RxPkt (data_packet 1 (str "short")) demo_client);
     at_time 105 RxAgain; at_time 200 RxAgain; at_time 200 RxAgain; at_time 200 RxAgain]
  = [oack_packet (set_option demo_write_opt name_windowsize 2); ack_packet 2].
Proof. vm_compute. reflexivity. Qed.
