(* ===== verification/SessionTraffic.v ===== *)
(** * SessionTraffic: transfers under arbitrary traffic

    [SessionRead] and [SessionWrite] follow clients that keep to the protocol.
    Here the datagrams, the clock and the results of the system calls are
    arbitrary: what a session sends while it reads a file, and what it stores
    while it writes one, for any list of ticks and any window size. The states of
    [run] of [tftpSession.cpp] are described by the invariants [serving] and
    [storing]; each is kept by every iteration until an event that is named in
    the theorem. *)

From Stdlib Require Import Strings.Byte.
From S2P Require Import Prelude Common SmBuf Options Regex Addr Settings Base.
From S2P Require Import FileSys DataMgr DataMgrFile SmBufEx Session SessionPackets SessionSafety.
From S2P Require Import SessionRead SessionWrite.

(** ** What both directions share *)

Section traffic.
Context {W M : Type} `{DataMgrLaws W M}.
Implicit Types (s : Session M) (w : W) (r : run_st W M).

(** Options of an accepted request that the code can serve without undefined
    behaviour: the block fits the buffer, the timeout can be added to. The window
    is arbitrary. *)
Definition servable s : Prop :=
  0 < block_size s ≤ 65531 ∧ timeout (opt_ s) ≠ INT_MAX ∧ opts_wf (opt_ s).

Lemma servable_opt s s' : opt_ s' = opt_ s → servable s → servable s'.
Proof. intros Ho. unfold servable, block_size. by rewrite Ho. Qed.

Lemma with_stage_same s : with_stage s (stage_ s) = s.
Proof. by destruct s. Qed.

(** The number a packet selects, when the checks let it pass. *)
Lemma sync_stage_range s n :
  0 ≤ stage_ s < 2 ^ 62 → stage_in_range s n = true →
  ∃ k, 0 ≤ k ≤ stage_ s + 1 ∧ sync_stage s n = with_stage s k ∧
       k = stage_ s + n - stage_ s `mod` 2 ^ 16.
Proof.
  intros Hs Hr. unfold stage_in_range, sync_stage, rx_stage in *.
  rewrite !blk_num_local_mod in *. rewrite (swrap_small 64 (stage_ s)) in * by lia.
  rewrite (wrap_small 64 (stage_ s + 1)), (swrap_small 64 (stage_ s + 1)) in Hr by lia.
  reflect_bools. exists (stage_ s + n - stage_ s `mod` 2 ^ 16). split; [lia|].
  split; [|done]. destruct (_ =? n) eqn:E; reflect_bools; cbn [negb].
  - replace (stage_ s + n - stage_ s `mod` 2 ^ 16) with (stage_ s) by lia.
    by rewrite with_stage_same.
  - by rewrite wrap_small by lia.
Qed.

(** What [receive_no_wait] can give in [ack_rx]. *)
Lemma receive_in_ack_rx s w b t :
  stat_ s = State.ack_rx → run_buf b → 0 ≤ stage_ s < 2 ^ 62 →
  ∃ s' b' res, run_buf b' ∧ receive_no_wait s w b t = Ok (s', w, b', res) ∧
    match res with
    | TripleResult.nop => s' = s
    | TripleResult.fail => True
    | TripleResult.ok => ∃ k, 0 ≤ k ≤ stage_ s + 1 ∧ s' = with_stage s k
    end.
Proof.
  intros Hst Hb Hs. destruct (rx t) as [| |d from] eqn:Hrx.
  - exists s, b, TripleResult.nop. unfold receive_no_wait. by rewrite Hrx.
  - exists s, b, TripleResult.fail. unfold receive_no_wait. by rewrite Hrx.
  - destruct (receive_packet s w b t d from Hb Hrx) as (b' & (Hb' & _) & E).
    rewrite Hst in E. rewrite (bool_decide_false (State.ack_rx = State.data_rx)) in E by done.
    rewrite andb_false_r, bool_decide_true, andb_true_r in E by done.
    destruct (negb _); [by exists s, b', TripleResult.nop|].
    destruct (_ =? 4); [|by exists s, b', TripleResult.nop].
    unfold receive_ack in E. destruct (stage_in_range _ _) eqn:Hr; cbn [negb] in E.
    + destruct (sync_stage_range s _ Hs Hr) as (k & Hk & Ek & _). rewrite Ek in E.
      exists (with_stage s k), b', TripleResult.ok. eauto.
    + by eexists _, b', TripleResult.fail.
Qed.

(** ** Read requests *)

(** A DATA packet with the right block of the file, or no DATA packet. *)
Definition right_packet (d : bytes) (bs : Z) (p : bytes) : Prop :=
  (∃ k, 1 ≤ k ∧ (k - 1) * bs ≤ size d ∧ p = data_packet k (block d bs k)) ∨ rx_op_of p ≠ 3.

(** The last block, not full and not empty: reading it fails the stream. *)
Definition last_packet (d : bytes) (bs : Z) (p : bytes) : Prop :=
  ∃ k, (k - 1) * bs < size d < k * bs ∧ p = data_packet k (block d bs k).

(** The message [construct_data] sets. *)
Definition read_failed : bytes := str "Failed prepare data to send".

(** A session that serves the file [d], with a stream in good state, or is done. *)
Definition serving (d : bytes) r : Prop :=
  let s := ses r in
  stat_ s = State.finish ∨
  request_type (opt_ s) = SrvReq.read ∧ run_buf (local_buf (loc r)) ∧ 0 ≤ stage_ s ∧
  (∃ m, file_man_ s = Some m ∧ reading m (world r) d) ∧
  match stat_ s with
  | State.ack_options => was_error s = false
  | State.data_tx =>
      was_error s = false ∧ (stage_ s - 3) * block_size s ≤ size d ∧
      (was_set_any (opt_ s) = false → 1 ≤ stage_ s)
  | State.ack_rx | State.retransmit =>
      was_error s = false ∧ (stage_ s - 1) * block_size s ≤ size d ∧
      (was_set_any (opt_ s) = false → 1 ≤ stage_ s)
  | State.error_and_stop =>
      was_error s = true → error_code_ s = 0 ∧ error_message_ s = read_failed
  | _ => False
  end.

(** One iteration: the packets it sends are right, and the session goes on
    serving unless it has just sent the last block. *)
Definition serves_on (d : bytes) r t : Prop :=
  ∃ r' ps, step r t = Ok r' ∧ sent r' = sent r ++ ps ∧
    Forall (right_packet d (block_size (ses r))) ps ∧
    (serving d r' ∨ Exists (last_packet d (block_size (ses r))) ps).

Lemma serves_on_silent d r t r' :
  step r t = Ok r' → sent r' = sent r → serving d r' → serves_on d r t.
Proof.
  intros E Hs Hd. exists r', []. rewrite app_nil_r. split_and!; try done. by left.
Qed.

(** Reading beyond the file is an error. *)
Lemma construct_data_beyond s w b m d :
  run_buf b → file_man_ s = Some m → reading m w d → was_error s = false →
  0 < block_size s ≤ 65531 → 1 ≤ stage_ s < 2 ^ 64 →
  size d < (stage_ s - 1) * block_size s < 2 ^ 63 →
  ∃ m' b', construct_data s w b
           = Ok (with_error (with_man s (Some m')) 0 read_failed, b') ∧
    run_buf b' ∧ reading m' w d.
Proof.
  intros Hb Hm Hr He Hbs Hst Hpos. unfold construct_data.
  destruct (push_header b 3 (blk_num_local s) Hb) as (b1 & -> & Hb1 & Hp1 & Hd1).
  cbn [mbind outcome_bind]. rewrite Hm, Hd1. pose proof Hb1 as (_ & Hsz & _).
  rewrite Hsz, (proj2 (Z.ltb_ge _ _)) by lia.
  rewrite block_position_eq by lia.
  destruct (read_beyond m w d (slice (buf b1) 4 (block_size s)) _ Hr Hpos)
    as (m' & -> & Hr'). cbn [mbind outcome_bind report foldl].
  rewrite (proj2 (Z.leb_gt 0 _)) by lia. unfold set_error_if_first.
  change (was_error (with_man s (Some m'))) with (was_error s). rewrite He. cbn [negb].
  exists m'. eexists. split_and!; [done| |done].
  assert (Hlen : size (slice (buf b1) 4 (block_size s)) = block_size s)
    by (apply slice_length; lia).
  unfold run_buf, SmBufEx.wf, buf_ok in *.
  cbn [buf with_buf data_size_ val_int_bigendian_ val_str_zeroend_].
  rewrite blit_length by lia. tauto.
Qed.

(** *** One iteration in each state *)

Lemma rx_op_header n x l :
  0 ≤ n < 2 ^ 16 → 2 ≤ size x → rx_op_of (be_split 2 n ++ x ++ l) = n.
Proof.
  intros Hn Hx. unfold rx_op_of. pose proof (size_nonneg l).
  rewrite !size_app, size_be_split, (proj2 (Z.ltb_lt 3 _)) by lia.
  pose proof (slice_app_at [] (be_split 2 n) (x ++ l)) as E.
  rewrite size_nil, size_be_split in E. cbn [app] in E. change (Z.of_nat 2) with 2 in E.
  rewrite E, be_combine_split. by apply Z.mod_small.
Qed.

Lemma right_control d bs n x l :
  0 ≤ n < 2 ^ 16 → n ≠ 3 → 2 ≤ size x → right_packet d bs (be_split 2 n ++ x ++ l).
Proof. intros. right. by rewrite rx_op_header. Qed.

Lemma right_oack d bs o : was_set_any o = true → right_packet d bs (oack_packet o).
Proof.
  intros Ho. unfold oack_packet. rewrite <-(app_nil_r (encode_opts _)).
  apply right_control; [lia|done|]. unfold oack_opts, was_set_any in *. unfold size.
  destruct (was_set_blksize _), (was_set_timeout _), (was_set_tsize _),
    (was_set_windowsize _); try done; cbn [app]; rewrite encode_opts_cons;
    unfold zstr; rewrite !length_app; simpl; lia.
Qed.

Lemma right_error d bs c m : right_packet d bs (error_packet c m).
Proof. apply right_control; [lia|done|]. by rewrite size_be_split. Qed.

(** Inversion of [serving] in a given state. *)
Ltac inv_serving :=
  match goal with
  | Hs : serving _ ?r, Hst : stat_ (ses ?r) = _ |- _ =>
      let Hrq := fresh "Hrq" in let Hb := fresh "Hb" in let Hsg := fresh "Hstage" in
      let m := fresh "m" in let Hm := fresh "Hm" in let Hr := fresh "Hr" in
      destruct Hs as [Hs|(Hrq & Hb & Hsg & (m & Hm & Hr) & Hs)];
      [rewrite Hst in Hs; discriminate|rewrite Hst in Hs]
  end.

(** [serving] of a concrete record, with the manager of the context. *)
Ltac by_serving :=
  right; split; [done|]; split; [done|]; split; [cbn; lia|]; split;
  [match goal with Hm : reading ?m _ _ |- _ => by exists m end|];
  cbn; repeat match goal with
    | |- context [block_size (with_stage ?s _)] =>
        change (block_size (with_stage s _)) with (block_size s)
    | |- context [block_size (with_stat ?s _)] =>
        change (block_size (with_stat s _)) with (block_size s)
    end; try match goal with |- _ ∧ _ => split_and! end; try done; try nia.

Lemma serves_ack_options d r t :
  servable (ses r) → serving d r → stat_ (ses r) = State.ack_options → serves_on d r t.
Proof.
  intros ((Hbs & _) & _ & Ho) Hs Hst. inv_serving. pose proof (size_nonneg d).
  unfold serves_on, step. rewrite Hst. unfold step_ack_options. rewrite Hrq.
  destruct (was_set_any _) eqn:Hany.
  - destruct (construct_opt_reply_packet (ses r) (local_buf (loc r)) Hb Ho Hany)
      as (b & E & Hb' & Hp & Hd). rewrite E. cbn [mbind outcome_bind].
    unfold transmit_no_wait. rewrite (proj2 (Z.ltb_lt 0 (data_size b))) by done.
    cbn [fst]. rewrite Hp, goto_allowed by (by rewrite Hst).
    eexists _, _. split; [done|]. split; [done|].
    split; [constructor; [by apply right_oack|constructor]|]. left. by_serving.
    by rewrite Hany.
  - cbn [mbind outcome_bind]. rewrite goto_allowed by (by rewrite Hst).
    eexists _, []. split; [done|]. split; [cbn [sent]; by rewrite !app_nil_r|].
    split; [done|]. left. by_serving.
Qed.

Lemma serves_error d r t :
  serving d r → stat_ (ses r) = State.error_and_stop → serves_on d r t.
Proof.
  intros Hs Hst. inv_serving.
  unfold serves_on, step. rewrite Hst. unfold step_error_and_stop.
  destruct (was_error (ses r)) eqn:He.
  - destruct Hs as [Hc Hmsg]; [done|].
    destruct (construct_error_packet (ses r) (local_buf (loc r)) Hb He)
      as (b & E & Hb' & Hp & Hd); [rewrite Hmsg; by_decide|by rewrite Hmsg|].
    rewrite E. cbn [mbind outcome_bind]. unfold transmit_no_wait.
    rewrite (proj2 (Z.ltb_lt 0 (data_size b))) by done. cbn [fst].
    rewrite Hp, goto_allowed by (by rewrite Hst).
    eexists _, _. split; [done|]. split; [done|].
    split; [constructor; [by apply right_error|constructor]|]. left. by left.
  - cbn [mbind outcome_bind]. rewrite goto_allowed by (by rewrite Hst).
    eexists _, []. split; [done|]. split; [done|]. split; [done|]. left. by left.
Qed.

Lemma serves_retransmit d r t :
  servable (ses r) → serving d r → stat_ (ses r) = State.retransmit → serves_on d r t.
Proof.
  intros ((Hbs & _) & _) Hs Hst. inv_serving. destruct Hs as (He & Hpos & Hany).
  unfold serves_on, step. rewrite Hst. unfold step_retransmit. cbv zeta. rewrite Hrq.
  rewrite !goto_allowed by (by rewrite Hst).
  destruct (_ <? _); eexists _, []; (split; [done|]); rewrite app_nil_r;
    (split; [done|]); (split; [done|]); left; by_serving.
  change (was_error _) with (was_error (ses r)). by rewrite He.
Qed.

Lemma serves_ack_rx d r t :
  servable (ses r) → size d < 2 ^ 62 - 2 ^ 20 →
  serving d r → stat_ (ses r) = State.ack_rx → serves_on d r t.
Proof.
  intros ((Hbs & _) & Hto & _) Hd Hs Hst. inv_serving.
  destruct Hs as (He & Hpos & Hany). pose proof (size_nonneg d).
  assert (stage_ (ses r) < 2 ^ 62) by nia.
  destruct (receive_in_ack_rx (ses r) (world r) (local_buf (loc r)) t)
    as (s' & b & res & Hb' & E & Hres); [done|done|lia|].
  assert (Estep : step r t = step_ack_rx r t) by (unfold step; by rewrite Hst).
  unfold step_ack_rx in Estep. rewrite E in Estep. cbn [mbind outcome_bind] in Estep.
  destruct res.
  - subst s'. unfold timeout_pass in Estep.
    rewrite (proj2 (Z.eqb_neq _ _) Hto) in Estep. cbn [mbind outcome_bind] in Estep.
    rewrite goto_allowed in Estep by (by rewrite Hst).
    eapply serves_on_silent; [exact Estep|done|].
    destruct (_ <? _); [|by_serving]. right. cbn. rewrite Hst. split_and!; try done.
    by exists m.
  - destruct Hres as (k & Hk & ->). rewrite !goto_allowed in Estep by (simpl; by rewrite Hst).
    destruct (last_blk_processed_ _).
    + eapply serves_on_silent; [exact Estep|done|]. by left.
    + eapply serves_on_silent; [exact Estep|done|]. cbn [stage_ with_stat with_stage].
      rewrite (wrap_small 64 (k + 1)) by lia. by_serving.
  - destruct (receive_evolves _ _ _ _ _ _ _ _ E) as [_ Hst2].
    eapply serves_on_silent; [exact Estep|done|]. left. cbn [ses].
    by rewrite stat_goto, Hst2, Hst.
Qed.
(** Sending of a block from inside the file. *)
Lemma serves_block d r t :
  servable (ses r) → size d < 2 ^ 62 - 2 ^ 20 → serving d r →
  stat_ (ses r) = State.data_tx → 1 ≤ stage_ (ses r) →
  (stage_ (ses r) - 1) * block_size (ses r) ≤ size d → serves_on d r t.
Proof.
  intros ((Hbs & Hbs') & _) Hd Hs Hst H1 Hpos. inv_serving. destruct Hs as (He & _ & Hany).
  pose proof (size_nonneg d). assert (stage_ (ses r) < 2 ^ 62) by nia.
  destruct (construct_data_packet (ses r) (world r) (local_buf (loc r)) m d)
    as (m' & b & E & Hb' & Hp & Hds & Hr'); auto; [lia|lia|].
  set (bs := block_size (ses r)) in *. set (k := stage_ (ses r)) in *.
  assert (Estep : step r t = step_data_tx r t) by (unfold step; by rewrite Hst).
  unfold step_data_tx in Estep. rewrite E in Estep. cbn [mbind outcome_bind] in Estep.
  change (was_error (with_man (ses r) (Some m'))) with (was_error (ses r)) in Estep.
  unfold transmit_no_wait in Estep. rewrite He in Estep.
  rewrite (proj2 (Z.ltb_lt 0 (data_size b))) in Estep by lia. cbn [negb andb fst] in Estep.
  rewrite Hp, goto_allowed in Estep by (simpl; by rewrite Hst).
  destruct (_ || _); (eexists _, _; split; [exact Estep|]; split; [done|]; split;
    [constructor; [left; exists k; split_and!; (done || lia)|constructor]|]).
  all: destruct (decide (k * bs ≤ size d ∨ (k - 1) * bs = size d)) as [Hfull|Hlast].
  all: try (right; constructor; exists k; split; [lia|done]).
  all: left; right; cbn; rewrite ?Hst; split_and!; try done.
  all: try (exists m'; split; [done|apply Hr'; lia]).
  all: change (block_size _) with bs; fold k; lia.
Qed.

Lemma serves_beyond d r t :
  servable (ses r) → size d < 2 ^ 62 - 2 ^ 20 → serving d r →
  stat_ (ses r) = State.data_tx → 1 ≤ stage_ (ses r) →
  size d < (stage_ (ses r) - 1) * block_size (ses r) → serves_on d r t.
Proof.
  intros ((Hbs & Hbs') & _) Hd Hs Hst H1 Hpos. inv_serving. destruct Hs as (He & H3 & Hany).
  pose proof (size_nonneg d). assert (stage_ (ses r) < 2 ^ 63) by nia.
  destruct (construct_data_beyond (ses r) (world r) (local_buf (loc r)) m d)
    as (m' & b & E & Hb' & Hr'); auto; [lia|lia|].
  eapply serves_on_silent.
  { unfold step. rewrite Hst. unfold step_data_tx. rewrite E. cbn [mbind outcome_bind].
    rewrite !goto_allowed by (simpl; by rewrite Hst). reflexivity. }
  { done. }
  right. cbn. split_and!; try done. by exists m'.
Qed.

Lemma serves_step d r t :
  servable (ses r) → size d < 2 ^ 62 - 2 ^ 20 → serving d r →
  stat_ (ses r) ≠ State.finish → ¬ (stat_ (ses r) = State.data_tx ∧ stage_ (ses r) = 0) →
  serves_on d r t.
Proof.
  intros Hp Hd Hs Hf Hz. destruct (stat_ (ses r)) eqn:Hst; try done.
  1,5,6: inv_serving; done.
  - by apply serves_error.
  - by apply serves_ack_options.
  - assert (1 ≤ stage_ (ses r)).
    { destruct (decide (stage_ (ses r) = 0)) as [E0|E0]; [destruct Hz; auto|].
      inv_serving. lia. }
    destruct (decide ((stage_ (ses r) - 1) * block_size (ses r) ≤ size d)).
    + by apply serves_block.
    + apply serves_beyond; auto. lia.
  - by apply serves_ack_rx.
  - by apply serves_retransmit.
Qed.

(** Where an execution leaves the guarantees behind: all ticks are used, the
    session is done, the last block has been sent, or block 0 is to be read. *)
Definition read_ends d r (ps : list bytes) (rest : list tick) : Prop :=
  rest = [] ∨ stat_ (ses r) = State.finish ∨
  Exists (last_packet d (block_size (ses r))) ps ∨
  (stat_ (ses r) = State.data_tx ∧ stage_ (ses r) = 0 ∧ was_set_any (opt_ (ses r)) = true).

Lemma serving_runs d r ts :
  servable (ses r) → size d < 2 ^ 62 - 2 ^ 20 → serving d r →
  ∃ ts1 ts2 r' ps, ts = ts1 ++ ts2 ∧ run_loop r ts1 = Ok r' ∧ sent r' = sent r ++ ps ∧
    Forall (right_packet d (block_size (ses r))) ps ∧
    block_size (ses r') = block_size (ses r) ∧ read_ends d r' ps ts2.
Proof.
  revert r. induction ts as [|t ts IH]; intros r Hp Hd Hs.
  { exists [], [], r, []. rewrite !app_nil_r.
    split_and!; [done| |done|done|done|by left]. cbn [run_loop]. by destruct (is_finished _). }
  destruct (decide (stat_ (ses r) = State.finish)) as [Hf|Hf].
  { exists [], (t :: ts), r, []. rewrite app_nil_r. split_and!; try done.
    - by rewrite run_loop_finished.
    - right. by left. }
  destruct (decide (stat_ (ses r) = State.data_tx ∧ stage_ (ses r) = 0)) as [[Hst Hz]|Hz].
  { exists [], (t :: ts), r, []. rewrite app_nil_r. split_and!; try done.
    - cbn [run_loop]. by destruct (is_finished _).
    - right. right. right. split_and!; try done. inv_serving.
      destruct (was_set_any _); [done|]. destruct Hs as (_ & _ & Hs). specialize (Hs eq_refl).
      lia. }
  destruct (serves_step d r t Hp Hd Hs Hf Hz) as (r1 & ps & E & Hsent & Hright & Hnext).
  destruct (step_evolves _ _ _ E) as [(_ & _ & _ & Ho & _) _].
  assert (Hbs : block_size (ses r1) = block_size (ses r)) by (unfold block_size; by rewrite Ho).
  destruct Hnext as [Hs1|Hlast].
  - destruct (IH r1) as (ts1 & ts2 & r' & ps' & -> & E' & Hsent' & Hr' & Hb' & Hend);
      [by apply (servable_opt (ses r))|done|done|].
    exists (t :: ts1), ts2, r', (ps ++ ps'). rewrite run_loop_cons, E by done.
    split_and!; try done.
    + by rewrite Hsent', Hsent, app_assoc.
    + apply Forall_app. by rewrite <-Hbs at 2.
    + by rewrite Hb'.
    + destruct Hend as [?|[?|[?|?]]]; unfold read_ends; [tauto|tauto| |tauto].
      right. right. left. apply Exists_app. by right.
  - exists [t], ts, r1, ps. rewrite run_loop_cons, E by done. split_and!; try done.
    + cbn [mbind outcome_bind run_loop]. by destruct (is_finished _).
    + right. right. left. by rewrite Hbs.
Qed.

(** ** Write requests *)

(** A block stored at its place; an empty block changes nothing. *)
Definition store (bs : Z) (d : bytes) (kb : Z * bytes) : bytes :=
  if bool_decide (kb.2 = []) then d else put d ((kb.1 - 1) * bs) kb.2.

(** A DATA packet of the client with full block number [k]. *)
Definition client_block (cl : Addr) (t : tick) (k : Z) (b : bytes) : Prop :=
  ∃ p from, rx t = RxPkt p from ∧ eqb from cl = true ∧ delivered p = data_packet k b.

(** The blocks come, in order, from DATA packets of the client. *)
Inductive from_client (cl : Addr) : list tick → list (Z * bytes) → Prop :=
  | from_client_nil : from_client cl [] []
  | from_client_skip t ts acc : from_client cl ts acc → from_client cl (t :: ts) acc
  | from_client_block t ts k b acc :
      client_block cl t k b → from_client cl ts acc → from_client cl (t :: ts) ((k, b) :: acc).

(** A session that stores, with [d] in its file. *)
Definition storing (d : bytes) r : Prop :=
  let s := ses r in
  request_type (opt_ s) = SrvReq.write ∧ run_buf (local_buf (loc r)) ∧ 0 ≤ stage_ s ∧
  was_error s = false ∧ (∃ m, file_man_ s = Some m ∧ writing m (world r) d) ∧
  stat_ s ∈ [State.ack_options; State.data_rx; State.ack_tx; State.retransmit;
             State.error_and_stop; State.finish].

(** The message [receive_no_wait] sets. *)
Definition number_error : bytes := str "Error received number data block".

(** A session that has ended with this error because its client sent, in one of the
    ticks [ts], a DATA packet with a number out of range; its file still holds [d]. *)
Definition rejected (ts : list tick) (d : bytes) r : Prop :=
  stat_ (ses r) = State.finish ∧ error_message_ (ses r) = number_error ∧
  (∃ m, file_man_ (ses r) = Some m ∧ writing m (world r) d) ∧
  ∃ t n b, t ∈ ts ∧ client_block (cl_addr_ (ses r)) t n b ∧ 0 ≤ n < 2 ^ 16 ∧
    stage_in_range (ses r) n = false.

(** A session that has ended with an error while its file held [d]: after a number out
    of range, or because the manager refused a block that the client has sent. *)
Definition stopped (ts : list tick) (bs : Z) (d : bytes) r : Prop :=
  rejected ts d r ∨
  ∃ t k b, t ∈ ts ∧ client_block (cl_addr_ (ses r)) t k b ∧ refused bs d k b r.

Lemma stopped_finished ts bs d r :
  stopped ts bs d r → stat_ (ses r) = State.finish ∧ was_error (ses r) = true.
Proof.
  intros [(? & Hm & _)|(? & ? & ? & _ & _ & ? & ? & _)]; [|done]. split; [done|].
  unfold was_error. rewrite Hm. apply orb_true_r.
Qed.

Lemma stopped_app ts1 ts ts2 bs d r :
  stopped ts bs d r → stopped (ts1 ++ ts ++ ts2) bs d r.
Proof.
  assert (Hin : ∀ t, t ∈ ts → t ∈ ts1 ++ ts ++ ts2) by (intros; rewrite !elem_of_app; auto).
  intros [(Hf & He & Hm & t & n & b & Ht & Hr)|(t & k & b & Ht & Hb & Hr)]; [left|right].
  - split_and!; try done. exists t, n, b. auto.
  - exists t, k, b. auto.
Qed.

(** One iteration stores at most one block, which the client has sent. *)
Definition stores_on (d : bytes) r t : Prop :=
  ∃ r' acc, step r t = Ok r' ∧ from_client (cl_addr_ (ses r)) [t] acc ∧
    ((stage_ (ses r') ≤ stage_ (ses r) + 2 ∧
      storing (foldl (store (block_size (ses r))) d acc) r') ∨
     (acc = [] ∧ stopped [t] (block_size (ses r)) d r')).

Lemma from_client_app cl ts1 ts2 acc1 acc2 :
  from_client cl ts1 acc1 → from_client cl ts2 acc2 →
  from_client cl (ts1 ++ ts2) (acc1 ++ acc2).
Proof. induction 1; intros; simpl; eauto using from_client. Qed.

Lemma from_client_none cl ts : from_client cl ts [].
Proof. induction ts; constructor; auto. Qed.

Lemma stores_on_none d r t r' :
  step r t = Ok r' → stage_ (ses r') ≤ stage_ (ses r) + 2 → storing d r' →
  stores_on d r t.
Proof.
  intros E Hs Hd. exists r', []. split_and!; try done; [apply from_client_none|by left].
Qed.

(** A packet with opcode 3 is a DATA packet. *)
Lemma data_packet_shape p :
  rx_op_of p = 3 → p = data_packet (rx_blk_of p) (drop 4 p) ∧ 0 ≤ rx_blk_of p < 2 ^ 16.
Proof.
  unfold rx_op_of, rx_blk_of. destruct (3 <? size p) eqn:Hs; [|done]. reflect_bools.
  intros Hop. assert (Hl : ∀ off, 0 ≤ off ≤ 2 → length (slice p off 2) = 2%nat).
  { intros off Ho. pose proof (slice_length p off 2 ltac:(lia) ltac:(lia) ltac:(lia)) as E.
    unfold size in E. lia. }
  split.
  - unfold data_packet. rewrite <-Hop.
    pose proof (be_split_combine (slice p 0 2)) as E0.
    pose proof (be_split_combine (slice p 2 2)) as E2.
    rewrite Hl in E0, E2 by lia. rewrite E0, E2. unfold slice. cbn [Z.to_nat Pos.to_nat].
    change (Pos.to_nat 2) with 2%nat. rewrite drop_0, app_assoc.
    rewrite take_take_drop. by rewrite take_drop.
  - pose proof (be_combine_range (slice p 2 2)) as Hr. unfold size in Hr.
    rewrite Hl in Hr by lia. exact Hr.
Qed.

Lemma data_packet_wrap n b : data_packet (n `mod` 2 ^ 16) b = data_packet n b.
Proof. unfold data_packet. do 2 f_equal. apply (be_split_wrap 2). Qed.

(** A block 0 that is not empty: its position is negative. *)
Definition zero_block s t : Prop :=
  stage_ s < 2 ^ 16 ∧ ∃ b, b ≠ [] ∧ client_block (cl_addr_ s) t 0 b.

Lemma zero_block_alt s t :
  zero_block s t ↔ stage_ s < 2 ^ 16 ∧
    match rx t with
    | RxPkt p from => eqb from (cl_addr_ s) = true ∧ drop 4 (delivered p) ≠ [] ∧
                      delivered p = data_packet 0 (drop 4 (delivered p))
    | _ => False
    end.
Proof.
  unfold zero_block, client_block. split; intros [Hs Hz]; (split; [done|]).
  - destruct Hz as (b & Hb & p & from & -> & Hf & Hp). rewrite Hp. by split_and!.
  - destruct (rx t) as [| |p from]; try done. destruct Hz as (Hf & Hb & Hp).
    exists (drop 4 (delivered p)). split; [done|]. by exists p, from.
Qed.

#[export] Instance zero_block_dec s t : Decision (zero_block s t).
Proof.
  destruct (rx t) as [| |p from] eqn:E; [right|right|].
  1,2: rewrite zero_block_alt, E; tauto.
  destruct (decide (stage_ s < 2 ^ 16 ∧ eqb from (cl_addr_ s) = true ∧
    drop 4 (delivered p) ≠ [] ∧ delivered p = data_packet 0 (drop 4 (delivered p))));
    [left|right]; rewrite zero_block_alt, E; tauto.
Defined.

Lemma store_at m w d s k blk :
  writing m w d → 0 ≤ k → (k = 0 → blk = []) → (k - 1) * block_size s < 2 ^ 63 →
  0 < block_size s →
  ∃ m' w' ret errs,
    dm_write m w blk (block_position (with_stage s k)) = Ok (m', w', ret, errs) ∧
    ((0 ≤ ret ∧ errs = [] ∧ writing m' w' (store (block_size s) d (k, blk))) ∨
     (ret = -1 ∧ Exists (λ e, e.2 ≠ []) errs ∧ 0 ≤ (k - 1) * block_size s ∧
      block_position (with_stage s k) = (k - 1) * block_size s)).
Proof.
  intros Hw Hk Hz Hpos Hbs. unfold store. cbn [fst snd]. case_bool_decide as Hb.
  - subst blk. exists m, w, 0, []. split; [by eapply write_nothing|]. by left.
  - assert (1 ≤ k) by (destruct (decide (k = 0)); [by destruct Hb; auto|lia]).
    pose proof (wrap_range 16 (blksize (opt_ s)) ltac:(lia)).
    unfold block_size in Hpos, Hbs.
    rewrite block_position_eq; [|cbn; nia|exact Hpos]. cbn [stage_ with_stage].
    change (block_size (with_stage s k)) with (block_size s).
    destruct (write_block m w d blk ((k - 1) * block_size s) Hw)
      as (m' & w' & ret & errs & E & Hc); [unfold block_size; nia|done|].
    exists m', w', ret, errs. split; [done|].
    destruct Hc as [(-> & ? & ?)|[-> ?]]; [left|right]; pose proof (size_nonneg blk);
      split_and!; try done. unfold block_size. nia.
Qed.

Lemma receive_in_data_rx s w b t m d :
  stat_ s = State.data_rx → run_buf b → 0 < block_size s →
  0 ≤ stage_ s → (stage_ s + 1) * 65536 < 2 ^ 62 →
  file_man_ s = Some m → writing m w d → ¬ zero_block s t →
  ∃ s' w' b' res, run_buf b' ∧ receive_no_wait s w b t = Ok (s', w', b', res) ∧
    match res with
    | TripleResult.nop => s' = s ∧ w' = w
    | TripleResult.ok => ∃ k blk m', client_block (cl_addr_ s) t k blk ∧
        0 ≤ k ≤ stage_ s + 1 ∧ s' = with_man (with_stage s k) (Some m') ∧
        writing m' w' (store (block_size s) d (k, blk))
    | TripleResult.fail => s' = s ∧ w' = w ∨
        ∃ k blk, client_block (cl_addr_ s) t k blk ∧
          ((s' = set_error_if_first s 0 number_error ∧ w' = w ∧ 0 ≤ k < 2 ^ 16 ∧
            stage_in_range s k = false) ∨
           ∃ m' errs, 0 ≤ (k - 1) * block_size s < 2 ^ 63 ∧
             dm_write m w blk ((k - 1) * block_size s) = Ok (m', w', -1, errs) ∧
             Exists (λ e, e.2 ≠ []) errs ∧
             s' = report (with_man (with_stage s k) (Some m')) errs)
    end.
Proof.
  intros Hst Hb Hbs Hs Hs' Hm Hw Hz. destruct (rx t) as [| |p from] eqn:Hrx.
  - exists s, w, b, TripleResult.nop. unfold receive_no_wait. by rewrite Hrx.
  - exists s, w, b, TripleResult.fail. unfold receive_no_wait. rewrite Hrx. auto.
  - destruct (receive_packet s w b t p from Hb Hrx) as (b' & Hrec & E).
    pose proof Hrec as (Hb' & _). rewrite Hst in E.
    rewrite bool_decide_true, andb_true_r, (bool_decide_false (_ = State.ack_rx)),
      andb_false_r in E by done.
    destruct (eqb from _) eqn:Hf; cbn [negb] in E; [|by exists s, w, b', TripleResult.nop].
    destruct (_ =? 3) eqn:Hop; reflect_bools; [|by exists s, w, b', TripleResult.nop].
    destruct (data_packet_shape _ Hop) as [Hp Hn].
    set (n := rx_blk_of (delivered p)) in *. set (blk := drop 4 (delivered p)) in *.
    unfold receive_data in E. destruct (stage_in_range s n) eqn:Hr; cbn [negb] in E.
    + assert (Hs2 : 0 ≤ stage_ s < 2 ^ 62) by lia.
      destruct (sync_stage_range s n Hs2 Hr) as (k & Hk & Ek & Hkn).
      rewrite Ek in E. cbn [file_man_ with_stage] in E.
      rewrite Hm, Hp, (received_block b b') in E by (by rewrite <-Hp).
      assert (Hblk : client_block (cl_addr_ s) t k blk).
      { exists p, from. split_and!; try done. rewrite Hp, <-(data_packet_wrap k), Hkn.
        f_equal. rewrite Z.add_sub_swap, <-Z.add_mod_idemp_l, Zminus_mod_idemp_r,
          Z.sub_diag by lia. rewrite Z.mod_0_l, Z.add_0_l by lia. symmetry. by apply Z.mod_small. }
      pose proof (wrap_range 16 (blksize (opt_ s)) ltac:(lia)).
      destruct (store_at m w d s k blk) as (m' & w' & ret & errs & Ew & Hc); try done;
        [lia| |unfold block_size; nia|].
      { intros ->. destruct (decide (blk = [])) as [|Hne]; [done|]. destruct Hz.
        split; [|by exists blk].
        pose proof (Z.mod_le (stage_ s) (2 ^ 16)). pose proof (Z.mod_pos_bound (stage_ s) (2 ^ 16)).
        lia. }
      rewrite Ew in E. cbn [mbind outcome_bind] in E.
      destruct Hc as [(Hret & -> & Hw')|(-> & Hx & Hk0 & Hpos)].
      * rewrite (proj2 (Z.ltb_ge ret 0)) in E by lia. eexists _, w', b', TripleResult.ok.
        split; [done|]. split; [exact E|]. exists k, blk, m'. split_and!; (done || lia).
      * eexists _, w', b', TripleResult.fail. split; [done|]. split; [exact E|]. right.
        exists k, blk. split; [done|]. right. exists m', errs. rewrite <-Hpos.
        split; [rewrite Hpos; split; [done|unfold block_size; nia]|].
        split; [done|]. split; [done|]. unfold set_error_if_first.
        by rewrite (was_error_report (with_man (with_stage s k) (Some m')) errs Hx).
    + eexists _, w, b', TripleResult.fail. split; [done|]. split; [exact E|]. right.
      exists n, blk. split; [exists p, from; split; [exact Hrx|split; [exact Hf|exact Hp]]|]. left. split_and!; (done || lia).
Qed.

(** [storing] of a concrete record, with the manager of the context. *)
Ltac by_storing m :=
  split; [done|]; split; [done|]; split; [cbn; lia|]; split; [done|]; split;
  [by exists m|cbn; try match goal with Hst : stat_ _ = _ |- _ => rewrite Hst end; by_decide].

Lemma stores_data_rx d r t :
  servable (ses r) → (stage_ (ses r) + 1) * 65536 < 2 ^ 62 → storing d r →
  stat_ (ses r) = State.data_rx → ¬ zero_block (ses r) t → stores_on d r t.
Proof.
  intros ((Hbs & _) & Hto & _) Hbound (Hrq & Hb & Hs & He & (m & Hm & Hw) & _) Hst Hz.
  destruct (receive_in_data_rx (ses r) (world r) (local_buf (loc r)) t m d)
    as (s' & w' & b & res & Hb' & E & Hres); [done..|].
  assert (Estep : step r t = step_data_rx r t) by (unfold step; by rewrite Hst).
  unfold step_data_rx in Estep. rewrite E in Estep. cbn [mbind outcome_bind] in Estep.
  destruct res.
  - destruct Hres as [-> ->]. unfold timeout_pass in Estep.
    rewrite (proj2 (Z.eqb_neq _ _) Hto) in Estep. cbn [mbind outcome_bind] in Estep.
    rewrite goto_allowed in Estep by (by rewrite Hst).
    eapply stores_on_none; [exact Estep|cbn; destruct (_ <? _); cbn; lia|].
    destruct (_ <? _); by_storing m.
  - destruct Hres as (k & blk & m' & Hblk & Hk & -> & Hw').
    rewrite goto_allowed in Estep by (simpl; by rewrite Hst).
    destruct (is_window_close _ _);
      (eexists _, [(k, blk)]; split; [exact Estep|]; split;
       [apply from_client_block; [done|constructor]|]);
      cbn [ses stage_ with_stat with_man with_stage foldl]; left.
    + split; [lia|]. by_storing m'.
    + rewrite wrap_small by lia. split; [lia|]. by_storing m'.
  - destruct (receive_evolves _ _ _ _ _ _ _ _ E) as [Hev Hst2].
    assert (Hfin : goto s' State.error_and_stop = with_stat s' State.finish).
    { unfold goto, switch_to. rewrite Hst2, Hst. done. }
    rewrite Hfin in Estep. destruct Hres as [[-> ->]|(k & blk & Hblk & Hcase)].
    + eapply stores_on_none; [exact Estep|cbn; lia|]. by_storing m.
    + eexists _, []. split; [exact Estep|]. split; [apply from_client_none|]. right.
      split; [done|]. destruct Hev as (_ & _ & Hcl & _).
      destruct Hcase as [(-> & -> & Hk & Hir)|(m' & errs & Hpos & Ew & Hx & ->)]; [left|right].
      * unfold set_error_if_first in *. rewrite He in *. cbn [negb] in *. split_and!; try done.
        { by exists m. }
        exists t, k, blk. split; [by left|]. done.
      * exists t, k, blk. split; [by left|]. split; [by rewrite <-Hcl in Hblk|].
        by eapply report_refused.
Qed.

Lemma stores_step d r t :
  servable (ses r) → (stage_ (ses r) + 1) * 65536 < 2 ^ 62 → storing d r →
  stat_ (ses r) ≠ State.finish →
  ¬ (stat_ (ses r) = State.data_rx ∧ zero_block (ses r) t) → stores_on d r t.
Proof.
  intros Hp Hbound Hd Hf Hz. pose proof Hp as (_ & _ & Ho).
  pose proof Hd as (Hrq & Hb & Hs & He & (m & Hm & Hw) & Hin).
  destruct (stat_ (ses r)) eqn:Hst; try done; try by (exfalso; revert Hin; by_decide).
  - (* error_and_stop *)
    eapply stores_on_none; [unfold step; rewrite Hst; unfold step_error_and_stop;
      rewrite He; cbn [mbind outcome_bind]; by rewrite goto_allowed by (by rewrite Hst)
      |cbn; lia|]. by_storing m.
  - (* ack_options *)
    destruct (was_set_any (opt_ (ses r))) eqn:Hany.
    + destruct (construct_opt_reply_packet (ses r) (local_buf (loc r)) Hb Ho Hany)
        as (b & E & Hb' & _).
      eapply stores_on_none; [unfold step; rewrite Hst; unfold step_ack_options;
        rewrite Hany, Hrq, E; cbn [mbind outcome_bind];
        by rewrite goto_allowed by (by rewrite Hst)|cbn; lia|]. by_storing m.
    + eapply stores_on_none; [unfold step; rewrite Hst; unfold step_ack_options;
        rewrite Hany, Hrq; cbn [mbind outcome_bind];
        by rewrite goto_allowed by (simpl; by rewrite Hst)|cbn; lia|]. by_storing m.
  - apply stores_data_rx; auto.
  - (* ack_tx *)
    destruct (ack_tx_sends r t) as (b & Hb' & E); [done|done|lia|].
    eapply stores_on_none; [exact E|cbn; lia|]. destruct (last_blk_processed_ _); by_storing m.
  - (* retransmit *)
    assert (Estep : step r t = step_retransmit r t) by (unfold step; by rewrite Hst).
    unfold step_retransmit in Estep. cbv zeta in Estep. rewrite Hrq in Estep.
    rewrite !goto_allowed in Estep by (by rewrite Hst).
    destruct (_ <? _); (eapply stores_on_none; [exact Estep|cbn; lia|]); by_storing m.
Qed.

(** Where an execution leaves the guarantees behind: all ticks are used, the
    session is done, or the client sends a block 0. *)
Definition write_ends r (rest : list tick) : Prop :=
  rest = [] ∨ stat_ (ses r) = State.finish ∨
  ∃ t ts, rest = t :: ts ∧ stat_ (ses r) = State.data_rx ∧ zero_block (ses r) t.

Lemma storing_runs d r ts :
  servable (ses r) → (stage_ (ses r) + 2 * Z.of_nat (length ts) + 1) * 65536 < 2 ^ 62 →
  storing d r →
  ∃ ts1 ts2 r' acc, ts = ts1 ++ ts2 ∧ run_loop r ts1 = Ok r' ∧
    from_client (cl_addr_ (ses r)) ts1 acc ∧
    (storing (foldl (store (block_size (ses r))) d acc) r' ∨
     stopped ts1 (block_size (ses r)) (foldl (store (block_size (ses r))) d acc) r') ∧
    write_ends r' ts2.
Proof.
  revert d r. induction ts as [|t ts IH]; intros d r Hp Hbound Hs.
  { exists [], [], r, []. split_and!; [done| |constructor|by left|by left].
    cbn [run_loop]. by destruct (is_finished _). }
  cbn [length] in Hbound.
  destruct (decide (stat_ (ses r) = State.finish)) as [Hf|Hf].
  { exists [], (t :: ts), r, []. split_and!; [done| |constructor|by left|right; by left].
    by rewrite run_loop_finished. }
  destruct (decide (stat_ (ses r) = State.data_rx ∧ zero_block (ses r) t)) as [[Hst Hz]|Hz].
  { exists [], (t :: ts), r, []. split_and!; [done| |constructor|by left|].
    - cbn [run_loop]. by destruct (is_finished _).
    - right. right. by exists t, ts. }
  destruct (stores_step d r t) as (r1 & acc & E & Hacc & Hnext); [done|lia|done|done|done|].
  destruct (step_evolves _ _ _ E) as [(_ & _ & Hcl & Ho & _) _].
  assert (Hbs : block_size (ses r1) = block_size (ses r)) by (unfold block_size; by rewrite Ho).
  destruct Hnext as [[Hstage Hs1]|Hfail].
  - destruct (IH (foldl (store (block_size (ses r))) d acc) r1)
      as (ts1 & ts2 & r' & acc' & -> & E' & Hacc' & Hs' & Hend);
      [by apply (servable_opt (ses r))|lia|done|].
    exists (t :: ts1), ts2, r', (acc ++ acc'). rewrite run_loop_cons, E by done.
    rewrite foldl_app. rewrite Hcl in Hacc'. rewrite Hbs in Hs'. split_and!; try done.
    + by apply (from_client_app _ [t]).
    + destruct Hs' as [?|Hs']; [by left|right]. apply (stopped_app [t] _ []) in Hs'.
      by rewrite app_nil_r in Hs'.
  - destruct Hfail as [-> Hfail]. pose proof (stopped_finished _ _ _ _ Hfail) as [Hfin _].
    exists [t], ts, r1, []. rewrite run_loop_cons, E by done. split_and!; try done.
    + cbn [mbind outcome_bind]. by apply run_loop_finished.
    + by right.
    + right. by left.
Qed.
End traffic.

(** ** Properties *)

(** C7. Integrity of a download under arbitrary traffic: whatever datagrams arrive
    from whomever, whatever the clock and the system calls do and whatever the
    window is, every DATA packet of a read session carries exactly the block of
    the file its number says, from the first up to and including the last block;
    the only way out before is a timeout while the confirmation of the options is
    not yet acknowledged, after which the session asks for block 0. *)
Theorem read_integrity {W M} `{DataMgrLaws W M} (s : Session M) (w : W) m d t0 ts :
  stat_ s = State.need_init → was_error s = false →
  request_type (opt_ s) = SrvReq.read → servable s → 0 ≤ sock t0 → bound t0 = true →
  dm_init dm_new w (settings_ s) (opt_ s) = Ok (m, w, true, []) →
  reading m w d → size d < 2 ^ 62 - 2 ^ 20 →
  ∃ ts1 ts2 r, ts = ts1 ++ ts2 ∧ run_loop (run_start s w) (t0 :: ts1) = Ok r ∧
    Forall (right_packet d (block_size s)) (sent r) ∧ read_ends d r (sent r) ts2.
Proof.
  intros Hst He Hrq Hp Hsock Hbound Hi Hr Hd.
  pose proof (need_init_done (run_start s w) t0 m w Hst He Hsock Hbound Hi) as E.
  set (r1 := {| ses := _; world := _; loc := _; sent := _ |}) in E.
  destruct (serving_runs d r1 ts) as (ts1 & ts2 & r & ps & -> & E1 & Hs & Hps & Hbs & Hend);
    [exact Hp|exact Hd| |].
  { right. split; [exact Hrq|]. split; [apply run_buf_new|]. split; [reflexivity|].
    split; [by exists m|exact He]. }
  exists ts1, ts2, r. change (sent r1) with (@nil bytes) in Hs. cbn [app] in Hs. rewrite Hs.
  split; [done|]. split; [|by split].
  rewrite run_loop_cons by (cbn [run_start ses with_stage stat_]; by rewrite Hst).
  rewrite E. exact E1.
Qed.

(** A request without options, a foreign datagram, an acknowledgement of the block
    before, and a timeout. *)
Definition stray_ticks : list tick :=
  [at_time 100 RxAgain; at_time 100 RxAgain; at_time 101 (RxPkt (ack_packet 7) Addr_new);
   at_time 102 (RxPkt (ack_packet 0) demo_client); at_time 103 RxAgain].

Lemma read_integrity_witness :
  ∃ ts1 ts2 r, stray_ticks = ts1 ++ ts2 ∧
    run_loop (run_start (demo_session demo_read_opt) demo_fs)
      (demo_tick RxAgain :: ts1) = Ok r ∧
    Forall (right_packet demo_file 8) (sent r) ∧ read_ends demo_file r (sent r) ts2.
Proof.
  apply (read_integrity (demo_session demo_read_opt) demo_fs (demo_reader demo_read_opt)
    demo_file (demo_tick RxAgain) stray_ticks).
  - reflexivity.
  - reflexivity.
  - reflexivity.
  - unfold servable, opts_wf; split_and!; vm_compute; (reflexivity || discriminate).
  - vm_compute. discriminate.
  - reflexivity.
  - vm_compute. reflexivity.
  - split_and!; vm_compute; reflexivity.
  - vm_compute. reflexivity.
Defined.


(** Blocks 1, 2 and 1 again, with an intruder's block in between. *)
Definition stray_uploads : list tick :=
  [demo_tick RxAgain; demo_tick (RxPkt (data_packet 1 (str "uploaded")) demo_client);
   demo_tick RxAgain; demo_tick (RxPkt (data_packet 2 (str "attacked")) Addr_new);
   demo_tick (RxPkt (data_packet 1 (str "UPLOADED")) demo_client); demo_tick RxAgain].

