(* ===== verification/SessionRepeats.v ===== *)
(** * SessionRepeats: transfers with repeated packets and windows

    Packets of a datagram network are repeated: a client that misses an answer
    sends its last packet again, and old packets may arrive late. [run] of
    [tftpSession.cpp] then goes back to the number of the packet
    ([receive_no_wait]: "Switch blk"). The theorems follow a client whose packets
    repeat earlier numbers in any way, for write requests with any window. They
    contain the lock-step transfers of [SessionRead] and [SessionWrite]. *)

From Stdlib Require Import Strings.Byte.
From S2P Require Import Prelude Common SmBuf Options Regex Addr Settings Base.
From S2P Require Import FileSys DataMgr DataMgrFile SmBufEx Session SessionPackets SessionSafety.
From S2P Require Import SessionRead SessionWrite SessionTraffic.

(** Block numbers on the wire have 16 bits: [n] is understood as [n] only when it
    has the same high part as the current number [k]. *)
Definition same_epoch (n k : Z) : Prop := n / 2 ^ 16 = k / 2 ^ 16.

(** ** The file as blocks arrive *)

(** The first [n] blocks of a file. *)
Definition first_blocks (f : bytes) (bs n : Z) : bytes := take (Z.to_nat (n * bs)) f.

Lemma put_same d pos b :
  0 ≤ pos → pos + size b ≤ size d → slice d pos (size b) = b → put d pos b = d.
Proof.
  intros Hp Hs Hb. pose proof (size_nonneg b). unfold put. rewrite (Z2Nat.nonpos (pos - size d)) by lia.
  cbn [replicate]. rewrite app_nil_r. unfold blit, slice, size in *. rewrite Nat2Z.id in Hb.
  rewrite <-Hb at 1. by rewrite <-drop_drop, take_drop, take_drop.
Qed.

Lemma block_full f bs n :
  0 < bs → 1 ≤ n → n * bs ≤ size f → size (block f bs n) = bs.
Proof. intros. unfold block. apply slice_length; nia. Qed.

Lemma first_blocks_snoc f bs n :
  0 < bs → 0 ≤ n → first_blocks f bs n ++ block f bs (n + 1) = first_blocks f bs (n + 1).
Proof.
  intros Hbs Hn. unfold first_blocks, block, slice.
  replace (n + 1 - 1) with n by lia. rewrite take_take_drop. f_equal. nia.
Qed.

(** Storing block [n] of the file again, or as the next one. *)
Lemma store_block f bs mx n :
  0 < bs → 1 ≤ n ≤ mx + 1 → mx * bs ≤ size f →
  store bs (first_blocks f bs mx) (n, block f bs n) = first_blocks f bs (Z.max mx n).
Proof.
  intros Hbs Hn Hmx. assert (Hsz : size (first_blocks f bs mx) = mx * bs).
  { unfold first_blocks, size in *. rewrite length_take. nia. }
  unfold store. cbn [fst snd]. destruct (decide (n = mx + 1)) as [->|Hne].
  - rewrite Z.max_r by lia. rewrite <-first_blocks_snoc by lia.
    case_bool_decide as Hb; [by rewrite Hb, app_nil_r|].
    replace ((mx + 1 - 1) * bs) with (size (first_blocks f bs mx)) by lia. apply put_end.
  - rewrite Z.max_l by lia. case_bool_decide; [done|].
    assert (Hb : block f bs n = slice (first_blocks f bs mx) ((n - 1) * bs) bs).
    { unfold block, first_blocks. symmetry. apply slice_take; nia. }
    apply put_same; rewrite ?(block_full f bs n) by nia; [nia|nia|by symmetry].
Qed.

Lemma first_blocks_all f bs n : size f ≤ n * bs → first_blocks f bs n = f.
Proof. intros. unfold first_blocks, size in *. apply take_ge. lia. Qed.

(** ** Write requests *)

(** Waiting, a DATA packet with block [nu_num], and the answer when the packet
    closes a window of [ws] blocks. *)
Record numbered := {
  nu_noise : list tick;
  nu_data : tick;
  nu_ack : tick;
  nu_num : Z
}.

Definition closes (ws n : Z) : bool := n `mod` ws =? 0.

Definition nu_ticks (ws : Z) (u : numbered) : list tick :=
  nu_noise u ++ nu_data u :: (if closes ws (nu_num u) then [nu_ack u] else []).

(** When the session begins to wait for the next packet. *)
Definition nu_time (ws : Z) (u : numbered) : Z :=
  if closes ws (nu_num u) then now (nu_ack u) else now (nu_data u).

Definition nu_ok (o : Options) (cl : Addr) (f : bytes) (bs t0 k : Z) (u : numbered) : Prop :=
  Forall (noise 3 o cl t0) (nu_noise u) ∧ 1 ≤ nu_num u ≤ k ∧ same_epoch (nu_num u) k ∧
  ∃ from, rx (nu_data u) = RxPkt (data_packet (nu_num u) (block f bs (nu_num u))) from ∧
          eqb from cl = true.

(** A walk through the blocks: after block [n] the client sends [n + 1] or an
    earlier one. The walk ends with the last block of the file. *)
Fixpoint walk_ok (o : Options) (cl : Addr) (f : bytes) (bs ws t0 k : Z)
    (us : list numbered) : Prop :=
  match us with
  | [] => False
  | u :: us =>
      nu_ok o cl f bs t0 k u ∧
      if size f <? nu_num u * bs then us = []
      else walk_ok o cl f bs ws (nu_time ws u) (nu_num u + 1) us
  end.

(** The acknowledgements of a walk: one per closed window. *)
Definition walk_acks (ws : Z) (us : list numbered) : list bytes :=
  map ack_packet (filter (λ n, closes ws n = true) (map nu_num us)).

Section repeats.
Context {W M : Type} `{DataMgrLaws W M}.
Implicit Types (s : Session M) (w : W) (r : run_st W M).

Lemma same_epoch_sync s n :
  0 ≤ stage_ s < 2 ^ 62 → 0 ≤ n ≤ stage_ s + 1 → same_epoch n (stage_ s) →
  stage_in_range s (n `mod` 2 ^ 16) = true ∧
  sync_stage s (n `mod` 2 ^ 16) = with_stage s n.
Proof.
  intros Hs Hn He. unfold same_epoch in He.
  pose proof (Z.div_mod n (2 ^ 16) ltac:(lia)) as E1.
  pose proof (Z.div_mod (stage_ s) (2 ^ 16) ltac:(lia)) as E2. rewrite He in E1.
  unfold stage_in_range, sync_stage, rx_stage. rewrite !blk_num_local_mod.
  rewrite (swrap_small 64 (stage_ s)), (wrap_small 64 (stage_ s + 1)),
    (swrap_small 64 (stage_ s + 1)) by lia.
  replace (stage_ s + n `mod` 2 ^ 16 - stage_ s `mod` 2 ^ 16) with n by lia. split.
  - by rewrite (proj2 (Z.leb_le _ _)), (proj2 (Z.leb_le _ _)) by lia.
  - destruct (_ =? _) eqn:E; reflect_bools; cbn [negb].
    + assert (n = stage_ s) as -> by lia. by rewrite with_stage_same.
    + by rewrite wrap_small by lia.
Qed.

(** Waiting for block [k], with [d] in the file. *)
Definition collecting (d : bytes) (k : Z) r : Prop :=
  stat_ (ses r) = State.data_rx ∧ stage_ (ses r) = k ∧ was_error (ses r) = false ∧
  run_buf (local_buf (loc r)) ∧ ∃ m, file_man_ (ses r) = Some m ∧ writing m (world r) d.

(** The packet of block [n] goes to the manager. *)
Lemma receive_numbered s w b t m n blk from d :
  stat_ s = State.data_rx → run_buf b → 0 < block_size s → 1 ≤ n ≤ stage_ s + 1 →
  0 ≤ stage_ s →
  (stage_ s + 1) * 65536 < 2 ^ 62 → same_epoch n (stage_ s) → size blk ≤ 65531 →
  file_man_ s = Some m → writing m w d →
  rx t = RxPkt (data_packet n blk) from → eqb from (cl_addr_ s) = true →
  ∃ b', received b b' (data_packet n blk) ∧
    ((∃ m' w', receive_no_wait s w b t
               = Ok (with_man (with_stage s n) (Some m'), w', b', TripleResult.ok) ∧
               writing m' w' (store (block_size s) d (n, blk))) ∨
     (∃ m' w' errs, 0 ≤ (n - 1) * block_size s < 2 ^ 63 ∧ dm_write m w blk ((n - 1) * block_size s) = Ok (m', w', -1, errs) ∧
        Exists (λ e, e.2 ≠ []) errs ∧ receive_no_wait s w b t
          = Ok (report (with_man (with_stage s n) (Some m')) errs, w', b', TripleResult.fail))).
Proof.
  intros Hst Hb Hbs Hn Hs0 Hbound Hep Hblk Hm Hw Hrx Hf.
  destruct (receive_packet s w b t _ from Hb Hrx) as (b' & Hrec & E).
  rewrite delivered_id in Hrec, E by (rewrite size_data; lia). exists b'. split; [done|].
  pose proof (Z.mod_pos_bound n (2 ^ 16) ltac:(lia)) as Hmod.
  destruct (data_packet_fields (n `mod` 2 ^ 16) blk Hmod) as [Eop Eblk].
  rewrite data_packet_wrap in Eop, Eblk. rewrite Eop, Eblk, Hf, Hst in E.
  cbn [negb andb Z.eqb Pos.eqb] in E. rewrite bool_decide_true in E by done.
  destruct (same_epoch_sync s n) as [Hin Hsync]; [lia|lia|done|].
  unfold receive_data in E. rewrite Hin, Hsync in E. cbn [negb file_man_ with_stage] in E.
  rewrite Hm, (received_block _ _ _ _ Hrec) in E.
  pose proof (wrap_range 16 (blksize (opt_ s)) ltac:(lia)).
  destruct (store_at m w d s n blk) as (m' & w' & ret & errs & Ew & Hc);
    [done|lia|lia|unfold block_size; nia|done|].
  rewrite Ew in E. cbn [mbind outcome_bind] in E.
  destruct Hc as [(Hret & -> & Hw')|(-> & Hx & Hn0 & Hpos)].
  - left. rewrite (proj2 (Z.ltb_ge ret 0)) in E by lia. by exists m', w'.
  - right. exists m', w', errs. rewrite <-Hpos. split; [rewrite Hpos; split; [done|unfold block_size; nia]|].
    split; [done|]. split; [done|]. rewrite E.
    unfold set_error_if_first.
    by rewrite (was_error_report (with_man (with_stage s n) (Some m')) errs Hx).
Qed.

Lemma block_last f bs n :
  0 < bs → 1 ≤ n → negb (size (block f bs n) =? bs) = (size f <? n * bs).
Proof.
  intros Hbs Hn. unfold block, slice. unfold size at 1.
  rewrite length_take, length_drop. unfold size.
  destruct (Z.ltb_spec (Z.of_nat (length f)) (n * bs)); [apply negb_true_iff, Z.eqb_neq; nia|].
  apply negb_false_iff, Z.eqb_eq. nia.
Qed.

Lemma size_block f bs n : 0 ≤ bs → size (block f bs n) ≤ bs.
Proof. intros. unfold block, slice, size. rewrite length_take. lia. Qed.

Lemma walk_acks_cons ws u us :
  walk_acks ws (u :: us)
  = (if closes ws (nu_num u) then [ack_packet (nu_num u)] else []) ++ walk_acks ws us.
Proof.
  unfold walk_acks. cbn [map]. rewrite filter_cons.
  destruct (closes ws (nu_num u)); by case_decide.
Qed.

(** The iteration that receives block [n] of the file. *)
Lemma numbered_received r t d f k n from :
  let bs := block_size (ses r) in let ws := Session_windowsize (ses r) in
  servable (ses r) → (k + 1) * 65536 < 2 ^ 62 → collecting d k r →
  1 ≤ n ≤ k + 1 → same_epoch n k → 0 ≤ k →
  rx t = RxPkt (data_packet n (block f bs n)) from → eqb from (cl_addr_ (ses r)) = true →
  (∃ m w b, run_buf b ∧ writing m w (store bs d (n, block f bs n)) ∧
     let s := with_man (with_stage (ses r) n) (Some m) in
     let l := with_last (with_buffer (loc r) b) (size f <? n * bs) in
     step r t = Ok
       (if closes ws n
        then {| ses := with_stat s State.ack_tx; world := w; loc := l; sent := sent r |}
        else {| ses := with_stage s (n + 1); world := w; loc := timeout_reset l t;
                sent := sent r |})) ∨
  (∃ r', step r t = Ok r' ∧ refused bs d n (block f bs n) r').
Proof.
  intros bs ws ((Hbs & Hbs') & Hto & _) Hbound (Hst & Hk & He & Hb & m & Hm & Hw) Hn Hep Hk0 Hrx Hf.
  fold bs in Hbs, Hbs'. pose proof (size_block f bs n ltac:(lia)) as Hsz.
  assert (Estep : step r t = step_data_rx r t) by (unfold step; by rewrite Hst).
  unfold step_data_rx in Estep.
  destruct (receive_numbered (ses r) (world r) (local_buf (loc r)) t m n (block f bs n) from d)
    as (b & Hrec & [(m' & w' & E & Hw')|(m' & w' & errs & Hpos & Ew & Hx & E)]);
    try done; [lia|lia|lia|by rewrite Hk|lia| |];
    rewrite E in Estep; cbn [mbind outcome_bind] in Estep.
  - left. exists m', w', b. pose proof Hrec as (Hb2 & _ & Hds & _). split; [done|].
    split; [done|]. rewrite Estep. clear Estep. unfold is_last.
    change (block_size (with_man _ _)) with bs. unfold data_size. rewrite Hds, size_data.
    replace (4 + size (block f bs n) =? bs + 4) with (size (block f bs n) =? bs)
      by (destruct (Z.eqb_spec (size (block f bs n)) bs); symmetry;
          [apply Z.eqb_eq|apply Z.eqb_neq]; lia).
    rewrite block_last by lia. change (is_window_close _ _) with (closes ws n).
    rewrite goto_allowed by (simpl; by rewrite Hst).
    cbn [stage_ with_man with_stage]. rewrite wrap_small by lia. by destruct (closes _ _).
  - right. destruct (receive_evolves _ _ _ _ _ _ _ _ E) as [_ Hst2].
    rewrite Estep. eexists. split; [done|]. unfold goto, switch_to.
    rewrite Hst2, Hst. by eapply report_refused.
Qed.

(** One packet of a walk. *)
Lemma numbered_step r u d f k :
  let bs := block_size (ses r) in let ws := Session_windowsize (ses r) in
  servable (ses r) → (k + 1) * 65536 < 2 ^ 62 → collecting d k r →
  nu_ok (opt_ (ses r)) (cl_addr_ (ses r)) f bs (oper_time_ (loc r)) k u →
  (∃ r', run_loop r (nu_ticks ws u) = Ok r' ∧ opt_ (ses r') = opt_ (ses r) ∧
     cl_addr_ (ses r') = cl_addr_ (ses r) ∧ sent r' = sent r ++ walk_acks ws [u] ∧
     let d' := store bs d (nu_num u, block f bs (nu_num u)) in
     if closes ws (nu_num u) && (size f <? nu_num u * bs) then stored d' r'
     else collecting d' (nu_num u + 1) r' ∧ oper_time_ (loc r') = nu_time ws u) ∨
  ends_failed r (nu_ticks ws u) bs (eq d) [(nu_num u, block f bs (nu_num u))].
Proof.
  intros bs ws Hp Hbound Hc (Hnoise & Hn & Hep & from & Hrx & Hf).
  pose proof Hc as (Hst & Hk & He & Hb & m & Hm & Hw). set (n := nu_num u) in *.
  destruct (wait_noises r 3 (nu_noise u)) as (r1 & E1 & b1 & Hb1 & ->);
    [by right|done|apply Hp|done|].
  set (r1 := {| ses := ses r; world := _; loc := _; sent := _ |}) in *.
  assert (Hc1 : collecting d k r1) by (split_and!; try done; by exists m).
  unfold nu_ticks. rewrite walk_acks_cons, app_nil_r. fold n.
  destruct (numbered_received r1 (nu_data u) d f k n from Hp Hbound Hc1
    ltac:(lia) Hep ltac:(lia) Hrx Hf)
    as [(m' & w' & b2 & Hb2 & Hw' & E)|(r' & E & Hfail)].
  - left. rewrite (run_loop_app _ _ _ _ E1).
    rewrite run_loop_cons by (cbn [r1 ses]; by rewrite Hst). rewrite E.
    change (Session_windowsize (ses r1)) with ws in *.
    change (block_size (ses r1)) with bs in *. cbn [mbind outcome_bind].
    unfold nu_time. fold n. destruct (closes ws n) eqn:Hcl; cbn [andb].
    + set (r2 := {| ses := with_stat _ State.ack_tx; world := _; loc := _; sent := _ |}).
      destruct (ack_tx_sends r2 (nu_ack u)) as (b3 & Hb3 & E3);
        [done|done|cbn [r2 r1 ses stage_ with_stat with_man with_stage]; lia|].
      rewrite run_loop_cons by done. rewrite E3. cbn [mbind outcome_bind]. eexists.
      split; [cbn [run_loop]; by destruct (is_finished _)|]. split_and!; try done.
      cbn [r2 loc with_last with_buffer last_blk_processed_].
      destruct (size f <? _); [split_and!; try done; by exists m'|].
      split; [|done]. split_and!; try done. by exists m'.
    + eexists. split; [cbn [run_loop]; by destruct (is_finished _)|].
      split; [done|]. split; [done|]. split; [by rewrite app_nil_r|]. split; [|done].
      split_and!; try done. by exists m'.
  - right. exists r', d, n, (block f bs n). split; [|by split_and!; [..|left]].
    rewrite (run_loop_app _ _ _ _ E1).
    rewrite run_loop_cons by (cbn [r1 ses]; by rewrite Hst). rewrite E.
    by apply run_loop_finished, Hfail.
Qed.

(** The blocks of a walk with their numbers, and what a file holds in between. *)
Definition walk_blocks (f : bytes) (bs : Z) (us : list numbered) : list (Z * bytes) :=
  map (λ u, (nu_num u, block f bs (nu_num u))) us.

Definition some_blocks (f : bytes) (bs : Z) (d : bytes) : Prop :=
  ∃ n, 0 ≤ n ∧ d = first_blocks f bs n.

(** The whole file is stored: the session is done when the last block closes a
    window, and waits for more otherwise. *)
Definition walk_done f r : Prop :=
  let n := size f / block_size (ses r) + 1 in
  if closes (Session_windowsize (ses r)) n then stored f r else collecting f (n + 1) r.

Lemma walk_runs us r f mx k :
  let bs := block_size (ses r) in let ws := Session_windowsize (ses r) in
  servable (ses r) → size f < 2 ^ 45 → k ≤ mx + 1 → 0 ≤ mx → mx * bs ≤ size f →
  collecting (first_blocks f bs mx) k r →
  walk_ok (opt_ (ses r)) (cl_addr_ (ses r)) f bs ws (oper_time_ (loc r)) k us →
  (∃ r', run_loop r (concat (map (nu_ticks ws) us)) = Ok r' ∧
     opt_ (ses r') = opt_ (ses r) ∧ sent r' = sent r ++ walk_acks ws us ∧ walk_done f r') ∨
  ends_failed r (concat (map (nu_ticks ws) us)) bs (some_blocks f bs) (walk_blocks f bs us).
Proof.
  revert r mx k. induction us as [|u us IH]; intros r mx k bs ws Hp Hf Hk Hmx0 Hmx Hc Hus; [done|].
  destruct Hus as [Hu Hus]. pose proof Hp as ((Hbs & Hbs') & _). fold bs in Hbs, Hbs'.
  pose proof Hu as (_ & Hn & _). set (n := nu_num u) in *. pose proof (size_nonneg f).
  cbn [map concat]. fold n.
  destruct (numbered_step r u (first_blocks f bs mx) f k Hp ltac:(nia) Hc Hu)
    as [(r1 & E1 & Ho & Hcl & Hs1 & Hcase)|Hfail].
  2: { right. eapply ends_failed_weaken; [exact Hfail|intros d <-; by exists mx|].
       intros x ->%list_elem_of_singleton. by left. }
  fold bs ws n in E1, Hs1, Hcase.
  assert (Hbs1 : block_size (ses r1) = bs) by (unfold block_size; by rewrite Ho).
  assert (Hws1 : Session_windowsize (ses r1) = ws)
    by (unfold Session_windowsize; by rewrite Ho).
  rewrite store_block in Hcase by lia.
  destruct (size f <? n * bs) eqn:Hlast; reflect_bools.
  - subst us. left. exists r1. cbn [map concat]. rewrite app_nil_r.
    split; [done|]. split; [done|]. split; [done|]. rewrite first_blocks_all in Hcase by nia.
    assert (size f / bs + 1 = n) as Hn1.
    { assert (size f / bs = n - 1); [|lia]. symmetry.
      apply (Z.div_unique_pos _ _ _ (size f - bs * (n - 1))); nia. }
    unfold walk_done. rewrite Hbs1, Hws1, Hn1. rewrite andb_true_r in Hcase.
    destruct (closes ws n); [done|apply Hcase].
  - rewrite andb_false_r in Hcase. destruct Hcase as [Hc1 Ht1].
    destruct (IH r1 (Z.max mx n) (n + 1)) as [(r' & E & Ho' & Hs' & Hd)|Hfail].
    + by apply (servable_opt (ses r)).
    + done.
    + lia.
    + lia.
    + rewrite Hbs1. nia.
    + by rewrite Hbs1.
    + by rewrite Hbs1, Hws1, Ho, Hcl, Ht1.
    + left. exists r'. rewrite Hws1 in E, Hs'. rewrite (run_loop_app _ _ _ _ E1).
      split; [done|]. split; [by rewrite Ho', Ho|]. split; [|done].
      rewrite Hs', Hs1, !walk_acks_cons. by rewrite <-!app_assoc, app_nil_l.
    + right. rewrite Hws1, Hbs1 in Hfail. eapply ends_failed_app; [exact E1|exact Hfail|].
      intros x Hx. by right.
Qed.

(** A write session from its start to the first wait for a block. *)
Lemma write_session_waits (s : Session M) (w w1 : W) m t0 ts tm :
  stat_ s = State.need_init → was_error s = false →
  request_type (opt_ s) = SrvReq.write → opts_wf (opt_ s) → 0 ≤ sock t0 → bound t0 = true →
  dm_init dm_new w (settings_ s) (opt_ s) = Ok (m, w1, true, []) →
  write_opening (opt_ s) ts tm →
  ∃ r, run_loop (run_start s w) (t0 :: ts) = Ok r ∧ receiving [] 1 r ∧ oper_time_ (loc r) = tm ∧
    opt_ (ses r) = opt_ s ∧ cl_addr_ (ses r) = cl_addr_ s ∧
    sent r = [if was_set_any (opt_ s) then oack_packet (opt_ s) else ack_packet 0].
Proof.
  intros Hst He Hrq Hwf Hsock Hbound Hi Hts.
  pose proof (init_write dm_new w _ _ m w1 [] Hrq Hi) as [_ Hw].
  pose proof (need_init_done (run_start s w) t0 m w1 Hst He Hsock Hbound Hi) as E1.
  set (r1 := {| ses := _; world := _; loc := _; sent := _ |}) in E1.
  destruct (write_opening_runs r1 ts tm m) as (r2 & E2 & Hrec & Ht & Ho2 & Hcl2 & Hs2);
    [reflexivity|exact He|exact Hrq|exact Hwf|apply run_buf_new|reflexivity|reflexivity|
     exact Hw|exact Hts|].
  exists r2. split; [|by split_and!].
  rewrite run_loop_cons by (cbn [run_start ses with_stage stat_]; by rewrite Hst).
  rewrite E1. exact E2.
Qed.
End repeats.

(** ** Read requests *)

(** The acknowledgements of a client: [a] answers block [k] with the number [k] or
    an earlier one; the next block is then [a + 1]. The exchanges end with the
    last block. *)
Fixpoint ack_walk_ok (o : Options) (cl : Addr) (d : bytes) (bs k : Z)
    (es : list (exchange * Z)) : Prop :=
  match es with
  | [] => False
  | (e, a) :: es =>
      exchange_ok o cl a e ∧ 0 ≤ a ≤ k ∧ same_epoch a k ∧
      if size d <? k * bs then es = [] else ack_walk_ok o cl d bs (a + 1) es
  end.

(** The numbers of the blocks that are sent. *)
Fixpoint walk_numbers (k : Z) (es : list (exchange * Z)) : list Z :=
  match es with
  | [] => []
  | (_, a) :: es => k :: walk_numbers (a + 1) es
  end.

(** No block is left out. *)
Lemma walk_numbers_cover o cl d bs k es j :
  0 < bs → ack_walk_ok o cl d bs k es → k ≤ j ≤ size d / bs + 1 → j ∈ walk_numbers k es.
Proof.
  intros Hbs. revert k. induction es as [|[e a] es IH]; intros k Hw Hj; [done|].
  destruct Hw as (_ & Ha & _ & Hw). cbn [walk_numbers].
  destruct (decide (j = k)) as [->|Hne]; [by left|]. right.
  destruct (size d <? k * bs) eqn:E; reflect_bools; [|apply IH; [done|lia]].
  assert (size d / bs < k) by (apply Z.div_lt_upper_bound; nia). lia.
Qed.

Section read_repeats.
Context {W M : Type} `{DataMgrLaws W M}.
Implicit Types (s : Session M) (w : W) (r : run_st W M).

(** The acknowledgement of block [a] while block [stage_] is waited for. *)
Lemma ack_rx_numbered r t a :
  stat_ (ses r) = State.ack_rx → run_buf (local_buf (loc r)) →
  0 ≤ a ≤ stage_ (ses r) → stage_ (ses r) < 2 ^ 62 → same_epoch a (stage_ (ses r)) →
  acked (cl_addr_ (ses r)) a t →
  ∃ b, run_buf b ∧ step r t = Ok
    (if last_blk_processed_ (loc r)
     then {| ses := with_stat (with_stage (ses r) a) State.finish; world := world r;
             loc := with_buffer (loc r) b; sent := sent r |}
     else {| ses := with_stage (with_stat (with_stage (ses r) a) State.data_tx) (a + 1);
             world := world r; loc := timeout_reset (with_buffer (loc r) b) t;
             sent := sent r |}).
Proof.
  intros Hst Hb Ha Hs Hep (from & Hrx & Hf).
  destruct (receive_packet (ses r) (world r) (local_buf (loc r)) t _ from Hb Hrx)
    as (b & (Hb' & _) & E).
  pose proof (Z.mod_pos_bound a (2 ^ 16) ltac:(lia)) as Hmod.
  assert (Hpk : ack_packet a = ack_packet (a `mod` 2 ^ 16)).
  { unfold ack_packet. f_equal. symmetry. apply (be_split_wrap 2). }
  rewrite delivered_id in E by (rewrite size_ack; lia). rewrite Hpk in E.
  destruct (ack_packet_fields (a `mod` 2 ^ 16) Hmod) as [Eop Eblk].
  rewrite Eop, Eblk, Hf, Hst in E. cbn [negb andb Z.eqb Pos.eqb] in E.
  rewrite bool_decide_true in E by done. unfold receive_ack in E.
  destruct (same_epoch_sync (ses r) a) as [Hin Hsync]; [lia|lia|done|].
  rewrite Hin, Hsync in E. cbn [negb] in E.
  exists b. split; [done|]. unfold step. rewrite Hst. unfold step_ack_rx. rewrite E.
  cbn [mbind outcome_bind last_blk_processed_ with_buffer].
  rewrite !goto_allowed by (simpl; by rewrite Hst). destruct (last_blk_processed_ _); [done|].
  cbn [stage_ with_stat with_stage]. by rewrite (wrap_small 64 (a + 1)) by lia.
Qed.

(** One block and an acknowledgement. *)
Lemma exchange_numbered r e d k a :
  transfer_params (ses r) → sending d k r → size d < 2 ^ 61 → 1 ≤ k →
  (k - 1) * block_size (ses r) ≤ size d → 0 ≤ a ≤ k → same_epoch a k →
  exchange_ok (opt_ (ses r)) (cl_addr_ (ses r)) a e →
  ∃ r', run_loop r (ex_ticks e) = Ok r' ∧
    opt_ (ses r') = opt_ (ses r) ∧ cl_addr_ (ses r') = cl_addr_ (ses r) ∧
    was_error (ses r') = false ∧ world r' = world r ∧
    sent r' = sent r ++ [data_packet k (block d (block_size (ses r)) k)] ∧
    (if size d <? k * block_size (ses r) then stat_ (ses r') = State.finish
     else sending d (a + 1) r').
Proof.
  intros Hpar Hs Hd Hk Hpos Ha Hep [Hnoise Hack]. pose proof Hs as (Hst & Hstage & He & _).
  pose proof Hpar as ((Hbs & _) & _). assert (k < 2 ^ 62) by nia.
  destruct (data_tx_sends r (ex_send e) d k) as (m & b & Hb & E & Hr); auto; [lia|lia|].
  unfold ex_ticks. rewrite run_loop_cons by (by rewrite Hst). rewrite E.
  cbn [mbind outcome_bind].
  set (r1 := {| ses := _; world := _; loc := _; sent := _ |}).
  destruct (wait_noises r1 4 (ex_noise e)) as (r2 & E2 & b2 & Hb2 & ->);
    [by left|done|apply Hpar|done|].
  rewrite (run_loop_app _ _ _ _ E2).
  set (r2 := {| ses := ses r1; world := _; loc := _; sent := _ |}).
  assert (Hs2 : stage_ (ses r2) = k) by done.
  destruct (ack_rx_numbered r2 (ex_ack e) a) as (b3 & Hb3 & E3);
    [done|done|by rewrite Hs2|by rewrite Hs2|by rewrite Hs2|done|].
  rewrite run_loop_cons by done. rewrite E3. cbn [mbind outcome_bind].
  cbn [r2 r1 loc with_buffer timeout_reset with_last last_blk_processed_].
  replace (negb (k * block_size (ses r) <=? size d)) with (size d <? k * block_size (ses r))
    by apply Z.ltb_antisym.
  eexists. split; [cbn [run_loop]; by destruct (is_finished _)|].
  destruct (size d <? _) eqn:El; reflect_bools; split_and!; try done.
  split_and!; try done. exists m. auto.
Qed.

Lemma ack_walk_runs es r d k :
  transfer_params (ses r) → sending d k r → size d < 2 ^ 61 → 1 ≤ k →
  (k - 1) * block_size (ses r) ≤ size d →
  ack_walk_ok (opt_ (ses r)) (cl_addr_ (ses r)) d (block_size (ses r)) k es →
  ∃ r', run_loop r (concat (map (λ ea, ex_ticks ea.1) es)) = Ok r' ∧
    stat_ (ses r') = State.finish ∧ was_error (ses r') = false ∧ world r' = world r ∧
    sent r' = sent r ++ map (λ n, data_packet n (block d (block_size (ses r)) n))
                          (walk_numbers k es).
Proof.
  revert r k. induction es as [|[e a] es IH]; intros r k Hpar Hs Hd Hk Hpos Hw; [done|].
  destruct Hw as (He & Ha & Hep & Hw). cbn [map concat fst walk_numbers].
  destruct (exchange_numbered r e d k a) as (r1 & E1 & Ho & Hcl & Her & Hw1 & Hs1 & Hcase);
    try done.
  rewrite (run_loop_app _ _ _ _ E1).
  assert (Hbs1 : block_size (ses r1) = block_size (ses r))
    by (unfold block_size; by rewrite Ho).
  destruct (size d <? _) eqn:El; reflect_bools.
  - subst es. exists r1. cbn [map concat walk_numbers]. split_and!; try done.
    by apply run_loop_finished.
  - destruct (IH r1 (a + 1)) as (r' & E & Hf & He' & Hw' & Hs').
    + unfold transfer_params, Session_windowsize. by rewrite Hbs1, Ho.
    + done.
    + done.
    + lia.
    + rewrite Hbs1. pose proof Hpar as ((Hbs & _) & _). nia.
    + by rewrite Ho, Hcl, Hbs1.
    + exists r'. split_and!; try done; [congruence|].
      rewrite Hs', Hs1, Hbs1. by rewrite <-app_assoc.
Qed.
(** From the initialised session to the end. *)
Lemma confirmed_walk r ts es d m :
  stat_ (ses r) = State.ack_options → was_error (ses r) = false →
  request_type (opt_ (ses r)) = SrvReq.read → opts_wf (opt_ (ses r)) →
  transfer_params (ses r) → run_buf (local_buf (loc r)) →
  last_blk_processed_ (loc r) = false →
  file_man_ (ses r) = Some m → reading m (world r) d → size d < 2 ^ 61 →
  opening_ok (opt_ (ses r)) (cl_addr_ (ses r)) ts →
  ack_walk_ok (opt_ (ses r)) (cl_addr_ (ses r)) d (block_size (ses r)) 1 es →
  ∃ r', run_loop r (ts ++ concat (map (λ ea, ex_ticks ea.1) es)) = Ok r' ∧
    stat_ (ses r') = State.finish ∧ was_error (ses r') = false ∧ world r' = world r ∧
    sent r' = sent r ++ (if was_set_any (opt_ (ses r)) then [oack_packet (opt_ (ses r))] else [])
              ++ map (λ n, data_packet n (block d (block_size (ses r)) n)) (walk_numbers 1 es) ∧
    ∀ n, 1 ≤ n ≤ size d / block_size (ses r) + 1 → n ∈ walk_numbers 1 es.
Proof.
  intros Hst He Hrq Ho Hpar Hb Hl Hm Hr Hd Hts Hes.
  pose proof Hpar as ((Hbs & _) & _). pose proof (size_nonneg d).
  destruct (opening_runs r ts d m) as (r2 & E2 & Hs2 & Ho2 & Hcl2 & Hw2 & Hsent2); try done.
  assert (Hbs2 : block_size (ses r2) = block_size (ses r)) by (unfold block_size; by rewrite Ho2).
  destruct (ack_walk_runs es r2 d 1) as (r' & E & Hf & He' & Hw & Hsent); try done.
  - unfold transfer_params, Session_windowsize. by rewrite Hbs2, Ho2.
  - by rewrite Ho2, Hcl2, Hbs2.
  - exists r'. split_and!; try done.
    + by rewrite (run_loop_app _ _ _ _ E2).
    + by rewrite Hw, Hw2.
    + by rewrite Hsent, Hsent2, Hbs2, <-app_assoc.
    + intros n Hn. by eapply walk_numbers_cover.
Qed.
End read_repeats.

(** ** Properties *)

(** C5. A write transfer of the file [f] (below [2^45] octets) with repeated packets and
    any window, for block sizes up to 65531 and timeouts below [INT_MAX]: after the confirmation of the options (or ACK 0) the client
    sends block 1, and after each block the next one or an earlier one again, in time
    and amid any other datagrams, until the last block. A repeated block must have a
    number with the same upper bits, beyond 16, as the one that is waited for
    ([same_epoch]; [wrapped_repeat_aborts] shows what happens otherwise). The session
    stores exactly [f], acknowledges exactly the packets that close a window, and is
    done when the last block does; or else the data manager has refused a block of the
    walk, when the file held the blocks before, and the session has ended with an
    error that the manager reported. *)
Theorem write_transfer_repeats {W M} `{DataMgrLaws W M} (s : Session M) (w w1 : W) m t0 ts tm f us :
  let ws := Session_windowsize s in
  stat_ s = State.need_init → was_error s = false →
  request_type (opt_ s) = SrvReq.write → servable s → 0 ≤ sock t0 → bound t0 = true →
  dm_init dm_new w (settings_ s) (opt_ s) = Ok (m, w1, true, []) →
  write_opening (opt_ s) ts tm → size f < 2 ^ 45 →
  walk_ok (opt_ s) (cl_addr_ s) f (block_size s) ws tm 1 us →
  let ticks := t0 :: ts ++ concat (map (nu_ticks ws) us) in
  (∃ r, run_loop (run_start s w) ticks = Ok r ∧ opt_ (ses r) = opt_ s ∧ walk_done f r ∧
     sent r = (if was_set_any (opt_ s) then oack_packet (opt_ s) else ack_packet 0)
              :: walk_acks ws us) ∨
  ends_failed (run_start s w) ticks (block_size s) (some_blocks f (block_size s))
    (walk_blocks f (block_size s) us).
Proof.
  intros ws Hst He Hrq Hp Hsock Hbound Hi Hts Hf Hus ticks.
  destruct (write_session_waits s w w1 m t0 ts tm Hst He Hrq (proj2 (proj2 Hp)) Hsock Hbound Hi Hts)
    as (r2 & E12 & Hrec & Ht & Ho2 & Hcl2 & Hs2).
  assert (Hbs2 : block_size (ses r2) = block_size s) by (unfold block_size; by rewrite Ho2).
  assert (Hws2 : Session_windowsize (ses r2) = ws)
    by (unfold ws, Session_windowsize; by rewrite Ho2).
  pose proof Hrec as (Hst2 & Hk2 & He2 & Hb2 & _ & Hman2). pose proof (size_nonneg f).
  destruct (walk_runs us r2 f 0 1) as [(r & E & Ho & Hs & Hd)|Hfail].
  - by apply (servable_opt s).
  - done.
  - lia.
  - lia.
  - lia.
  - by split_and!.
  - by rewrite Hbs2, Hws2, Ho2, Hcl2, Ht.
  - left. exists r. unfold ticks. rewrite app_comm_cons, (run_loop_app _ _ _ _ E12).
    rewrite Hws2 in E, Hs. split; [done|]. split; [by rewrite Ho|]. split; [done|].
    by rewrite Hs, Hs2.
  - right. unfold ticks. rewrite app_comm_cons. rewrite Hws2, Hbs2 in Hfail.
    by eapply ends_failed_app; [exact E12|exact Hfail|].
Qed.

(** A window of two blocks; block 1 is sent twice. *)
Definition demo_win_opt : Options := set_option demo_write_opt name_windowsize 2.

Definition demo_upload_file : bytes := str "uploaded image".

Definition demo_numbered (n : Z) : numbered := {|
  nu_noise := [demo_tick RxAgain; demo_tick (RxPkt (str "junk") demo_client)];
  nu_data := demo_tick (RxPkt (data_packet n (block demo_upload_file 8 n)) demo_client);
  nu_ack := demo_tick RxAgain;
  nu_num := n
|}.

Lemma demo_numbered_ok (o : Options) n k :
  timeout o = 10 → 1 ≤ n ≤ k → same_epoch n k →
  nu_ok o demo_client demo_upload_file 8 100 k (demo_numbered n).
Proof.
  intros Ht Hn He. split; [|split; [done|split; [done|]]].
  - constructor; [|constructor; [|constructor]]; (split; [rewrite Ht; reflexivity|]).
    + left. reflexivity.
    + right. eexists _, _. split; [reflexivity|]. right. vm_compute. discriminate.
  - eexists. split; [reflexivity|]. vm_compute. reflexivity.
Qed.

Definition demo_win_world : MemFs :=
  match dm_init dm_new demo_fs demo_settings demo_win_opt with
  | Ok (_, w, _, _) => w
  | _ => demo_fs
  end.

Lemma write_transfer_repeats_witness :
  ∃ r, run_loop (run_start (demo_session demo_win_opt) demo_fs)
         (demo_tick RxAgain :: [demo_tick RxAgain]
            ++ concat (map (nu_ticks 2) (map demo_numbered [1; 1; 2]))) = Ok r ∧
       stored demo_upload_file r ∧ sent r = [oack_packet demo_win_opt; ack_packet 2].
Proof.
  destruct (write_transfer_repeats (demo_session demo_win_opt) demo_fs demo_win_world
    (demo_reader demo_win_opt) (demo_tick RxAgain) [demo_tick RxAgain] 100
    demo_upload_file (map demo_numbered [1; 1; 2]))
    as [(r & E & Ho & Hd & Hs)|(r' & d & k & b & E & (_ & He & _) & _)].
  - reflexivity.
  - reflexivity.
  - reflexivity.
  - unfold servable, opts_wf; split_and!; vm_compute; (reflexivity || discriminate).
  - vm_compute. discriminate.
  - reflexivity.
  - vm_compute. reflexivity.
  - exists (demo_tick RxAgain). split; reflexivity.
  - vm_compute. reflexivity.
  - split; [apply demo_numbered_ok; [reflexivity|split; vm_compute; discriminate|reflexivity]|].
    split; [apply demo_numbered_ok; [reflexivity|split; vm_compute; discriminate|reflexivity]|].
    split; [apply demo_numbered_ok; [reflexivity|split; vm_compute; discriminate|reflexivity]|].
    reflexivity.
  - exists r. split; [exact E|]. split; [|exact Hs]. unfold walk_done, block_size,
      Session_windowsize in Hd. rewrite Ho in Hd. exact Hd.
  - exfalso.
    apply (f_equal (λ o, match o with Ok r => was_error (ses r) | _ => true end)) in E.
    rewrite He in E. vm_compute in E. discriminate E.
Defined.



(** ** Executions that go wrong *)

(** When the last block has been sent, an acknowledgement of any earlier block ends
    the session as if the last one had arrived: the number is not compared. *)
Theorem stale_ack_ends {W M} `{DataMgrLaws W M} (r : run_st W M) t a :
  stat_ (ses r) = State.ack_rx → run_buf (local_buf (loc r)) →
  last_blk_processed_ (loc r) = true →
  0 ≤ a ≤ stage_ (ses r) → stage_ (ses r) < 2 ^ 62 → same_epoch a (stage_ (ses r)) →
  acked (cl_addr_ (ses r)) a t →
  ∃ r', step r t = Ok r' ∧ stat_ (ses r') = State.finish ∧ sent r' = sent r ∧
        was_error (ses r') = was_error (ses r).
Proof.
  intros Hst Hb Hlast Ha Hs Hep Hack.
  destruct (ack_rx_numbered r t a Hst Hb Ha Hs Hep Hack) as (b & _ & E).
  rewrite Hlast in E. rewrite E. by eexists.
Qed.

(** A session that has sent the last block, number 2, and gets ACK 1 again. *)
Definition demo_last_st : run_st MemFs DataMgrFile := {|
  ses := with_stage (with_stat (with_man (demo_session demo_read_opt)
           (Some (demo_reader demo_read_opt))) State.ack_rx) 2;
  world := demo_fs;
  loc := with_last (loc (run_start (demo_session demo_read_opt) demo_fs)) true;
  sent := []
|}.

Lemma stale_ack_ends_witness :
  ∃ r', step demo_last_st (demo_tick (RxPkt (ack_packet 1) demo_client)) = Ok r' ∧
        stat_ (ses r') = State.finish.
Proof.
  destruct (stale_ack_ends demo_last_st (demo_tick (RxPkt (ack_packet 1) demo_client)) 1)
    as (r' & E & Hf & _).
  - reflexivity.
  - apply run_buf_new.
  - reflexivity.
  - split; vm_compute; discriminate.
  - vm_compute. reflexivity.
  - reflexivity.
  - eexists. split; [reflexivity|]. vm_compute. reflexivity.
  - exists r'. split; [exact E|exact Hf].
Defined.

(** A repeated packet from before the numbers wrapped around is taken for one far
    ahead: the session ends, without a word to the client. *)
Theorem wrapped_repeat_aborts {W M} `{DataMgrLaws W M} (r : run_st W M) t a :
  stat_ (ses r) = State.ack_rx → run_buf (local_buf (loc r)) →
  0 ≤ stage_ (ses r) < 2 ^ 62 → stage_ (ses r) `mod` 2 ^ 16 + 1 < a `mod` 2 ^ 16 →
  acked (cl_addr_ (ses r)) a t →
  ∃ r', step r t = Ok r' ∧ stat_ (ses r') = State.finish ∧ sent r' = sent r ∧
        was_error (ses r') = true.
Proof.
  intros Hst Hb Hs Ha (from & Hrx & Hf).
  destruct (receive_packet (ses r) (world r) (local_buf (loc r)) t _ from Hb Hrx)
    as (b & _ & E).
  assert (Hpk : ack_packet a = ack_packet (a `mod` 2 ^ 16)).
  { unfold ack_packet. f_equal. symmetry. apply (be_split_wrap 2). }
  rewrite delivered_id in E by (rewrite size_ack; lia). rewrite Hpk in E.
  pose proof (Z.mod_pos_bound a (2 ^ 16) ltac:(lia)) as Hmod.
  destruct (ack_packet_fields (a `mod` 2 ^ 16) Hmod) as [Eop Eblk].
  rewrite Eop, Eblk, Hf, Hst in E. cbn [negb andb Z.eqb Pos.eqb] in E.
  rewrite bool_decide_true in E by done. unfold receive_ack in E.
  assert (Hr : stage_in_range (ses r) (a `mod` 2 ^ 16) = false).
  { unfold stage_in_range, rx_stage. rewrite blk_num_local_mod.
    rewrite (swrap_small 64), (wrap_small 64), (swrap_small 64 (stage_ (ses r) + 1)) by lia.
    apply andb_false_iff. right. apply Z.leb_gt. lia. }
  rewrite Hr in E. cbn [negb] in E. unfold step. rewrite Hst. unfold step_ack_rx. rewrite E.
  cbn [mbind outcome_bind]. eexists. split; [done|]. cbn [ses sent].
  rewrite stat_goto, stat_error, Hst. split; [done|]. split; [done|].
  unfold goto, switch_to, set_error_if_first.
  destruct (was_error (ses r)) eqn:He; cbn [negb]; destruct (_ || _); cbn [fst]; done.
Qed.

(** Block 65536 has been sent and ACK 65535 arrives again. *)
Lemma wrapped_repeat_aborts_witness :
  ∃ r', step {| ses := with_stage (ses demo_last_st) 65536; world := demo_fs;
                loc := loc demo_last_st; sent := [] |}
          (demo_tick (RxPkt (ack_packet 65535) demo_client)) = Ok r' ∧
        stat_ (ses r') = State.finish ∧ sent r' = [].
Proof.
  destruct (wrapped_repeat_aborts {| ses := with_stage (ses demo_last_st) 65536;
      world := demo_fs; loc := loc demo_last_st; sent := [] |}
    (demo_tick (RxPkt (ack_packet 65535) demo_client)) 65535) as (r' & E & Hf & Hs & _).
  - reflexivity.
  - apply run_buf_new.
  - split; vm_compute; (reflexivity || discriminate).
  - vm_compute. reflexivity.
  - eexists. split; [reflexivity|]. vm_compute. reflexivity.
  - exists r'. split; [exact E|]. split; [exact Hf|exact Hs].
Defined.

Lemma put_gap d n b :
  0 ≤ n → put d (size d + n) b = d ++ replicate (Z.to_nat n) x00 ++ b.
Proof.
  intros Hn. unfold put. replace (size d + n - size d) with n by lia.
  set (d' := d ++ replicate (Z.to_nat n) x00).
  replace (size d + n) with (size d')
    by (unfold d', size; rewrite length_app, length_replicate; lia).
  unfold blit, size. rewrite Nat2Z.id, take_ge, drop_ge by lia.
  unfold d'. by rewrite app_nil_r, <-app_assoc.
Qed.

(** A lost block of an upload is not noticed: when block [k + 1] arrives instead of
    block [k], zeros are stored in its place and the session goes on to block
    [k + 2], with an acknowledgement when [k + 1] closes the window; unless the manager
    refuses the block. *)
Theorem lost_block_zeros {W M} `{DataMgrLaws W M} (r : run_st W M) t f k from :
  let bs := block_size (ses r) in
  servable (ses r) → 1 ≤ k → (k + 1) * 65536 < 2 ^ 62 → (k + 1) * bs ≤ size f →
  collecting (first_blocks f bs (k - 1)) k r → same_epoch (k + 1) k →
  rx t = RxPkt (data_packet (k + 1) (block f bs (k + 1))) from →
  eqb from (cl_addr_ (ses r)) = true →
  (∃ r' m, step r t = Ok r' ∧ was_error (ses r') = false ∧ file_man_ (ses r') = Some m ∧
     stat_ (ses r') = (if closes (Session_windowsize (ses r)) (k + 1)
                       then State.ack_tx else State.data_rx) ∧
     writing m (world r') (first_blocks f bs (k - 1) ++ replicate (Z.to_nat bs) x00
                             ++ block f bs (k + 1))) ∨
  (∃ r', step r t = Ok r' ∧ refused bs (first_blocks f bs (k - 1)) (k + 1) (block f bs (k + 1)) r').
Proof.
  intros bs Hp Hk Hbound Hf Hc Hep Hrx Hfr. pose proof Hp as ((Hbs & _) & _).
  fold bs in Hbs. pose proof Hc as (Hst & _ & He & _).
  destruct (numbered_received r t _ f k (k + 1) from Hp Hbound Hc ltac:(lia) Hep ltac:(lia)
    Hrx Hfr) as [(m & w & b & _ & Hw & E)|Hfail]; [left|by right].
  fold bs in Hw. assert (Hsz : size (first_blocks f bs (k - 1)) = (k - 1) * bs).
  { unfold first_blocks, size in *. rewrite length_take. nia. }
  assert (Hst' : store bs (first_blocks f bs (k - 1)) (k + 1, block f bs (k + 1))
    = first_blocks f bs (k - 1) ++ replicate (Z.to_nat bs) x00 ++ block f bs (k + 1)).
  { unfold store. cbn [fst snd]. pose proof (block_full f bs (k + 1) Hbs ltac:(lia) Hf) as Hb.
    case_bool_decide as Hnil; [rewrite Hnil in Hb; rewrite size_nil in Hb; lia|].
    replace ((k + 1 - 1) * bs) with (size (first_blocks f bs (k - 1)) + bs) by lia.
    apply put_gap. lia. }
  rewrite Hst' in Hw. rewrite E. cbv zeta.
  destruct (closes _ _); (eexists _, m; split; [reflexivity|]; split_and!; try done).
Qed.

(** With a window of two blocks the first block is lost. *)
Definition demo_collect_st : run_st MemFs DataMgrFile := {|
  ses := with_stage (with_stat (with_man (demo_session demo_win_opt)
           (Some (demo_reader demo_win_opt))) State.data_rx) 1;
  world := demo_win_world;
  loc := loc (run_start (demo_session demo_win_opt) demo_fs);
  sent := []
|}.

Definition demo_lost_tick : tick :=
  demo_tick (RxPkt (data_packet 2 (str "lost one")) demo_client).

Lemma lost_block_zeros_witness :
  ∃ r' m, step demo_collect_st demo_lost_tick = Ok r' ∧ file_man_ (ses r') = Some m ∧
    stat_ (ses r') = State.ack_tx ∧
    writing m (world r') (replicate 8 x00 ++ str "lost one").
Proof.
  destruct (lost_block_zeros demo_collect_st demo_lost_tick (str "is here lost one") 1
    demo_client) as [(r' & m & E & _ & Hm & Hst & Hw)|(r' & E & _ & He & _)].
  - unfold servable, opts_wf; split_and!; vm_compute; (reflexivity || discriminate).
  - vm_compute. discriminate.
  - vm_compute. reflexivity.
  - vm_compute. discriminate.
  - split; [reflexivity|]. split; [reflexivity|]. split; [reflexivity|].
    split; [apply run_buf_new|]. exists (demo_reader demo_win_opt). split; [reflexivity|].
    split_and!; vm_compute; (reflexivity || discriminate).
  - reflexivity.
  - vm_compute. reflexivity.
  - vm_compute. reflexivity.
  - exists r', m. split; [exact E|]. split; [exact Hm|]. split; [exact Hst|]. exact Hw.
  - exfalso.
    apply (f_equal (λ o, match o with Ok r => was_error (ses r) | _ => true end)) in E.
    rewrite He in E. vm_compute in E. discriminate E.
Defined.
