(* ===== verification/SessionFaults.v ===== *)
(** * SessionFaults: what a failed input stream does to a read session

    [DataMgrFile::read] of [tftpDataMgrFile.cpp] does not look at the state of its
    stream: after a short read (the last block) or a seek before the file (block
    0) [failbit] stays set, [read] leaves the range as it is and still reports the
    octets as read. The theorems follow this through [Session::run]: what is then
    sent is the old content of the local buffer, which the last received datagram
    has filled, whoever sent it. *)

From Stdlib Require Import Strings.Byte.
From S2P Require Import Prelude Common SmBuf Options Regex Addr Settings Base.
From S2P Require Import FileSys DataMgr DataMgrFile SmBufEx Session SessionPackets SessionSafety.
From S2P Require Import SessionRead.

(** The header leaves the rest of the buffer alone. *)
Lemma push_header_rest b x y b' :
  run_buf b → push (clear b) [AInt uint16_t x; AInt uint16_t y] = Ok b' →
  drop 4 (buf b') = drop 4 (buf b).
Proof.
  intros Hb. pose proof (run_buf_clear b Hb) as Hc. pose proof Hc as (Hwf & Hsz & Hbe & _).
  unfold push, push_data. cbn [push_args].
  rewrite push_int_ref by (apply Hwf || apply u16_ok).
  unfold push_ref at 1. rewrite encode_u16 by done. cbn [raw_size].
  rewrite size_be_split. change (Z.of_nat 2) with 2. change (Z.of_nat (sizeof uint16_t)) with 2.
  change (data_size_ (clear b)) with 0. change (buf (clear b)) with (buf b) in *.
  rewrite Hsz. change (65535 <? 0 + 2) with false. change (65535 <=? 0) with false.
  cbn [mbind outcome_bind orb]. change (0 + 2) with 2.
  set (b1 := with_buf (clear b) (blit (buf b) 0 (be_split 2 x)) 2).
  assert (Hb1 : run_buf b1).
  { unfold run_buf, SmBufEx.wf, buf_ok in *.
    cbn [b1 buf with_buf clear data_size_ val_int_bigendian_ val_str_zeroend_] in *.
    rewrite !blit_length by (rewrite ?size_be_split; lia). rewrite Hsz. split_and!; try tauto; lia. }
  rewrite push_int_ref by (apply Hb1 || apply u16_ok).
  unfold push_ref at 1. rewrite encode_u16 by done. cbn [raw_size].
  rewrite size_be_split. change (Z.of_nat 2) with 2. change (Z.of_nat (sizeof uint16_t)) with 2.
  change (data_size_ b1) with 2. pose proof Hb1 as (_ & Hsz1 & _). rewrite Hsz1.
  change (65535 <? 2 + 2) with false. change (65535 <=? 2) with false.
  cbn [mbind outcome_bind orb].
  intros E. simplify_eq. cbn [buf with_buf b1].
  pose proof (blit_blit (buf b) 0 (be_split 2 x) (be_split 2 y)) as Hbb.
  rewrite size_be_split in Hbb. change (0 + Z.of_nat 2) with 2 in Hbb.
  rewrite Hbb by (rewrite ?size_be_split, ?Hsz; lia).
  pose proof (drop_blit (buf b) 0 (be_split 2 x ++ be_split 2 y)) as Hd.
  rewrite size_app, !size_be_split in Hd. apply Hd; rewrite ?Hsz; lia.
Qed.

Section faults.
Context {W : Type} `{FileSystem W}.
Context (getpwnam getgrnam : bytes → option Z).
Local Instance file_mgr : DataMgr W DataMgrFile := DataMgrFile_mgr getpwnam getgrnam.
Implicit Types (r : run_st W DataMgrFile) (s : Session DataMgrFile) (m : DataMgrFile).

(** A manager of a read request whose stream has failed. *)
Definition stream_failed m : Prop :=
  m_request_type m = SrvReq.read ∧ in_open (m_file_in m) = true ∧
  in_fail (m_file_in m) = true.

Lemma blit_nothing (l : bytes) : blit l 0 [] = l.
Proof. unfold blit. simpl. by rewrite drop_0. Qed.

Lemma ret_min a b : (if a <? b then a else b) = Z.min a b.
Proof. destruct (_ <? _) eqn:E; reflect_bools; lia. Qed.

(** The octets are reported as read, the range keeps what was in it. *)
Lemma read_failed_stream m (w : W) pos :
  stream_failed m → 0 ≤ pos < m_file_size m → m_file_size m < 2 ^ 63 →
  ∃ m', stream_failed m' ∧
    ∀ rng, read m w rng pos = Ok (m', rng, Z.min (size rng) (m_file_size m - pos), []).
Proof.
  intros (Hr & Ho & Hf) Hp Hs. unfold read.
  set (f := if tellg (m_file_in m) =? s64 pos then m_file_in m
            else seekg (m_file_in m) (s64 pos)).
  assert (Hff : in_open f = true ∧ in_fail f = true).
  { unfold f, seekg. rewrite Hf. by destruct (_ =? s64 pos). }
  destruct Hff as [Hfo Hff]. unfold in_read. rewrite Hff. cbn [orb]. eexists.
  split; [|intros rng; rewrite bool_decide_false by (by rewrite Hr; auto); rewrite Ho;
    rewrite swrap_small by lia; rewrite (proj2 (Z.leb_gt (2 ^ 63) _)) by lia;
    rewrite (proj2 (Z.ltb_lt 0 _)) by lia; rewrite blit_nothing, ret_min; reflexivity].
  by split_and!.
Qed.

(** A manager that leaves the range as it is: the DATA packet has the old content of
    the buffer. *)
Definition keeps_range s (w : W) m m' (n : Z) : Prop :=
  ∀ rng, size rng = block_size s → read m w rng (block_position s) = Ok (m', rng, n, []).

Lemma construct_data_stale s w b m m' n :
  run_buf b → file_man_ s = Some m → keeps_range s w m m' n →
  0 < block_size s ≤ 65531 → 0 ≤ n ≤ block_size s →
  ∃ b', construct_data s w b = Ok (with_man s (Some m'), b') ∧ run_buf b' ∧
    payload b' = data_packet (stage_ s) (slice (buf b) 4 n) ∧ data_size b' = 4 + n.
Proof.
  intros Hb Hm Hkeep Hbs Hn. unfold construct_data.
  destruct (push_header b 3 (blk_num_local s) Hb) as (b1 & Epush & Hb1 & Hp1 & Hd1).
  pose proof (push_header_rest b 3 (blk_num_local s) b1 Hb Epush) as Hrest. rewrite Epush.
  unfold data_size in Hd1 |- *. cbn [mbind outcome_bind]. rewrite Hm, Hd1.
  pose proof Hb1 as ((_ & _) & Hsz & _).
  rewrite (proj2 (Z.ltb_ge (size (buf b1)) _)) by lia.
  set (rng := slice (buf b1) 4 (block_size s)).
  assert (Hrs : size rng = block_size s) by (apply slice_length; lia).
  cbn [dm_read file_mgr DataMgrFile_mgr]. rewrite (Hkeep rng Hrs).
  cbn [mbind outcome_bind report foldl with_buf data_size_].
  rewrite (proj2 (Z.leb_le 0 n)) by lia.
  destruct (payload_data b1 (be_split 2 3 ++ be_split 2 (blk_num_local s)) rng 4 n)
    as (b' & E' & Hb' & Hp' & Hd'); [done|done|done| |lia|lia|].
  { by rewrite size_app, !size_be_split. }
  rewrite E'. cbn [mbind outcome_bind]. exists b'. split_and!; try done.
  rewrite Hp'. unfold data_packet, blk_num_local. rewrite be_split_land, <-app_assoc.
  do 2 f_equal. unfold rng, slice. change (Z.to_nat 4) with 4%nat. rewrite take_take, Hrest.
  f_equal. lia.
Qed.

(** Sending of such a packet: no error is set. *)
Lemma stale_sent r t m m' n :
  stat_ (ses r) = State.data_tx → was_error (ses r) = false →
  run_buf (local_buf (loc r)) → file_man_ (ses r) = Some m →
  keeps_range (ses r) (world r) m m' n →
  0 < block_size (ses r) ≤ 65531 → 0 ≤ n ≤ block_size (ses r) →
  ∃ r', step r t = Ok r' ∧ was_error (ses r') = false ∧ file_man_ (ses r') = Some m' ∧
    sent r' = sent r ++ [data_packet (stage_ (ses r))
                           (slice (buf (local_buf (loc r))) 4 n)].
Proof.
  intros Hst He Hb Hm Hkeep Hbs Hn.
  destruct (construct_data_stale (ses r) (world r) (local_buf (loc r)) m m' n)
    as (b & E & Hb' & Hp & Hd); try done.
  unfold step. rewrite Hst. unfold step_data_tx. rewrite E. cbn [mbind outcome_bind].
  change (was_error (with_man (ses r) (Some m'))) with (was_error (ses r)). rewrite He.
  unfold transmit_no_wait. rewrite (proj2 (Z.ltb_lt 0 (data_size b))) by lia.
  cbn [negb andb fst]. rewrite Hp, goto_allowed by (simpl; by rewrite Hst).
  destruct (_ || _); (eexists; split; [done|]); by split_and!.
Qed.

(** A block of a file whose stream has failed. *)
Lemma stale_step r t m :
  stat_ (ses r) = State.data_tx → was_error (ses r) = false →
  run_buf (local_buf (loc r)) → file_man_ (ses r) = Some m → stream_failed m →
  m_file_size m < 2 ^ 62 → 0 < block_size (ses r) ≤ 65531 → 1 ≤ stage_ (ses r) < 2 ^ 62 →
  let pos := (stage_ (ses r) - 1) * block_size (ses r) in
  pos < m_file_size m →
  ∃ r', step r t = Ok r' ∧ was_error (ses r') = false ∧
    sent r' = sent r ++ [data_packet (stage_ (ses r))
      (slice (buf (local_buf (loc r))) 4 (Z.min (block_size (ses r)) (m_file_size m - pos)))].
Proof.
  intros Hst He Hb Hm Hf Hfs Hbs Hs pos Hpos. assert (0 ≤ pos) by (unfold pos; nia).
  destruct (read_failed_stream m (world r) pos Hf) as (m' & _ & E); [lia|lia|].
  destruct (stale_sent r t m m' (Z.min (block_size (ses r)) (m_file_size m - pos)))
    as (r' & E' & He' & _ & Hs'); [done..| |done|lia|by exists r'].
  intros rng Hrng. rewrite block_position_eq by (fold pos; lia). fold pos.
  by rewrite E, Hrng.
Qed.

(** Block 0 lies before the file: its position is minus one block. *)
Lemma block_position_zero s :
  stage_ s = 0 → 0 < block_size s → block_position s = 2 ^ 64 - block_size s.
Proof.
  intros Hs Hbs. unfold block_position. rewrite Hs. unfold block_size in *.
  pose proof (wrap_range 16 (blksize (opt_ s)) ltac:(lia)).
  change (u64 (0 - 1)) with (2 ^ 64 - 1). unfold wrap at 1. symmetry.
  apply (Z.mod_unique_pos _ _ (wrap 16 (blksize (opt_ s)) - 1)); lia.
Qed.

Lemma read_before_file m (w : W) d bs :
  file_reading m w d → 0 ≤ in_pos (m_file_in m) → 0 < bs < 2 ^ 16 → size d < 2 ^ 62 →
  ∃ m', stream_failed m' ∧
    ∀ rng, size rng = bs → read m w rng (2 ^ 64 - bs) = Ok (m', rng, bs, []).
Proof.
  intros (Hr & Ho & Hf & He & Hc & Hs) Hp Hbs Hd. pose proof (size_nonneg d).
  assert (Hpos : s64 (2 ^ 64 - bs) = - bs).
  { unfold swrap, wrap. rewrite <-(Z.mod_unique_pos _ _ 1 (2 ^ 63 - bs)); lia. }
  unfold read. rewrite Hpos, Hs. unfold tellg. rewrite Hf.
  rewrite (proj2 (Z.eqb_neq (in_pos _) _)) by lia. unfold seekg. rewrite Hf.
  rewrite (proj2 (Z.ltb_lt (- bs) 0)) by lia. cbn [orb]. unfold in_read. cbn [in_fail orb].
  eexists. split; [|intros rng Hrng; rewrite bool_decide_false by (by rewrite Hr; auto);
    rewrite Ho, (proj2 (Z.leb_gt (2 ^ 63) _)) by lia;
    rewrite (proj2 (Z.ltb_lt 0 _)) by lia; rewrite blit_nothing, ret_min, Hrng, Z.min_l by lia;
    reflexivity].
  by split_and!.
Qed.

(** The iteration that finds the time is up, whatever foreign datagram it polled. *)
Lemma timeout_foreign r t p from :
  stat_ (ses r) = State.ack_rx → run_buf (local_buf (loc r)) →
  timeout (opt_ (ses r)) ≠ INT_MAX → rx t = RxPkt p from →
  eqb from (cl_addr_ (ses r)) = false →
  timeout (opt_ (ses r)) + 1 ≤ now t - oper_time_ (loc r) →
  ∃ b, received (local_buf (loc r)) b (delivered p) ∧
    step r t = Ok {| ses := with_stat (ses r) State.retransmit; world := world r;
                     loc := with_buffer (loc r) b; sent := sent r |}.
Proof.
  intros Hst Hb Hto Hrx Hf Ht.
  destruct (receive_packet (ses r) (world r) (local_buf (loc r)) t p from Hb Hrx)
    as (b & Hrec & E). rewrite Hf in E. cbn [negb] in E. exists b. split; [done|].
  unfold step. rewrite Hst. unfold step_ack_rx. rewrite E. cbn [mbind outcome_bind].
  unfold timeout_pass. rewrite (proj2 (Z.eqb_neq _ _)) by done.
  cbn [mbind outcome_bind oper_time_ with_buffer]. rewrite (proj2 (Z.ltb_ge _ _)) by lia.
  by rewrite goto_allowed by (by rewrite Hst).
Qed.
End faults.

(** ** Properties *)

(** C38. A third party decides what a client gets as the last block: when the last
    block has been sent once (its short read failed the stream) and one foreign
    datagram [p] arrives before it is sent again, the octets of [p] after its
    first four are sent as the block, in place of the file, and no error is set. *)
Theorem last_block_injected {W} `{FileSystem W} getpwnam getgrnam
    (r : run_st W DataMgrFile) m p from t1 t2 t3 :
  let bs := block_size (ses r) in let k := stage_ (ses r) in
  let n := m_file_size m - (k - 1) * bs in
  stat_ (ses r) = State.ack_rx → was_error (ses r) = false →
  request_type (opt_ (ses r)) = SrvReq.read → run_buf (local_buf (loc r)) →
  0 < bs ≤ 65531 → timeout (opt_ (ses r)) ≠ INT_MAX →
  file_man_ (ses r) = Some m → stream_failed m → m_file_size m < 2 ^ 62 →
  1 ≤ k < 2 ^ 62 → 0 < n < bs →
  0 ≤ retr_count (loc r) < get_retransmit_count (settings_ (ses r)) →
  get_retransmit_count (settings_ (ses r)) < 65535 →
  rx t1 = RxPkt p from → eqb from (cl_addr_ (ses r)) = false →
  timeout (opt_ (ses r)) + 1 ≤ now t1 - oper_time_ (loc r) → 4 + n ≤ size p ≤ 0xFFFF →
  ∃ r', @run_loop _ _ (DataMgrFile_mgr getpwnam getgrnam) r [t1; t2; t3] = Ok r' ∧
    was_error (ses r') = false ∧ sent r' = sent r ++ [data_packet k (slice p 4 n)].
Proof.
  intros bs k n Hst He Hrq Hb Hbs Hto Hm Hf Hfs Hk Hn Hc Hlim Hrx Hfr Ht Hp.
  destruct (timeout_foreign getpwnam getgrnam r t1 p from) as (b & Hrec & E1); try done.
  unfold file_mgr in E1. pose proof Hrec as (Hb' & _ & _ & Hbuf). rewrite delivered_id in Hbuf by lia.
  rewrite run_loop_cons by (by rewrite Hst). rewrite E1. cbn [mbind outcome_bind].
  set (r1 := {| ses := _; world := _; loc := _; sent := _ |}).
  rewrite run_loop_cons by done. rewrite retransmit_step; [|done|done|cbn [r1 loc]; cbn; lia].
  cbv zeta. cbn [r1 ses loc with_stat settings_ retr_count with_buffer].
  rewrite (proj2 (Z.ltb_ge _ _)) by lia. cbn [mbind outcome_bind].
  set (r2 := {| ses := with_stat _ State.data_tx; world := _; loc := _; sent := _ |}).
  destruct (stale_step getpwnam getgrnam r2 t3 m) as (r' & E3 & He3 & Hs3);
    try done; [change ((k - 1) * bs < m_file_size m); lia|].
  unfold file_mgr in E3. rewrite run_loop_cons by done. rewrite E3. cbn [mbind outcome_bind].
  exists r'. split; [cbn [run_loop]; by destruct (is_finished _)|]. split; [done|].
  rewrite Hs3. cbn [r2 r1 sent ses stage_ with_stat loc timeout_reset local_buf with_buffer].
  change (block_size _) with bs. fold k. do 3 f_equal.
  replace (Z.min bs (m_file_size m - (k - 1) * bs)) with n by lia. rewrite Hbuf.
  unfold blit, slice. change (Z.to_nat 4) with 4%nat. change (Z.to_nat 0) with 0%nat.
  rewrite take_0, app_nil_l. unfold size in Hp. rewrite drop_app_le by lia. rewrite take_app_le; [done|].
  rewrite length_drop. lia.
Qed.

(** C37. A timeout before the options are acknowledged: the session asks for the block
    before the file, sends what the buffer holds as DATA 0, and its stream has
    failed from then on, so that (by [stale_step]) no later block is from the file
    either; no error is set. *)
Theorem oack_timeout_corrupts {W} `{FileSystem W} getpwnam getgrnam
    (r : run_st W DataMgrFile) m d t1 t2 t3 :
  let bs := block_size (ses r) in
  stat_ (ses r) = State.ack_rx → stage_ (ses r) = 0 → was_error (ses r) = false →
  request_type (opt_ (ses r)) = SrvReq.read → run_buf (local_buf (loc r)) →
  0 < bs ≤ 65531 → timeout (opt_ (ses r)) ≠ INT_MAX →
  file_man_ (ses r) = Some m → file_reading m (world r) d → 0 ≤ in_pos (m_file_in m) →
  size d < 2 ^ 62 →
  0 ≤ retr_count (loc r) < get_retransmit_count (settings_ (ses r)) →
  get_retransmit_count (settings_ (ses r)) < 65535 →
  rx t1 = RxAgain → timeout (opt_ (ses r)) + 1 ≤ now t1 - oper_time_ (loc r) →
  ∃ r' m', @run_loop _ _ (DataMgrFile_mgr getpwnam getgrnam) r [t1; t2; t3] = Ok r' ∧
    was_error (ses r') = false ∧ file_man_ (ses r') = Some m' ∧ stream_failed m' ∧
    sent r' = sent r ++ [data_packet 0 (slice (buf (local_buf (loc r))) 4 bs)].
Proof.
  intros bs Hst Hz He Hrq Hb Hbs Hto Hm Hr Hpos Hd Hc Hlim Hrx Ht.
  rewrite run_loop_cons by (by rewrite Hst). rewrite timeout_step by done.
  cbn [mbind outcome_bind]. set (r1 := {| ses := _; world := _; loc := _; sent := _ |}).
  rewrite run_loop_cons by done. rewrite retransmit_step; [|done|done|cbn [r1 loc]; cbn; lia].
  cbv zeta. cbn [r1 ses loc with_stat settings_ retr_count].
  rewrite (proj2 (Z.ltb_ge _ _)) by lia. cbn [mbind outcome_bind].
  set (r2 := {| ses := with_stat _ State.data_tx; world := _; loc := _; sent := _ |}).
  destruct (read_before_file m (world r) d bs Hr Hpos ltac:(lia) Hd) as (m' & Hf & Hread).
  destruct (stale_sent getpwnam getgrnam r2 t3 m m' bs) as (r' & E & He' & Hm' & Hs');
    try done; [|change (0 ≤ bs ≤ bs); lia|].
  { intros rng Hrng. rewrite block_position_zero by (done || apply Hbs). by apply Hread. }
  unfold file_mgr in E. rewrite run_loop_cons by done. rewrite E. cbn [mbind outcome_bind].
  exists r', m'. split; [cbn [run_loop]; by destruct (is_finished _)|].
  split_and!; try done. rewrite Hs'. change (stage_ (ses r2)) with (stage_ (ses r)).
  by rewrite Hz.
Qed.

Definition demo_oack_st : run_st MemFs DataMgrFile := {|
  ses := with_stat (with_man (demo_session demo_read_opt)
           (Some (demo_reader demo_read_opt))) State.ack_rx;
  world := demo_fs;
  loc := loc (run_start (demo_session demo_read_opt) demo_fs);
  sent := []
|}.

Lemma oack_timeout_corrupts_witness :
  ∃ r', run_loop demo_oack_st [at_time 100 RxAgain; at_time 100 RxAgain;
                               at_time 100 RxAgain] = Ok r' ∧
        sent r' = [data_packet 0 (replicate 8 x00)].
Proof.
  destruct (oack_timeout_corrupts (λ _, None) (λ _, None) demo_oack_st
    (demo_reader demo_read_opt) demo_file (at_time 100 RxAgain) (at_time 100 RxAgain)
    (at_time 100 RxAgain)) as (r' & m' & E & _ & _ & _ & Hs).
  - reflexivity.
  - reflexivity.
  - reflexivity.
  - reflexivity.
  - apply run_buf_new.
  - split; vm_compute; (reflexivity || discriminate).
  - vm_compute. discriminate.
  - reflexivity.
  - split_and!; vm_compute; reflexivity.
  - vm_compute. discriminate.
  - vm_compute. reflexivity.
  - split; vm_compute; (reflexivity || discriminate).
  - vm_compute. reflexivity.
  - reflexivity.
  - vm_compute. discriminate.
  - exists r'. split; [exact E|]. rewrite Hs. vm_compute. reflexivity.
Defined.

(** The last block of the demonstration file has been sent. *)
Definition demo_failed_mgr : DataMgrFile :=
  match read (demo_reader demo_read_opt) demo_fs (replicate 8 x00) 8 with
  | Ok (m, _, _, _) => m
  | _ => DataMgrFile_new
  end.

Definition demo_failed_st : run_st MemFs DataMgrFile := {|
  ses := with_stage (with_stat (with_man (demo_session demo_read_opt)
           (Some demo_failed_mgr)) State.ack_rx) 2;
  world := demo_fs;
  loc := loc (run_start (demo_session demo_read_opt) demo_fs);
  sent := []
|}.

Lemma last_block_injected_witness :
  ∃ r', run_loop demo_failed_st
          [at_time 100 (RxPkt (str "0000attack") Addr_new); at_time 100 RxAgain;
           at_time 100 RxAgain] = Ok r' ∧
        sent r' = [data_packet 2 (str "attack")].
Proof.
  destruct (last_block_injected (λ _, None) (λ _, None) demo_failed_st demo_failed_mgr
    (str "0000attack") Addr_new (at_time 100 (RxPkt (str "0000attack") Addr_new))
    (at_time 100 RxAgain) (at_time 100 RxAgain)) as (r' & E & _ & Hs).
  - reflexivity.
  - reflexivity.
  - reflexivity.
  - apply run_buf_new.
  - split; vm_compute; (reflexivity || discriminate).
  - vm_compute. discriminate.
  - reflexivity.
  - split; [reflexivity|]. split; vm_compute; reflexivity.
  - vm_compute. reflexivity.
  - split; vm_compute; (reflexivity || discriminate).
  - split; vm_compute; (reflexivity || discriminate).
  - split; vm_compute; (reflexivity || discriminate).
  - vm_compute. reflexivity.
  - reflexivity.
  - vm_compute. reflexivity.
  - vm_compute. discriminate.
  - split; vm_compute; discriminate.
  - exists r'. split; [exact E|exact Hs].
Defined.
