(* ===== verification/Srv.v ===== *)
(** * Srv: the server of [tftpSrv.h/.cpp]

    The server listens on one socket and runs every accepted request as a
    [Session] in a thread of its own. [main_step] is one iteration of
    [main_loop]; [thread_step] one iteration of the loop of a session, or the
    calls after it. The threads share the files ([sys_world]); an execution of
    the system is a sequence of steps of the main loop and of the threads, in
    any order ([sys_step]). A step is atomic: the threads share the settings,
    which they only read (concurrent access to them is the subject of [Locks]),
    and the files, which a step accesses by at most a few system calls; [SrvRaces]
    divides the step that matters, the start of an upload. *)

From Stdlib Require Import Strings.Byte.
From stdpp Require Import relations.
From S2P Require Import Prelude Common SmBuf Options Regex Addr Settings Base.
From S2P Require Import FileSys DataMgr DataMgrFile SmBufEx Session SessionPackets SessionSafety SessionRead.

(** A session and its thread; [returned] when [run] has returned. *)
Record thread (W M : Type) := { th_run : run_st W M; returned : bool }.
Arguments th_run {W M}. Arguments returned {W M}. Arguments Build_thread {W M}.

Record Srv (W M : Type) := {
  srv_settings : Settings;
  sessions_ : list (thread W M);
  srv_socket_ : Z;
  stop_ : bool
}.
Arguments srv_settings {W M}. Arguments sessions_ {W M}.
Arguments srv_socket_ {W M}. Arguments stop_ {W M}.

(** What [socket] and [bind] return. *)
Record sock_result := { socket_ret : Z; bind_ret : Z }.

Section srv.
Context {W M : Type} `{DataMgr W M}.

Definition Srv_new : Srv W M :=
  {| srv_settings := Base_new None; sessions_ := []; srv_socket_ := -1; stop_ := false |}.

Definition with_srv_socket (v : Srv W M) (n : Z) : Srv W M :=
  {| srv_settings := srv_settings v; sessions_ := sessions_ v; srv_socket_ := n;
     stop_ := stop_ v |}.

Definition with_sessions (v : Srv W M) (l : list (thread W M)) : Srv W M :=
  {| srv_settings := srv_settings v; sessions_ := l; srv_socket_ := srv_socket_ v;
     stop_ := stop_ v |}.

Definition with_stop (v : Srv W M) (b : bool) : Srv W M :=
  {| srv_settings := srv_settings v; sessions_ := sessions_ v;
     srv_socket_ := srv_socket_ v; stop_ := b |}.

Definition srv_socket_close (v : Srv W M) : Srv W M := with_srv_socket v (-1).

Definition srv_socket_open (v : Srv W M) (o : sock_result) : Srv W M * bool :=
  let v := with_srv_socket v (socket_ret o) in
  if srv_socket_ v <? 0 then (v, false)
  else if negb (bind_ret o =? 0) then (srv_socket_close v, false)
  else (v, true).

Definition srv_init (v : Srv W M) (o : sock_result) : Srv W M * bool :=
  let v := if 0 <=? srv_socket_ v then srv_socket_close v else v in
  srv_socket_open v o.

Definition stop (v : Srv W M) : Srv W M := with_stop v true.

(** [~Srv] destroys the list with its [std::thread] objects: one that is not joined
    ends the program ([std::terminate], here [None]), also when it has returned. *)
Definition Srv_destroy (v : Srv W M) : option unit :=
  match sessions_ v with [] => Some tt | _ => None end.

(** *** The main loop *)

(** The whole system: the server, its receive buffer and the files. *)
Record sys := {
  srv : Srv W M;
  pkt_buf : SmBuf;
  sys_world : W
}.

(** Up to the loop: [None] when the server cannot be initialised. *)
Definition main_enter (v : Srv W M) (w : W) (o : sock_result) : option sys :=
  let '(v, ok) := if srv_socket_ v =? 0 then srv_init v o else (v, true) in
  if (ok : bool)
  then Some {| srv := with_stop v false; pkt_buf := replicate (Z.to_nat 0xFFFF) x00;
               sys_world := w |}
  else None.

Definition with_world (r : run_st W M) (w : W) : run_st W M :=
  {| ses := ses r; world := w; loc := loc r; sent := sent r |}.

(** [join] of the thread of a finished session: what is left of [run]. *)
Definition join (th : thread W M) (w : W) : outcome W :=
  if returned th then Ok w
  else r ← run_end (with_world (th_run th) w); Ok (world r).

(** The first finished session is joined and erased. *)
Fixpoint reap (l : list (thread W M)) (w : W) : outcome (list (thread W M) * W) :=
  match l with
  | [] => Ok ([], w)
  | th :: l =>
      if is_finished (ses (th_run th)) then w ← join th w; Ok (l, w)
      else '(l, w) ← reap l w; Ok (th :: l, w)
  end.

(** A datagram of at least nine octets is taken for a request. *)
Definition accept (y : sys) (bsize : Z) (client_addr : Addr) : outcome (list (thread W M)) :=
  let sss := Session_of_base (srv_settings (srv y)) in
  '(sss, ret) ← prepare sss client_addr (pkt_buf y) bsize;
  if (ret : bool) then
    let '(new_session, _) := Session_move Session_default sss in
    Ok (sessions_ (srv y)
        ++ [{| th_run := run_start new_session (sys_world y); returned := false |}])
  else Ok (sessions_ (srv y)).

Definition main_step (y : sys) (r : recv_result) : outcome sys :=
  '(y, bsize, client_addr) ←
    Ok (match r with
        | RxPkt d from =>
            let d := take (length (pkt_buf y)) d in
            ({| srv := srv y; pkt_buf := blit (pkt_buf y) 0 d; sys_world := sys_world y |},
             size d, from)
        | _ => (y, -1, Addr_new)
        end);
  l ← (if 9 <=? bsize then accept y bsize client_addr else Ok (sessions_ (srv y)));
  '(l, w) ← reap l (sys_world y);
  Ok {| srv := with_sessions (srv y) l; pkt_buf := pkt_buf y; sys_world := w |}.

(** *** The threads *)

Definition thread_step (th : thread W M) (w : W) (t : tick) : outcome (thread W M * W) :=
  if returned th then Ok (th, w)
  else if is_finished (ses (th_run th)) then
    r ← run_end (with_world (th_run th) w);
    Ok ({| th_run := r; returned := true |}, world r)
  else
    r ← step (with_world (th_run th) w) t;
    Ok ({| th_run := r; returned := false |}, world r).

Inductive sys_step (y : sys) : sys → Prop :=
  | sys_main rx y' :
      stop_ (srv y) = false → main_step y rx = Ok y' → sys_step y y'
  | sys_stop :
      sys_step y {| srv := stop (srv y); pkt_buf := pkt_buf y; sys_world := sys_world y |}
  | sys_thread i th t th' w' :
      sessions_ (srv y) !! i = Some th →
      thread_step th (sys_world y) t = Ok (th', w') →
      sys_step y {| srv := with_sessions (srv y) (<[i := th']> (sessions_ (srv y)));
                    pkt_buf := pkt_buf y; sys_world := w' |}.
End srv.
Arguments sys : clear implicits.

(** ** Invariants *)

Section invariants.
Context {W M : Type} `{DataMgr W M}.
Implicit Types (y : sys W M) (th : thread W M) (w : W).

(** A thread serves a request the parser accepted, with the server's settings; it
    has returned only when its session is finished. *)
Definition thread_ok (sett : Settings) th : Prop :=
  let s := ses (th_run th) in
  settings_ s = sett ∧ opts_wf (opt_ s) ∧ request_type (opt_ s) ≠ SrvReq.unknown ∧
  text_ok (filename (opt_ s)) ∧ (returned th = true → stat_ s = State.finish).

Definition sys_ok (sett : Settings) y : Prop :=
  srv_settings (srv y) = sett ∧ size (pkt_buf y) = 0xFFFF ∧
  Forall (thread_ok sett) (sessions_ (srv y)).

Lemma evolves_thread_ok sett th th' :
  evolves (ses (th_run th)) (ses (th_run th')) →
  (returned th' = true → stat_ (ses (th_run th')) = State.finish) →
  thread_ok sett th → thread_ok sett th'.
Proof.
  intros (Hs & _ & _ & Ho & _) Hr (H1 & H2 & H3 & H4 & _). unfold thread_ok.
  rewrite Hs, Ho. by split_and!.
Qed.

Lemma run_end_ses (r r' : run_st W M) :
  run_end r = Ok r' → evolves (ses r) (ses r') ∧ stat_ (ses r') = stat_ (ses r).
Proof.
  unfold run_end. destruct (file_man_ _) as [m0|]; [|done]. intros E.
  apply bind_Ok in E as ([m w] & _ & E). by simplify_eq/=.
Qed.

Lemma thread_step_ok sett th w t th' w' :
  thread_step th w t = Ok (th', w') → thread_ok sett th → thread_ok sett th'.
Proof.
  unfold thread_step. intros E Hok. destruct (returned th) eqn:Hret; [by simplify_eq|].
  unfold is_finished in E. case_bool_decide as Hf; apply bind_Ok in E as (r & E1 & E);
    simplify_eq/=.
  - apply run_end_ses in E1 as [Hev Hst]. apply (evolves_thread_ok sett th); try done.
    intros _. simpl in *. by rewrite Hst.
  - apply step_evolves in E1 as [Hev _]. by apply (evolves_thread_ok sett th).
Qed.

(** What [reap] does to the list and the files. *)
Lemma reap_joins (l : list (thread W M)) w l' w' :
  reap l w = Ok (l', w') →
  (l' = l ∧ w' = w ∧ Forall (λ th, stat_ (ses (th_run th)) ≠ State.finish) l) ∨
  (∃ l1 f l2, l = l1 ++ f :: l2 ∧ l' = l1 ++ l2 ∧ join f w = Ok w' ∧
     stat_ (ses (th_run f)) = State.finish ∧
     Forall (λ th, stat_ (ses (th_run th)) ≠ State.finish) l1).
Proof.
  revert l'. induction l as [|th l IH]; intros l' E; cbn [reap] in E.
  { simplify_eq. by left. }
  unfold is_finished in E. case_bool_decide as Hf.
  - apply bind_Ok in E as (w1 & Ej & E). simplify_eq. right. by exists [], th, l'.
  - apply bind_Ok in E as ([l1 w1] & E1 & E). simplify_eq.
    destruct (IH _ E1) as [(-> & -> & Hall)|(la & f & lb & -> & -> & Hj & Hfin & Hall)];
      [left; split_and!; try done; by constructor|].
    right. exists (th :: la), f, lb. split_and!; try done. by constructor.
Qed.

(** What reaping leaves: all but the first finished session. *)
Lemma reap_spec (l : list (thread W M)) w l' w' :
  reap l w = Ok (l', w') →
  (l' = l ∧ w' = w ∧ Forall (λ th, stat_ (ses (th_run th)) ≠ State.finish) l) ∨
  (∃ l1 th l2, l = l1 ++ th :: l2 ∧ l' = l1 ++ l2 ∧
     stat_ (ses (th_run th)) = State.finish ∧
     Forall (λ th, stat_ (ses (th_run th)) ≠ State.finish) l1).
Proof.
  intros [?|(l1 & f & l2 & ? & ? & _ & ? & ?)]%reap_joins; [by left|right].
  by exists l1, f, l2.
Qed.

(** A finished session is not among those that were just added. *)
Lemma finished_in_front (l k : list (thread W M)) :
  Forall (λ th, stat_ (ses (th_run th)) ≠ State.finish) k →
  ∀ l1 th l2, l ++ k = l1 ++ th :: l2 → stat_ (ses (th_run th)) = State.finish →
  ∃ l3, l = l1 ++ th :: l3 ∧ l2 = l3 ++ k.
Proof.
  intros Hk l1 th l2 E Hf.
  apply app_eq_inv in E as [(l3 & -> & E)|(l3 & -> & ->)].
  - destruct l3 as [|th' l3]; simplify_eq/=.
    + apply Forall_cons_iff in Hk as [? _]. done.
    + by exists l3.
  - apply Forall_app in Hk as [_ Hk]. apply Forall_cons_iff in Hk as [? _]. done.
Qed.

Lemma reap_running (l : list (thread W M)) w :
  Forall (λ th, stat_ (ses (th_run th)) ≠ State.finish) l → reap l w = Ok (l, w).
Proof.
  induction 1 as [|th l Hth _ IH]; cbn [reap]; [done|]. unfold is_finished.
  rewrite bool_decide_false by done. by rewrite IH.
Qed.

Lemma reap_ok sett l w l' w' :
  reap l w = Ok (l', w') → Forall (thread_ok sett) l → Forall (thread_ok sett) l'.
Proof.
  intros [(-> & _)|(l1 & th & l2 & -> & -> & _)]%reap_spec; [done|].
  rewrite !Forall_app, Forall_cons_iff. tauto.
Qed.

(** The sessions after a datagram: at most one more, which serves the request. *)
Lemma accept_spec y bsize from l :
  accept y bsize from = Ok l →
  l = sessions_ (srv y) ∨
  ∃ th o, l = sessions_ (srv y) ++ [th] ∧ buffer_parse (pkt_buf y) bsize = Ok (true, o) ∧
    th = {| th_run := run_start (with_request_ (Session_new (Some (srv_settings (srv y))))
              (set_port_u16 (server_addr (srv_settings (srv y))) 0) from o) (sys_world y);
            returned := false |}.
Proof.
  unfold accept, prepare. intros E. apply bind_Ok in E as ([s ret] & E1 & E).
  apply bind_Ok in E1 as ([ret' o] & Ep & E1). simplify_eq/=.
  destruct ret; simplify_eq/=; [|by left]. right. by eexists _, o.
Qed.

(** The iteration in brief: new sessions, at most one, are added, and then [reap]. *)
Lemma main_step_inv y rx y' :
  main_step y rx = Ok y' →
  ∃ k l w b, y' = {| srv := with_sessions (srv y) l; pkt_buf := b; sys_world := w |} ∧
    reap (sessions_ (srv y) ++ k) (sys_world y) = Ok (l, w) ∧
    Forall (λ th, file_man_ (ses (th_run th)) = None ∧
                  stat_ (ses (th_run th)) = State.need_init ∧ returned th = false) k.
Proof.
  unfold main_step. intros E. apply bind_Ok in E as ([[y0 n] from] & E0 & E).
  assert (Hy0 : srv y0 = srv y ∧ sys_world y0 = sys_world y) by (destruct rx; by simplify_eq/=).
  destruct Hy0 as [Hs0 Hw0].
  apply bind_Ok in E as (l & El & E). apply bind_Ok in E as ([l' w'] & Er & E).
  injection E as <-. rewrite Hs0, Hw0 in *.
  assert (Hk : ∃ k, l = sessions_ (srv y) ++ k ∧
    Forall (λ th, file_man_ (ses (th_run th)) = None ∧
                  stat_ (ses (th_run th)) = State.need_init ∧ returned th = false) k).
  { destruct (9 <=? n).
    - apply accept_spec in El as [->|(th & o & -> & _ & ->)]; rewrite Hs0.
      + exists []. by rewrite app_nil_r.
      + eexists. split; [done|]. by repeat constructor.
    - simplify_eq. exists []. by rewrite app_nil_r. }
  destruct Hk as (k & -> & Hk). by exists k, l', w', (pkt_buf y0).
Qed.

(** New sessions are not finished. *)
Lemma new_running (k : list (thread W M)) :
  Forall (λ th, file_man_ (ses (th_run th)) = None ∧
                stat_ (ses (th_run th)) = State.need_init ∧ returned th = false) k →
  Forall (λ th, stat_ (ses (th_run th)) ≠ State.finish) k.
Proof. intros Hk. eapply Forall_impl; [|exact Hk]. by intros th (_ & -> & _). Qed.

Lemma accept_ok sett y bsize from l :
  sys_ok sett y → accept y bsize from = Ok l → Forall (thread_ok sett) l.
Proof.
  intros (Hs & _ & Hl) [->|(th & o & -> & Ep & ->)]%accept_spec; [done|].
  apply Forall_app. split; [done|]. constructor; [|constructor].
  apply buffer_parse_sound in Ep as [Hwf Hreq]. destruct (Hreq eq_refl) as [??].
  unfold thread_ok. cbn. by split_and!.
Qed.

Lemma size_blit_take (b d : bytes) : size (blit b 0 (take (length b) d)) = size b.
Proof.
  apply blit_length; [lia|]. unfold size. rewrite length_take. lia.
Qed.

Lemma main_step_ok sett y rx y' :
  main_step y rx = Ok y' → sys_ok sett y → sys_ok sett y'.
Proof.
  unfold main_step. intros E Hok. apply bind_Ok in E as ([[y1 n] from] & E1 & E).
  assert (sys_ok sett y1) as Hok1.
  { destruct Hok as (? & ? & ?). destruct rx; simplify_eq/=; try by split_and!.
    split_and!; try done. simpl. by rewrite size_blit_take. }
  apply bind_Ok in E as (l & El & E). apply bind_Ok in E as ([l' w'] & Er & E).
  simplify_eq/=. pose proof Hok1 as (? & ? & Hl). split_and!; try done. simpl.
  eapply reap_ok; [exact Er|]. destruct (9 <=? n); [by eapply accept_ok|by simplify_eq].
Qed.

Lemma sys_step_ok sett y y' : sys_step y y' → sys_ok sett y → sys_ok sett y'.
Proof.
  intros Hstep Hok. destruct Hstep as [rx y' _ E| |i th t th' w' Hi E].
  - by eapply main_step_ok.
  - exact Hok.
  - destruct Hok as (? & ? & Hl). split_and!; try done. simpl.
    apply Forall_insert; [done|]. eapply thread_step_ok; [exact E|].
    by eapply Forall_lookup_1.
Qed.
End invariants.

(** ** Properties *)

(** Whatever clients send and however threads are scheduled, every session of the
    server serves a request the parser accepted: a known request type, a file
    name, options in range, the server's settings; and a thread has returned only
    if its session is finished. *)
Theorem sessions_invariant {W M} `{DataMgr W M} (y y' : sys W M) sett :
  rtc sys_step y y' → sys_ok sett y → sys_ok sett y'.
Proof. induction 1 as [|y1 y2 y3 Hs _ IH]; [done|]. intros Hok. by apply IH, (sys_step_ok sett y1). Qed.

(** A server with the demonstration settings, listening. *)
Definition demo_sys : sys MemFs DataMgrFile := {|
  srv := {| srv_settings := demo_settings; sessions_ := []; srv_socket_ := 4;
            stop_ := false |};
  pkt_buf := replicate (Z.to_nat 0xFFFF) x00;
  sys_world := demo_fs
|}.

Lemma demo_sys_ok : sys_ok demo_settings demo_sys.
Proof.
  split; [reflexivity|]. split; [|constructor]. unfold size, demo_sys. cbn [pkt_buf].
  rewrite length_replicate. lia.
Qed.

Lemma sessions_invariant_witness :
  sys_ok demo_settings {| srv := stop (srv demo_sys); pkt_buf := pkt_buf demo_sys;
                          sys_world := sys_world demo_sys |}.
Proof.
  apply (sessions_invariant demo_sys _ demo_settings);
    [apply rtc_once, sys_stop|apply demo_sys_ok].
Defined.

(** An iteration of the main loop adds at most one session, for an accepted request
    of at least nine octets, and removes at most one, the first that is finished:
    sessions that are still running stay, in their order. *)
Theorem main_step_sessions {W M} `{DataMgr W M} (y : sys W M) rx y' :
  main_step y rx = Ok y' →
  ∃ l, (l = sessions_ (srv y) ∨
        ∃ th d from, rx = RxPkt d from ∧ 9 ≤ size d ∧ l = sessions_ (srv y) ++ [th] ∧
          stat_ (ses (th_run th)) = State.need_init ∧ cl_addr_ (ses (th_run th)) = from) ∧
    ((sessions_ (srv y') = l ∧
      Forall (λ th, stat_ (ses (th_run th)) ≠ State.finish) l) ∨
     (∃ l1 th l2, l = l1 ++ th :: l2 ∧ sessions_ (srv y') = l1 ++ l2 ∧
        stat_ (ses (th_run th)) = State.finish ∧
        Forall (λ th, stat_ (ses (th_run th)) ≠ State.finish) l1)).
Proof.
  unfold main_step. intros E. apply bind_Ok in E as ([[y1 n] from] & E1 & E).
  apply bind_Ok in E as (l & El & E). apply bind_Ok in E as ([l' w'] & Er & E).
  simplify_eq/=. exists l. split.
  - destruct (9 <=? n) eqn:En; reflect_bools.
    2: { left. destruct rx; by simplify_eq/=. }
    destruct rx as [| |d from']; simplify_eq/=; [lia|lia|].
    apply accept_spec in El as [->|(th & o & -> & _ & ->)]; [by left|]. right.
    eexists _, d, from. split_and!; try done.
    unfold size in *. rewrite length_take in En. lia.
  - apply reap_spec in Er as [(-> & _ & Hall)|Hx]; [by left|right].
    destruct Hx as (l1 & th & l2 & -> & -> & ? & ?). by exists l1, th, l2.
Qed.

Lemma main_step_sessions_witness :
  ∃ l, (l = [] ∨
        ∃ th d from, RxAgain = RxPkt d from ∧ 9 ≤ size d ∧ l = [] ++ [th] ∧
          stat_ (ses (th_run th)) = State.need_init ∧ cl_addr_ (ses (th_run th)) = from) ∧
    ((sessions_ (srv demo_sys) = l ∧
      Forall (λ th, stat_ (ses (th_run th)) ≠ State.finish) l) ∨
     (∃ l1 th l2, l = l1 ++ th :: l2 ∧ sessions_ (srv demo_sys) = l1 ++ l2 ∧
        stat_ (ses (th_run th)) = State.finish ∧
        Forall (λ th, stat_ (ses (th_run th)) ≠ State.finish) l1)).
Proof. exact (main_step_sessions demo_sys RxAgain demo_sys eq_refl). Defined.

Lemma blit_front (b d : bytes) : blit b 0 d = d ++ drop (length d) b.
Proof. done. Qed.

(** The packet in the server's buffer. *)
Lemma pkt_buf_request (b e : bytes) :
  size b = 0xFFFF → size e ≤ 0xFFFF →
  take (length b) e = e ∧ buf_ok (blit b 0 e) ∧ size (drop (length e) b) = 0xFFFF - size e.
Proof.
  intros Hb He. split_and!.
  - apply take_ge. unfold size in *. lia.
  - unfold buf_ok. pose proof (size_nonneg e). rewrite blit_length by lia. lia.
  - unfold size in *. rewrite length_drop. lia.
Qed.

(** The thread of an accepted request. *)
Definition request_thread {W M} `{DataMgr W M} (y : sys W M) (from : Addr) (o : Options)
    : thread W M :=
  {| th_run := run_start (with_request_ (Session_of_base (srv_settings (srv y)))
                 (set_port_u16 (server_addr (srv_settings (srv y))) 0) from o) (sys_world y);
     returned := false |}.

(** An iteration that receives a well-formed request: its thread is started, then
    the finished sessions are looked at. *)
Lemma main_step_request {W M} `{DataMgr W M} (y : sys W M) rq from o :
  size (pkt_buf y) = 0xFFFF → request_ok rq → 9 ≤ size (encode_request rq) ≤ 0xFFFF →
  apply_opts (request_base rq) (rq_opts rq) = Ok o →
  opts_wf o ∧
  main_step y (RxPkt (encode_request rq) from)
  = ('(l, w) ← reap (sessions_ (srv y) ++ [request_thread y from o]) (sys_world y);
     Ok {| srv := with_sessions (srv y) l; pkt_buf := blit (pkt_buf y) 0 (encode_request rq);
           sys_world := w |}).
Proof.
  intros Hb Hrq Hs Ho. destruct (pkt_buf_request (pkt_buf y) (encode_request rq))
    as (Ht & Hok & _); [done|lia|].
  unfold main_step. rewrite Ht. cbn [mbind outcome_bind].
  rewrite (proj2 (Z.leb_le 9 _)) by lia. unfold accept, prepare. cbn [srv pkt_buf sys_world].
  rewrite blit_front in Hok |- *. pose proof (buffer_parse_encoded rq (drop (length
    (encode_request rq)) (pkt_buf y)) Hrq Hok) as Ep. rewrite Ho in Ep. cbn [mbind outcome_bind] in Ep.
  rewrite Ep. split; [by apply buffer_parse_sound in Ep as [? _]|]. done.
Qed.

(** C19. A well-formed request whose options are in range starts a session with exactly
    what the request asks for, for the client that sent it. *)
Theorem request_starts_session {W M} `{DataMgr W M} (y : sys W M) rq from o :
  size (pkt_buf y) = 0xFFFF → request_ok rq → 9 ≤ size (encode_request rq) ≤ 0xFFFF →
  apply_opts (request_base rq) (rq_opts rq) = Ok o →
  Forall (λ th, stat_ (ses (th_run th)) ≠ State.finish) (sessions_ (srv y)) →
  ∃ y' th, main_step y (RxPkt (encode_request rq) from) = Ok y' ∧
    sessions_ (srv y') = sessions_ (srv y) ++ [th] ∧ opt_ (ses (th_run th)) = o ∧
    cl_addr_ (ses (th_run th)) = from ∧ stat_ (ses (th_run th)) = State.need_init ∧
    settings_ (ses (th_run th)) = srv_settings (srv y) ∧ sys_world y' = sys_world y.
Proof.
  intros Hb Hrq Hs Ho Hl. destruct (main_step_request y rq from o Hb Hrq Hs Ho) as [_ ->].
  rewrite reap_running.
  - eexists _, (request_thread y from o). by split_and!.
  - apply Forall_app. split; [done|]. by constructor.
Qed.

Lemma request_starts_session_witness :
  ∃ y' th, main_step demo_sys (RxPkt (encode_request sample_rq) demo_client) = Ok y' ∧
    sessions_ (srv y') = [th] ∧ blksize (opt_ (ses (th_run th))) = 1024.
Proof.
  destruct (request_starts_session demo_sys sample_rq demo_client
      (set_option (set_option (request_base sample_rq) name_blksize 1024) name_tsize 0))
    as (y' & th & E & Hl & Ho & _);
    [apply demo_sys_ok|apply sample_rq_ok|split; vm_compute; discriminate|
     vm_compute; reflexivity|constructor|].
  exists y', th. split; [exact E|]. split; [exact Hl|]. rewrite Ho. reflexivity.
Defined.

(** C40. One datagram can stop the server: an option value beyond [INT_MAX] leaves
    [main_loop] with [std::out_of_range]. *)
Theorem request_overflow_stops_server {W M} `{DataMgr W M} (y : sys W M) rq from :
  size (pkt_buf y) = 0xFFFF → request_ok rq → 9 ≤ size (encode_request rq) ≤ 0xFFFF →
  Exists value_overflows (rq_opts rq) →
  main_step y (RxPkt (encode_request rq) from) = Throw out_of_range.
Proof.
  intros Hb Hrq Hs Hv. destruct (pkt_buf_request (pkt_buf y) (encode_request rq))
    as (Ht & Hok & _); [done|lia|].
  unfold main_step. rewrite Ht. cbn [mbind outcome_bind].
  rewrite (proj2 (Z.leb_le 9 _)) by lia. unfold accept, prepare. cbn [srv pkt_buf sys_world].
  rewrite blit_front in Hok |- *. rewrite buffer_parse_encoded by done.
  by rewrite apply_opts_overflow.
Qed.

Definition overflow_rq : request :=
  {| rq_type := SrvReq.read; rq_filename := str "f"; rq_mode := str "octet";
     rq_opts := [(str "tsize", str "2147483648")] |}.

Lemma request_overflow_stops_server_witness :
  main_step demo_sys (RxPkt (encode_request overflow_rq) demo_client) = Throw out_of_range.
Proof.
  apply (request_overflow_stops_server demo_sys overflow_rq demo_client).
  - apply demo_sys_ok.
  - split; [discriminate|]. split; [split; [discriminate|by_decide]|].
    split; [split; [discriminate|by_decide]|]. repeat constructor; by_decide.
  - split; vm_compute; discriminate.
  - apply Exists_cons_hd. split; vm_compute; reflexivity.
Defined.

(** After [init] the server has a socket iff it reports success; before, an open
    one was closed. *)
Theorem srv_init_socket {W M} (v : Srv W M) o :
  let '(v', ok) := srv_init v o in
  (ok = true ↔ 0 ≤ socket_ret o ∧ bind_ret o = 0) ∧
  (ok = true → srv_socket_ v' = socket_ret o) ∧
  (ok = false → srv_socket_ v' < 0) ∧ sessions_ v' = sessions_ v.
Proof.
  unfold srv_init, srv_socket_open.
  assert (Hs : ∀ v0 : Srv W M, sessions_ (if 0 <=? srv_socket_ v0 then srv_socket_close v0
                                          else v0) = sessions_ v0)
    by (intros; by destruct (_ <=? _)).
  cbn [srv_socket_ with_srv_socket].
  destruct (socket_ret o <? 0) eqn:E1; reflect_bools.
  { cbn. rewrite Hs. split_and!; try done. split; [done|lia]. }
  destruct (bind_ret o =? 0) eqn:E2; reflect_bools; cbn; rewrite Hs; split_and!; try done.
  split; [done|]. intros [_ ?]. done.
Qed.
