(* ===== verification/SrvSteps.v ===== *)
(** * SrvSteps: the steps of the threads

    [DataMgrFile::init] first asks whether the file of an upload exists
    ([filesystem::exists]) and then opens it ([ofstream::open], which cuts an existing
    file to length 0). In [Srv] an iteration of a session is one step; here the thread
    of a session can be interrupted between the two calls, as the threads of
    [tftpSrv.cpp] can: [fine_move] has the iterations of [Srv] and, for uploads,
    [move_check] and [move_open]. While it waits in between, a session has a data
    manager that knows its file name and has no stream ([mark]).

    [follows] is an execution in these steps seen from one session. *)

From Stdlib Require Import Strings.Byte.
From stdpp Require Import relations.
From S2P Require Import Prelude Common SmBuf Options Regex Addr Settings Base.
From S2P Require Import FileSys DataMgr DataMgrFile SmBufEx Session SessionPackets SessionSafety.
From S2P Require Import SessionRead Srv.

(** ** The two parts of [init] *)

Section parts.
Context {W : Type} `{FileSystem W}.

(** The file of an upload. *)
Definition target (sett : Settings) (opt : Options) : path :=
  path_append (get_root_dir sett) (filename opt).

(** After the check. *)
Definition open_new (m : DataMgrFile) (w : W) (fn : path)
    : outcome (DataMgrFile * W * bool * list error) :=
  match out_open_file w fn with
  | Some (w, file_out) =>
      Ok (with_opened m fn (m_file_size m) (m_file_in m) file_out, w, true, [])
  | None =>
      Ok (with_opened m fn (m_file_size m) (m_file_in m) out_failed, w, false,
          forward_error (m_set_error m) 0 ios_failure_what)
  end.

Lemma init_write_parts m (w : W) sett opt :
  request_type opt = SrvReq.write → exists_ w (target sett opt) = Ok false →
  DataMgrFile.init m w sett opt
  = open_new (with_request m sett SrvReq.write) w (target sett opt).
Proof.
  intros Hr He. unfold DataMgrFile.init, init_writing. rewrite Hr.
  cbn [m_settings with_request]. fold (target sett opt). by rewrite He.
Qed.

(** The manager of a thread that goes on after the check for the file [fn]. *)
Definition late_mgr (getpwnam getgrnam : bytes → option Z) (fn : path) : DataMgr W DataMgrFile := {|
  dm_new := DataMgrFile_new;
  dm_active := active;
  dm_init m w sett opt := open_new (with_request m sett (request_type opt)) w fn;
  dm_write := write;
  dm_read := read;
  dm_close := close getpwnam getgrnam
|}.
End parts.

Section steps.
Context {W : Type} `{FileSystem W}.
Context (getpwnam getgrnam : bytes → option Z).
Local Instance step_mgr : DataMgr W DataMgrFile := DataMgrFile_mgr getpwnam getgrnam.
Implicit Types (w : W) (y : sys W DataMgrFile) (th : thread W DataMgrFile).
Implicit Types (s : Session DataMgrFile) (fn : path).

Definition aim s : path := target (settings_ s) (opt_ s).

Definition with_ses th s : thread W DataMgrFile :=
  {| th_run := {| ses := s; world := world (th_run th); loc := loc (th_run th);
                  sent := sent (th_run th) |};
     returned := returned th |}.

Definition with_threads y (l : list (thread W DataMgrFile)) w : sys W DataMgrFile :=
  {| srv := with_sessions (srv y) l; pkt_buf := pkt_buf y; sys_world := w |}.

(** Between the check and [open]: [file_man_] is set, [filename_] is known. *)
Definition mark th : thread W DataMgrFile :=
  let s := ses (th_run th) in
  let m := with_request DataMgrFile_new (settings_ s) SrvReq.write in
  with_ses th (with_man s (Some
    (with_opened m (aim s) (m_file_size m) (m_file_in m) (m_file_out m)))).

(** The file a session is about to open. *)
Definition awaiting th : option path :=
  if bool_decide (stat_ (ses (th_run th)) = State.need_init)
  then m_filename <$> file_man_ (ses (th_run th)) else None.

(** A step of one thread, with the tick of the iteration it takes part in. *)
Inductive fine_move th w : list tick → thread W DataMgrFile → W → Prop :=
  | move_run t th' w' :
      awaiting th = None → thread_step th w t = Ok (th', w') → fine_move th w [t] th' w'
  | move_check :
      awaiting th = None → returned th = false →
      stat_ (ses (th_run th)) = State.need_init →
      request_type (opt_ (ses (th_run th))) = SrvReq.write →
      exists_ w (aim (ses (th_run th))) = Ok false → fine_move th w [] (mark th) w
  | move_open fn t th' w' :
      awaiting th = Some fn → 0 ≤ sock t → bound t = true →
      @thread_step _ _ (late_mgr getpwnam getgrnam fn) th w t = Ok (th', w') →
      fine_move th w [t] th' w'.

Inductive fine_step y : sys W DataMgrFile → Prop :=
  | fine_main rx y' :
      stop_ (srv y) = false → main_step y rx = Ok y' → fine_step y y'
  | fine_stop :
      fine_step y {| srv := stop (srv y); pkt_buf := pkt_buf y; sys_world := sys_world y |}
  | fine_thread i th ts th' w' :
      sessions_ (srv y) !! i = Some th → fine_move th (sys_world y) ts th' w' →
      fine_step y (with_threads y (<[i := th']> (sessions_ (srv y))) w').

(** ** Sessions that wait *)

Lemma awaiting_mark th :
  stat_ (ses (th_run th)) = State.need_init → awaiting (mark th) = Some (aim (ses (th_run th))).
Proof. intros Hn. unfold awaiting. cbn. by rewrite bool_decide_true. Qed.

Lemma awaiting_init th fn :
  awaiting th = Some fn → stat_ (ses (th_run th)) = State.need_init.
Proof. unfold awaiting. by case_bool_decide. Qed.

Lemma awaiting_running th : stat_ (ses (th_run th)) ≠ State.need_init → awaiting th = None.
Proof. intros Hn. unfold awaiting. by rewrite bool_decide_false. Qed.

Lemma awaiting_new th : file_man_ (ses (th_run th)) = None → awaiting th = None.
Proof. intros Hn. unfold awaiting. rewrite Hn. by case_bool_decide. Qed.

(** An iteration, with any manager, leaves [need_init]. *)
Lemma thread_step_runs (D : DataMgr W DataMgrFile) th w t th' w' :
  @thread_step _ _ D th w t = Ok (th', w') → returned th = false ∨ awaiting th = None →
  awaiting th' = None.
Proof.
  unfold thread_step. intros E Hr. destruct (returned th) eqn:Hret.
  { simplify_eq. by destruct Hr. }
  apply awaiting_running. unfold is_finished in E.
  case_bool_decide as Hf; apply bind_Ok in E as (r & E & E1); simplify_eq/=.
  - apply run_end_ses in E as [_ ->]. cbn. by rewrite Hf.
  - apply step_trans in E; [|done]. intros Hn. rewrite Hn in E. inversion E.
Qed.

(** A session past its [init] goes on by whole iterations. *)
Lemma move_running th w ts th' w' :
  fine_move th w ts th' w' → stat_ (ses (th_run th)) ≠ State.need_init →
  ∃ t, ts = [t] ∧ thread_step th w t = Ok (th', w').
Proof.
  intros [t ? ? _ E|_ _ Hn _ _|fn t ? ? Ha _ _ _] Hst; [by exists t|done|].
  by apply awaiting_init in Ha.
Qed.

Lemma move_length th w ts th' w' : fine_move th w ts th' w' → (length ts ≤ 1)%nat.
Proof. intros []; cbn; lia. Qed.

(** ** Following a session

    The position of a session after the main loop has reaped the first finished
    one; [None] when it is the one. *)
Definition after_reap (l : list (thread W DataMgrFile)) (i : nat) : option nat :=
  match list_find (λ th, stat_ (ses (th_run th)) = State.finish) l with
  | Some (j, _) => if decide (j = i) then None else Some (if decide (j < i)%nat then pred i else i)
  | None => Some i
  end.

(** An execution of the system seen from the session at position [i]: [ts] are the
    answers of the operating system to its own iterations, between which the main
    loop and the other threads do anything. *)
Inductive follows : sys W DataMgrFile → nat → list tick → sys W DataMgrFile → nat → Prop :=
  | follow_end y i : follows y i [] y i
  | follow_main y i rx y1 i1 ts y' i' :
      stop_ (srv y) = false → main_step y rx = Ok y1 →
      after_reap (sessions_ (srv y)) i = Some i1 →
      follows y1 i1 ts y' i' → follows y i ts y' i'
  | follow_stop y i ts y' i' :
      follows {| srv := stop (srv y); pkt_buf := pkt_buf y; sys_world := sys_world y |} i ts y' i' →
      follows y i ts y' i'
  | follow_other y i j th ts1 th1 w1 ts y' i' :
      j ≠ i → sessions_ (srv y) !! j = Some th → fine_move th (sys_world y) ts1 th1 w1 →
      follows (with_threads y (<[j := th1]> (sessions_ (srv y))) w1) i ts y' i' →
      follows y i ts y' i'
  | follow_own y i th ts1 th1 w1 ts y' i' :
      sessions_ (srv y) !! i = Some th → fine_move th (sys_world y) ts1 th1 w1 →
      follows (with_threads y (<[i := th1]> (sessions_ (srv y))) w1) i ts y' i' →
      follows y i (ts1 ++ ts) y' i'.

(** Every such execution is one of the system. *)
Lemma follows_steps y i ts y' i' : follows y i ts y' i' → rtc fine_step y y'.
Proof.
  induction 1; [done|eapply rtc_l; [|done]..].
  - by eapply fine_main.
  - by apply fine_stop.
  - by eapply fine_thread.
  - by eapply fine_thread.
Qed.

Lemma follows_app y i ts1 y1 i1 ts2 y2 i2 :
  follows y i ts1 y1 i1 → follows y1 i1 ts2 y2 i2 → follows y i (ts1 ++ ts2) y2 i2.
Proof.
  induction 1; intros Hf; [done|by eapply follow_main; eauto|by apply follow_stop; auto|
    by eapply follow_other; eauto|].
  rewrite <-app_assoc. by eapply follow_own; eauto.
Qed.

(** *** A schedule, executed

    Who steps next, and what the system call answers. The result is the system, the
    position of the followed session and its ticks. *)
Inductive event :=
  | EvMain (rx : recv_result)
  | EvThread (j : nat) (t : tick)
  | EvCheck (j : nat)
  | EvOpen (j : nat) (t : tick).

Definition exec_move th w (e : event) : option (list tick * thread W DataMgrFile * W) :=
  let s := ses (th_run th) in
  match e, awaiting th with
  | EvThread _ t, None =>
      match thread_step th w t with Ok (th', w') => Some ([t], th', w') | _ => None end
  | EvCheck _, None =>
      if bool_decide (returned th = false ∧ stat_ s = State.need_init ∧
                      request_type (opt_ s) = SrvReq.write)
      then match exists_ w (aim s) with Ok false => Some ([], mark th, w) | _ => None end
      else None
  | EvOpen _ t, Some fn =>
      if (0 <=? sock t) && bound t then
        match @thread_step _ _ (late_mgr getpwnam getgrnam fn) th w t with
        | Ok (th', w') => Some ([t], th', w')
        | _ => None
        end
      else None
  | _, _ => None
  end.

Lemma exec_move_sound th w e ts th' w' :
  exec_move th w e = Some (ts, th', w') → fine_move th w ts th' w'.
Proof.
  unfold exec_move. destruct e as [rx|j t|j|j t], (awaiting th) as [fn|] eqn:Ha; try done.
  - destruct (thread_step _ _ _) as [[]| |] eqn:E; intros; simplify_eq. by constructor.
  - case_bool_decide as Hc; [|done]. destruct Hc as (? & ? & ?).
    destruct (exists_ _ _) as [[]| |] eqn:E; intros; simplify_eq. by constructor.
  - destruct (_ && _) eqn:Ho; [|done]. apply andb_true_iff in Ho as [Hso%Z.leb_le Hbo].
    destruct (@thread_step _ _ _ _ _ _) as [[]| |] eqn:E; intros; simplify_eq.
    by eapply move_open.
Qed.

Fixpoint play y (i : nat) (es : list event) : option (sys W DataMgrFile * nat * list tick) :=
  match es with
  | [] => Some (y, i, [])
  | EvMain rx :: es =>
      match stop_ (srv y), main_step y rx, after_reap (sessions_ (srv y)) i with
      | false, Ok y1, Some i1 => play y1 i1 es
      | _, _, _ => None
      end
  | (EvThread j _ | EvCheck j | EvOpen j _) as e :: es =>
      th ← sessions_ (srv y) !! j;
      '(ts1, th1, w1) ← exec_move th (sys_world y) e;
      '(y', i', ts) ← play (with_threads y (<[j := th1]> (sessions_ (srv y))) w1) i es;
      Some (y', i', if decide (j = i) then ts1 ++ ts else ts)
  end.

Lemma play_follows y i es y' i' ts :
  play y i es = Some (y', i', ts) → follows y i ts y' i'.
Proof.
  assert (Hmove : ∀ y i j e es (IH : ∀ y i ts y' i', play y i es = Some (y', i', ts) →
      follows y i ts y' i') y' i' ts,
    (th ← sessions_ (srv y) !! j;
     '(ts1, th1, w1) ← exec_move th (sys_world y) e;
     '(y', i', ts) ← play (with_threads y (<[j := th1]> (sessions_ (srv y))) w1) i es;
     Some (y', i', if decide (j = i) then ts1 ++ ts else ts)) = Some (y', i', ts) →
    follows y i ts y' i').
  { clear. intros y i j e es IH y' i' ts E.
    destruct (sessions_ (srv y) !! j) as [th|] eqn:Hj; [|done]. cbn in E.
    destruct (exec_move _ _ _) as [[[ts1 th1] w1]|] eqn:Et; [|done]. cbn in E.
    destruct (play _ _ _) as [[[y2 i2] ts2]|] eqn:Ep; [|done]. cbn in E. apply IH in Ep.
    apply exec_move_sound in Et. destruct (decide (j = i)) as [->|Hne]; simplify_eq;
      [by eapply follow_own|by eapply follow_other]. }
  revert y i ts y' i'. induction es as [|e es IH]; intros y i ts y' i' E.
  { cbn in E. simplify_eq. constructor. }
  destruct e as [rx|j t|j|j t]; cbn [play] in E; [|by eapply Hmove..].
  destruct (stop_ (srv y)) eqn:Hst; [done|].
  destruct (main_step y rx) eqn:Em; [|done..].
  destruct (after_reap _ _) eqn:Ei; [|done]. by eapply follow_main; eauto.
Qed.

(** Without following anybody. *)
Definition exec y (e : event) : option (sys W DataMgrFile) :=
  match e with
  | EvMain rx =>
      match stop_ (srv y), main_step y rx with false, Ok y' => Some y' | _, _ => None end
  | EvThread j _ | EvCheck j | EvOpen j _ =>
      th ← sessions_ (srv y) !! j;
      '(_, th', w') ← exec_move th (sys_world y) e;
      Some (with_threads y (<[j := th']> (sessions_ (srv y))) w')
  end.

Lemma exec_step y e y' : exec y e = Some y' → fine_step y y'.
Proof.
  assert (Hmove : ∀ j, (th ← sessions_ (srv y) !! j;
      '(_, th', w') ← exec_move th (sys_world y) e;
      Some (with_threads y (<[j := th']> (sessions_ (srv y))) w')) = Some y' → fine_step y y').
  { intros j E. destruct (sessions_ (srv y) !! j) as [th|] eqn:Hj; [|done]. cbn in E.
    destruct (exec_move _ _ _) as [[[ts1 th1] w1]|] eqn:Et; [|done]. cbn in E. simplify_eq.
    apply exec_move_sound in Et. by eapply fine_thread. }
  unfold exec. destruct e as [rx|j t|j|j t]; [|apply Hmove..].
  destruct (stop_ (srv y)) eqn:Hs; [done|]. destruct (main_step y rx) eqn:Em; intros; simplify_eq.
  by eapply fine_main.
Qed.

(** Events that cannot happen are skipped. *)
Definition next y (e : event) : sys W DataMgrFile := default y (exec y e).

Lemma next_steps y es : rtc fine_step y (foldl next y es).
Proof.
  revert y. induction es as [|e es IH]; intros y; [done|]. cbn [foldl].
  etrans; [|apply IH]. unfold next. destruct (exec y e) eqn:E; cbn; [|done].
  by eapply rtc_once, exec_step.
Qed.
End steps.
