(* ===== verification/SrvFiles.v ===== *)
(** * SrvFiles: the files of a running server

    The threads of [tftpSrv.cpp] share the file system. Here the whole system
    ([fine_step] of [SrvSteps], with the file manager of [tftpDataMgrFile.cpp]) is
    shown to leave every complete file alone that no session is about to open, and a
    read session to run among other sessions exactly as it runs alone. *)

From Stdlib Require Import Strings.Byte.
From stdpp Require Import relations.
From S2P Require Import Prelude Common SmBuf Options Regex Addr Settings Base.
From S2P Require Import FileSys DataMgr DataMgrFile SmBufEx Session SessionPackets SessionSafety.
From S2P Require Import SessionRead SessionWrite Srv SrvSteps.

(** ** The manager and the world of a session

    An iteration touches the manager and the world only through the interface:
    a relation between them that the operations keep is kept by every step. *)
Section keeps.
Context {W M : Type} `{DataMgr W M}.
Implicit Types (r : run_st W M) (s : Session M) (w : W).

Definition init_keeps (K : option M → W → Prop) : Prop :=
  ∀ m0 w sett opt m w' ok errs,
    K m0 w → dm_init dm_new w sett opt = Ok (m, w', ok, errs) → K (Some m) w'.

Record keeper (K : option M → W → Prop) : Prop := {
  keep_write m w b pos m' w' n errs :
    K (Some m) w → dm_write m w b pos = Ok (m', w', n, errs) → K (Some m') w';
  keep_read m w b pos m' b' n errs :
    K (Some m) w → dm_read m w b pos = Ok (m', b', n, errs) → K (Some m') w;
  keep_close m w m' w' :
    K (Some m) w → dm_close m w = Ok (m', w') → K (Some m') w'
}.

Lemma man_error s c e : file_man_ (set_error_if_first s c e) = file_man_ s.
Proof. unfold set_error_if_first. by destruct (negb _). Qed.

Lemma man_goto s v : file_man_ (goto s v) = file_man_ s.
Proof. unfold goto, switch_to. by destruct (_ || _). Qed.

Lemma man_sync s n : file_man_ (sync_stage s n) = file_man_ s.
Proof. unfold sync_stage. by destruct (negb _). Qed.

Context (K : option M → W → Prop) (HK : keeper K).

Lemma receive_data_keeps s w b n k s' w' b' res :
  receive_data s w b n k = Ok (s', w', b', res) →
  K (file_man_ s) w → K (file_man_ s') w'.
Proof.
  unfold receive_data. intros E Hk. destruct (negb _); [simplify_eq; by rewrite man_error|].
  rewrite man_sync in E. destruct (file_man_ s) as [m|] eqn:Hm; [|done].
  apply bind_Ok in E as ([[[m1 w1] ret] errs] & Ew & E).
  eapply keep_write in Ew; [|done|done].
  destruct (_ <? 0); simplify_eq; by rewrite ?man_error, man_report.
Qed.

Lemma receive_keeps s w b t s' w' b' res :
  receive_no_wait s w b t = Ok (s', w', b', res) →
  K (file_man_ s) w → K (file_man_ s') w'.
Proof.
  unfold receive_no_wait. intros E Hk. destruct (rx t) as [| |d from]; [by simplify_eq..|].
  apply bind_Ok in E as (b1 & _ & E). apply bind_Ok in E as (op & _ & E).
  apply bind_Ok in E as (blk & _ & E). apply bind_Ok in E as (msg & _ & E).
  destruct (negb _); [by simplify_eq|]. destruct (_ && _); [by eapply receive_data_keeps|].
  destruct (_ && _); [|by simplify_eq]. unfold receive_ack in E.
  destruct (negb _); simplify_eq; by rewrite ?man_error, ?man_sync.
Qed.

Lemma construct_data_keeps s w b s' b' :
  construct_data s w b = Ok (s', b') → K (file_man_ s) w → K (file_man_ s') w.
Proof.
  unfold construct_data. intros E Hk. apply bind_Ok in E as (b1 & _ & E).
  destruct (file_man_ s) as [m|] eqn:Hm; [|done]. destruct (_ <? _); [done|].
  apply bind_Ok in E as ([[[m1 rng] ret] errs] & Er & E).
  eapply keep_read in Er; [|done|done]. destruct (0 <=? ret).
  - apply bind_Ok in E as (b2 & _ & E). simplify_eq. by rewrite man_report.
  - simplify_eq. by rewrite man_error, man_report.
Qed.

(** [init], called by the iteration of a session that is to be initialised. *)
Definition init_keeps_at r : Prop :=
  stat_ (ses r) = State.need_init → ∀ m w' ok errs,
    dm_init dm_new (world r) (settings_ (ses r)) (opt_ (ses r)) = Ok (m, w', ok, errs) →
    K (Some m) w'.

Lemma step_keeps_at r t r' :
  init_keeps_at r → step r t = Ok r' →
  K (file_man_ (ses r)) (world r) → K (file_man_ (ses r')) (world r').
Proof.
  unfold step, init_keeps_at. intros Hini E Hk. destruct (stat_ (ses r)).
  - specialize (Hini eq_refl). unfold step_need_init, init in E. apply bind_Ok in E as ([[s w] ok] & Ei & E).
    simplify_eq/=. destruct (_ && _).
    + apply bind_Ok in Ei as ([[[m w1] ok1] errs] & Ei & E). simplify_eq/=.
      apply Hini in Ei.
      destruct (was_error _), ok1; cbn [negb]; by rewrite man_goto, ?man_error, man_report.
    + simplify_eq/=. by rewrite man_goto.
  - unfold step_error_and_stop in E. apply bind_Ok in E as ([[s b] out] & E1 & E).
    simplify_eq/=. rewrite man_goto. destruct (was_error _); [|by simplify_eq].
    apply bind_Ok in E1 as ([s1 b1] & E1 & E). simplify_eq.
    unfold construct_error in E1. apply bind_Ok in E1 as (b2 & _ & E1). simplify_eq.
    by destruct (negb _).
  - unfold step_ack_options in E. apply bind_Ok in E as ([b out] & _ & E). simplify_eq/=.
    destruct (request_type _); [|destruct (was_set_any _)..]; cbn; by rewrite man_goto.
  - unfold step_data_tx in E. apply bind_Ok in E as ([s b] & E1 & E).
    eapply construct_data_keeps in E1; [|exact Hk].
    destruct (_ && _); [destruct (_ || _)|]; simplify_eq/=; by rewrite ?man_goto.
  - unfold step_data_rx in E. apply bind_Ok in E as ([[[s w] b] res] & E1 & E).
    eapply receive_keeps in E1; [|exact Hk]. destruct res.
    + apply bind_Ok in E as (pass & _ & E). simplify_eq/=.
      destruct pass; by rewrite ?man_goto.
    + destruct (is_window_close _ _); simplify_eq/=; by rewrite ?man_goto.
    + simplify_eq/=. by rewrite man_goto.
  - unfold step_ack_tx in E. apply bind_Ok in E as (b & _ & E).
    destruct (last_blk_processed_ _); simplify_eq/=; by rewrite man_goto.
  - unfold step_ack_rx in E. apply bind_Ok in E as ([[[s w] b] res] & E1 & E).
    eapply receive_keeps in E1; [|exact Hk]. destruct res.
    + apply bind_Ok in E as (pass & _ & E). simplify_eq/=.
      destruct pass; by rewrite ?man_goto.
    + destruct (last_blk_processed_ _); simplify_eq/=; by rewrite man_goto.
    + simplify_eq/=. by rewrite man_goto.
  - unfold step_retransmit in E. destruct (_ <? _); simplify_eq/=; [by rewrite man_goto|].
    destruct (request_type _); by rewrite man_goto.
  - by simplify_eq.
Qed.

Lemma step_keeps r t r' :
  stat_ (ses r) ≠ State.need_init ∨ init_keeps K → step r t = Ok r' →
  K (file_man_ (ses r)) (world r) → K (file_man_ (ses r')) (world r').
Proof.
  intros Hini E Hk. apply (step_keeps_at r t r'); [|done|done].
  intros Hn m w' ok errs Ei. destruct Hini as [?|Hini]; [done|]. by eapply Hini.
Qed.

Lemma run_end_keeps r r' :
  run_end r = Ok r' → K (file_man_ (ses r)) (world r) → K (file_man_ (ses r')) (world r').
Proof.
  unfold run_end. intros E Hk. destruct (file_man_ (ses r)) as [m|]; [|done].
  apply bind_Ok in E as ([m' w'] & Ec & E). simplify_eq/=.
  by eapply keep_close in Ec.
Qed.
End keeps.

(** ** A complete file *)

Section files.
Context {W : Type} `{FileSystem W, !FsLaws W, !FsFrame W}.
Context (getpwnam getgrnam : bytes → option Z).
Local Instance files_mgr : DataMgr W DataMgrFile := DataMgrFile_mgr getpwnam getgrnam.
Implicit Types (m : DataMgrFile) (w : W) (y : sys W DataMgrFile) (th : thread W DataMgrFile).
Implicit Types r : run_st W DataMgrFile.

(** The manager has no open output stream on the file named [p]. *)
Definition not_writing (p : bytes) (o : option DataMgrFile) : Prop :=
  match o with
  | Some m => out_open (m_file_out m) = true → same_file (out_path (m_file_out m)) p = false
  | None => True
  end.

(** The file named [p] has the content [d] and the manager does not write to it. *)
Definition intact (p d : bytes) (o : option DataMgrFile) w : Prop :=
  content w p = Some d ∧ not_writing p o.

Lemma content_stat w w' p : fs_stat w' p = fs_stat w p → content w' p = content w p.
Proof. intros E. unfold content. by rewrite E. Qed.

(** Changes of owner and mode keep the content, also under another name. *)
Lemma chown_content w q u g p d :
  content w p = Some d → content (default w (fs_chown w q u g)) p = Some d.
Proof.
  intros Hc. destruct (fs_chown w q u g) as [w'|] eqn:E; [|done]. simpl.
  destruct (same_file q p) eqn:Hs; [|by rewrite (content_stat w w' p) by
    (by eapply chown_frame)].
  unfold content in *. pose proof (same_stat w q p Hs) as Hst.
  pose proof (same_stat w' q p Hs) as Hst'.
  destruct (fs_stat w p) as [[d0 m0 u0 g0| |]| |] eqn:Hp; simplify_eq/=.
  by rewrite <-Hst', (chown_owner _ _ _ _ _ _ _ _ _ Hst E).
Qed.

Lemma chmod_content w q mode p d :
  content w p = Some d → content (default w (fs_chmod w q mode)) p = Some d.
Proof.
  intros Hc. destruct (fs_chmod w q mode) as [w'|] eqn:E; [|done]. simpl.
  destruct (same_file q p) eqn:Hs; [|by rewrite (content_stat w w' p) by
    (by eapply chmod_frame)].
  unfold content in *. pose proof (same_stat w q p Hs) as Hst.
  pose proof (same_stat w' q p Hs) as Hst'.
  destruct (fs_stat w p) as [[d0 m0 u0 g0| |]| |] eqn:Hp; simplify_eq/=.
  by rewrite <-Hst', (chmod_mode _ _ _ _ _ _ _ _ Hst E).
Qed.

(** A file that is created did not exist: it is another one. *)
Lemma create_other w q w' p d :
  content w p = Some d → fs_stat w q = NotFound → fs_create w q = Some w' →
  same_file q p = false ∧ content w' p = Some d.
Proof.
  intros Hc Hn E. assert (Hs : same_file q p = false).
  { apply not_true_iff_false. intros Hs. apply (same_stat w) in Hs. unfold content in Hc.
    by rewrite <-Hs, Hn in Hc. }
  split; [done|]. by rewrite (content_stat w w' p) by (by eapply create_frame).
Qed.

Lemma init_intact p d o w sett opt m w' ok errs :
  intact p d o w → DataMgrFile.init DataMgrFile_new w sett opt = Ok (m, w', ok, errs) →
  intact p d (Some m) w'.
Proof.
  intros [Hc _]. unfold DataMgrFile.init. destruct (request_type opt); intros E.
  - by simplify_eq/=.
  - unfold init_reading in E. apply bind_Ok in E as ([ret fn] & _ & E).
    destruct ret; cbn [negb] in E; [|by simplify_eq/=].
    destruct (in_fail _); [done|]. apply bind_Ok in E as (sz & _ & E). by simplify_eq/=.
  - unfold init_writing in E. apply bind_Ok in E as (ex & Hex & E).
    destruct ex; [by simplify_eq/=|]. unfold out_open_file in E.
    destruct (fs_create _ _) as [w1|] eqn:Hcr; [|by simplify_eq/=].
    assert (Hn : fs_stat w (c_str (path_append (get_root_dir sett) (filename opt))) = NotFound).
    { unfold exists_ in Hex. cbn [m_settings with_request] in Hex.
      by destruct (fs_stat _ _) as [| |]; simplify_eq. }
    destruct (create_other _ _ _ _ _ Hc Hn Hcr) as [Hs Hc']. simplify_eq/=.
    split; [done|]. intros _. exact Hs.
Qed.

Lemma seekp_path f pos f' :
  seekp f pos = Ok f' → out_path f' = out_path f ∧ out_open f' = out_open f.
Proof. unfold seekp. repeat case_match; intros; simplify_eq/=; done. Qed.

Lemma write_intact p d m w b pos m' w' n errs :
  intact p d (Some m) w → write m w b pos = Ok (m', w', n, errs) → intact p d (Some m') w'.
Proof.
  intros [Hc Hn]. unfold write. case_bool_decide; [done|].
  destruct (out_open (m_file_out m)) eqn:Ho; [|by intros; simplify_eq].
  destruct (_ <? _); [|by intros; simplify_eq]. intros E.
  apply bind_Ok in E as (f & Ef & E).
  assert (Hf : out_path f = out_path (m_file_out m) ∧ out_open f = true).
  { rewrite <-Ho. destruct (_ =? _); [by simplify_eq|by apply seekp_path in Ef]. }
  destruct Hf as [Hp Hfo]. specialize (Hn Ho). destruct (negb _).
  { simplify_eq/=. split; [done|]. cbn. by rewrite Hp. }
  unfold out_write in E. destruct (out_bad f).
  { destruct (_ <? 0); simplify_eq/=; (split; [done|]; cbn; by rewrite Hp). }
  destruct (fs_pwrite _ _ _ _) as [w1 ok] eqn:Ew.
  assert (Hc1 : content w1 p = Some d).
  { rewrite (content_stat w w1 p); [done|]. eapply pwrite_frame; [exact Ew|by rewrite Hp]. }
  destruct (_ <? 0); simplify_eq/=; (split; [done|]; cbn; by rewrite Hp).
Qed.

Lemma read_intact p d m w b pos m' b' n errs :
  intact p d (Some m) w → read m w b pos = Ok (m', b', n, errs) → intact p d (Some m') w.
Proof.
  intros [Hc Hn]. unfold read. case_bool_decide; [done|].
  destruct (in_open _); [|by intros; simplify_eq].
  destruct (_ <=? _); [done|]. destruct (_ <? _); [|by intros; simplify_eq].
  destruct (in_read _ _ _) as [f' d']. by intros; simplify_eq.
Qed.

Lemma close_content p d m w m' w' :
  content w p = Some d → close getpwnam getgrnam m w = Ok (m', w') → content w' p = Some d.
Proof.
  intros Hc E. unfold close in E. apply bind_Ok in E as (f & _ & E).
  set (m1 := with_streams _ _ _) in E.
  assert (Hc' : content (close_owner getpwnam getgrnam m1 w) p = Some d).
  { unfold close_owner. destruct (_ || _); [by apply chown_content|done]. }
  case_bool_decide; simplify_eq/=; [by apply chmod_content|done].
Qed.

(** After [close] the manager has no open output stream, or never had one. *)
Lemma close_not_writing m w m' w' :
  close getpwnam getgrnam m w = Ok (m', w') → out_open (m_file_out m') = false.
Proof.
  intros E. unfold close in E. apply bind_Ok in E as (f & Ef & E).
  assert (Hf : out_open f = false).
  { destruct (out_open (m_file_out m)) eqn:Ho; [|by simplify_eq].
    unfold out_close in Ef. by destruct (_ && _); simplify_eq/=. }
  by case_bool_decide; simplify_eq/=.
Qed.

Lemma close_intact p d m w m' w' :
  intact p d (Some m) w → close getpwnam getgrnam m w = Ok (m', w') →
  intact p d (Some m') w'.
Proof.
  intros [Hc Hn] E. split; [by eapply close_content|]. cbn.
  by rewrite (close_not_writing _ _ _ _ E).
Qed.

Lemma intact_keeper p d : keeper (intact p d).
Proof.
  split; cbn.
  - intros. by eapply write_intact.
  - intros. by eapply read_intact.
  - intros. by eapply close_intact.
Qed.

Lemma intact_init p d : init_keeps (intact p d).
Proof. intros m0 w sett opt m w' ok errs. apply init_intact. Qed.

(** ** The system *)

(** The session does not write to the file [p] and is not about to open it. *)
Definition off (p : bytes) th : Prop :=
  not_writing p (file_man_ (ses (th_run th))) ∧
  ∀ fn, awaiting th = Some fn → same_file (c_str fn) p = false.

(** The file named [p] is complete: it has the content [d] and no session writes
    to it or is about to open it. *)
Definition stable (p d : bytes) y : Prop :=
  content (sys_world y) p = Some d ∧ Forall (off p) (sessions_ (srv y)).

Lemma off_new p th : file_man_ (ses (th_run th)) = None → off p th.
Proof. intros Hn. split; [by rewrite Hn|]. by rewrite awaiting_new. Qed.

(** One iteration, with any manager that keeps the file. *)
Lemma iteration_intact (D : DataMgr W DataMgrFile) p d th w t th' w' :
  @keeper _ _ D (intact p d) → @init_keeps_at _ _ D (intact p d) (with_world (th_run th) w) →
  @thread_step _ _ D th w t = Ok (th', w') → content w p = Some d →
  not_writing p (file_man_ (ses (th_run th))) →
  content w' p = Some d ∧ not_writing p (file_man_ (ses (th_run th'))).
Proof.
  unfold thread_step. intros HK Hi E Hc Hn. destruct (returned th); [by simplify_eq|].
  destruct (is_finished _); apply bind_Ok in E as (r & E1 & E); simplify_eq/=.
  - by apply (run_end_keeps (intact p d) HK) in E1.
  - by apply (step_keeps_at (intact p d) HK) in E1.
Qed.

Lemma thread_step_stable p d th w t th' w' :
  thread_step th w t = Ok (th', w') → content w p = Some d →
  not_writing p (file_man_ (ses (th_run th))) →
  content w' p = Some d ∧ not_writing p (file_man_ (ses (th_run th'))).
Proof.
  intros E Hc. eapply iteration_intact; [apply intact_keeper| |done|done].
  intros _ m w1 ok errs. by apply (init_intact p d None).
Qed.

Lemma late_step_stable p d fn th w t th' w' :
  @thread_step _ _ (late_mgr getpwnam getgrnam fn) th w t = Ok (th', w') →
  same_file (c_str fn) p = false → content w p = Some d →
  not_writing p (file_man_ (ses (th_run th))) →
  content w' p = Some d ∧ not_writing p (file_man_ (ses (th_run th'))).
Proof.
  intros E Hs Hc. apply (iteration_intact (late_mgr getpwnam getgrnam fn) p d th w t th' w');
    [| |exact E|done].
  - split; cbn; intros; [by eapply write_intact|by eapply read_intact|by eapply close_intact].
  - intros _ m w1 ok errs. cbn. unfold open_new, out_open_file.
    destruct (fs_create _ _) as [w2|] eqn:Hcr; intros; simplify_eq/=; [|done].
    split; [by rewrite (content_stat w w1 p) by (by eapply create_frame)|]. intros _. exact Hs.
Qed.

(** A step of a thread that is off the file. *)
Lemma move_off p d th w ts th' w' :
  fine_move getpwnam getgrnam th w ts th' w' → content w p = Some d → off p th →
  content w' p = Some d ∧ off p th'.
Proof.
  intros Hm Hc [Hn Hfn]. destruct Hm as [t th' w' Ha E|Ha Hr Hst Hrq Hex|fn t th' w' Ha Hso Hbo E].
  - destruct (thread_step_stable p d th w t th' w' E Hc Hn) as [Hc' Hn']. split; [done|].
    split; [done|]. by rewrite (thread_step_runs _ _ _ _ _ _ E) by auto.
  - split; [done|]. split; [done|]. rewrite awaiting_mark by done. intros ? [= <-].
    apply not_true_iff_false. intros Hs. apply (same_stat w) in Hs. unfold content in Hc.
    rewrite <-Hs in Hc. unfold exists_ in Hex. by destruct (fs_stat _ _).
  - destruct (late_step_stable p d fn th w t th' w' E (Hfn fn Ha) Hc Hn) as [Hc' Hn'].
    split; [done|]. destruct (returned th) eqn:Hr.
    + unfold thread_step in E. rewrite Hr in E. by simplify_eq.
    + split; [done|]. by rewrite (thread_step_runs _ _ _ _ _ _ E) by auto.
Qed.

Lemma join_content q d f w w' :
  join f w = Ok w' → content w q = Some d → not_writing q (file_man_ (ses (th_run f))) →
  content w' q = Some d.
Proof.
  unfold join. intros E Hc Hn. destruct (returned f); [by simplify_eq|].
  apply bind_Ok in E as (r & Er & E). simplify_eq.
  by apply (run_end_keeps (intact q d) (intact_keeper q d)) in Er as [? _].
Qed.

Lemma main_step_stable p d y rx y' : main_step y rx = Ok y' → stable p d y → stable p d y'.
Proof.
  intros E [Hc Hl]. apply main_step_inv in E as (k & l & w & b & -> & Er & Hk).
  assert (Hlk : Forall (off p) (sessions_ (srv y) ++ k)).
  { apply Forall_app. split; [done|]. eapply Forall_impl; [|exact Hk].
    intros th [Hn _]. by apply off_new. }
  apply reap_joins in Er as [(-> & -> & _)|(l1 & f & l2 & Ea & -> & Hj & _)]; [done|].
  rewrite Ea in Hlk. apply Forall_app in Hlk as [H1 Hlk]. apply Forall_cons_iff in Hlk as [[Hf _] H2].
  split; [by eapply join_content|by apply Forall_app].
Qed.

Lemma fine_step_stable p d y y' :
  fine_step getpwnam getgrnam y y' → stable p d y → stable p d y'.
Proof.
  intros Hstep Hst. destruct Hstep as [rx y' _ E| |i th ts th' w' Hi Hm]; [|done|].
  - by eapply main_step_stable.
  - destruct Hst as [Hc Hl]. pose proof (Forall_lookup_1 _ _ _ _ Hl Hi) as Hth.
    destruct (move_off p d _ _ _ _ _ Hm Hc Hth). split; [done|]. cbn. by apply Forall_insert.
Qed.

Lemma fine_steps_stable p d y y' :
  rtc (fine_step getpwnam getgrnam) y y' → stable p d y → stable p d y'.
Proof. induction 1 as [|y1 y2 y3 Hs _ IH]; [done|]. eauto using fine_step_stable. Qed.

(** ** A read session among other sessions *)

(** The manager reads the file [q]. *)
Definition reader_of (q : bytes) (o : option DataMgrFile) : Prop :=
  ∃ m, o = Some m ∧ m_request_type m = SrvReq.read ∧ in_path (m_file_in m) = q.

Lemma in_read_path w f n : in_path (in_read w f n).1 = in_path f.
Proof. unfold in_read. by destruct (_ || _). Qed.

Lemma seekg_path f pos : in_path (seekg f pos) = in_path f.
Proof. unfold seekg. by destruct (_ || _). Qed.

(** What [read] does depends on the content of that file only. *)
Lemma read_world m w1 w2 rng pos :
  content w1 (in_path (m_file_in m)) = content w2 (in_path (m_file_in m)) →
  read m w1 rng pos = read m w2 rng pos.
Proof.
  intros Hc. unfold read, in_read.
  assert (Hp : in_path (if tellg (m_file_in m) =? s64 pos then m_file_in m
                        else seekg (m_file_in m) (s64 pos)) = in_path (m_file_in m))
    by (destruct (_ =? _); by rewrite ?seekg_path).
  by rewrite Hp, Hc.
Qed.

Lemma read_reader q m w rng pos m' rng' n errs :
  reader_of q (Some m) → read m w rng pos = Ok (m', rng', n, errs) → reader_of q (Some m').
Proof.
  intros (? & [= <-] & Hr & Hq). unfold read. case_bool_decide; [done|].
  destruct (in_open _); [|intros; simplify_eq; by eexists].
  set (f := if tellg _ =? _ then _ else _).
  assert (Hp : in_path f = q) by (unfold f; destruct (_ =? _); by rewrite ?seekg_path).
  destruct (_ <=? _); [done|]. destruct (_ <? _).
  - pose proof (in_read_path w f (size rng)) as Hp'. destruct (in_read w f (size rng)) as [f' d'].
    intros E. simplify_eq. eexists. split_and!; [done|done|]. cbn in *. congruence.
  - intros E. simplify_eq. by eexists.
Qed.

Lemma receive_world q s w1 w2 b t s' w' b' res :
  reader_of q (file_man_ s) →
  receive_no_wait s w1 b t = Ok (s', w', b', res) →
  w' = w1 ∧ file_man_ s' = file_man_ s ∧ receive_no_wait s w2 b t = Ok (s', w2, b', res).
Proof.
  intros (m & Hm & Hr & _). unfold receive_no_wait. destruct (rx t) as [| |d from];
    [by intros; simplify_eq..|]. intros E.
  apply bind_Ok in E as (b1 & -> & E). apply bind_Ok in E as (op & E2 & E).
  apply bind_Ok in E as (blk & E3 & E). apply bind_Ok in E as (msg & E4 & E).
  cbn [mbind outcome_bind]. rewrite E2. cbn [mbind outcome_bind]. rewrite E3.
  cbn [mbind outcome_bind]. rewrite E4. cbn [mbind outcome_bind].
  destruct (negb _); [by simplify_eq|]. destruct (_ && _).
  - unfold receive_data in *. destruct (negb _); [simplify_eq; by rewrite man_error|].
    rewrite man_sync, Hm in *. cbn in E. unfold write in E.
    rewrite bool_decide_true in E by (by rewrite Hr). done.
  - destruct (_ && _); [|by simplify_eq]. unfold receive_ack in *.
    destruct (negb _); simplify_eq; by rewrite ?man_error, ?man_sync.
Qed.

Lemma construct_data_world q s w1 w2 b s' b' :
  reader_of q (file_man_ s) → content w1 q = content w2 q →
  construct_data s w1 b = Ok (s', b') →
  construct_data s w2 b = Ok (s', b') ∧ reader_of q (file_man_ s').
Proof.
  intros Hrd Hc E. pose proof Hrd as (m & Hm & Hr & Hq). unfold construct_data in *.
  apply bind_Ok in E as (b1 & -> & E). cbn [mbind outcome_bind]. rewrite Hm in *.
  destruct (_ <? _); [done|]. cbn [dm_read files_mgr DataMgrFile_mgr] in *.
  rewrite (read_world m w2 w1) by (by rewrite Hq). split; [done|].
  apply bind_Ok in E as ([[[m1 rng] ret] errs] & Er & E).
  eapply read_reader in Er; [|exact Hrd]. destruct (0 <=? ret).
  - apply bind_Ok in E as (b2 & _ & E). simplify_eq. by rewrite man_report.
  - simplify_eq. by rewrite man_error, man_report.
Qed.

(** An iteration of a read session does the same in every world in which its file
    has the same content, and leaves the world alone. *)
Lemma step_world q (r : run_st W DataMgrFile) t w1 w2 r1 :
  stat_ (ses r) ≠ State.need_init → reader_of q (file_man_ (ses r)) →
  content w1 q = content w2 q → step (with_world r w1) t = Ok r1 →
  world r1 = w1 ∧ reader_of q (file_man_ (ses r1)) ∧
  step (with_world r w2) t = Ok (with_world r1 w2).
Proof.
  intros Hni Hrd Hc. unfold step. cbn [ses with_world].
  destruct (stat_ (ses r)) eqn:Hst; [done|..].
  - unfold step_error_and_stop. cbn [ses with_world loc world sent]. intros E.
    apply bind_Ok in E as ([[s b] out] & E1 & E). rewrite E1. simplify_eq/=.
    split; [done|]. split; [|done]. rewrite man_goto. destruct (was_error _); [|by simplify_eq].
    apply bind_Ok in E1 as ([s1 b1] & E1 & E). simplify_eq. unfold construct_error in E1.
    apply bind_Ok in E1 as (b2 & _ & E1). simplify_eq. by destruct (negb _).
  - unfold step_ack_options. cbn [ses with_world loc world sent]. intros E.
    apply bind_Ok in E as ([b out] & E1 & E). rewrite E1. simplify_eq/=.
    split; [done|]. split; [|done].
    destruct (request_type _); [|destruct (was_set_any _)..]; cbn; by rewrite man_goto.
  - unfold step_data_tx. cbn [ses with_world loc world sent]. intros E.
    apply bind_Ok in E as ([s b] & E1 & E).
    eapply (construct_data_world q _ _ w2) in E1 as [-> Hrd']; [|done|done].
    cbn [mbind outcome_bind].
    destruct (_ && _); [destruct (_ || _)|]; simplify_eq/=; by rewrite ?man_goto.
  - unfold step_data_rx. cbn [ses with_world loc world sent]. intros E.
    apply bind_Ok in E as ([[[s w] b] res] & E1 & E).
    eapply (receive_world q _ _ w2) in E1 as (-> & Hm & ->); [|done].
    cbn [mbind outcome_bind]. rewrite <-Hm in Hrd. destruct res.
    + apply bind_Ok in E as (pass & -> & E). simplify_eq/=.
      destruct pass; by rewrite ?man_goto.
    + destruct (is_window_close _ _); simplify_eq/=; by rewrite ?man_goto.
    + simplify_eq/=. by rewrite man_goto.
  - unfold step_ack_tx. cbn [ses with_world loc world sent]. intros E.
    apply bind_Ok in E as (b & -> & E). cbn [mbind outcome_bind].
    destruct (last_blk_processed_ _); simplify_eq/=; by rewrite man_goto.
  - unfold step_ack_rx. cbn [ses with_world loc world sent]. intros E.
    apply bind_Ok in E as ([[[s w] b] res] & E1 & E).
    eapply (receive_world q _ _ w2) in E1 as (-> & Hm & ->); [|done].
    cbn [mbind outcome_bind]. rewrite <-Hm in Hrd. destruct res.
    + apply bind_Ok in E as (pass & -> & E). simplify_eq/=.
      destruct pass; by rewrite ?man_goto.
    + destruct (last_blk_processed_ _); simplify_eq/=; by rewrite man_goto.
    + simplify_eq/=. by rewrite man_goto.
  - unfold step_retransmit. cbn [ses with_world loc world sent]. cbv zeta. intros E.
    destruct (_ <? _); simplify_eq/=; [by rewrite man_goto|].
    destruct (request_type _); by rewrite man_goto.
  - intros E. by simplify_eq.
Qed.
(** The main loop leaves every session it does not reap as it is. *)
Lemma main_step_follow y rx y1 i i1 th :
  main_step y rx = Ok y1 → after_reap (sessions_ (srv y)) i = Some i1 →
  sessions_ (srv y) !! i = Some th → sessions_ (srv y1) !! i1 = Some th.
Proof.
  intros E Hi Hth. apply main_step_inv in E as (k & l & w & b & -> & Er & Hk%new_running). cbn.
  unfold after_reap in Hi. apply reap_spec in Er as [(-> & _ & Hall)|Hx].
  - apply Forall_app in Hall as [Hall _].
    destruct (list_find _ _) as [[j thj]|] eqn:Hj.
    + apply list_find_Some in Hj as (Hj & Hfin & _).
      by eapply Forall_lookup_1 in Hall; [|exact Hj].
    + simplify_eq. by apply lookup_app_l_Some.
  - destruct Hx as (l1 & thf & l2 & E & -> & Hf & Hall).
    destruct (finished_in_front _ _ Hk _ _ _ E Hf) as (l3 & E' & ->).
    rewrite E' in Hi, Hth. rewrite (list_find_app_r _ l1) in Hi.
    2: by apply list_find_None.
    cbn [list_find] in Hi. rewrite decide_True in Hi by done. cbn in Hi.
    destruct (decide _) as [|Hne]; [done|]. simplify_eq.
    destruct (decide _) as [Hlt|Hge].
    + destruct i as [|i]; [lia|]. cbn. rewrite lookup_app_r in Hth |- * by lia.
      replace (S i - length l1)%nat with (S (i - length l1)) in Hth by lia.
      cbn in Hth. by apply lookup_app_l_Some.
    + rewrite lookup_app_l in Hth |- * by lia. done.
Qed.

(** The thread [th] is where the run [r] of the session alone is. *)
Definition in_step (p : bytes) th (r : run_st W DataMgrFile) : Prop :=
  stat_ (ses r) ≠ State.need_init ∧ sent (th_run th) = sent r ∧
  stat_ (ses (th_run th)) = stat_ (ses r) ∧ was_error (ses (th_run th)) = was_error (ses r) ∧
  (returned th = false → with_world (th_run th) (world r) = r ∧ reader_of p (file_man_ (ses r))) ∧
  (returned th = true → stat_ (ses r) = State.finish).

(** An own iteration among the others is the next iteration of the run alone. *)
Lemma own_step p d th w t th1 w1 r :
  thread_step th w t = Ok (th1, w1) → content w p = Some d → content (world r) p = Some d →
  in_step p th r →
  ∃ r1, run_loop r [t] = Ok r1 ∧ world r1 = world r ∧ in_step p th1 r1.
Proof.
  unfold thread_step. intros E Hc Hcr (Hni & Hsent & Hst & He & Hrun & Hret).
  destruct (returned th) eqn:Hth.
  { simplify_eq. exists r. split; [by apply run_loop_finished, Hret|]. split; [done|].
    unfold in_step. rewrite Hth. by split_and!. }
  destruct (Hrun eq_refl) as [Hr Hrd]. unfold is_finished in E.
  case_bool_decide as Hf; apply bind_Ok in E as (r1 & E & E1); simplify_eq.
  - exists r. split; [apply run_loop_finished; congruence|]. split; [done|].
    unfold run_end in E. cbn [ses with_world] in E.
    destruct (file_man_ (ses (th_run th))) as [m|]; [|done].
    apply bind_Ok in E as ([m' w'] & _ & E). simplify_eq/=.
    split_and!; try done. intros _. congruence.
  - eapply (step_world p) in E as (Hw1 & Hrd1 & E); [| |by rewrite <-Hr in Hrd|]; [|congruence|].
    2: { by rewrite Hcr, Hc. }
    rewrite Hr in E. exists (with_world r1 (world r)).
    rewrite run_loop_cons by congruence. rewrite E. cbn [mbind outcome_bind run_loop].
    split_and!; [by destruct (is_finished _)|done|]. unfold in_step. cbn.
    split_and!; try done. intros Hn. apply step_trans in E; [|congruence].
    cbn in E. rewrite Hn in E. inversion E.
Qed.

Lemma follows_in_step p d y i ts y' i' th r :
  follows getpwnam getgrnam y i ts y' i' → stable p d y → content (world r) p = Some d →
  sessions_ (srv y) !! i = Some th → in_step p th r →
  ∃ th' r', sessions_ (srv y') !! i' = Some th' ∧ run_loop r ts = Ok r' ∧ in_step p th' r'.
Proof.
  intros Hf. revert th r.
  induction Hf as [y i|y i rx y1 i1 ts y' i' Hs E Hi Hf IH|y i ts y' i' Hf IH
    |y i j th0 ts1 th1 w1 ts y' i' Hij Hj Hm Hf IH|y i th0 ts1 th1 w1 ts y' i' Hj Hm Hf IH];
    intros th r Hst Hc Hth Hin.
  - exists th, r. split_and!; try done. cbn. by destruct (is_finished _).
  - apply (IH th r); try done; [by eapply main_step_stable|by eapply main_step_follow].
  - by apply (IH th r).
  - apply (IH th r); try done.
    + eapply fine_step_stable; [by eapply fine_thread|done].
    + cbn. by rewrite list_lookup_insert_ne.
  - simplify_eq. pose proof Hin as (Hni & _ & Hsta & _).
    destruct (move_running _ _ _ _ _ _ _ Hm) as (t & -> & E); [congruence|].
    destruct (own_step p d th0 (sys_world y) t th1 w1 r) as (r1 & E1 & Hw & Hin1);
      try done; [apply Hst|].
    destruct (IH th1 r1) as (th' & r' & Hth' & E' & Hin'); try done.
    + eapply fine_step_stable; [by eapply fine_thread|done].
    + by rewrite Hw.
    + cbn. apply list_lookup_insert_eq. by eapply lookup_lt_Some.
    + exists th', r'. split_and!; try done. rewrite <-E'.
      by apply (run_loop_app r [t] ts).
Qed.
End files.

(** ** Properties *)

(** A server with an upload that starts and a download under way; the upload
    starts to write, the download goes on, and a stray datagram arrives. *)
Definition demo_busy : sys MemFs DataMgrFile := {|
  srv := {| srv_settings := demo_settings;
            sessions_ := [{| th_run := run_start (demo_session demo_write_opt) demo_fs;
                             returned := false |};
                          {| th_run := demo_await_st; returned := false |}];
            srv_socket_ := 4; stop_ := false |};
  pkt_buf := replicate (Z.to_nat 0xFFFF) x00;
  sys_world := demo_fs
|}.

Definition demo_schedule : list event :=
  [EvCheck 0; EvThread 1 (demo_tick (RxPkt (ack_packet 1) demo_client));
   EvOpen 0 (demo_tick RxAgain); EvThread 0 (demo_tick RxAgain); EvMain (RxPkt (str "stray datagram") demo_client);
   EvThread 1 (demo_tick RxAgain)].

Definition demo_ticks : list tick :=
  [demo_tick (RxPkt (ack_packet 1) demo_client); demo_tick RxAgain].

Definition demo_played : sys MemFs DataMgrFile :=
  match play (λ _, None) (λ _, None) demo_busy 1 demo_schedule with
  | Some (y, _, _) => y
  | None => demo_busy
  end.

Lemma demo_follows : follows (λ _, None) (λ _, None) demo_busy 1 demo_ticks demo_played 1.
Proof.
  assert (Hp : (λ o, (o.1.2, o.2)) <$> play (λ _, None) (λ _, None) demo_busy 1 demo_schedule
               = Some (1%nat, demo_ticks)) by (vm_compute; reflexivity).
  apply (play_follows _ _ _ _ demo_schedule). unfold demo_played.
  destruct (play _ _ _ _ _) as [[[y i] ts]|]; by simplify_eq/=.
Qed.

(** C9. Isolation of downloads: a session that reads a complete file, which no session
    writes to or is about to open, does on the answers to its own system calls what it
    does when it runs alone: it sends the same packets, in the same order, is in the
    same state and has an error exactly then. This holds in any interleaving with the
    main loop and the other sessions, which may also be interrupted between the check
    for the file of an upload and the opening of it. *)
Theorem reader_isolated {W} `{FileSystem W, !FsLaws W, !FsFrame W} getpwnam getgrnam
    (y y' : sys W DataMgrFile) i i' ts th p d :
  sessions_ (srv y) !! i = Some th → returned th = false →
  stat_ (ses (th_run th)) ≠ State.need_init →
  reader_of p (file_man_ (ses (th_run th))) →
  stable p d y → follows getpwnam getgrnam y i ts y' i' →
  ∃ th' r, sessions_ (srv y') !! i' = Some th' ∧
    @run_loop _ _ (DataMgrFile_mgr getpwnam getgrnam) (with_world (th_run th) (sys_world y)) ts
      = Ok r ∧
    sent (th_run th') = sent r ∧ stat_ (ses (th_run th')) = stat_ (ses r) ∧
    was_error (ses (th_run th')) = was_error (ses r).
Proof.
  intros Hi Hret Hni Hrd Hst Hf.
  destruct (follows_in_step getpwnam getgrnam p d y i ts y' i' th
    (with_world (th_run th) (sys_world y)) Hf Hst) as (th' & r & Hth' & E & Hin).
  - apply Hst.
  - done.
  - split_and!; try done. by rewrite Hret.
  - exists th', r. destruct Hin as (_ & ? & ? & ? & _). by split_and!.
Qed.

Lemma reader_isolated_witness :
  ∃ th', sessions_ (srv demo_played) !! 1%nat = Some th' ∧
    sent (th_run th') = [data_packet 2 (str " image")].
Proof.
  destruct (reader_isolated (λ _, None) (λ _, None) demo_busy demo_played 1 1 demo_ticks
    {| th_run := demo_await_st; returned := false |} (str "/srv/fw.bin") demo_file)
    as (th' & r & Hth & E & Hs & _).
  - reflexivity.
  - reflexivity.
  - discriminate.
  - eexists. split; [reflexivity|]. split; vm_compute; reflexivity.
  - split; [vm_compute; reflexivity|]. repeat constructor; discriminate.
  - exact demo_follows.
  - exists th'. split; [exact Hth|]. rewrite Hs.
    apply (f_equal (λ o, match o with Ok r => sent r | _ => [] end)) in E.
    rewrite <-E. vm_compute. reflexivity.
Defined.
