(* ===== verification/SrvUploads.v ===== *)
(** * SrvUploads: uploads in a running server

    In any interleaving with the main loop and with sessions that are off its file, an
    upload stores what its client sends ([uploaded_follows]), until it ends; an end
    with an error has one of two causes ([ended]). When the iterations of sessions
    are atomic, uploads have files of their own ([exclusive]). *)

From Stdlib Require Import Strings.Byte.
From stdpp Require Import relations.
From S2P Require Import Prelude Common SmBuf Options Regex Addr Settings Base.
From S2P Require Import FileSys DataMgr DataMgrFile SmBufEx Session SessionPackets SessionSafety.
From S2P Require Import SessionRead SessionWrite SessionTraffic Srv SrvSteps SrvFiles.

Section uploads.
Context {W : Type} `{FileSystem W, !FsLaws W, !FsFrame W}.
Context (getpwnam getgrnam : bytes → option Z).
Local Instance up_mgr : DataMgr W DataMgrFile := DataMgrFile_mgr getpwnam getgrnam.
Local Instance up_laws : DataMgrLaws W DataMgrFile := DataMgrFile_laws getpwnam getgrnam.
Implicit Types (m : DataMgrFile) (w : W) (y : sys W DataMgrFile) (th : thread W DataMgrFile).
Implicit Types r : run_st W DataMgrFile.

(** ** Block 0 *)

Lemma zero_block_position (s : Session DataMgrFile) :
  0 < block_size s → s64 (block_position (with_stage s 0)) = - block_size s.
Proof.
  intros Hbs. unfold block_position. cbn [stage_ with_stage].
  change (block_size (with_stage s 0)) with (block_size s).
  pose proof (wrap_range 16 (blksize (opt_ s)) ltac:(lia)) as Hr. fold u16 in Hr.
  fold (block_size s) in Hr.
  change (u64 (0 - 1)) with (2 ^ 64 - 1).
  assert (Hu : u64 ((2 ^ 64 - 1) * block_size s) = 2 ^ 64 - block_size s).
  { unfold u64, wrap. symmetry. apply (Z.mod_unique_pos _ _ (block_size s - 1)); lia. }
  rewrite Hu. unfold swrap.
  assert (u64 (2 ^ 64 - block_size s + 2 ^ (64 - 1)) = 2 ^ 63 - block_size s) as ->; [|lia].
  unfold wrap. symmetry. apply (Z.mod_unique_pos _ _ 1); lia.
Qed.

(** A block 0 that is not empty makes the output stream throw. *)
Lemma zero_block_throws d r t :
  servable (ses r) → storing d r → stat_ (ses r) = State.data_rx → zero_block (ses r) t →
  step r t = Throw ios_failure.
Proof.
  intros ((Hbs & _) & _) (_ & Hb & Hs0 & _ & (m & Hm & Hw) & _) Hst
    (Hs & blk & Hne & p & from & Hrx & Hf & Hp).
  destruct (receive_packet (ses r) (world r) (local_buf (loc r)) t p from Hb Hrx)
    as (b' & Hrec & E).
  destruct (data_packet_fields 0 blk ltac:(lia)) as [Hop Hbk].
  rewrite Hf, Hst, Hp, Hop, Hbk in E. cbn [negb] in E.
  rewrite bool_decide_true in E by done. cbn [andb Z.eqb Pos.eqb] in E.
  unfold receive_data in E.
  assert (Hloc : blk_num_local (ses r) = stage_ (ses r)).
  { rewrite blk_num_local_mod. apply Z.mod_small. lia. }
  assert (Hrs : rx_stage (ses r) 0 = 0).
  { unfold rx_stage. rewrite Hloc, swrap_small by lia. lia. }
  assert (Hir : stage_in_range (ses r) 0 = true).
  { unfold stage_in_range. rewrite Hrs, (wrap_small 64), swrap_small by lia.
    apply andb_true_iff. split; apply Z.leb_le; lia. }
  assert (Hsy : sync_stage (ses r) 0 = with_stage (ses r) 0).
  { unfold sync_stage. rewrite Hrs, Hloc. destruct (_ =? 0) eqn:E0; reflect_bools; [|done].
    cbn [negb]. pose proof (with_stage_same (ses r)) as Hsame. by rewrite E0 in Hsame. }
  rewrite Hir, Hsy in E. cbn [negb file_man_ with_stage] in E. rewrite Hm in E.
  rewrite (received_block (local_buf (loc r)) b' 0 blk) in E by (by rewrite <-Hp).
  destruct Hw as (Hrt & Ho & Hbad & Hexc & _ & Hpos & _).
  assert (Ew : dm_write m (world r) blk (block_position (with_stage (ses r) 0))
               = Throw ios_failure).
  { cbn. unfold write. rewrite bool_decide_false by (by rewrite Hrt; auto). rewrite Ho.
    rewrite (proj2 (Z.ltb_lt 0 (size blk))) by (destruct blk; [done|unfold size; simpl; lia]).
    rewrite zero_block_position by done. unfold tellp, seekp. rewrite Hbad, Hexc.
    rewrite (proj2 (Z.eqb_neq _ _)), (proj2 (Z.ltb_lt _ _)) by lia. done. }
  rewrite Ew in E. cbn [mbind outcome_bind] in E.
  unfold step. rewrite Hst. unfold step_data_rx. by rewrite E.
Qed.

(** ** An upload on its own *)

(** The output stream of the manager, while open, is on the file [q]. *)
Definition writes_to (q : bytes) (o : option DataMgrFile) : Prop :=
  ∃ m, o = Some m ∧ (out_open (m_file_out m) = true → out_path (m_file_out m) = q).

Lemma writes_to_keeper q : keeper (λ o _, writes_to q o).
Proof.
  split; cbn.
  - intros m w b pos m' w' n errs (? & [= <-] & Hq). unfold write.
    case_bool_decide; [done|]. destruct (out_open (m_file_out m)) eqn:Ho;
      [|intros; simplify_eq; eexists; by rewrite Ho].
    destruct (_ <? _); [|intros; simplify_eq; eexists; by rewrite Ho]. intros E.
    apply bind_Ok in E as (f & Ef & E).
    assert (Hf : out_path f = q).
    { rewrite <-(Hq eq_refl). destruct (_ =? _); [by simplify_eq|exact (proj1 (seekp_path _ _ _ Ef))]. }
    destruct (negb _); [by simplify_eq; eexists|]. unfold out_write in E.
    destruct (out_bad f); [|destruct (fs_pwrite _ _ _ _) as [w1 ok]];
      destruct (_ <? 0); simplify_eq; by eexists.
  - intros m w b pos m' b' n errs (? & [= <-] & Hq). unfold read. case_bool_decide; [done|].
    destruct (in_open _); [|intros; simplify_eq; by exists m'].
    destruct (_ <=? _); [done|]. destruct (_ <? _); [|intros; simplify_eq; by eexists].
    destruct (in_read _ _ _). intros. simplify_eq. by eexists.
  - intros m w m' w' _ E. exists m'. split; [done|].
    by rewrite (close_not_writing _ _ _ _ _ _ E).
Qed.

(** One iteration of an upload. *)
Lemma upload_step q d r t r' :
  servable (ses r) → (stage_ (ses r) + 1) * 65536 < 2 ^ 62 → storing d r →
  writes_to q (file_man_ (ses r)) → stat_ (ses r) ≠ State.finish → step r t = Ok r' →
  writes_to q (file_man_ (ses r')) ∧
  ∃ acc, from_client (cl_addr_ (ses r)) [t] acc ∧
    ((stage_ (ses r') ≤ stage_ (ses r) + 2 ∧
      storing (foldl (store (block_size (ses r))) d acc) r') ∨
     (acc = [] ∧ stopped [t] (block_size (ses r)) d r')).
Proof.
  intros Hp Hb Hd Hq Hf E. split.
  - eapply (step_keeps _ (writes_to_keeper q)); [|exact E|exact Hq]. left.
    destruct Hd as (_ & _ & _ & _ & _ & Hin). intros Hn. rewrite Hn in Hin.
    revert Hin. by_decide.
  - destruct (decide (stat_ (ses r) = State.data_rx ∧ zero_block (ses r) t)) as [[Hst Hz]|Hz].
    + by rewrite (zero_block_throws d r t) in E.
    + destruct (stores_step d r t) as (r1 & acc & E1 & Hacc & Hnext); try done.
      assert (Ok r1 = Ok r') as [= ->] by (etrans; [symmetry; exact E1|exact E]).
      by exists acc.
Qed.

(** ** An upload among other sessions *)

Abbreviation idle q := (λ th, not_writing q (file_man_ (ses (th_run th)))).

Lemma after_reap_none (l : list (thread W DataMgrFile)) i :
  Forall (λ th, stat_ (ses (th_run th)) ≠ State.finish) l → after_reap l i = Some i.
Proof. intros Hl. unfold after_reap. by rewrite (proj2 (list_find_None _ l)). Qed.

Lemma after_reap_first (a b : list (thread W DataMgrFile)) f i :
  Forall (λ th, stat_ (ses (th_run th)) ≠ State.finish) a →
  stat_ (ses (th_run f)) = State.finish →
  after_reap (a ++ f :: b) i
  = if decide (length a = i) then None
    else Some (if decide (length a < i)%nat then pred i else i).
Proof.
  intros Ha Hf. unfold after_reap. rewrite (list_find_app_r _ a) by (by apply list_find_None).
  cbn [list_find]. by rewrite decide_True by done.
Qed.

(** The session at position [i] of the list, and the others. *)
Definition placed (q : bytes) y (i : nat) th : Prop :=
  ∃ l1 l2, sessions_ (srv y) = l1 ++ th :: l2 ∧ length l1 = i ∧
    Forall (off q) l1 ∧ Forall (off q) l2.

Lemma placed_lookup q y i th : placed q y i th → sessions_ (srv y) !! i = Some th.
Proof. intros (l1 & l2 & -> & <- & _). by rewrite list_lookup_middle. Qed.

Lemma placed_main q d y rx y1 i i1 th :
  main_step y rx = Ok y1 → after_reap (sessions_ (srv y)) i = Some i1 → placed q y i th →
  content (sys_world y) q = Some d →
  placed q y1 i1 th ∧ content (sys_world y1) q = Some d.
Proof.
  intros E Hi (l1 & l2 & Hl & <- & H1 & H2) Hc.
  apply main_step_inv in E as (k & l & w & b & -> & Er & Hk). rewrite Hl, <-app_assoc in Er.
  pose proof (new_running _ Hk) as Hkr.
  assert (Hko : Forall (off q) k).
  { eapply Forall_impl; [|exact Hk]. intros th0 [Hn _]. by apply off_new. }
  assert (H2k : Forall (off q) (l2 ++ k)) by (by apply Forall_app).
  cbn [app] in Er. cbn [sys_world srv].
  apply reap_joins in Er as [(-> & -> & Hall)|(a & f & c0 & Ea & -> & Hj & Hf & Ha)].
  { rewrite Hl, after_reap_none in Hi.
    - simplify_eq. split; [|done]. by exists l1, (l2 ++ k).
    - apply Forall_app in Hall as [? Hall]. apply Forall_cons_iff in Hall as [? Hall].
      apply Forall_app in Hall as [? _]. apply Forall_app. split; [done|by constructor]. }
  rewrite app_comm_cons, app_assoc in Ea.
  destruct (finished_in_front _ _ Hkr _ _ _ Ea Hf) as (l3 & E3 & ->). clear Ea.
  rewrite Hl, E3, after_reap_first in Hi by done.
  destruct (decide (length a = length l1)) as [|Hne]; [done|]. injection Hi as Hi.
  apply app_eq_inv in E3 as [(c & -> & Ec)|(c & -> & Ec)];
    (destruct c as [|x c]; [rewrite app_nil_r in Hne; done|]); simplify_eq/=.
  - apply Forall_app in H1 as [H1 H1']. apply Forall_cons_iff in H1' as [Hx H1'].
    split; [|eapply join_content; [done|done|apply Hx]].
    exists (a ++ c), (l2 ++ k). cbn. rewrite <-!app_assoc. split_and!; try done.
    + rewrite decide_True by (rewrite length_app; cbn; lia). rewrite !length_app. cbn. lia.
    + by apply Forall_app.
  - apply Forall_app in H2 as [H2 H2']. apply Forall_cons_iff in H2' as [Hx H2'].
    split; [|eapply join_content; [done|done|apply Hx]].
    exists l1, (c ++ l3 ++ k). cbn. rewrite <-!app_assoc. split_and!; try done.
    + by rewrite decide_False by (rewrite length_app; cbn; lia).
    + apply Forall_app. split; [done|]. by apply Forall_app.
Qed.

Lemma placed_other q d y i j th tj ts tj' w' :
  j ≠ i → sessions_ (srv y) !! j = Some tj → placed q y i th →
  content (sys_world y) q = Some d →
  fine_move getpwnam getgrnam tj (sys_world y) ts tj' w' →
  placed q (with_threads y (<[j := tj']> (sessions_ (srv y))) w') i th ∧
  content w' q = Some d.
Proof.
  intros Hji Hj (l1 & l2 & Hl & <- & H1 & H2) Hc E.
  assert (Htj : off q tj).
  { rewrite Hl in Hj. destruct (decide (j < length l1)%nat).
    - rewrite lookup_app_l in Hj by done. by eapply Forall_lookup_1 in H1.
    - rewrite lookup_app_r in Hj by lia.
      destruct (j - length l1)%nat as [|k] eqn:Ek; [lia|]. cbn in Hj.
      by eapply Forall_lookup_1 in H2. }
  destruct (move_off getpwnam getgrnam q d tj (sys_world y) ts tj' w' E Hc Htj)
    as [Hc' Hn'].
  split; [|done]. cbn. rewrite Hl. destruct (decide (j < length l1)%nat).
  - exists (<[j := tj']> l1), l2. cbn. rewrite insert_app_l by done.
    split_and!; try done; [by rewrite length_insert|by apply Forall_insert].
  - destruct (j - length l1)%nat as [|k] eqn:Ek; [lia|].
    exists l1, (<[k := tj']> l2). cbn. rewrite insert_app_r_alt by lia. rewrite Ek. cbn.
    split_and!; try done. by apply Forall_insert.
Qed.

Lemma placed_own q y i th th' w' :
  placed q y i th →
  placed q (with_threads y (<[i := th']> (sessions_ (srv y))) w') i th'.
Proof.
  intros (l1 & l2 & Hl & <- & H1 & H2). exists l1, l2. cbn. rewrite Hl.
  split_and!; try done. by rewrite insert_app_r_alt, Nat.sub_diag by lia.
Qed.

(** The upload with [d] stored, running or returned, in the files [w]. *)
Definition uploaded (q d : bytes) (w : W) th : Prop :=
  (returned th = false ∧ storing d (with_world (th_run th) w) ∧
   writes_to q (file_man_ (ses (th_run th)))) ∨
  (returned th = true ∧ stat_ (ses (th_run th)) = State.finish ∧
   was_error (ses (th_run th)) = false ∧ content w q = Some d).

Lemma uploaded_content q d w th : uploaded q d w th → content w q = Some d.
Proof.
  intros [(_ & (_ & _ & _ & _ & (m & Hm & Hw) & _) & (m' & Hm' & Hq))|(_ & _ & _ & ?)]; [|done].
  cbn in Hm. simplify_eq. destruct Hw as (_ & Ho & _ & _ & _ & _ & Hc). by rewrite Hq in Hc.
Qed.

Lemma uploaded_error q d w th : uploaded q d w th → was_error (ses (th_run th)) = false.
Proof. by intros [(_ & (_ & _ & _ & He & _) & _)|(_ & _ & He & _)]. Qed.

(** It depends on the content of its file only. *)
Lemma uploaded_world q d w w' th :
  uploaded q d w th → content w' q = Some d → uploaded q d w' th.
Proof.
  intros [(Hr & Hs & Hq)|(Hr & Hf & He & _)] Hc; [left|by right]. split_and!; try done.
  destruct Hs as (H1 & H2 & H3 & H4 & (m & Hm & Hw) & H6). split_and!; try done.
  exists m. split; [done|]. destruct Hq as (m' & Hm' & Hq). cbn in *. simplify_eq.
  destruct Hw as (? & Ho & ? & ? & ? & ? & _). rewrite <-(Hq Ho) in Hc. by split_and!.
Qed.

(** An upload that has ended with an error while its file held [d]: its client has
    sent, in one of the ticks [ts], a DATA packet with a number out of range, which was
    not stored. *)
Definition number_failed (ts : list tick) (q d : bytes) (w : W) th : Prop :=
  let s := ses (th_run th) in
  stat_ s = State.finish ∧ was_error s = true ∧ error_message_ s = number_error ∧
  content w q = Some d ∧
  ∃ t n b, t ∈ ts ∧ client_block (cl_addr_ s) t n b ∧ 0 ≤ n < 2 ^ 16 ∧
    stage_in_range s n = false.

(** The device has not taken a block the client has sent, when the file held [d]; the
    file has what the device left. *)
Definition device_failed (ts : list tick) (bs : Z) (q d : bytes) (w : W) th : Prop :=
  let s := ses (th_run th) in
  stat_ s = State.finish ∧ was_error s = true ∧ error_message_ s = write_error ∧
  ∃ t k b w0 w1, t ∈ ts ∧ client_block (cl_addr_ s) t k b ∧ content w0 q = Some d ∧
    fs_pwrite w0 q ((k - 1) * bs) b = (w1, false) ∧ content w q = content w1 q.

Definition ended (ts : list tick) (bs : Z) (q d : bytes) (w : W) th : Prop :=
  number_failed ts q d w th ∨ device_failed ts bs q d w th.

Lemma ended_finished ts bs q d w th :
  ended ts bs q d w th →
  stat_ (ses (th_run th)) = State.finish ∧ was_error (ses (th_run th)) = true.
Proof. by intros [(? & ? & _)|(? & ? & _)]. Qed.

Lemma ended_content ts bs q d w th : ended ts bs q d w th → ∃ d', content w q = Some d'.
Proof.
  intros [(_ & _ & _ & Hc & _)|(_ & _ & _ & t & k & b & w0 & w1 & _ & _ & Hc & Hp & ->)];
    [eauto|].
  apply pwrite_exists in Hp; [|by rewrite Hc]. destruct (content w1 q); [eauto|done].
Qed.

Lemma ended_world ts bs q d w w' th :
  ended ts bs q d w th → content w' q = content w q → ended ts bs q d w' th.
Proof.
  intros [(? & ? & ? & ? & ?)|(? & ? & ? & t & k & b & w0 & w1 & ? & ? & ? & ? & ?)] E;
    [left|right]; split_and!; try done; [congruence|].
  exists t, k, b, w0, w1. split_and!; try done. congruence.
Qed.

Lemma ended_app ts1 ts ts2 bs q d w th :
  ended ts bs q d w th → ended (ts1 ++ ts ++ ts2) bs q d w th.
Proof.
  assert (Hin : ∀ t, t ∈ ts → t ∈ ts1 ++ ts ++ ts2) by (intros; rewrite !elem_of_app; auto).
  intros [(? & ? & ? & ? & t & n & b & ? & ?)|(? & ? & ? & t & k & b & w0 & w1 & ? & ?)];
    [left|right]; split_and!; try done; [exists t, n, b|exists t, k, b, w0, w1]; auto.
Qed.

(** The thread of a session that has ended closes the file and returns. *)
Lemma finished_step th w t th' w' :
  thread_step th w t = Ok (th', w') → stat_ (ses (th_run th)) = State.finish →
  sent (th_run th') = sent (th_run th) ∧
  (∃ o, ses (th_run th') = with_man (ses (th_run th)) o) ∧
  ∀ q d, content w q = Some d → content w' q = Some d.
Proof.
  intros E Hf. unfold thread_step in E. destruct (returned th).
  { simplify_eq. split; [done|]. split; [|done]. exists (file_man_ (ses (th_run th'))).
    by destruct (ses (th_run th')). }
  unfold is_finished in E. rewrite bool_decide_true in E by done.
  apply bind_Ok in E as (r & E & E1). simplify_eq. unfold run_end in E. cbn [ses with_world] in E.
  destruct (file_man_ _) as [m|]; [|done]. apply bind_Ok in E as ([m' w1] & Ec & E).
  simplify_eq/=. split; [done|]. split; [by eexists|]. intros q d Hc.
  exact (close_content getpwnam getgrnam q d _ _ _ _ Hc Ec).
Qed.

Lemma ended_step ts bs q d th w t th' w' :
  thread_step th w t = Ok (th', w') → ended ts bs q d w th → ended ts bs q d w' th'.
Proof.
  intros E Hd. destruct (ended_content _ _ _ _ _ _ Hd) as [d' Hc].
  destruct (finished_step _ _ _ _ _ E (proj1 (ended_finished _ _ _ _ _ _ Hd)))
    as (_ & [o Ho] & Hk).
  apply (ended_world _ _ _ _ w); [|by rewrite Hc; apply Hk].
  unfold ended, number_failed, device_failed in *. by rewrite Ho.
Qed.

Lemma stopped_ended ts bs q d th :
  stopped ts bs d (th_run th) → writes_to q (file_man_ (ses (th_run th))) →
  ended ts bs q d (world (th_run th)) th.
Proof.
  intros Hs (m & Hm & Hq). destruct (stopped_finished _ _ _ _ Hs) as [Hf He].
  destruct Hs as [(_ & Hmsg & (m1 & Hm1 & Hw) & Hex)|(t & k & b & Ht & Hb & _ & _ & Hr)].
  - left. rewrite Hm in Hm1. injection Hm1 as <-. split_and!; try done.
    destruct Hw as (_ & Ho & _ & _ & _ & _ & Hc). by rewrite <-(Hq Ho).
  - right. destruct Hr as (m0 & w0 & m' & errs & Hw & Hk & Ew & Hm' & Hin).
    rewrite Hm in Hm'. injection Hm' as <-. cbn in Ew.
    destruct (write_refused _ _ _ _ _ _ _ _ Hw Hk Ew) as (Hpw & -> & Ho & Hpa).
    apply list_elem_of_singleton in Hin. injection Hin as _ Hmsg. split_and!; [done..|].
    exists t, k, b, w0, (world (th_run th)). rewrite <-Hpa, (Hq Ho) in Hpw.
    split_and!; try done. rewrite <-(Hq Ho), Hpa. apply Hw.
Qed.

(** An own iteration, or the closing of the file. *)
Lemma uploaded_step q d th w t th' w' :
  servable (ses (th_run th)) → (stage_ (ses (th_run th)) + 1) * 65536 < 2 ^ 62 →
  uploaded q d w th → thread_step th w t = Ok (th', w') →
  opt_ (ses (th_run th')) = opt_ (ses (th_run th)) ∧
  cl_addr_ (ses (th_run th')) = cl_addr_ (ses (th_run th)) ∧
  ∃ acc, from_client (cl_addr_ (ses (th_run th))) [t] acc ∧
    ((stage_ (ses (th_run th')) ≤ stage_ (ses (th_run th)) + 2 ∧
      uploaded q (foldl (store (block_size (ses (th_run th)))) d acc) w' th') ∨
     (acc = [] ∧ ended [t] (block_size (ses (th_run th))) q d w' th')).
Proof.
  intros Hp Hb Hu E. pose proof (uploaded_content _ _ _ _ Hu) as Hc. unfold thread_step in E.
  destruct Hu as [(Hr & Hs & Hq)|(Hr & Hf & He & _)]; rewrite Hr in E.
  2: { simplify_eq. split_and!; try done. exists []. split; [apply from_client_none|]. left.
       split; [lia|]. right. by split_and!. }
  unfold is_finished in E. case_bool_decide as Hf; apply bind_Ok in E as (r & E & E1); simplify_eq.
  - unfold run_end in E. cbn [ses with_world] in E. destruct Hq as (m & Hm & _).
    rewrite Hm in E. apply bind_Ok in E as ([m' w1] & Ec & E). simplify_eq. cbn.
    split_and!; try done. exists []. split; [apply from_client_none|]. left.
    split; [lia|]. right. split_and!; try done.
    + by destruct Hs as (_ & _ & _ & He & _).
    + exact (close_content getpwnam getgrnam q d _ _ _ _ Hc Ec).
  - destruct (step_evolves _ _ _ E) as [(_ & _ & Hcl & Ho & _) _]. cbn.
    destruct (upload_step q d (with_world (th_run th) w) t r) as (Hq' & acc & Hacc & Hres); try done.
    split_and!; try done. exists acc. split; [done|]. destruct Hres as [[Hst Hs']|[-> Hs']]; [left|right].
    + split; [done|]. left. by destruct r.
    + split; [done|]. exact (stopped_ended [t] _ q d {| th_run := r; returned := false |} Hs' Hq').
Qed.

Lemma ended_follows bs q d y i ts0 ts y' i' th :
  follows getpwnam getgrnam y i ts y' i' → placed q y i th →
  ended ts0 bs q d (sys_world y) th →
  ∃ th', sessions_ (srv y') !! i' = Some th' ∧ ended ts0 bs q d (sys_world y') th'.
Proof.
  intros Hf. revert th.
  induction Hf as [y i|y i rx y1 i1 ts y' i' Hs E Hi Hf IH|y i ts y' i' Hf IH
    |y i j th0 ts1 th1 w1 ts y' i' Hij Hj E Hf IH|y i th0 ts1 th1 w1 ts y' i' Hj E Hf IH];
    intros th Hpl Hd; destruct (ended_content _ _ _ _ _ _ Hd) as [d' Hc].
  - exists th. split; [by eapply placed_lookup|done].
  - destruct (placed_main q d' y rx y1 i i1 th E Hi Hpl Hc) as [Hpl' Hc'].
    apply (IH th); [done|]. eapply ended_world; [done|congruence].
  - by apply (IH th).
  - destruct (placed_other q d' y i j th th0 ts1 th1 w1 Hij Hj Hpl Hc E) as [Hpl' Hc'].
    apply (IH th); [done|]. eapply ended_world; [done|cbn; congruence].
  - pose proof (placed_lookup _ _ _ _ Hpl) as Hth. rewrite Hth in Hj. injection Hj as <-.
    destruct (move_running _ _ _ _ _ _ _ E) as (t & -> & E1); [by rewrite (proj1 (ended_finished _ _ _ _ _ _ Hd))|].
    apply (IH th1); [by eapply placed_own|by eapply ended_step].
Qed.

Lemma uploaded_running q d w th :
  uploaded q d w th → stat_ (ses (th_run th)) ≠ State.need_init.
Proof.
  intros [(_ & (_ & _ & _ & _ & _ & Hin) & _)|(_ & -> & _)]; [|done]. cbn in Hin.
  intros Hn. rewrite Hn in Hin. revert Hin. by_decide.
Qed.

(** In any interleaving, the file of an upload that the others are off is the result
    of storing blocks its own client has sent. *)
Lemma uploaded_follows q d y i ts y' i' th :
  follows getpwnam getgrnam y i ts y' i' → placed q y i th →
  servable (ses (th_run th)) →
  (stage_ (ses (th_run th)) + 2 * Z.of_nat (length ts) + 1) * 65536 < 2 ^ 62 →
  uploaded q d (sys_world y) th →
  let bs := block_size (ses (th_run th)) in
  ∃ th' acc, sessions_ (srv y') !! i' = Some th' ∧
    from_client (cl_addr_ (ses (th_run th))) ts acc ∧
    (uploaded q (foldl (store bs) d acc) (sys_world y') th' ∨
     ended ts bs q (foldl (store bs) d acc) (sys_world y') th').
Proof.
  intros Hf. revert th d.
  induction Hf as [y i|y i rx y1 i1 ts y' i' Hs E Hi Hf IH|y i ts y' i' Hf IH
    |y i j th0 ts1 th1 w1 ts y' i' Hij Hj E Hf IH|y i th0 ts1 th1 w1 ts y' i' Hj E Hf IH];
    intros th d Hpl Hp Hb Hu bs.
  - exists th, []. split; [by eapply placed_lookup|]. split; [constructor|by left].
  - destruct (placed_main q d y rx y1 i i1 th E Hi Hpl (uploaded_content _ _ _ _ Hu)) as [Hpl' Hc'].
    apply IH; try done. by eapply uploaded_world.
  - by apply IH.
  - destruct (placed_other q d y i j th th0 ts1 th1 w1 Hij Hj Hpl (uploaded_content _ _ _ _ Hu) E)
      as [Hpl' Hc'].
    apply IH; try done. by eapply uploaded_world.
  - pose proof (placed_lookup _ _ _ _ Hpl) as Hth. rewrite Hth in Hj. injection Hj as <-.
    destruct (move_running _ _ _ _ _ _ _ E (uploaded_running _ _ _ _ Hu)) as (t & -> & E1).
    rewrite length_app in Hb. cbn [length] in Hb.
    destruct (uploaded_step q d th (sys_world y) t th1 w1) as (Ho & Hcl & acc & Hacc & Hres);
      [done|lia|done|done|].
    destruct Hres as [[Hst Hu']|[-> Hend]].
    + destruct (IH th1 (foldl (store bs) d acc)) as (th' & acc' & Hth' & Hacc' & Hres).
      * by eapply placed_own.
      * by apply (servable_opt (ses (th_run th))).
      * lia.
      * done.
      * exists th', (acc ++ acc'). rewrite Hcl in Hacc'. rewrite foldl_app.
        assert (Hbs : block_size (ses (th_run th1)) = bs)
          by (unfold bs, block_size; by rewrite Ho).
        rewrite Hbs in Hres. split_and!; [done|by apply (from_client_app _ [t])|].
        destruct Hres as [?|Hend]; [by left|right].
        rewrite <-(app_nil_r ts). exact (ended_app [t] ts [] _ _ _ _ _ Hend).
    + destruct (ended_follows bs q d _ _ [t] _ _ _ th1 Hf) as (th' & Hth' & Hend');
        [by eapply placed_own|exact Hend|].
      exists th', []. split_and!; [done|apply from_client_none|right].
      exact (ended_app [] [t] ts _ _ _ _ _ Hend').
Qed.

(** ** Every upload has a file of its own *)

(** The file of an open output stream exists. *)
Definition has_file (o : option DataMgrFile) (w : W) : Prop :=
  match o with
  | Some m => out_open (m_file_out m) = true → content w (out_path (m_file_out m)) ≠ None
  | None => True
  end.

Lemma has_file_keeper : keeper has_file.
Proof.
  split; cbn.
  - intros m w b pos m' w' n errs Hm. unfold write. case_bool_decide; [done|].
    destruct (out_open (m_file_out m)) eqn:Ho; [|intros E Ho'; simplify_eq; congruence].
    specialize (Hm eq_refl).
    destruct (_ <? _); [|intros; by simplify_eq]. intros E. apply bind_Ok in E as (f & Ef & E).
    assert (Hf : out_path f = out_path (m_file_out m)).
    { destruct (_ =? _); [by simplify_eq|exact (proj1 (seekp_path _ _ _ Ef))]. }
    rewrite <-Hf in Hm. destruct (negb _); [by simplify_eq|]. unfold out_write in E.
    destruct (out_bad f); [destruct (_ <? 0); by simplify_eq|].
    destruct (fs_pwrite _ _ _ _) as [w1 ok] eqn:Ew. apply pwrite_exists in Ew; [|done].
    destruct (_ <? 0); by simplify_eq.
  - intros m w b pos m' b' n errs Hm. unfold read. case_bool_decide; [done|].
    destruct (in_open _); [|intros E; by simplify_eq]. destruct (_ <=? _); [done|].
    destruct (_ <? _); [|intros E; by simplify_eq]. destruct (in_read _ _ _). intros E.
    by simplify_eq.
  - intros m w m' w' _ E. by rewrite (close_not_writing _ _ _ _ _ _ E).
Qed.

Lemma has_file_init : init_keeps has_file.
Proof.
  intros m0 w sett opt m w' ok errs _. cbn. unfold DataMgrFile.init.
  destruct (request_type opt); intros E.
  - by simplify_eq/=.
  - unfold init_reading in E. apply bind_Ok in E as ([ret fn] & _ & E).
    destruct ret; cbn [negb] in E; [|by simplify_eq/=].
    destruct (in_fail _); [done|]. apply bind_Ok in E as (sz & _ & E). by simplify_eq/=.
  - unfold init_writing in E. apply bind_Ok in E as (ex & _ & E).
    destruct ex; [by simplify_eq/=|]. unfold out_open_file in E.
    destruct (fs_create _ _) as [w1|] eqn:Hcr; simplify_eq/=; [|done].
    intros _. by rewrite (create_empty _ _ _ Hcr).
Qed.

(** Session [ti] does not write to the file of [tj]. *)
Definition apart (ti tj : thread W DataMgrFile) : Prop :=
  ∀ m, file_man_ (ses (th_run tj)) = Some m → out_open (m_file_out m) = true →
    idle (out_path (m_file_out m)) ti.

Lemma apart_sym ti tj : apart ti tj → apart tj ti.
Proof.
  intros Ha m Hm Ho. unfold not_writing. destruct (file_man_ (ses (th_run tj))) as [mj|] eqn:Hj; [|done].
  intros Hoj. specialize (Ha mj Hj Hoj). cbn in Ha. rewrite Hm in Ha. cbn in Ha.
  rewrite same_sym. auto.
Qed.

Record exclusive (l : list (thread W DataMgrFile)) (w : W) : Prop := {
  ex_files : Forall (λ th, has_file (file_man_ (ses (th_run th))) w) l;
  ex_apart i j ti tj : i ≠ j → l !! i = Some ti → l !! j = Some tj → apart ti tj
}.

(** What a thread apart from [tj] does keeps the file of [tj]. *)
Lemma apart_kept tj ti w (o : option DataMgrFile) w' :
  apart ti tj → has_file (file_man_ (ses (th_run tj))) w →
  (∀ p d, content w p = Some d → idle p ti → content w' p = Some d ∧ not_writing p o) →
  has_file (file_man_ (ses (th_run tj))) w' ∧
  ∀ m, file_man_ (ses (th_run tj)) = Some m → out_open (m_file_out m) = true →
    not_writing (out_path (m_file_out m)) o.
Proof.
  intros Ha Hf Hk. unfold has_file in *.
  destruct (file_man_ (ses (th_run tj))) as [mj|] eqn:Hj; [|done].
  assert (Hx : out_open (m_file_out mj) = true →
    content w' (out_path (m_file_out mj)) ≠ None ∧ not_writing (out_path (m_file_out mj)) o).
  { intros Ho. specialize (Hf Ho). destruct (content w _) as [d|] eqn:Hc; [|done].
    destruct (Hk _ d Hc (Ha mj Hj Ho)) as [-> ?]. done. }
  split; [intros Ho; by apply Hx|]. intros m [= <-] Ho. by apply Hx.
Qed.

Lemma exclusive_insert l w i th t th' w' :
  exclusive l w → l !! i = Some th → thread_step th w t = Ok (th', w') →
  exclusive (<[i := th']> l) w'.
Proof.
  intros [Hf Ha] Hi E.
  assert (Hj : ∀ j tj, j ≠ i → l !! j = Some tj →
    has_file (file_man_ (ses (th_run tj))) w' ∧ apart th' tj).
  { intros j tj Hji Hj. apply (apart_kept tj th w).
    - by apply (Ha i j).
    - by eapply Forall_lookup_1 in Hf.
    - intros p d Hc Hn. by eapply (thread_step_stable getpwnam getgrnam). }
  assert (Hlt : (i < length l)%nat) by (by eapply lookup_lt_Some).
  split.
  - apply Forall_lookup. intros j tj Hl. destruct (decide (j = i)) as [->|Hji].
    + rewrite list_lookup_insert_eq in Hl by done. injection Hl as <-.
      eapply Forall_lookup_1 in Hf; [|exact Hi]. cbn in Hf.
      unfold thread_step in E. destruct (returned th); [by simplify_eq|].
      destruct (is_finished _); apply bind_Ok in E as (r & E & E1); simplify_eq.
      * by apply (run_end_keeps _ has_file_keeper) in E.
      * apply (step_keeps _ has_file_keeper) in E; [done|right; apply has_file_init|done].
    + rewrite list_lookup_insert_ne in Hl by done. by apply (Hj j).
  - intros j k tj tk Hjk Hlj Hlk.
    destruct (decide (j = i)) as [->|Hji]; [|destruct (decide (k = i)) as [->|Hki]].
    + rewrite list_lookup_insert_eq in Hlj by done. injection Hlj as <-.
      rewrite list_lookup_insert_ne in Hlk by done. by apply (Hj k).
    + rewrite list_lookup_insert_eq in Hlk by done. injection Hlk as <-.
      rewrite list_lookup_insert_ne in Hlj by done. by apply apart_sym, (Hj j).
    + rewrite list_lookup_insert_ne in Hlj, Hlk by done. by apply (Ha j k).
Qed.

Lemma exclusive_snoc l w th :
  exclusive l w → file_man_ (ses (th_run th)) = None → exclusive (l ++ [th]) w.
Proof.
  intros [Hf Ha] Hn. split.
  - apply Forall_app. split; [done|]. constructor; [by rewrite Hn|constructor].
  - assert (H1 : ∀ tj, apart th tj) by (intros tj m _ _; by rewrite Hn).
    intros i j ti tj Hij Hi Hj.
    apply lookup_app_Some in Hi as [Hi|[_ Hi]]; [|apply list_lookup_singleton_Some in Hi as [_ <-]; auto].
    apply lookup_app_Some in Hj as [Hj|[_ Hj]];
      [by apply (Ha i j)|apply list_lookup_singleton_Some in Hj as [_ <-]; by apply apart_sym].
Qed.

Lemma exclusive_join l1 f l2 w w' :
  exclusive (l1 ++ f :: l2) w → join f w = Ok w' → exclusive (l1 ++ l2) w'.
Proof.
  intros [Hf Ha] E.
  set (σ := λ j, if decide (j < length l1)%nat then j else S j).
  assert (Hσ : ∀ j tj, (l1 ++ l2) !! j = Some tj → (l1 ++ f :: l2) !! σ j = Some tj).
  { intros j tj Hj. unfold σ. destruct (decide _).
    - rewrite lookup_app_l in Hj |- * by lia. done.
    - rewrite lookup_app_r in Hj |- * by lia.
      by replace (S j - length l1)%nat with (S (j - length l1)) by lia. }
  split.
  - apply Forall_lookup. intros j tj Hj.
    eapply (apart_kept tj f w None).
    + apply (Ha (length l1) (σ j)); [unfold σ; destruct (decide _); lia|by apply list_lookup_middle|auto].
    + by eapply Forall_lookup_1 in Hf; [|by apply Hσ].
    + intros p d Hc Hn. split; [by eapply join_content|done].
  - intros i j ti tj Hij Hi Hj. apply (Ha (σ i) (σ j)); auto.
    unfold σ. destruct (decide _), (decide _); lia.
Qed.

Lemma exclusive_step y y' :
  sys_step y y' → exclusive (sessions_ (srv y)) (sys_world y) →
  exclusive (sessions_ (srv y')) (sys_world y').
Proof.
  intros Hstep Hex. destruct Hstep as [rx y' _ E| |i th t th' w' Hi E]; [|done|].
  2: { by eapply exclusive_insert. }
  apply main_step_inv in E as (k & l & w & b & -> & Er & Hk). cbn.
  assert (Hexk : exclusive (sessions_ (srv y) ++ k) (sys_world y)).
  { clear Er. revert Hex. generalize (sessions_ (srv y)).
    induction Hk as [|th k [Hn _] _ IH]; intros l0 Hex; [by rewrite app_nil_r|].
    rewrite cons_middle, app_assoc. apply IH. by apply exclusive_snoc. }
  apply reap_joins in Er as [(-> & -> & _)|(l1 & f & l2 & Ea & -> & Hj & _ & _)]; [done|].
  rewrite Ea in Hexk. by eapply exclusive_join.
Qed.

Lemma exclusive_steps y y' :
  rtc sys_step y y' → exclusive (sessions_ (srv y)) (sys_world y) →
  exclusive (sessions_ (srv y')) (sys_world y').
Proof. induction 1 as [|y1 y2 y3 Hs _ IH]; [done|]. intros. by eapply IH, exclusive_step. Qed.

End uploads.
