(* ===== verification/SrvCompletes.v ===== *)
(** * SrvCompletes: uploads of a running server complete

    What a session that uploads does depends on the other sessions only through the
    device: through the content of its own file, which nobody else changes, and
    through whether the device takes a block. [Shadow] is a file system of that one
    file with the fate of the writes to come; every execution of an upload among
    other sessions is one of the session alone on a shadow ([shadow_follows]), so
    that what is proved of sessions alone holds of it. *)

From Stdlib Require Import Strings.Byte.
From stdpp Require Import relations.
From S2P Require Import Prelude Common SmBuf Options Regex Addr Settings Base.
From S2P Require Import FileSys DataMgr DataMgrFile SmBufEx Session SessionPackets SessionSafety.
From S2P Require Import SessionRead SessionWrite SessionTraffic SessionRepeats Srv SrvSteps SrvFiles.
From S2P Require Import SrvUploads.

(** ** The file system of one file *)

Record Shadow := shadow { sh_path : bytes; sh_data : bytes; sh_fate : list bool }.

#[export] Instance shadow_fs : FileSystem Shadow := {
  fs_stat w p :=
    if bool_decide (p = sh_path w) then Found (File (sh_data w) 0 0 0) else NotFound;
  fs_can_read w p := false;
  fs_walk w p := ([], false);
  fs_create w p := None;
  fs_pwrite w p pos b :=
    match sh_fate w with
    | true :: fate => (shadow (sh_path w) (put (sh_data w) pos b) fate, true)
    | _ :: fate => (shadow (sh_path w) (sh_data w) fate, false)
    | [] => (w, false)
    end;
  fs_close w p := true;
  fs_chown w p u g := None;
  fs_chmod w p m := None
}.

#[export] Instance shadow_laws : FsLaws Shadow.
Proof.
  split; try done. intros [q e fate] w' p pos b d. unfold content. cbn.
  case_bool_decide; [|done]. intros [= ->] _ E. destruct fate as [|[] fate]; simplify_eq/=.
  by rewrite bool_decide_true.
Qed.

(** The same run in another world. *)
Definition in_world {W V M} (r : run_st W M) (v : V) : run_st V M :=
  {| ses := ses r; world := v; loc := loc r; sent := sent r |}.

Section completes.
Context {W : Type} `{FileSystem W, !FsLaws W, !FsFrame W}.
Context (getpwnam getgrnam : bytes → option Z).
Local Instance co_mgr : DataMgr W DataMgrFile := DataMgrFile_mgr getpwnam getgrnam.
Local Instance co_laws : DataMgrLaws W DataMgrFile := DataMgrFile_laws getpwnam getgrnam.
Local Instance sh_mgr : DataMgr Shadow DataMgrFile := DataMgrFile_mgr getpwnam getgrnam.
Local Instance sh_laws : DataMgrLaws Shadow DataMgrFile := DataMgrFile_laws getpwnam getgrnam.
Implicit Types (m : DataMgrFile) (w : W) (y : sys W DataMgrFile) (th : thread W DataMgrFile).
Implicit Types r : run_st W DataMgrFile.

(** A call of [write] on the shadow: some fate of the device makes it do the same. *)
Lemma shadow_write q d m w b pos m' w' n errs :
  file_writing m w d → out_path (m_file_out m) = q →
  write m w b pos = Ok (m', w', n, errs) →
  ∃ fate d', (∀ rest, write m (shadow q d (fate ++ rest)) b pos
                      = Ok (m', shadow q d' rest, n, errs)) ∧
    (0 ≤ n → content w' q = Some d' ∧ errs = []) ∧ (n < 0 → d' = d).
Proof.
  intros (Hrt & Ho & Hbad & Hexc & Hse & Hpos & Hc) Hq. unfold write.
  case_bool_decide; [done|]. rewrite Ho. rewrite Hq in Hc.
  destruct (0 <? size b).
  2: { intros. simplify_eq. by exists [], d. }
  intros E. apply bind_Ok in E as (f & Ef & E). rewrite Ef. cbn [mbind outcome_bind].
  assert (Hf : out_path f = q ∧ out_bad f = false ∧ 0 ≤ out_pos f).
  { destruct (tellp _ =? _); [by simplify_eq|]. unfold seekp in Ef. rewrite Hbad, Hexc in Ef.
    destruct (_ <? 0) eqn:Hn; [done|]. reflect_bools. by simplify_eq. }
  destruct Hf as (Hfq & Hfb & Hfp). destruct (negb _).
  { simplify_eq. exists [], d. split_and!; [done|lia|done]. }
  unfold out_write in *. rewrite Hfb in *. rewrite Hfq in *.
  destruct (fs_pwrite w _ _ _) as [w1 ok] eqn:Ew. exists [ok]. destruct ok.
  - exists (put d (out_pos f) b). cbn. unfold tellp in *. cbn in *. rewrite ?Hfb in *.
    apply (pwrite_content _ _ _ _ _ _ Hc Hfp) in Ew.
    pose proof (size_nonneg b). rewrite (proj2 (Z.ltb_ge _ 0)) in * by lia. simplify_eq.
    split_and!; [done|done|lia].
  - exists d. cbn. unfold tellp in *. cbn in *. simplify_eq. split_and!; [done|lia|done].
Qed.

(** A datagram is received on the shadow as it is in the world. *)
Lemma shadow_receive q d s w b t m s' w' b' res :
  file_man_ s = Some m → file_writing m w d → out_path (m_file_out m) = q →
  was_error s = false → receive_no_wait s w b t = Ok (s', w', b', res) →
  ∃ fate d', (∀ rest, receive_no_wait s (shadow q d (fate ++ rest)) b t
                      = Ok (s', shadow q d' rest, b', res)) ∧
    (was_error s' = false → content w' q = Some d') ∧ (was_error s' = true → d' = d).
Proof.
  intros Hm Hw Hq He. assert (Hc : content w q = Some d) by (rewrite <-Hq; apply Hw).
  unfold receive_no_wait. destruct (rx t) as [| |p from];
    [intros; simplify_eq; by exists [], d..|]. intros E.
  apply bind_Ok in E as (b1 & -> & E). apply bind_Ok in E as (op & E2 & E).
  apply bind_Ok in E as (blk & E3 & E). apply bind_Ok in E as (msg & E4 & E).
  cbn [mbind outcome_bind]. rewrite E2. cbn [mbind outcome_bind]. rewrite E3.
  cbn [mbind outcome_bind]. rewrite E4. cbn [mbind outcome_bind].
  destruct (negb _); [simplify_eq; by exists [], d|]. destruct (_ && _).
  - unfold receive_data in *. destruct (negb _); [simplify_eq; by exists [], d|].
    rewrite man_sync, Hm in *. apply bind_Ok in E as ([[[m1 w1] n] errs] & Ew & E).
    destruct (shadow_write q d _ _ _ _ _ _ _ _ Hw Hq Ew) as (fate & d' & Es & Hn & Hneg).
    exists fate, d'. split_and!.
    + intros rest. cbn [dm_write sh_mgr DataMgrFile_mgr]. rewrite Es.
      cbn [mbind outcome_bind]. by destruct (n <? 0); simplify_eq.
    + intros He'. destruct (n <? 0) eqn:Hlt; reflect_bools; simplify_eq; [|by apply Hn].
      exfalso. unfold set_error_if_first in He'.
      destruct (was_error (report _ _)) eqn:Hr; cbn [negb] in He'; [by rewrite Hr in He'|done].
    + destruct (n <? 0) eqn:Hlt; reflect_bools; simplify_eq; [auto|].
      destruct (Hn ltac:(lia)) as [_ ->]. cbn. unfold sync_stage.
      destruct (negb _); unfold was_error in *; cbn in *; congruence.
  - destruct (_ && _); [|simplify_eq; by exists [], d]. unfold receive_ack in *.
    destruct (negb _); simplify_eq; by exists [], d.
Qed.

Lemma was_error_goto (s : Session DataMgrFile) v : was_error (goto s v) = was_error s.
Proof. unfold goto, switch_to. by destruct (_ || _). Qed.

(** One iteration. *)
Lemma shadow_step q d r t r1 :
  storing d r → writes_to q (file_man_ (ses r)) → step r t = Ok r1 →
  ∃ fate d', (∀ rest, step (in_world r (shadow q d (fate ++ rest))) t
                      = Ok (in_world r1 (shadow q d' rest))) ∧
    (was_error (ses r1) = false → content (world r1) q = Some d') ∧
    (was_error (ses r1) = true → d' = d).
Proof.
  intros (_ & _ & _ & He & (m & Hm & Hw) & Hin) (m' & Hm' & Hq). simplify_eq.
  specialize (Hq (proj1 (proj2 Hw))).
  assert (Hc : content (world r) q = Some d) by (rewrite <-Hq; apply Hw).
  unfold step. cbn [ses in_world].
  destruct (stat_ (ses r)); try (exfalso; revert Hin; by_decide).
  - unfold step_error_and_stop. intros E. apply bind_Ok in E as ([[s b] out] & E1 & E).
    simplify_eq/=. exists [], d. split; [|done]. intros rest. by rewrite E1.
  - unfold step_ack_options. intros E. apply bind_Ok in E as ([b out] & E1 & E).
    simplify_eq/=. exists [], d. split; [|done]. intros rest. by rewrite E1.
  - unfold step_data_rx. intros E. apply bind_Ok in E as ([[[s w] b] res] & E1 & E).
    destruct (shadow_receive q d _ _ _ _ _ _ _ _ _ Hm Hw Hq He E1) as (fate & d' & Es & Hn & Hneg).
    exists fate, d'. cbn [ses world loc sent in_world]. destruct res.
    + apply bind_Ok in E as (pass & Ep & E). simplify_eq/=. split.
      * intros rest. rewrite Es. cbn [mbind outcome_bind]. by rewrite Ep.
      * destruct pass; [done|]. by rewrite was_error_goto.
    + split; [intros rest; rewrite Es; cbn [mbind outcome_bind]|];
        destruct (is_window_close _ _); simplify_eq/=; rewrite ?was_error_goto; done.
    + simplify_eq/=. split; [intros rest; by rewrite Es|]. by rewrite was_error_goto.
  - unfold step_ack_tx. intros E. apply bind_Ok in E as (b & E1 & E).
    exists [], d. cbn [ses world loc sent in_world].
    split; [intros rest; rewrite E1; cbn [mbind outcome_bind]|];
      destruct (last_blk_processed_ _); by simplify_eq/=.
  - unfold step_retransmit. cbn [ses world loc sent in_world]. cbv zeta. intros E.
    exists [], d. destruct (_ <? _); simplify_eq/=; done.
  - intros E. simplify_eq. by exists [], d.
Qed.

(** The thread [th] ends like the run [r]. *)
Definition ends_like th r : Prop :=
  sent (th_run th) = sent r ∧ stat_ (ses (th_run th)) = stat_ (ses r) ∧
  was_error (ses (th_run th)) = was_error (ses r) ∧
  error_message_ (ses (th_run th)) = error_message_ (ses r).

(** The own iterations of the upload, on a shadow of its file. *)
Definition shadows q d r ts r1 d1 : Prop :=
  ∃ fate, ∀ rest, run_loop (in_world r (shadow q d (fate ++ rest))) ts
                  = Ok (in_world r1 (shadow q d1 rest)).

Lemma shadows_finished q d r ts r1 d1 :
  stat_ (ses r) = State.finish → shadows q d r ts r1 d1 →
  d1 = d ∧ ses r1 = ses r ∧ sent r1 = sent r.
Proof.
  intros Hf [fate Hs]. specialize (Hs []). rewrite run_loop_finished in Hs by done.
  unfold in_world in Hs. by simplify_eq.
Qed.

Lemma shadows_cons q d r t ts r1 d1 r2 d2 :
  stat_ (ses r) ≠ State.finish →
  (∃ fate, ∀ rest, step (in_world r (shadow q d (fate ++ rest))) t
                   = Ok (in_world r1 (shadow q d1 rest))) →
  shadows q d1 r1 ts r2 d2 → shadows q d r (t :: ts) r2 d2.
Proof.
  intros Hf [fate Es] [fate' Er]. exists (fate ++ fate'). intros rest.
  rewrite run_loop_cons, <-app_assoc, Es by done. apply Er.
Qed.

Abbreviation uploaded := (uploaded getpwnam getgrnam).

(** The closing of the file after the loop, and iterations of a thread that has
    returned. *)
Lemma finished_own q d th w t th1 w1 :
  stat_ (ses (th_run th)) = State.finish → uploaded q d w th →
  thread_step th w t = Ok (th1, w1) →
  uploaded q d w1 th1 ∧ stage_ (ses (th_run th1)) = stage_ (ses (th_run th)) ∧
  opt_ (ses (th_run th1)) = opt_ (ses (th_run th)) ∧ ends_like th1 (th_run th).
Proof.
  intros Hf Hu E. pose proof (uploaded_content _ _ _ _ _ _ Hu) as Hc. unfold thread_step in E.
  destruct Hu as [(Hr & Hs & Hq)|(Hr & _ & He & _)]; rewrite Hr in E.
  2: { simplify_eq. split; [by right|done]. }
  unfold is_finished in E. rewrite bool_decide_true in E by done.
  apply bind_Ok in E as (r & E & E1). simplify_eq. unfold run_end in E. cbn [ses with_world] in E.
  destruct Hq as (m & Hm & _). rewrite Hm in E. apply bind_Ok in E as ([m' w'] & Ec & E).
  simplify_eq. split; [|done]. right. split_and!; try done.
  - by destruct Hs as (_ & _ & _ & He & _).
  - exact (close_content getpwnam getgrnam q d _ _ _ _ Hc Ec).
Qed.

(** A session that has ended stays as it is. *)
Lemma finished_follows y i ts y' i' th :
  follows getpwnam getgrnam y i ts y' i' → sessions_ (srv y) !! i = Some th →
  stat_ (ses (th_run th)) = State.finish →
  ∃ th', sessions_ (srv y') !! i' = Some th' ∧ ends_like th' (th_run th).
Proof.
  intros Hf. revert th.
  induction Hf as [y i|y i rx y1 i1 ts y' i' Hs E Hi Hf IH|y i ts y' i' Hf IH
    |y i j th0 ts1 th1 w1 ts y' i' Hij Hj E Hf IH|y i th0 ts1 th1 w1 ts y' i' Hj E Hf IH];
    intros th Hth Hfin.
  - by exists th.
  - apply IH; [by eapply main_step_follow|done].
  - by apply IH.
  - apply IH; [|done]. cbn. by rewrite list_lookup_insert_ne.
  - simplify_eq. destruct (move_running _ _ _ _ _ _ _ E) as (t & -> & E1); [by rewrite Hfin|].
    destruct (finished_step getpwnam getgrnam _ _ _ _ _ E1 Hfin) as (Hs & [o Ho] & _).
    destruct (IH th1) as (th' & Hth' & Hl).
    + cbn. apply list_lookup_insert_eq. by eapply lookup_lt_Some.
    + by rewrite Ho.
    + exists th'. split; [done|]. unfold ends_like in *. by rewrite Hs, Ho in Hl.
Qed.

(** An own iteration before that. *)
Lemma running_own q d th w t th1 w1 :
  stat_ (ses (th_run th)) ≠ State.finish → servable (ses (th_run th)) →
  (stage_ (ses (th_run th)) + 1) * 65536 < 2 ^ 62 →
  uploaded q d w th → thread_step th w t = Ok (th1, w1) →
  opt_ (ses (th_run th1)) = opt_ (ses (th_run th)) ∧
  ∃ d1, (∃ fate, ∀ rest, step (in_world (th_run th) (shadow q d (fate ++ rest))) t
                         = Ok (in_world (th_run th1) (shadow q d1 rest))) ∧
    (ended [t] (block_size (ses (th_run th))) q d1 w1 th1 ∨
     (uploaded q d1 w1 th1 ∧ stage_ (ses (th_run th1)) ≤ stage_ (ses (th_run th)) + 2)).
Proof.
  intros Hf Hp Hb Hu E.
  destruct (uploaded_step getpwnam getgrnam q d th w t th1 w1) as (Ho & _ & acc & _ & Hres); try done.
  split; [done|].
  destruct Hu as [(Hr & Hs & Hq)|(_ & ? & _)]; [|done].
  unfold thread_step in E. rewrite Hr in E. unfold is_finished in E.
  rewrite bool_decide_false in E by done. apply bind_Ok in E as (r & E & E1). simplify_eq.
  destruct (shadow_step q d _ t r Hs Hq E) as (fate & d1 & Es & Hn & Hneg).
  exists d1. split; [by exists fate|].
  destruct Hres as [[Hst Hu1]|[-> Hend]]; [right|left].
  - assert (He : was_error (ses r) = false).
    { destruct Hu1 as [(_ & (_ & _ & _ & He & _) & _)|(? & _)]; done. }
    pose proof (uploaded_content _ _ _ _ _ _ Hu1) as Hc. cbn in Hc. rewrite (Hn He) in Hc.
    by simplify_eq.
  - by rewrite (Hneg (proj2 (ended_finished _ _ _ _ _ _ Hend))).
Qed.

(** An upload among other sessions, in any interleaving, does what it does alone on a
    shadow of its file; the content of the file is that of the shadow, unless the
    session has ended with an error, which happened when the shadow had this content. *)
Lemma shadow_follows q d y i ts y' i' th :
  follows getpwnam getgrnam y i ts y' i' → placed q y i th → servable (ses (th_run th)) →
  (stage_ (ses (th_run th)) + 2 * Z.of_nat (length ts) + 1) * 65536 < 2 ^ 62 →
  uploaded q d (sys_world y) th →
  ∃ th' r1 d1, sessions_ (srv y') !! i' = Some th' ∧ shadows q d (th_run th) ts r1 d1 ∧
    ends_like th' r1 ∧
    ((was_error (ses (th_run th')) = false ∧ content (sys_world y') q = Some d1) ∨
     ended ts (block_size (ses (th_run th))) q d1 (sys_world y') th').
Proof.
  intros Hf. revert th d.
  induction Hf as [y i|y i rx y1 i1 ts y' i' Hs E Hi Hf IH|y i ts y' i' Hf IH
    |y i j th0 ts1 th1 w1 ts y' i' Hij Hj E Hf IH|y i th0 ts1 th1 w1 ts y' i' Hj E Hf IH];
    intros th d Hpl Hp Hb Hu; pose proof (uploaded_content _ _ _ _ _ _ Hu) as Hc.
  - exists th, (th_run th), d. split; [by eapply placed_lookup|].
    split; [|split; [done|left; split; [by eapply uploaded_error|done]]]. exists []. intros rest. cbn [run_loop]. by destruct (is_finished _).
  - destruct (placed_main getpwnam getgrnam q d y rx y1 i i1 th E Hi Hpl Hc) as [Hpl' Hc'].
    apply IH; try done. by eapply uploaded_world.
  - by apply IH.
  - destruct (placed_other getpwnam getgrnam q d y i j th th0 ts1 th1 w1 Hij Hj Hpl Hc E) as [Hpl' Hc'].
    apply IH; try done. by eapply uploaded_world.
  - pose proof (placed_lookup _ _ _ _ Hpl) as Hth. rewrite Hth in Hj. injection Hj as <-.
    destruct (move_running _ _ _ _ _ _ _ E (uploaded_running _ _ _ _ _ _ Hu)) as (t & -> & E1).
    rewrite length_app in Hb. cbn [length] in Hb. pose proof (placed_own q y i th th1 w1 Hpl) as Hpl1.
    assert (Hnext : opt_ (ses (th_run th1)) = opt_ (ses (th_run th)) →
      servable (ses (th_run th1)) ∧ block_size (ses (th_run th1)) = block_size (ses (th_run th))).
    { intros Ho. split; [by apply (servable_opt (ses (th_run th)))|]. unfold block_size. by rewrite Ho. }
    destruct (decide (stat_ (ses (th_run th)) = State.finish)) as [Hfin|Hfin].
    + destruct (finished_own q d th (sys_world y) t th1 w1 Hfin Hu E1) as (Hu1 & Hst & Ho & Hl).
      destruct (Hnext Ho) as [Hp1 Hbs].
      destruct (IH th1 d) as (th' & r1 & d1 & Hth' & Hsh & Hl' & Hres); [done|done|lia|done|].
      destruct Hl as (Hl1 & Hl2 & Hl3 & Hl4). rewrite Hfin in Hl2.
      destruct (shadows_finished _ _ _ _ _ _ Hl2 Hsh) as (-> & Hses & Hsent).
      exists th', (th_run th), d. split_and!; [done| | |].
      * exists []. intros rest. by rewrite run_loop_finished.
      * unfold ends_like in *. rewrite Hses, Hsent in Hl'. rewrite Hfin. intuition congruence.
      * rewrite Hbs in Hres. destruct Hres as [?|Hend]; [by left|right].
        rewrite <-(app_nil_r ts). exact (ended_app [t] ts [] _ _ _ _ _ Hend).
    + destruct (running_own q d th (sys_world y) t th1 w1) as [Ho (d1 & Hsh & Hres)];
        [done|done|lia|done|done|]. destruct (Hnext Ho) as [Hp1 Hbs].
      destruct Hres as [Hend|[Hu1 Hst]].
      * destruct (ended_follows getpwnam getgrnam _ q d1 _ _ [t] _ _ _ th1 Hf Hpl1 Hend)
          as (th' & Hth' & Hend').
        destruct (ended_finished _ _ _ _ _ _ Hend) as [Hfin1 _].
        destruct (finished_follows _ _ _ _ _ th1 Hf) as (th2 & Hth2 & Hl); [|done|].
        { cbn. apply list_lookup_insert_eq. by eapply lookup_lt_Some. }
        rewrite Hth' in Hth2. injection Hth2 as <-.
        exists th', (th_run th1), d1. split_and!; [done| |done|right].
        -- eapply shadows_cons; [done|exact Hsh|]. exists []. intros rest.
           by rewrite run_loop_finished.
        -- exact (ended_app [] [t] ts _ _ _ _ _ Hend').
      * destruct (IH th1 d1) as (th' & r1 & d2 & Hth' & Hsh' & Hl' & Hres); [done|done|lia|done|].
        exists th', r1, d2. split_and!; [done|by eapply shadows_cons|done|].
        rewrite Hbs in Hres. destruct Hres as [?|Hend]; [by left|right].
        rewrite <-(app_nil_r ts). exact (ended_app [t] ts [] _ _ _ _ _ Hend).
Qed.

(** The shadow of the file has the content that was written to it. *)
Lemma shadow_written q d d1 m fate : file_writing m (shadow q d1 fate) d → d1 = d.
Proof.
  intros (_ & _ & _ & _ & _ & _ & Hc). unfold content in Hc. cbn in Hc.
  case_bool_decide; by simplify_eq.
Qed.

(** A write the device refuses leaves the shadow as it was. *)
Lemma shadow_refused bs d k b (r : run_st Shadow DataMgrFile) :
  refused bs d k b r → sh_data (world r) = d ∧ error_message_ (ses r) = write_error.
Proof.
  intros (_ & _ & m & [q e fate] & m' & errs & Hw & Hk & E & _ & Hin). cbn in E.
  destruct (write_refused _ _ _ _ _ _ _ _ Hw Hk E) as (Hp & -> & _).
  apply list_elem_of_singleton in Hin. injection Hin as _ Hmsg. split; [|done].
  apply shadow_written in Hw as ->. cbn in Hp.
  destruct fate as [|[] fate]; [|done|]; injection Hp as Hp; by rewrite <-Hp.
Qed.

(** The whole transfer on a shadow. *)
Lemma shadow_transfer (r : run_st Shadow DataMgrFile) ts tm us f m :
  let ws := Session_windowsize (ses r) in let n := size f / block_size (ses r) + 1 in
  servable (ses r) → stat_ (ses r) = State.ack_options → was_error (ses r) = false →
  request_type (opt_ (ses r)) = SrvReq.write → run_buf (local_buf (loc r)) →
  last_blk_processed_ (loc r) = false → file_man_ (ses r) = Some m →
  file_writing m (world r) [] →
  write_opening (opt_ (ses r)) ts tm → size f < 2 ^ 45 →
  walk_ok (opt_ (ses r)) (cl_addr_ (ses r)) f (block_size (ses r)) ws tm 1 us →
  ∃ r' : run_st Shadow DataMgrFile, run_loop r (ts ++ concat (map (nu_ticks ws) us)) = Ok r' ∧
    ((some_blocks f (block_size (ses r)) (sh_data (world r')) ∧ was_error (ses r') = true ∧
      error_message_ (ses r') = write_error) ∨
     (was_error (ses r') = false ∧ sh_data (world r') = f ∧
      stat_ (ses r') = (if closes ws n then State.finish else State.data_rx) ∧
      sent r' = sent r ++ (if was_set_any (opt_ (ses r)) then oack_packet (opt_ (ses r))
                           else ack_packet 0) :: walk_acks ws us)).
Proof.
  intros ws n Hp Hst He Hrq Hb Hl Hm Hw Hts Hf Hus.
  destruct (write_opening_runs r ts tm m) as (r2 & E2 & Hrec & Ht & Ho2 & Hcl2 & Hs2);
    try done; [apply Hp|].
  assert (Hbs2 : block_size (ses r2) = block_size (ses r)) by (unfold block_size; by rewrite Ho2).
  assert (Hws2 : Session_windowsize (ses r2) = ws)
    by (unfold ws, Session_windowsize; by rewrite Ho2).
  pose proof Hrec as (Hst2 & Hk2 & He2 & Hb2 & _ & Hman2). pose proof (size_nonneg f).
  rewrite (run_loop_app _ _ _ _ E2).
  destruct (walk_runs us r2 f 0 1) as [(r' & E & Ho & Hs & Hd)|(r' & d & k & b & E & Hfail & Hd & _)].
  - by apply (servable_opt (ses r)).
  - done.
  - lia.
  - lia.
  - lia.
  - by split_and!.
  - by rewrite Hbs2, Hws2, Ho2, Hcl2, Ht.
  - rewrite Hws2 in E, Hs. exists r'. split; [done|]. right.
    assert (Hbs' : block_size (ses r') = block_size (ses r))
      by (unfold block_size; by rewrite Ho, Ho2).
    assert (Hws' : Session_windowsize (ses r') = ws)
      by (unfold ws, Session_windowsize; by rewrite Ho, Ho2).
    unfold walk_done in Hd. rewrite Hbs', Hws' in Hd. fold n in Hd.
    assert (Hdata : ∀ m', file_writing m' (world r') f → sh_data (world r') = f).
    { intros m' Hw'. destruct (world r') as [q1 d1 fate]. by eapply shadow_written. }
    rewrite Hs, Hs2, <-app_assoc.
    destruct (closes ws n); [destruct Hd as (? & ? & m' & _ & Hw')|destruct Hd as (? & _ & ? & _ & m' & _ & Hw')];
      (split_and!; try done; exact (Hdata m' Hw')).
  - rewrite Hws2 in E. exists r'. split; [done|]. left.
    destruct (shadow_refused _ _ _ _ _ Hfail) as [<- ?]. rewrite Hbs2 in Hd.
    split_and!; [done|apply Hfail|done].
Qed.

(** A transfer among other sessions, from the confirmation of the options on. *)
Lemma upload_completes y i ts tm us f y' i' th m :
  let s := ses (th_run th) in let ws := Session_windowsize s in
  let n := size f / block_size s + 1 in let ticks := ts ++ concat (map (nu_ticks ws) us) in
  let q := out_path (m_file_out m) in
  follows getpwnam getgrnam y i ticks y' i' → placed q y i th →
  returned th = false → servable s →
  Z.of_nat (length ticks) < 2 ^ 44 → stat_ s = State.ack_options → stage_ s = 0 →
  was_error s = false → request_type (opt_ s) = SrvReq.write →
  run_buf (local_buf (loc (th_run th))) → last_blk_processed_ (loc (th_run th)) = false →
  file_man_ s = Some m → file_writing m (sys_world y) [] →
  write_opening (opt_ s) ts tm → size f < 2 ^ 45 →
  walk_ok (opt_ s) (cl_addr_ s) f (block_size s) ws tm 1 us →
  ∃ th', sessions_ (srv y') !! i' = Some th' ∧
    ((∃ d, some_blocks f (block_size s) d ∧
           device_failed ticks (block_size s) q d (sys_world y') th') ∨
     (content (sys_world y') q = Some f ∧
      was_error (ses (th_run th')) = false ∧
      stat_ (ses (th_run th')) = (if closes ws n then State.finish else State.data_rx) ∧
      sent (th_run th') = sent (th_run th) ++
        (if was_set_any (opt_ s) then oack_packet (opt_ s) else ack_packet 0) :: walk_acks ws us)).
Proof.
  intros s ws n ticks q Hf Hpl Hr Hp Hlen Hst Hsg He Hrq Hb Hl Hm Hw Hts Hsz Hus.
  assert (Ho : out_open (m_file_out m) = true) by apply Hw.
  destruct (shadow_follows q [] y i ticks y' i' th Hf)
    as (th' & r1 & d1 & Hth' & [fate Hsh] & (Hl1 & Hl2 & Hl3 & Hl4) & Hres); [done|done| | |].
  - fold s. rewrite Hsg. lia.
  - left. split_and!; [done| |by exists m].
    split_and!; cbn; fold s; rewrite ?Hsg, ?Hst; try done; [by exists m|by_decide].
  - exists th'. split; [done|]. specialize (Hsh []). rewrite app_nil_r in Hsh.
    destruct (shadow_transfer (in_world (th_run th) (shadow q [] fate)) ts tm us f m)
      as (r' & E & Hcase); try done.
    { destruct Hw as (? & ? & ? & ? & ? & ? & _). split_and!; try done.
      unfold content. cbn. by rewrite bool_decide_true. }
    assert (Ok r' = Ok (in_world r1 (shadow q d1 []))) as [= ->]
      by (etrans; [symmetry; exact E|exact Hsh]).
    destruct Hcase as [(Hd & He1 & Hmsg)|(He1 & Hd & Hst1 & Hs1)]; [left|right]; cbn in *.
    + exists d1. split; [done|]. destruct Hres as [Hc|[Hnf|?]]; [|exfalso|done].
      * destruct Hc. congruence.
      * destruct Hnf as (_ & _ & Hn & _). by rewrite Hl4, Hmsg in Hn.
    + subst d1. split_and!; [|by rewrite Hl3|by rewrite Hl2|by rewrite Hl1].
      destruct Hres as [[_ ?]|[_ Hx]%ended_finished]; [done|]. congruence.
Qed.
End completes.
