(* ===== verification/SrvRaces.v ===== *)
(** * SrvRaces: uploads that start at the same time

    In [SrvSteps] the thread of an upload can be interrupted between the check for its
    file and the opening of it; in [Srv] an iteration of a session is one step. While it
    waits a session has a data manager that knows its file name and has no stream;
    [erase] forgets it. When no other upload names the file of a session that waits
    ([no_clash]), an execution in the small steps is, marks erased, an execution of [Srv]
    ([fine_refines]), so that what is shown there holds: uploads have files of their
    own ([uploads_exclusive]). In every case the files that were there before are kept
    ([files_kept]). But two uploads of one new name both get it, and the second empties
    what the first has stored ([open_empties]). *)

From Stdlib Require Import Strings.Byte.
From stdpp Require Import relations.
From S2P Require Import Prelude Common SmBuf Options Regex Addr Settings Base.
From S2P Require Import FileSys DataMgr DataMgrFile SmBufEx Session SessionPackets SessionSafety.
From S2P Require Import SessionRead SessionWrite Srv SrvSteps SrvFiles SrvUploads.

Section races.
Context {W : Type} `{FileSystem W}.
Context (getpwnam getgrnam : bytes → option Z).
Local Instance race_mgr : DataMgr W DataMgrFile := DataMgrFile_mgr getpwnam getgrnam.
Implicit Types (w : W) (y : sys W DataMgrFile) (th : thread W DataMgrFile).
Implicit Types (s : Session DataMgrFile) (fn : path).

(** *** Forgetting the marks *)

Definition erase_th th : thread W DataMgrFile :=
  if bool_decide (stat_ (ses (th_run th)) = State.need_init)
  then with_ses th (with_man (ses (th_run th)) None) else th.

Definition erase y : sys W DataMgrFile :=
  with_threads y (erase_th <$> sessions_ (srv y)) (sys_world y).

Lemma erase_running th :
  stat_ (ses (th_run th)) ≠ State.need_init → erase_th th = th.
Proof. intros Hn. unfold erase_th. by rewrite bool_decide_false. Qed.

Lemma erase_unmarked th : awaiting th = None → erase_th th = th.
Proof.
  unfold awaiting, erase_th. case_bool_decide as Hn; [|done]. intros Hm.
  destruct th as [[s ? ? ?] ?]. cbn in *. destruct s; cbn in *.
  by destruct file_man_.
Qed.

Lemma erase_mark th :
  stat_ (ses (th_run th)) = State.need_init → awaiting th = None → erase_th (mark th) = th.
Proof.
  intros Hn Ha. rewrite <-(erase_unmarked th Ha) at 2. unfold erase_th. cbn.
  by rewrite !bool_decide_true.
Qed.

Lemma erase_fields th :
  opt_ (ses (th_run (erase_th th))) = opt_ (ses (th_run th)) ∧
  settings_ (ses (th_run (erase_th th))) = settings_ (ses (th_run th)) ∧
  stat_ (ses (th_run (erase_th th))) = stat_ (ses (th_run th)) ∧
  returned (erase_th th) = returned th.
Proof. unfold erase_th. by case_bool_decide. Qed.

Lemma erase_new th : file_man_ (ses (th_run th)) = None → erase_th th = th.
Proof. intros Hn. by apply erase_unmarked, awaiting_new. Qed.

Lemma erase_insert y i th w :
  erase (with_threads y (<[i := th]> (sessions_ (srv y))) w)
  = with_threads (erase y) (<[i := erase_th th]> (sessions_ (srv (erase y)))) w.
Proof. unfold erase, with_threads. cbn. by rewrite list_fmap_insert. Qed.

Lemma erase_lookup y i th :
  sessions_ (srv y) !! i = Some th → sessions_ (srv (erase y)) !! i = Some (erase_th th).
Proof. intros Hi. cbn. by rewrite list_lookup_fmap, Hi. Qed.

(** *** The main loop *)

Lemma join_erase th w :
  stat_ (ses (th_run th)) = State.finish → join (erase_th th) w = join th w.
Proof. intros Hf. by rewrite erase_running by (by rewrite Hf). Qed.

Lemma reap_erase (l : list (thread W DataMgrFile)) w l' w' :
  reap l w = Ok (l', w') → reap (erase_th <$> l) w = Ok (erase_th <$> l', w').
Proof.
  revert l'. induction l as [|th l IH]; intros l' E; cbn [reap fmap list_fmap] in E |- *.
  { by simplify_eq. }
  unfold is_finished in E |- *. destruct (erase_fields th) as (_ & _ & -> & _).
  case_bool_decide as Hf.
  - rewrite join_erase by done. apply bind_Ok in E as (w1 & -> & E). by simplify_eq.
  - apply bind_Ok in E as ([l1 w1] & E1 & E). simplify_eq. apply IH in E1.
    cbn [fmap] in E1. by rewrite E1.
Qed.

Lemma accept_erase y n from l :
  accept y n from = Ok l → accept (erase y) n from = Ok (erase_th <$> l).
Proof.
  unfold accept. cbn [srv pkt_buf erase with_threads srv_settings with_sessions sys_world sessions_].
  intros E. apply bind_Ok in E as ([s ret] & Ep & E). rewrite Ep. cbn [mbind outcome_bind].
  destruct ret; [|by simplify_eq]. simplify_eq/=. f_equal.
  etrans; [|symmetry; apply fmap_app]. f_equal. cbn [fmap list_fmap]. rewrite erase_new; [done|].
  unfold prepare in Ep. apply bind_Ok in Ep as ([ret o] & _ & Ep). by simplify_eq.
Qed.

(** The datagram in the buffer, its size and its sender. *)
Definition arrive y (rx : recv_result) : sys W DataMgrFile * Z * Addr :=
  match rx with
  | RxPkt d from =>
      let d := take (length (pkt_buf y)) d in
      ({| srv := srv y; pkt_buf := blit (pkt_buf y) 0 d; sys_world := sys_world y |},
       size d, from)
  | _ => (y, -1, Addr_new)
  end.

Lemma main_step_arrive y rx :
  main_step y rx
  = (let '(y, n, from) := arrive y rx in
     l ← (if 9 <=? n then accept y n from else Ok (sessions_ (srv y)));
     '(l, w) ← reap l (sys_world y); Ok (with_threads y l w)).
Proof. by destruct rx. Qed.

Lemma arrive_erase y rx :
  arrive (erase y) rx = (let '(y, n, from) := arrive y rx in (erase y, n, from)).
Proof. by destruct rx. Qed.

Lemma main_step_erase y rx y' :
  main_step y rx = Ok y' → main_step (erase y) rx = Ok (erase y').
Proof.
  rewrite !main_step_arrive, arrive_erase. destruct (arrive y rx) as [[y0 n] from]. intros E.
  apply bind_Ok in E as (l & El & E). apply bind_Ok in E as ([l' w'] & Er & E). simplify_eq.
  apply reap_erase in Er.
  assert (El' : (if 9 <=? n then accept (erase y0) n from
                 else Ok (sessions_ (srv (erase y0)))) = Ok (erase_th <$> l)).
  { destruct (9 <=? n); [by apply accept_erase|by simplify_eq]. }
  rewrite El'. cbn [mbind outcome_bind]. change (sys_world (erase y0)) with (sys_world y0).
  by rewrite Er.
Qed.

(** ** What a session changes

    Nothing but the file it is to upload. *)
Context `{!FsFrame W}.

(** The manager serves a request [rq]; an upload writes to [fn]. *)
Definition aims (rq : SrvReq.t) fn (o : option DataMgrFile) : Prop :=
  match o with
  | Some m =>
      m_request_type m = rq ∧
      (rq = SrvReq.write → m_filename m = fn ∧
         (out_open (m_file_out m) = true → out_path (m_file_out m) = c_str fn))
  | None => True
  end.

Definition untouched (rq : SrvReq.t) fn (q : bytes) : Prop :=
  rq = SrvReq.write → same_file (c_str fn) q = false.

Definition framed (rq : SrvReq.t) fn (w0 : W) (o : option DataMgrFile) w : Prop :=
  aims rq fn o ∧ ∀ q, untouched rq fn q → fs_stat w q = fs_stat w0 q.

Lemma write_framed rq fn w0 m w b pos m' w' n errs :
  framed rq fn w0 (Some m) w → write m w b pos = Ok (m', w', n, errs) →
  framed rq fn w0 (Some m') w'.
Proof.
  intros Hm. pose proof Hm as [[Hrq Ha] Hw]. unfold write. case_bool_decide as Hwr; [done|].
  assert (Hr : rq = SrvReq.write) by congruence.
  destruct (Ha Hr) as [Hfn Ho]. destruct (out_open (m_file_out m)) eqn:Hop;
    [|intros; by simplify_eq].
  specialize (Ho eq_refl). destruct (_ <? _); [|intros; by simplify_eq]. intros E.
  apply bind_Ok in E as (f & Ef & E).
  assert (Hf : out_path f = c_str fn).
  { rewrite <-Ho. destruct (_ =? _); [by simplify_eq|exact (proj1 (seekp_path _ _ _ Ef))]. }
  assert (Hm' : ∀ f', out_path f' = out_path f →
    aims rq fn (Some (with_streams m (m_file_in m) f'))).
  { intros f' Hf'. split; [done|]. intros _. split; [done|]. intros _. cbn. by rewrite Hf'. }
  destruct (negb _); [simplify_eq; by split; [apply Hm'|]|]. unfold out_write in E.
  destruct (out_bad f); [destruct (_ <? 0); simplify_eq; by split; [apply Hm'|]|].
  destruct (fs_pwrite _ _ _ _) as [w1 ok] eqn:Ew.
  assert (Hw1 : ∀ q, untouched rq fn q → fs_stat w1 q = fs_stat w0 q).
  { intros q Hq. rewrite <-(Hw q Hq). eapply pwrite_frame; [exact Ew|]. rewrite Hf. auto. }
  destruct (_ <? 0); simplify_eq; by split; [apply Hm'|].
Qed.

Lemma read_framed rq fn w0 m w b pos m' b' n errs :
  framed rq fn w0 (Some m) w → read m w b pos = Ok (m', b', n, errs) →
  framed rq fn w0 (Some m') w.
Proof.
  intros Hf. unfold read. case_bool_decide; [done|].
  destruct (in_open _); [|intros E; by simplify_eq]. destruct (_ <=? _); [done|].
  destruct (_ <? _); [destruct (in_read _ _ _)|]; intros E; by simplify_eq.
Qed.

Lemma close_framed rq fn w0 m w m' w' :
  framed rq fn w0 (Some m) w → close getpwnam getgrnam m w = Ok (m', w') →
  framed rq fn w0 (Some m') w'.
Proof.
  intros [[Hrq Ha] Hw] E. pose proof (close_not_writing _ _ _ _ _ _ E) as Hno.
  unfold close in E. apply bind_Ok in E as (f & _ & E). set (m1 := with_streams _ _ _) in E.
  assert (Ha' : aims rq fn (Some m')).
  { case_bool_decide; simplify_eq; (split; [done|]; intros Hr; destruct (Ha Hr) as [? _];
      split; [done|congruence]). }
  split; [done|]. intros q Hq. rewrite <-(Hw q Hq).
  case_bool_decide as Hr; [|by simplify_eq].
  assert (Hs : same_file (c_str (m_filename m1)) q = false).
  { destruct Ha as [Hm _]; [rewrite <-Hrq; exact Hr|]. cbn. rewrite Hm. apply Hq. rewrite <-Hrq. exact Hr. }
  injection E as _ <-. set (w1 := close_owner _ _ m1 w).
  assert (Ho : fs_stat w1 q = fs_stat w q).
  { unfold w1, close_owner. destruct (_ || _); [|done].
    destruct (fs_chown _ _ _ _) eqn:Ec; [|done]. cbn. by eapply chown_frame. }
  destruct (fs_chmod _ _ _) eqn:Ec; cbn; [|done]. rewrite <-Ho. by eapply chmod_frame.
Qed.

Lemma framed_keeper rq fn w0 : keeper (framed rq fn w0).
Proof.
  split; cbn; intros.
  - by eapply write_framed.
  - by eapply read_framed.
  - by eapply close_framed.
Qed.

Lemma init_framed sett opt w m w' ok errs :
  DataMgrFile.init DataMgrFile_new w sett opt = Ok (m, w', ok, errs) →
  framed (request_type opt) (target sett opt) w (Some m) w'.
Proof.
  unfold DataMgrFile.init. destruct (request_type opt) eqn:Hr; intros E.
  - by simplify_eq/=.
  - unfold init_reading in E. apply bind_Ok in E as ([ret fn] & _ & E).
    destruct ret; cbn [negb] in E; [|by simplify_eq/=].
    destruct (in_fail _); [done|]. apply bind_Ok in E as (sz & _ & E). by simplify_eq/=.
  - unfold init_writing in E. apply bind_Ok in E as (ex & _ & E).
    destruct ex; [by simplify_eq/=|]. unfold out_open_file in E.
    destruct (fs_create _ _) as [w1|] eqn:Hcr; simplify_eq/=; [|done].
    split; [done|]. intros q Hq. eapply create_frame; [exact Hcr|by apply Hq].
Qed.

(** The thread serves its request. *)
Definition serving th : Prop :=
  aims (request_type (opt_ (ses (th_run th)))) (aim (ses (th_run th))) (file_man_ (ses (th_run th))).

Definition leaves th (q : bytes) : Prop :=
  untouched (request_type (opt_ (ses (th_run th)))) (aim (ses (th_run th))) q.

Lemma thread_step_framed th w t th' w' :
  serving th → thread_step th w t = Ok (th', w') →
  serving th' ∧ (∀ q, leaves th q → fs_stat w' q = fs_stat w q).
Proof.
  intros Hs E. unfold thread_step in E. destruct (returned th); [by simplify_eq|].
  set (K := framed (request_type (opt_ (ses (th_run th)))) (aim (ses (th_run th))) w).
  assert (HK : K (file_man_ (ses (th_run th))) w) by (by split).
  assert (Hdone : ∀ r, evolves (ses (th_run th)) (ses r) → K (file_man_ (ses r)) (world r) →
    serving {| th_run := r; returned := returned th' |} ∧
    (∀ q, leaves th q → fs_stat (world r) q = fs_stat w q)).
  { intros r (Hset & _ & _ & Ho & _) [Ha Hf]. split; [|done]. unfold serving, aim.
    cbn. by rewrite Ho, Hset. }
  destruct (is_finished _); apply bind_Ok in E as (r & E & E1); simplify_eq/=; apply Hdone.
  - by apply run_end_ses in E as [? _].
  - by apply (run_end_keeps K (framed_keeper _ _ _)) in E.
  - by apply step_evolves in E as [? _].
  - apply (step_keeps_at K (framed_keeper _ _ _)) in E; [done| |done].
    intros _ m w1 ok errs Ei. cbn in Ei. by apply init_framed in Ei.
Qed.

Lemma join_framed th w w' :
  serving th → join th w = Ok w' → ∀ q, leaves th q → fs_stat w' q = fs_stat w q.
Proof.
  intros Hs E q Hq. unfold join in E. destruct (returned th); [by simplify_eq|].
  apply bind_Ok in E as (r & E & E1). simplify_eq.
  apply (run_end_keeps _ (framed_keeper (request_type (opt_ (ses (th_run th))))
    (aim (ses (th_run th))) w)) in E as [_ Hf]; [by apply Hf|by split].
Qed.

(** ** The small steps against the steps of [Srv] *)

(** Going on after the check is the whole iteration while the file is absent. *)
Lemma late_step th fn w t :
  awaiting th = Some fn → fn = aim (ses (th_run th)) → returned th = false →
  request_type (opt_ (ses (th_run th))) = SrvReq.write →
  fs_stat w (c_str fn) = NotFound → 0 ≤ sock t → bound t = true →
  @thread_step _ _ (late_mgr getpwnam getgrnam fn) th w t = thread_step (erase_th th) w t.
Proof.
  intros Ha -> Hr Hrq Hn Hso Hbo. apply awaiting_init in Ha as Hst. unfold thread_step.
  destruct (erase_fields th) as (_ & _ & Hst' & ->). rewrite Hr. unfold is_finished.
  rewrite Hst', Hst, !bool_decide_false by done. unfold step. cbn [ses with_world].
  rewrite Hst', Hst. unfold step_need_init, Session.init. cbn [ses world with_world].
  assert (He : erase_th th = with_ses th (with_man (ses (th_run th)) None)).
  { unfold erase_th. by rewrite bool_decide_true. }
  rewrite He. cbn. rewrite (proj2 (Z.leb_le 0 _)), Hbo by done. cbn [andb].
  rewrite init_write_parts; [by rewrite Hrq|done|]. unfold exists_. fold (aim (ses (th_run th))).
  by rewrite Hn.
Qed.

(** The file of a session that waits is absent. *)
Definition tidy_th w th : Prop :=
  serving th ∧ ∀ fn, awaiting th = Some fn →
    fn = aim (ses (th_run th)) ∧ request_type (opt_ (ses (th_run th))) = SrvReq.write ∧
    returned th = false ∧ fs_stat w (c_str fn) = NotFound ∧
    ∀ m, file_man_ (ses (th_run th)) = Some m → out_open (m_file_out m) = false.

Definition tidy y : Prop := Forall (tidy_th (sys_world y)) (sessions_ (srv y)).

(** No other upload has the file of a session that waits. *)
Definition no_clash y : Prop :=
  ∀ i j ti tj fn, i ≠ j → sessions_ (srv y) !! i = Some ti → sessions_ (srv y) !! j = Some tj →
    awaiting ti = Some fn → leaves tj (c_str fn).

Lemma tidy_new w th : file_man_ (ses (th_run th)) = None → tidy_th w th.
Proof.
  intros Hn. split; [unfold serving; by rewrite Hn|]. by rewrite awaiting_new.
Qed.

Lemma tidy_world w w' th :
  tidy_th w th →
  (∀ fn, awaiting th = Some fn → fs_stat w' (c_str fn) = fs_stat w (c_str fn)) → tidy_th w' th.
Proof.
  intros [Hs Ha] Hw. split; [done|]. intros fn Hfn. rewrite (Hw fn Hfn). by apply Ha.
Qed.

Lemma tidy_insert y i th th' w' :
  tidy y → no_clash y → sessions_ (srv y) !! i = Some th → tidy_th w' th' →
  (∀ q, leaves th q → fs_stat w' q = fs_stat (sys_world y) q) →
  tidy (with_threads y (<[i := th']> (sessions_ (srv y))) w').
Proof.
  intros Hy Hc Hi Hth' Hf. apply Forall_lookup. intros j tj Hj. cbn in Hj |- *.
  destruct (decide (j = i)) as [->|Hji].
  - rewrite list_lookup_insert_eq in Hj by (by eapply lookup_lt_Some). by simplify_eq.
  - rewrite list_lookup_insert_ne in Hj by done. eapply tidy_world.
    + by eapply Forall_lookup_1 in Hy.
    + intros fn Hfn. by apply Hf, (Hc j i tj).
Qed.

Lemma tidy_main y rx y' : main_step y rx = Ok y' → tidy y → no_clash y → tidy y'.
Proof.
  intros E Ht Hc. apply main_step_inv in E as (k & l & w' & b & -> & Er & Hk).
  assert (Hkt : ∀ w, Forall (tidy_th w) k).
  { intros w. eapply Forall_impl; [|exact Hk]. intros th [Hn _]. by apply tidy_new. }
  apply reap_joins in Er as [(-> & -> & _)|(l1 & f & l2 & Ea & -> & Hj & Hf & _)].
  { by apply Forall_app. }
  destruct (finished_in_front (sessions_ (srv y)) k) with (l1 := l1) (th := f) (l2 := l2)
    as (l3 & E3 & ->); [by apply new_running|done|done|].
  assert (Hf1 : sessions_ (srv y) !! length l1 = Some f) by (rewrite E3; by apply list_lookup_middle).
  unfold tidy in *. rewrite E3 in Ht. apply Forall_app in Ht as [Ht1 Ht3].
  apply Forall_cons_iff in Ht3 as [[Htf _] Ht3]. cbn.
  assert (Hstep : ∀ i th, i ≠ length l1 → sessions_ (srv y) !! i = Some th →
    tidy_th (sys_world y) th → tidy_th w' th).
  { intros i th Hi Hth Htt. eapply tidy_world; [exact Htt|]. intros fn Hfn.
    by eapply join_framed, (Hc i (length l1) th f). }
  rewrite !Forall_app. split; [|split; [|apply Hkt]]; apply Forall_lookup; intros i th Hi.
  - apply (Hstep i); [apply lookup_lt_Some in Hi; lia| |by eapply Forall_lookup_1 in Ht1].
    rewrite E3. by apply lookup_app_l_Some.
  - apply (Hstep (length l1 + S i)%nat); [lia| |by eapply Forall_lookup_1 in Ht3].
    rewrite E3, lookup_app_r by lia. by replace (length l1 + S i - length l1)%nat with (S i) by lia.
Qed.

Lemma with_threads_same y : with_threads y (sessions_ (srv y)) (sys_world y) = y.
Proof. by destruct y as [[] ? ?]. Qed.

(** One small step is, marks erased, a step of [Srv] or none. *)
Lemma fine_simulation y y' :
  tidy y → no_clash y → fine_step getpwnam getgrnam y y' →
  tidy y' ∧ (erase y' = erase y ∨ sys_step (erase y) (erase y')).
Proof.
  intros Ht Hc Hst. destruct Hst as [rx y' Hsp E| |i th ts th' w' Hi Hm];
    [..|destruct Hm as [t th' w' Ha E|Ha Hr Hn Hrq Hex|fn t th' w' Ha Hso Hbo E]].
  - split; [by eapply tidy_main|]. right. by eapply sys_main; [|apply main_step_erase].
  - split; [exact Ht|]. right. apply (sys_stop (erase y)).
  - assert (Ha' : awaiting th' = None) by (eapply thread_step_runs; eauto).
    assert (Hth : tidy_th (sys_world y) th) by (by eapply Forall_lookup_1 in Ht).
    destruct (thread_step_framed th _ t th' w' (proj1 Hth) E) as [Hs' Hf].
    split; [eapply tidy_insert; try done; split; [done|by rewrite Ha']|]. right.
    rewrite erase_insert, (erase_unmarked th') by done. apply erase_lookup in Hi.
    rewrite (erase_unmarked th) in Hi by done. by eapply (sys_thread (erase y)).
  - assert (Hab : fs_stat (sys_world y) (c_str (aim (ses (th_run th)))) = NotFound).
    { unfold exists_ in Hex. by destruct (fs_stat _ _). }
    split; [eapply tidy_insert; try done|left].
    + split; [unfold serving; cbn; by rewrite Hrq|]. rewrite awaiting_mark by done.
      intros ? [= <-]. split_and!; try done. by intros m [= <-].
    + rewrite erase_insert, erase_mark by done. apply erase_lookup in Hi.
      rewrite (erase_unmarked th) in Hi by done. rewrite list_insert_id by done.
      apply (with_threads_same (erase y)).
  - assert (Hth : tidy_th (sys_world y) th) by (by eapply Forall_lookup_1 in Ht).
    destruct Hth as [Hs Hw]. destruct (Hw fn Ha) as (-> & Hrq & Hr & Hab & _).
    assert (Ha' : awaiting th' = None) by (apply (thread_step_runs _ _ _ _ _ _ E); by left).
    rewrite late_step in E by done. destruct (erase_fields th) as (Ho & Hse & _ & _).
    assert (Hs0 : serving (erase_th th)).
    { unfold erase_th. by case_bool_decide. }
    destruct (thread_step_framed _ _ t th' w' Hs0 E) as [Hs' Hf].
    unfold leaves, aim in Hf. rewrite Ho, Hse in Hf.
    split; [eapply tidy_insert; try done; split; [done|by rewrite Ha']|]. right.
    rewrite erase_insert, (erase_unmarked th') by done. apply erase_lookup in Hi.
    by eapply (sys_thread (erase y)).
Qed.

Lemma erase_fresh y :
  Forall (λ th, file_man_ (ses (th_run th)) = None) (sessions_ (srv y)) → erase y = y.
Proof.
  intros Hl. rewrite <-(with_threads_same y) at 2. unfold erase. f_equal.
  induction Hl as [|th l Hth _ IH]; [done|]. cbn [fmap list_fmap]. f_equal; [by apply erase_new|exact IH].
Qed.

Lemma fine_simulation_star y y' :
  rtc (λ a b, no_clash a ∧ fine_step getpwnam getgrnam a b) y y' → tidy y →
  tidy y' ∧ rtc sys_step (erase y) (erase y').
Proof.
  induction 1 as [|a b c [Hc Hst] _ IH]; intros Ht; [done|].
  destruct (fine_simulation a b Ht Hc Hst) as [Ht' [He|Hs]]; [rewrite <-He; auto|].
  destruct (IH Ht'). split; [done|]. by eapply rtc_l.
Qed.

(** ** Uploads in the small steps *)
Context `{!FsLaws W}.

(** An open upload is not one that waits. *)
Lemma erase_open y i th m :
  tidy y → sessions_ (srv y) !! i = Some th → file_man_ (ses (th_run th)) = Some m →
  out_open (m_file_out m) = true → sessions_ (srv (erase y)) !! i = Some th.
Proof.
  intros Ht Hi Hm Ho. rewrite <-(erase_unmarked th); [by apply erase_lookup|].
  destruct (awaiting th) as [fn|] eqn:Ha; [|done].
  pose proof (Forall_lookup_1 _ _ _ _ Ht Hi) as [_ Hth].
  destruct (Hth fn Ha) as (_ & _ & _ & _ & Hno). by rewrite (Hno m Hm) in Ho.
Qed.

Lemma fine_exclusive y y' :
  Forall (λ th, file_man_ (ses (th_run th)) = None) (sessions_ (srv y)) →
  rtc (λ a b, no_clash a ∧ fine_step getpwnam getgrnam a b) y y' →
  tidy y' ∧ exclusive (sessions_ (srv (erase y'))) (sys_world y').
Proof.
  intros Hl Hs. assert (Ht : tidy y).
  { eapply Forall_impl; [|exact Hl]. intros th. apply tidy_new. }
  destruct (fine_simulation_star y y' Hs Ht) as [Ht' Hst]. split; [done|].
  rewrite erase_fresh in Hst by done.
  apply (exclusive_steps getpwnam getgrnam _ _ Hst). split.
  - eapply Forall_impl; [|exact Hl]. intros th Hn. by rewrite Hn.
  - intros i j ti tj _ _ Hj m Hm. eapply Forall_lookup_1 in Hl; [|exact Hj].
    cbn in Hl. by rewrite Hm in Hl.
Qed.

(** ** The second part of [init] *)

Lemma late_opens th fn w t w1 :
  awaiting th = Some fn → returned th = false → was_error (ses (th_run th)) = false →
  0 ≤ sock t → bound t = true → fs_create w (c_str fn) = Some w1 →
  ∃ th', @thread_step _ _ (late_mgr getpwnam getgrnam fn) th w t = Ok (th', w1) ∧
    stat_ (ses (th_run th')) = State.ack_options ∧ was_error (ses (th_run th')) = false.
Proof.
  intros Ha Hr He Hso Hbo Hcr. apply awaiting_init in Ha as Hst. unfold thread_step.
  rewrite Hr. unfold is_finished. rewrite Hst, bool_decide_false by done. unfold step.
  cbn [ses with_world]. rewrite Hst. unfold step_need_init, Session.init. cbn.
  rewrite (proj2 (Z.leb_le 0 _)), Hbo by done. cbn. unfold open_new, out_open_file.
  rewrite Hcr. cbn. unfold was_error in He |- *. cbn. rewrite He. eexists. split; [done|].
  cbn. unfold goto, switch_to. cbn. by rewrite Hst.
Qed.

(** A relation that holds at every element of a fold. *)
Lemma foldl_rtc {A B : Type} (R : relation A) (f : A → B → A) a l :
  (∀ n b, l !! n = Some b → R (foldl f a (take n l)) (f (foldl f a (take n l)) b)) →
  rtc R a (foldl f a l).
Proof.
  induction l as [|b l IH] using rev_ind; intros Hl; [done|]. rewrite foldl_snoc.
  eapply rtc_r; [apply IH|].
  - intros n c Hn. specialize (Hl n c). rewrite take_app_le in Hl
      by (apply lookup_lt_Some in Hn; lia). by apply Hl, lookup_app_l_Some.
  - specialize (Hl (length l) b). rewrite take_app_length in Hl. apply Hl.
    by apply list_lookup_middle.
Qed.

End races.

(** ** Properties *)

(** C35. The steps of the server may be taken as atomic: while no upload has the file of
    another one that is between the check and the opening of its file, an execution
    in which threads are interrupted there is, once the sessions that wait are
    forgotten, an execution of the server whose iterations are not interrupted. *)
Theorem fine_refines {W} `{FileSystem W, !FsFrame W} getpwnam getgrnam
    (y y' : sys W DataMgrFile) :
  Forall (λ th, file_man_ (ses (th_run th)) = None) (sessions_ (srv y)) →
  rtc (λ a b, no_clash a ∧ fine_step getpwnam getgrnam a b) y y' →
  rtc (@sys_step _ _ (DataMgrFile_mgr getpwnam getgrnam)) y (erase y').
Proof.
  intros Hl Hs. rewrite <-(erase_fresh y Hl).
  apply (fine_simulation_star getpwnam getgrnam y y' Hs).
  eapply Forall_impl; [|exact Hl]. intros th. apply tidy_new.
Qed.

(** C10. A file that has a content and that no session writes to or is about to open
    keeps its content, also when threads are interrupted between the check and the
    opening of a file: every file that was there when the server started stays as it is. *)
Theorem files_kept {W} `{FileSystem W, !FsLaws W, !FsFrame W} getpwnam getgrnam
    (y y' : sys W DataMgrFile) p d :
  rtc (fine_step getpwnam getgrnam) y y' → content (sys_world y) p = Some d →
  Forall (off p) (sessions_ (srv y)) → content (sys_world y') p = Some d.
Proof. intros Hs Hc Hl. by apply (fine_steps_stable getpwnam getgrnam p d y y' Hs). Qed.

(** C39. The check does not make uploads exclusive by itself: a session that has made the
    check opens its file whatever was stored there since, and empties it, without an
    error for either client. *)
Theorem open_empties {W} `{FileSystem W, !FsLaws W} getpwnam getgrnam
    (y : sys W DataMgrFile) i th fn t w1 :
  sessions_ (srv y) !! i = Some th → awaiting th = Some fn → returned th = false →
  was_error (ses (th_run th)) = false → 0 ≤ sock t → bound t = true →
  fs_create (sys_world y) (c_str fn) = Some w1 →
  ∃ th', fine_step getpwnam getgrnam y (with_threads y (<[i := th']> (sessions_ (srv y))) w1) ∧
    content w1 (c_str fn) = Some [] ∧ stat_ (ses (th_run th')) = State.ack_options ∧
    was_error (ses (th_run th')) = false.
Proof.
  intros Hi Ha Hr He Hso Hbo Hcr.
  destruct (late_opens getpwnam getgrnam th fn (sys_world y) t w1) as (th' & E & Hst & He'); try done.
  exists th'. split_and!; [|by eapply create_empty|done|done].
  eapply fine_thread; [exact Hi|by eapply move_open].
Qed.

(** *** Two uploads at the same time *)

Abbreviation demo_next := (next (λ _, None) (λ _, None)).

(** Two uploads that have just been accepted; both create their files. *)
Definition demo_write_opt2 : Options :=
  set_option (demo_opt SrvReq.write (str "two.bin")) name_blksize 8.

Definition demo_uploads2 : sys MemFs DataMgrFile := {|
  srv := {| srv_settings := demo_settings;
            sessions_ := map (λ o, {| th_run := run_start (demo_session o) demo_fs;
                                      returned := false |}) [demo_write_opt; demo_write_opt2];
            srv_socket_ := 4; stop_ := false |};
  pkt_buf := replicate (Z.to_nat 0xFFFF) x00;
  sys_world := demo_fs
|}.

(** Of different files: both make the check, then both open their file. *)
Definition demo_both : list event :=
  [EvCheck 0; EvCheck 1; EvOpen 0 (demo_tick RxAgain); EvOpen 1 (demo_tick RxAgain)].

Definition demo_opened : sys MemFs DataMgrFile := foldl demo_next demo_uploads2 demo_both.

(** What [no_clash] is about. *)
Definition clash_view (y : sys MemFs DataMgrFile) : list (option path * path) :=
  (λ th, (awaiting th, aim (ses (th_run th)))) <$> sessions_ (srv y).

Lemma no_clash_view y o0 o1 p0 p1 :
  clash_view y = [(o0, p0); (o1, p1)] →
  from_option (λ fn, same_file (c_str p1) (c_str fn)) false o0 = false →
  from_option (λ fn, same_file (c_str p0) (c_str fn)) false o1 = false → no_clash y.
Proof.
  unfold clash_view. intros Hv H0 H1 i j ti tj fn Hij Hi Hj Ha _.
  destruct (sessions_ (srv y)) as [|t0 [|t1 [|]]]; try done.
  injection Hv as Hv0 <- Hv1 <-.
  destruct i as [|[|i]], j as [|[|j]]; cbn in Hi, Hj; try done;
    injection Hi as <-; injection Hj as <-.
  - rewrite <-Hv0, Ha in H0. exact H0.
  - rewrite <-Hv1, Ha in H1. exact H1.
Qed.

Lemma demo_no_clash : Forall no_clash
  ((λ n, foldl demo_next demo_uploads2 (take n demo_both)) <$> [0; 1; 2; 3]%nat).
Proof.
  repeat constructor; (eapply no_clash_view; [vm_compute; reflexivity|vm_compute; reflexivity..]).
Qed.

Lemma demo_exec n e :
  demo_both !! n = Some e →
  (λ a b, no_clash a ∧ fine_step (λ _, None) (λ _, None) a b)
    (foldl demo_next demo_uploads2 (take n demo_both))
    (demo_next (foldl demo_next demo_uploads2 (take n demo_both)) e).
Proof.
  intros Hn. set (y := foldl demo_next demo_uploads2 (take n demo_both)). assert (Hlt : (n < 4)%nat) by (by apply lookup_lt_Some in Hn). split.
  - apply (Forall_lookup_1 _ _ n _ demo_no_clash). subst y.
    by destruct n as [|[|[|[|]]]]; [..|lia].
  - assert (Hs : is_Some (exec (λ _, None) (λ _, None) y e)).
    { assert (Hb : bool_decide (is_Some (exec (λ _, None) (λ _, None) y e)) = true).
      { subst y. destruct n as [|[|[|[|]]]]; [..|lia]; injection Hn as <-; vm_compute; reflexivity. }
      by apply bool_decide_eq_true in Hb. }
    unfold next. destruct (exec _ _ y e) as [y'|] eqn:E; [|by destruct Hs].
    by eapply exec_step.
Qed.

Lemma fine_refines_witness :
  rtc (@sys_step _ _ demo_mgr) demo_uploads2 (erase demo_opened) ∧
  (λ th, stat_ (ses (th_run th))) <$> sessions_ (srv demo_opened)
  = [State.ack_options; State.ack_options].
Proof.
  split; [|vm_compute; reflexivity].
  apply (fine_refines (λ _, None) (λ _, None) demo_uploads2 demo_opened).
  - repeat constructor.
  - exact (foldl_rtc _ demo_next demo_uploads2 demo_both demo_exec).
Defined.

(** C11. Uploads are exclusive, also when threads are interrupted between the check and
    the opening of a file, provided that no upload names the file of another one that is
    between the two ([no_clash]; [open_empties] shows what happens otherwise): in every
    state a server reaches, the file of every open upload exists, and no other session
    has it open for writing, under whatever name. *)
Theorem uploads_exclusive {W} `{FileSystem W, !FsLaws W, !FsFrame W} getpwnam getgrnam
    (y y' : sys W DataMgrFile) i ti mi :
  Forall (λ th, file_man_ (ses (th_run th)) = None) (sessions_ (srv y)) →
  rtc (λ a b, no_clash a ∧ fine_step getpwnam getgrnam a b) y y' →
  sessions_ (srv y') !! i = Some ti → file_man_ (ses (th_run ti)) = Some mi →
  out_open (m_file_out mi) = true →
  content (sys_world y') (out_path (m_file_out mi)) ≠ None ∧
  ∀ j tj mj, i ≠ j → sessions_ (srv y') !! j = Some tj →
    file_man_ (ses (th_run tj)) = Some mj → out_open (m_file_out mj) = true →
    same_file (out_path (m_file_out mi)) (out_path (m_file_out mj)) = false.
Proof.
  intros Hl Hs Hi Hmi Hoi.
  destruct (fine_exclusive getpwnam getgrnam y y' Hl Hs) as [Ht Hex].
  pose proof (erase_open _ _ _ _ Ht Hi Hmi Hoi) as Hi'. split.
  - pose proof (Forall_lookup_1 _ _ _ _ (ex_files _ _ Hex) Hi') as Hf. cbn in Hf.
    rewrite Hmi in Hf. by apply Hf.
  - intros j tj mj Hij Hj Hmj Hoj. pose proof (erase_open _ _ _ _ Ht Hj Hmj Hoj) as Hj'.
    pose proof (ex_apart _ _ Hex i j ti tj Hij Hi' Hj' mj Hmj Hoj) as Ha. cbn in Ha.
    rewrite Hmi in Ha. by apply Ha.
Qed.

Lemma demo_opened_steps :
  rtc (λ a b, no_clash a ∧ fine_step (λ _, None) (λ _, None) a b) demo_uploads2 demo_opened.
Proof. exact (foldl_rtc _ demo_next demo_uploads2 demo_both demo_exec). Qed.

Lemma uploads_exclusive_witness :
  ∃ m1 m2, map (λ th, file_man_ (ses (th_run th))) (sessions_ (srv demo_opened))
           = [Some m1; Some m2] ∧
    content (sys_world demo_opened) (out_path (m_file_out m1)) ≠ None ∧
    same_file (out_path (m_file_out m1)) (out_path (m_file_out m2)) = false.
Proof.
  assert (Hm : map (λ th, file_man_ (ses (th_run th))) (sessions_ (srv demo_opened))
               = [Some (demo_reader demo_write_opt); Some (demo_reader demo_write_opt2)])
    by (vm_compute; reflexivity).
  exists (demo_reader demo_write_opt), (demo_reader demo_write_opt2). split; [exact Hm|].
  destruct (sessions_ (srv demo_opened)) as [|t1 [|t2 [|]]] eqn:El; try discriminate Hm.
  injection Hm as Hm1 Hm2.
  destruct (uploads_exclusive (λ _, None) (λ _, None) demo_uploads2 demo_opened 0 t1
    (demo_reader demo_write_opt)) as [Hc Hj];
    [repeat constructor|exact demo_opened_steps|by rewrite El|exact Hm1|vm_compute; reflexivity|].
  split; [exact Hc|].
  apply (Hj 1%nat t2); [discriminate|by rewrite El|exact Hm2|vm_compute; reflexivity].
Defined.

(** Of one file, by two clients: after both checks the first uploads its file, gets
    all of it acknowledged and returns; then the second opens it. *)
Definition demo_client2 : Addr := set_port_u16 (set_family Addr_new AF_INET) 3001.

Definition demo_same : request :=
  {| rq_type := SrvReq.write; rq_filename := str "new.bin"; rq_mode := str "octet";
     rq_opts := [(str "blksize", str "8")] |}.

Definition demo_race : list event :=
  [EvMain (RxPkt (encode_request demo_same) demo_client);
   EvMain (RxPkt (encode_request demo_same) demo_client2); EvCheck 0; EvCheck 1;
   EvOpen 0 (demo_tick RxAgain); EvThread 0 (demo_tick RxAgain);
   EvThread 0 (demo_tick (RxPkt (data_packet 1 (str "image")) demo_client));
   EvThread 0 (demo_tick RxAgain); EvThread 0 (demo_tick RxAgain)].

Definition demo_raced : sys MemFs DataMgrFile := foldl demo_next demo_sys demo_race.

Lemma demo_raced_steps : rtc (fine_step (λ _, None) (λ _, None)) demo_sys demo_raced.
Proof. apply next_steps. Qed.

Lemma files_kept_witness :
  content (sys_world demo_raced) (str "/srv/fw.bin") = Some demo_file.
Proof.
  apply (files_kept (λ _, None) (λ _, None) demo_sys demo_raced).
  - exact demo_raced_steps.
  - vm_compute. reflexivity.
  - constructor.
Defined.

Lemma open_empties_witness :
  content (sys_world demo_raced) (str "/srv/new.bin") = Some (str "image") ∧
  (λ th, (returned th, was_error (ses (th_run th)), sent (th_run th) !! 1%nat))
    <$> (sessions_ (srv demo_raced) !! 0%nat) = Some (true, false, Some (ack_packet 1)) ∧
  ∃ y', rtc (fine_step (λ _, None) (λ _, None)) demo_sys y' ∧
    content (sys_world y') (str "/srv/new.bin") = Some [].
Proof.
  split; [vm_compute; reflexivity|]. split; [vm_compute; reflexivity|].
  assert (Hv : (λ th, (awaiting th, returned th, was_error (ses (th_run th))))
    <$> (sessions_ (srv demo_raced) !! 1%nat)
    = Some (Some (str "/srv/new.bin"), false, false)) by (vm_compute; reflexivity).
  destruct (sessions_ (srv demo_raced) !! 1%nat) as [th|] eqn:Hi; [|discriminate Hv].
  injection Hv as Ha Hr He.
  assert (Hc : is_Some (fs_create (sys_world demo_raced) (c_str (str "/srv/new.bin"))))
    by (eexists; vm_compute; reflexivity).
  destruct Hc as [w1 Hc].
  destruct (open_empties (λ _, None) (λ _, None) demo_raced 1 th (str "/srv/new.bin")
    (demo_tick RxAgain) w1 Hi Ha Hr He ltac:(discriminate) eq_refl Hc) as (th' & Hst & He' & _).
  exists (with_threads demo_raced (<[1%nat := th']> (sessions_ (srv demo_raced))) w1).
  split; [|exact He']. exact (rtc_r demo_sys demo_raced _ demo_raced_steps Hst).
Defined.
