(* ===== verification/Descriptors.v ===== *)
(** * Descriptors: the sockets of a running server

    Every session opens a socket in [Session::init] and closes it after its loop; the
    server has one of its own. [thread_calls] and [main_calls] are the calls of
    [socket] and [close] of one step of [Srv], in their order, and [run_calls] is what
    they do to the table of open descriptors, which the kernel keeps: [socket] never
    returns a descriptor that is open. A session whose [init] failed closes its
    descriptor, too, before it dereferences its missing data manager ([fd_crash]).

    The properties: while every socket can be bound, every open descriptor belongs to
    the server or to exactly one running session ([descriptors_accounted]); a session
    whose socket could not be bound closes the descriptor a second time, which may be
    the socket of another session by then ([bind_failure_closes_twice]). *)

From Stdlib Require Import Strings.Byte.
From stdpp Require Import relations.
From S2P Require Import Prelude Common SmBuf Options Regex Addr Settings Base.
From S2P Require Import FileSys DataMgr DataMgrFile SmBufEx Session SessionPackets SessionSafety.
From S2P Require Import SessionRead SessionWrite Srv SrvSteps SrvFiles.

Create Rewrite HintDb socket.

(** ** Calls *)

Inductive sock_call := CallSocket (ret : Z) | CallClose (fd : Z).

(** The table after a call; [None] is an answer the kernel never gives. *)
Definition run_call (fds : gset Z) (c : sock_call) : option (gset Z) :=
  match c with
  | CallSocket ret =>
      if ret <? 0 then Some fds
      else if decide (ret ∈ fds) then None else Some ({[ret]} ∪ fds)
  | CallClose fd => Some (fds ∖ {[fd]})
  end.

Fixpoint run_calls (fds : gset Z) (cs : list sock_call) : option (gset Z) :=
  match cs with
  | [] => Some fds
  | c :: cs => fds ← run_call fds c; run_calls fds cs
  end.

Section calls.
Context {W M : Type} `{DataMgr W M}.
Implicit Types (th : thread W M) (y : sys W M).

(** [Session::init]: the socket is closed again when it cannot be bound. *)
Definition init_calls (t : tick) : list sock_call :=
  CallSocket (sock t) ::
  (if 0 <=? sock t then if bound t then [] else [CallClose (sock t)] else []).

(** [socket_close()] after the loop of [run]. *)
Definition end_calls (s : Session M) : list sock_call := [CallClose (socket_ s)].

Definition thread_calls th (t : tick) : list sock_call :=
  let s := ses (th_run th) in
  if returned th then []
  else if is_finished s then end_calls s
  else if bool_decide (stat_ s = State.need_init) then init_calls t
  else [].

(** The thread of the first finished session is joined; a session that was just
    accepted is not finished. *)
Fixpoint reap_calls (l : list (thread W M)) : list sock_call :=
  match l with
  | [] => []
  | th :: l =>
      if is_finished (ses (th_run th)) then
        if returned th then [] else end_calls (ses (th_run th))
      else reap_calls l
  end.

Definition main_calls y : list sock_call := reap_calls (sessions_ (srv y)).

(** The steps of the system with the table; [ok] restricts the answers of the operating
    system. *)
Inductive fd_step (ok : tick → Prop) : sys W M * gset Z → sys W M * gset Z → Prop :=
  | fd_main y fds rx y' fds' :
      stop_ (srv y) = false → main_step y rx = Ok y' →
      run_calls fds (main_calls y) = Some fds' → fd_step ok (y, fds) (y', fds')
  | fd_stop y fds :
      fd_step ok (y, fds) ({| srv := stop (srv y); pkt_buf := pkt_buf y;
                              sys_world := sys_world y |}, fds)
  | fd_thread y fds i th t th' w' fds' :
      ok t → sessions_ (srv y) !! i = Some th →
      thread_step th (sys_world y) t = Ok (th', w') →
      run_calls fds (thread_calls th t) = Some fds' →
      fd_step ok (y, fds)
        ({| srv := with_sessions (srv y) (<[i := th']> (sessions_ (srv y)));
            pkt_buf := pkt_buf y; sys_world := w' |}, fds')
  | fd_crash y fds i th fds' :
      sessions_ (srv y) !! i = Some th → returned th = false →
      stat_ (ses (th_run th)) = State.finish → file_man_ (ses (th_run th)) = None →
      run_calls fds (end_calls (ses (th_run th))) = Some fds' →
      fd_step ok (y, fds) (y, fds').

(** A socket that was opened can be bound. *)
Definition binds (t : tick) : Prop := 0 ≤ sock t → bound t = true.

(** ** The socket of a session *)

Implicit Types s : Session M.

Lemma socket_report s errs : socket_ (report s errs) = socket_ s.
Proof.
  unfold report. revert s. induction errs as [|e errs IH]; intros s; [done|].
  cbn [foldl]. rewrite IH. unfold set_error_if_first. by destruct (negb _).
Qed.

Lemma socket_error s c e : socket_ (set_error_if_first s c e) = socket_ s.
Proof. unfold set_error_if_first. by destruct (negb _). Qed.

Lemma socket_goto s v : socket_ (goto s v) = socket_ s.
Proof. unfold goto, switch_to. by destruct (_ || _). Qed.

Lemma socket_sync s n : socket_ (sync_stage s n) = socket_ s.
Proof. unfold sync_stage. by destruct (negb _). Qed.

#[local] Hint Rewrite socket_report socket_error socket_goto socket_sync : socket.

Ltac socket_tac := simplify_eq/=; autorewrite with socket; try done.

Lemma receive_socket s w b t s' w' b' res :
  receive_no_wait s w b t = Ok (s', w', b', res) → socket_ s' = socket_ s.
Proof.
  unfold receive_no_wait. destruct (rx t) as [| |d from]; [by intros; simplify_eq..|].
  intros E. apply bind_Ok in E as (b1 & _ & E). apply bind_Ok in E as (op & _ & E).
  apply bind_Ok in E as (blk & _ & E). apply bind_Ok in E as (msg & _ & E).
  destruct (negb _); [by simplify_eq|]. destruct (_ && _).
  - unfold receive_data in E. destruct (negb _); [by socket_tac|].
    destruct (file_man_ _) as [m|]; [|done].
    apply bind_Ok in E as ([[[m1 w1] n] errs] & _ & E).
    destruct (_ <? _); simplify_eq; autorewrite with socket; cbn; by autorewrite with socket.
  - destruct (_ && _); [|by simplify_eq]. unfold receive_ack in E.
    destruct (negb _); by socket_tac.
Qed.

Lemma step_socket (r : run_st W M) t r' :
  stat_ (ses r) ≠ State.need_init → step r t = Ok r' → socket_ (ses r') = socket_ (ses r).
Proof.
  intros Hn. unfold step. destruct (stat_ (ses r)); [done|..]; intros E.
  - unfold step_error_and_stop in E. apply bind_Ok in E as ([[s b] out] & E1 & E).
    socket_tac. destruct (was_error _); [|by simplify_eq].
    apply bind_Ok in E1 as ([s1 b1] & E1 & E). simplify_eq. unfold construct_error in E1.
    apply bind_Ok in E1 as (b2 & _ & E1). simplify_eq. by destruct (negb _).
  - unfold step_ack_options in E. apply bind_Ok in E as ([b out] & _ & E). simplify_eq/=.
    destruct (request_type _); [|destruct (was_set_any _)..]; cbn; by autorewrite with socket.
  - unfold step_data_tx in E. apply bind_Ok in E as ([s b] & E1 & E).
    assert (Hs : socket_ s = socket_ (ses r)).
    { unfold construct_data in E1. apply bind_Ok in E1 as (b1 & _ & E1).
      destruct (file_man_ _) as [m|]; [|done]. destruct (_ <? _); [done|].
      apply bind_Ok in E1 as ([[[m1 rng] ret] errs] & _ & E1). destruct (0 <=? ret).
      - apply bind_Ok in E1 as (b2 & _ & E1). by socket_tac.
      - by socket_tac. }
    destruct (_ && _); [destruct (_ || _)|]; by socket_tac.
  - unfold step_data_rx in E. apply bind_Ok in E as ([[[s w] b] res] & E1 & E).
    apply receive_socket in E1. destruct res.
    + apply bind_Ok in E as (pass & _ & E). simplify_eq/=. destruct pass; by socket_tac.
    + destruct (is_window_close _ _); by socket_tac.
    + by socket_tac.
  - unfold step_ack_tx in E. apply bind_Ok in E as (b & _ & E).
    destruct (last_blk_processed_ _); by socket_tac.
  - unfold step_ack_rx in E. apply bind_Ok in E as ([[[s w] b] res] & E1 & E).
    apply receive_socket in E1. destruct res.
    + apply bind_Ok in E as (pass & _ & E). simplify_eq/=. destruct pass; by socket_tac.
    + destruct (last_blk_processed_ _); by socket_tac.
    + by socket_tac.
  - unfold step_retransmit in E. destruct (_ <? _); [by socket_tac|].
    simplify_eq/=. destruct (request_type _); by autorewrite with socket.
  - by simplify_eq.
Qed.

Lemma manager_keeper : keeper (λ (o : option M) (_ : W), o ≠ None).
Proof. by split. Qed.

(** ** Who owns which descriptor *)

(** A session has a socket from a successful [init] until [run] returns. *)
Definition own th : list Z :=
  if returned th then []
  else match file_man_ (ses (th_run th)) with
       | Some _ => [socket_ (ses (th_run th))]
       | None => []
       end.

Definition owned y : list Z := srv_socket_ (srv y) :: concat (map own (sessions_ (srv y))).

(** The manager is there after [init], unless [init] failed and the session is over. *)
Definition phase_ok th : Prop :=
  let s := ses (th_run th) in
  (file_man_ s = None → stat_ s = State.need_init ∨ stat_ s = State.finish) ∧
  (stat_ s = State.need_init → file_man_ s = None) ∧
  (returned th = true → stat_ s = State.finish) ∧
  (file_man_ s = None → stat_ s = State.finish → socket_ s < 0) ∧
  (file_man_ s ≠ None → 0 ≤ socket_ s).

Definition accounted (p : sys W M * gset Z) : Prop :=
  0 ≤ srv_socket_ (srv p.1) ∧ NoDup (owned p.1) ∧ p.2 = list_to_set (owned p.1) ∧
  Forall phase_ok (sessions_ (srv p.1)).

(** A change of the table, and of the descriptors a thread owns. *)
Inductive own_change (fds : gset Z) : list Z → gset Z → list Z → Prop :=
  | own_same l : own_change fds l fds l
  | own_closed n : own_change fds [n] (fds ∖ {[n]}) []
  | own_opened n : n ∉ fds → own_change fds [] ({[n]} ∪ fds) [n].

(** The iteration that calls [Session::init]. *)
Lemma init_own th w t r fds fds' :
  binds t → phase_ok th → returned th = false → stat_ (ses (th_run th)) = State.need_init →
  step (with_world (th_run th) w) t = Ok r → run_calls fds (init_calls t) = Some fds' →
  let th' := {| th_run := r; returned := false |} in
  phase_ok th' ∧ own_change fds (own th) fds' (own th').
Proof.
  intros Hbinds (_ & H2 & _) Hr Hn E Ec th'. specialize (H2 Hn).
  assert (Hown : own th = []) by (unfold own; by rewrite Hr, H2). rewrite Hown.
  unfold step in E. cbn [ses with_world] in E. rewrite Hn in E. unfold step_need_init in E.
  apply bind_Ok in E as ([[s w1] ok] & Ei & E). simplify_eq. unfold init in Ei.
  cbn [socket_ with_socket ses with_world] in Ei. unfold init_calls in Ec.
  cbn [run_calls run_call mbind option_bind] in Ec. unfold phase_ok, own, th'. cbn [th_run ses returned].
  destruct (0 <=? sock t) eqn:Hs; reflect_bools; cbn [andb] in Ei.
  2: { rewrite (proj2 (Z.ltb_lt _ _)) in Ec by lia. simplify_eq/=.
       rewrite man_goto, stat_goto. cbn. rewrite H2, Hn. split; [|constructor].
       rewrite socket_goto. cbn. split_and!; auto; congruence. }
  rewrite (proj2 (Z.ltb_ge _ _)) in Ec by lia. destruct (decide _) as [|Hfresh]; [done|].
  cbn [mbind option_bind] in Ec. rewrite (Hbinds Hs) in Ei, Ec. simplify_eq/=.
  apply bind_Ok in Ei as ([[[m w2] ok1] errs] & _ & E). simplify_eq.
  match goal with |- context [file_man_ (if was_error ?s then _ else _)] => set (s1 := s) end.
  assert (Hs1 : file_man_ s1 = Some m ∧ socket_ s1 = sock t ∧ stat_ s1 = State.need_init).
  { unfold s1. destruct ok1; cbn [negb]; rewrite ?man_error, ?socket_error, ?stat_error,
      man_report, socket_report, stat_report; cbn; auto. }
  destruct Hs1 as (Hm & Hk & Hst).
  destruct (was_error s1); rewrite man_goto, socket_goto, stat_goto, Hm, Hk, Hst; cbn;
    (split; [by split_and!|by constructor]).
Qed.

(** What a step of a thread does to its own descriptor and to the table. *)
Lemma thread_step_own th w t th' w' fds fds' :
  binds t → phase_ok th → thread_step th w t = Ok (th', w') →
  run_calls fds (thread_calls th t) = Some fds' →
  phase_ok th' ∧ own_change fds (own th) fds' (own th').
Proof.
  intros Hbinds Hph E Ec. unfold thread_step, thread_calls, is_finished in *.
  destruct (returned th) eqn:Hr; [simplify_eq/=; split; [done|constructor]|].
  case_bool_decide as Hf; apply bind_Ok in E as (r & E & E1); simplify_eq.
  - unfold run_end in E. cbn [ses with_world] in E.
    destruct (file_man_ (ses (th_run th))) as [m|] eqn:Hm; [|done].
    apply bind_Ok in E as ([m' w'] & _ & E). cbn in Ec. simplify_eq.
    split; [destruct Hph as (_ & _ & _ & _ & H5); split_and!; cbn; try done; [congruence|];
      intros _; apply H5; congruence|]. unfold own. rewrite Hr, Hm. constructor.
  - case_bool_decide as Hn.
    + by eapply init_own.
    + simplify_eq/=. destruct Hph as (H1 & H2 & H3 & H4 & H5).
      assert (Hm : file_man_ (ses (th_run th)) ≠ None) by (intros [?|?]%H1; done).
      pose proof E as Hs. apply step_socket in Hs; [|done]. cbn in Hs.
      pose proof E as Hk. apply (step_keeps _ manager_keeper) in Hk; [|by left|done].
      pose proof E as Ht. apply step_trans in Ht; [|done]. cbn in Ht.
      split.
      * split_and!; cbn; [done| |done|done|intros _; rewrite Hs; auto].
        intros Hx. rewrite Hx in Ht. inversion Ht.
      * assert (own {| th_run := r; returned := false |} = own th) as ->; [|constructor].
        unfold own. cbn. rewrite Hr, Hs.
        by destruct (file_man_ (ses r)), (file_man_ (ses (th_run th))).
Qed.

(** ** The system *)

Lemma own_app (l k : list (thread W M)) :
  concat (map own (l ++ k)) = concat (map own l) ++ concat (map own k).
Proof. by rewrite map_app, concat_app. Qed.

(** A change of one owner among others keeps the account. *)
Lemma own_change_table fds a o b fds' o' :
  own_change fds o fds' o' → NoDup (a ++ o ++ b) → fds = list_to_set (a ++ o ++ b) →
  NoDup (a ++ o' ++ b) ∧ fds' = list_to_set (a ++ o' ++ b).
Proof.
  intros Hc Hd Hf. destruct Hc as [l|n|n Hn]; [done|..]; subst fds; cbn [app] in *.
  - apply list.NoDup_app in Hd as (Ha & Hab & Hb). apply list.NoDup_cons in Hb as [Hn Hb].
    split; [|set_solver]. apply list.NoDup_app. split_and!; set_solver.
  - rewrite elem_of_list_to_set in Hn. split; [|set_solver].
    apply list.NoDup_app in Hd as (Ha & Hab & Hb). rewrite elem_of_app in Hn.
    apply list.NoDup_app. split_and!; [done| |apply list.NoDup_cons; tauto].
    intros x Hx. rewrite elem_of_cons. intros [->|Hxb]; [tauto|]. by apply (Hab x).
Qed.

Lemma reap_calls_running (l : list (thread W M)) :
  Forall (λ th, stat_ (ses (th_run th)) ≠ State.finish) l → reap_calls l = [].
Proof.
  induction 1 as [|th l Hth _ IH]; cbn [reap_calls]; [done|]. unfold is_finished.
  by rewrite bool_decide_false.
Qed.

Lemma reap_calls_first (l1 l2 : list (thread W M)) f :
  Forall (λ th, stat_ (ses (th_run th)) ≠ State.finish) l1 →
  stat_ (ses (th_run f)) = State.finish →
  reap_calls (l1 ++ f :: l2) = if returned f then [] else end_calls (ses (th_run f)).
Proof.
  intros Hl Hf. induction Hl as [|th l Hth _ IH]; cbn [app reap_calls]; unfold is_finished in *.
  - by rewrite bool_decide_true.
  - by rewrite bool_decide_false.
Qed.

(** The end of a thread that is joined. *)
Lemma join_own f w w' fds fds' :
  join f w = Ok w' →
  run_calls fds (if returned f then [] else end_calls (ses (th_run f))) = Some fds' →
  own_change fds (own f) fds' [].
Proof.
  unfold join, own. destruct (returned f); [intros; simplify_eq/=; constructor|]. intros E Ec.
  apply bind_Ok in E as (r & E & _). unfold run_end in E. cbn [ses with_world] in E.
  destruct (file_man_ _) as [m|]; [|done]. cbn in Ec. simplify_eq. constructor.
Qed.

(** All owned descriptors are descriptors. *)
Lemma owned_nonneg y n :
  0 ≤ srv_socket_ (srv y) → Forall phase_ok (sessions_ (srv y)) → n ∈ owned y → 0 ≤ n.
Proof.
  intros Hs Hl [->|Hn]%elem_of_cons; [done|]. induction Hl as [|th l Hth _ IH]; cbn in Hn.
  - by apply not_elem_of_nil in Hn.
  - apply elem_of_app in Hn as [Hn|Hn]; [|auto]. unfold own in Hn.
    destruct (returned th); [by apply not_elem_of_nil in Hn|].
    destruct Hth as (_ & _ & _ & _ & H5). destruct (file_man_ _) as [m|];
      [|by apply not_elem_of_nil in Hn]. apply list_elem_of_singleton in Hn as ->. by apply H5.
Qed.

Lemma fd_step_accounted p p' : fd_step binds p p' → accounted p → accounted p'.
Proof.
  intros Hs (Hsk & Hd & Ht & Hph).
  destruct Hs as [y fds rx y' fds' _ E Ec|y fds|y fds i th t th' w' fds' Hbt Hi E Ec
    |y fds i th fds' Hi Hr Hf Hm Ec]; cbn [fst snd] in *; [|done|..].
  3: { assert (fds' = fds) as ->; [|done]. cbn in Ec. injection Ec as <-.
       pose proof (Forall_lookup_1 _ _ _ _ Hph Hi) as (_ & _ & _ & H4 & _). specialize (H4 Hm Hf).
       apply leibniz_equiv, difference_disjoint, disjoint_singleton_r.
       rewrite Ht, elem_of_list_to_set. intros Hn%owned_nonneg; [lia|done|done]. }
  - apply main_step_inv in E as (k & l & w & b & -> & Er & Hk0).
    assert (Hk : concat (map own k) = [] ∧ Forall phase_ok k).
    { clear -Hk0. induction Hk0 as [|th k (Hm & Hst & Hr) _ [IH1 IH2]]; [done|]. split.
      - cbn [map concat]. unfold own at 1. by rewrite Hr, Hm, IH1.
      - constructor; [|done]. unfold phase_ok. rewrite Hm, Hst, Hr. split_and!; auto; congruence. }
    destruct Hk as [Hok Hpk]. pose proof (new_running _ Hk0) as Hk.
    unfold main_calls in Ec. unfold accounted, owned in *.
    cbn [fst snd srv sessions_ srv_socket_ with_sessions].
    apply reap_joins in Er as [(-> & -> & Hall)|(l1 & f & l2 & Ea & -> & Hj & Hf & Hall)].
    + apply Forall_app in Hall as [Hall _]. rewrite reap_calls_running in Ec by done.
      cbn in Ec. injection Ec as <-. rewrite own_app, Hok, app_nil_r.
      split_and!; [done|done|done|by apply Forall_app].
    + destruct (finished_in_front _ _ Hk _ _ _ Ea Hf) as (l3 & E3 & ->).
      rewrite E3, reap_calls_first in Ec by done. rewrite E3 in Hd, Ht, Hph.
      apply (join_own _ _ _ _ _ Hj) in Ec.
      apply Forall_app in Hph as [Hp1 Hp2]. apply Forall_cons_iff in Hp2 as [_ Hp3].
      rewrite !own_app in *. cbn [map concat] in Hd, Ht. rewrite Hok, app_nil_r.
      rewrite app_comm_cons in Hd, Ht.
      destruct (own_change_table _ _ _ _ _ _ Ec Hd Ht) as [Hd' Ht'].
      split_and!; [done|done|done|]. apply Forall_app. split; [done|]. by apply Forall_app.
  - destruct (thread_step_own th (sys_world y) t th' w' fds fds') as [Hp' Hc]; try done.
    { by eapply Forall_lookup_1. }
    apply take_drop_middle in Hi as Hl. pose proof (lookup_lt_Some _ _ _ Hi) as Hlt.
    unfold accounted, owned in *. cbn [fst snd srv sessions_ srv_socket_ with_sessions].
    rewrite insert_take_drop by done. rewrite <-Hl in Hd, Ht. rewrite own_app in *.
    cbn [map concat] in *. rewrite app_comm_cons in *.
    destruct (own_change_table _ _ _ _ _ _ Hc Hd Ht) as [Hd' Ht'].
    split_and!; [done|done|done|]. rewrite <-insert_take_drop by done. by apply Forall_insert.
Qed.

Lemma accounted_steps p p' : rtc (fd_step binds) p p' → accounted p → accounted p'.
Proof. induction 1 as [|p1 p2 p3 Hs _ IH]; [done|]. intros. by eapply IH, fd_step_accounted. Qed.

Lemma accounted_start y :
  sessions_ (srv y) = [] → 0 ≤ srv_socket_ (srv y) → accounted (y, {[srv_socket_ (srv y)]}).
Proof.
  intros Hl Hs. unfold accounted, owned. cbn [fst snd]. rewrite Hl. cbn.
  split_and!; [done|apply NoDup_singleton|set_solver|constructor].
Qed.
End calls.

(** ** Properties *)

(** C12. No descriptor is shared, closed under its owner or left behind, as long as every
    socket that a session gets can be bound: in every state a server reaches from its
    start, in any interleaving of the iterations of its threads, and whatever else the
    system calls return, the open descriptors are exactly the socket of the server and one
    for each session between its [init] and its end, all distinct; when no session is
    left only the server's socket is open. *)
Theorem descriptors_accounted {W M} `{DataMgr W M} (y y' : sys W M) fds fds' :
  sessions_ (srv y) = [] → 0 ≤ srv_socket_ (srv y) → fds = {[srv_socket_ (srv y)]} →
  rtc (fd_step binds) (y, fds) (y', fds') →
  NoDup (owned y') ∧ fds' = list_to_set (owned y') ∧
  (sessions_ (srv y') = [] → fds' = {[srv_socket_ (srv y')]}).
Proof.
  intros Hl Hsk -> Hs.
  pose proof (accounted_steps _ _ Hs (accounted_start _ Hl Hsk)) as Hacc.
  destruct Hacc as (_ & Hd & Ht & _). cbn in Hd, Ht. split_and!; [done|done|].
  intros Hn. rewrite Ht. unfold owned. rewrite Hn. cbn. set_solver.
Qed.

(** A schedule, executed with its calls. *)
Fixpoint fd_play {W M} `{DataMgr W M} (p : sys W M * gset Z) (es : list event)
    : option (sys W M * gset Z) :=
  match es with
  | [] => Some p
  | EvMain rx :: es =>
      match stop_ (srv p.1), main_step p.1 rx, run_calls p.2 (main_calls p.1) with
      | false, Ok y, Some fds => fd_play (y, fds) es
      | _, _, _ => None
      end
  | EvThread i t :: es =>
      th ← sessions_ (srv p.1) !! i;
      match thread_step th (sys_world p.1) t, run_calls p.2 (thread_calls th t) with
      | Ok (th', w'), Some fds =>
          fd_play ({| srv := with_sessions (srv p.1) (<[i := th']> (sessions_ (srv p.1)));
                      pkt_buf := pkt_buf p.1; sys_world := w' |}, fds) es
      | _, _ => None
      end
  | _ :: _ => None
  end.

Definition event_ok (ok : tick → Prop) (e : event) : Prop :=
  match e with EvThread _ t => ok t | _ => True end.

Lemma fd_play_steps {W M} `{DataMgr W M} ok (p p' : sys W M * gset Z) es :
  Forall (event_ok ok) es → fd_play p es = Some p' → rtc (fd_step ok) p p'.
Proof.
  intros Hes. revert p. induction Hes as [|e es He _ IH]; intros [y fds] E; cbn [fd_play fst snd] in E; [by simplify_eq|].
  destruct e as [rx|i t|i|i t]; [..|done|done].
  - destruct (stop_ _) eqn:Hs; [done|]. destruct (main_step _ _) as [y1| |] eqn:Em; [|done..].
    destruct (run_calls _ _) as [fds1|] eqn:Ec; [|done].
    eapply rtc_l; [by eapply fd_main|by apply IH].
  - destruct (sessions_ _ !! i) as [th|] eqn:Hi; [|done]. cbn [mbind option_bind] in E.
    destruct (thread_step _ _ _) as [[th' w']| |] eqn:Et; [|done..].
    destruct (run_calls _ _) as [fds1|] eqn:Ec; [|done].
    eapply rtc_l; [by eapply fd_thread|by apply IH].
Qed.

(** Two requests are accepted and get their sockets; the second, for a file that does
    not exist, ends and is reaped. *)
Definition sock_tick (n : Z) : tick :=
  {| now := 100; rx := RxAgain; tx := 0; sock := n; bound := true |}.

Definition demo_request (name : bytes) : recv_result :=
  RxPkt (encode_request {| rq_type := SrvReq.read; rq_filename := name;
                           rq_mode := str "octet"; rq_opts := [] |}) demo_client.

Definition demo_fd_events : list event :=
  [EvMain (demo_request (str "fw.bin")); EvMain (demo_request (str "none.bin"));
   EvThread 0 (sock_tick 5); EvThread 1 (sock_tick 6); EvThread 1 (sock_tick 0);
   EvThread 1 (sock_tick 0); EvMain RxAgain].

Lemma descriptors_accounted_witness :
  ∃ y' fds', fd_play (demo_sys, {[4]}) demo_fd_events = Some (y', fds') ∧
    length (sessions_ (srv y')) = 1%nat ∧ NoDup (owned y') ∧ fds' = list_to_set (owned y').
Proof.
  assert (Hok : match fd_play (demo_sys, {[4]}) demo_fd_events with
                | Some p => bool_decide (length (sessions_ (srv p.1)) = 1%nat)
                | None => false
                end = true) by (vm_compute; reflexivity).
  destruct (fd_play _ _) as [[y' fds']|] eqn:E; [|discriminate Hok].
  apply bool_decide_eq_true_1 in Hok.
  assert (Hes : Forall (event_ok binds) demo_fd_events) by (repeat constructor).
  apply (fd_play_steps binds) in E; [|exact Hes].
  destruct (descriptors_accounted demo_sys y' {[4]} fds' eq_refl ltac:(discriminate) eq_refl E)
    as (Hd & Ht & _).
  exists y', fds'. split; [reflexivity|]. split; [exact Hok|]. split; [exact Hd|exact Ht].
Defined.

(** The socket of a session could not be bound, and [Session::init] has closed it. The
    session that starts next gets the same descriptor from the kernel; then the end of
    the first one closes it again. *)
Definition demo_unbound_events : list event :=
  [EvMain (demo_request (str "fw.bin")); EvMain (demo_request (str "fw.bin"));
   EvThread 0 {| now := 100; rx := RxAgain; tx := 0; sock := 5; bound := false |};
   EvThread 1 (sock_tick 5)].

Theorem bind_failure_closes_twice :
  ∃ (y : sys MemFs DataMgrFile) fds, rtc (fd_step (λ _, True)) (demo_sys, {[4]}) (y, fds) ∧
    5 ∈ owned y ∧ 5 ∉ fds.
Proof.
  assert (Hok : match fd_play (demo_sys, {[4]}) demo_unbound_events with
    | Some p => bool_decide (5 ∈ owned p.1) && match sessions_ (srv p.1) with
        | th :: _ => bool_decide (returned th = false ∧ stat_ (ses (th_run th)) = State.finish ∧
                                  socket_ (ses (th_run th)) = 5) &&
                     match file_man_ (ses (th_run th)) with None => true | _ => false end
        | [] => false
        end
    | None => false
    end = true) by (vm_compute; reflexivity).
  destruct (fd_play _ _) as [[y fds]|] eqn:E; [|discriminate Hok].
  assert (Hes : Forall (event_ok (λ _, True)) demo_unbound_events) by (repeat constructor).
  apply (fd_play_steps _ _ _ _ Hes) in E. cbn [fst] in Hok.
  apply andb_true_iff in Hok as [Hown Hok]. apply bool_decide_eq_true_1 in Hown.
  destruct (sessions_ (srv y)) as [|th l] eqn:El; [done|].
  apply andb_true_iff in Hok as [Hth Hm]. apply bool_decide_eq_true_1 in Hth as (Hr & Hf & Hs).
  destruct (file_man_ _) eqn:Hman; [done|].
  exists y, (fds ∖ {[5]}). split_and!; [|done|set_solver].
  eapply rtc_r; [exact E|]. eapply (fd_crash _ _ _ 0 th); [by rewrite El|done|done|done|].
  cbn. by rewrite Hs.
Qed.
