(* ===== verification/Service.v ===== *)
(** * Service: from the request to the delivered file

    The parts put together: a request datagram that arrives at the main loop of
    [tftpSrv.cpp], the session thread it starts, the file manager that finds the
    file, and the transfer, while the main loop and other sessions go on. *)

From Stdlib Require Import Strings.Byte.
From stdpp Require Import relations.
From S2P Require Import Prelude Common SmBuf Options Regex Addr Settings Base.
From S2P Require Import FileSys DataMgr DataMgrFile SmBufEx Session SessionPackets SessionSafety.
From S2P Require Import SessionRead SessionWrite SessionTraffic SessionRepeats Srv SrvSteps SrvFiles SrvUploads.
From S2P Require Import SrvCompletes.

(** The session of the request is the last one after the iteration. *)
Lemma request_thread_last {W M} `{DataMgr W M} (y y1 : sys W M) rq from o :
  size (pkt_buf y) = 0xFFFF → request_ok rq → 9 ≤ size (encode_request rq) ≤ 0xFFFF →
  apply_opts (request_base rq) (rq_opts rq) = Ok o →
  main_step y (RxPkt (encode_request rq) from) = Ok y1 →
  list.last (sessions_ (srv y1)) = Some (request_thread y from o).
Proof.
  intros Hb Hrq Hs Ho E. destruct (main_step_request y rq from o Hb Hrq Hs Ho) as [_ Em].
  rewrite Em in E. apply bind_Ok in E as ([l w] & Er & E). simplify_eq/=.
  apply reap_spec in Er as [(-> & _ & _)|(l1 & th & l2 & El & -> & Hf & _)].
  - by rewrite last_snoc.
  - destruct l2 as [|th' l3 _] using rev_ind.
    + by apply app_inj_2 in El as [_ [= <-]].
    + rewrite app_comm_cons, (app_assoc l1) in El. apply app_inj_2 in El as [_ El]; [|done].
      simplify_eq. by rewrite app_assoc, last_snoc.
Qed.

Section service.
Context {W : Type} `{FileSystem W, !FsLaws W, !FsFrame W}.
Context (getpwnam getgrnam : bytes → option Z).
Local Instance serv_mgr : DataMgr W DataMgrFile := DataMgrFile_mgr getpwnam getgrnam.
Local Instance serv_laws : DataMgrLaws W DataMgrFile := DataMgrFile_laws getpwnam getgrnam.
Implicit Types (y : sys W DataMgrFile) (th : thread W DataMgrFile).

(** While a new session does not run an iteration, others leave it alone; an upload may
    have made the check for its file. *)
Lemma follows_idle y i y' i' th :
  follows getpwnam getgrnam y i [] y' i' → sessions_ (srv y) !! i = Some th →
  sessions_ (srv y') !! i' = Some th ∨
  (request_type (opt_ (ses (th_run th))) = SrvReq.write ∧
   stat_ (ses (th_run th)) = State.need_init ∧ sessions_ (srv y') !! i' = Some (mark th)).
Proof.
  intros Hf. remember [] as ts eqn:Hts. revert th Hts.
  induction Hf as [y i|y i rx y1 i1 ts y' i' Hs E Hi Hf IH|y i ts y' i' Hf IH
    |y i j th0 ts1 th1 w1 ts y' i' Hij Hj E Hf IH|y i th0 ts1 th1 w1 ts y' i' Hj E Hf IH];
    intros th Hts Hth; subst; try (by left).
  - apply IH; [done|]. by eapply main_step_follow.
  - by apply IH.
  - apply IH; [done|]. cbn. by rewrite list_lookup_insert_ne.
  - apply app_eq_nil in Hts as [-> ->]. simplify_eq.
    inversion E as [|Ha Hr Hn Hrq Hex|]; subst.
    destruct (IH (mark th0)) as [?|(_ & _ & ?)]; [done| |right; by split_and!|].
    + cbn. apply list_lookup_insert_eq. by eapply lookup_lt_Some.
    + right. split_and!; done.
Qed.

(** The file manager after a successful [init] of a read request. *)
Lemma init_reader w sett o m d :
  request_type o = SrvReq.read →
  DataMgrFile.init DataMgrFile_new w sett o = Ok (m, w, true, []) →
  content w (in_path (m_file_in m)) = Some d →
  file_reading m w d ∧ reader_of (in_path (m_file_in m)) (Some m).
Proof.
  intros Hr E Hc. unfold DataMgrFile.init in E. rewrite Hr in E.
  apply init_reading_reads in E as (d' & _ & Hd); [|done].
  pose proof Hd as (Hrt & _ & _ & _ & Hc' & _). rewrite Hc in Hc'. simplify_eq.
  split; [done|]. by exists m.
Qed.

(** The first own iteration of the session of the request. *)
Lemma request_thread_init y0 w from o m w' t th1 w1 :
  0 ≤ sock t → bound t = true →
  DataMgrFile.init DataMgrFile_new w (srv_settings (srv y0)) o = Ok (m, w', true, []) →
  thread_step (request_thread y0 from o) w t = Ok (th1, w1) →
  w1 = w' ∧ returned th1 = false ∧ sent (th_run th1) = [] ∧
  world (th_run th1) = w' ∧ stat_ (ses (th_run th1)) = State.ack_options ∧
  was_error (ses (th_run th1)) = false ∧ opt_ (ses (th_run th1)) = o ∧
  cl_addr_ (ses (th_run th1)) = from ∧ file_man_ (ses (th_run th1)) = Some m ∧
  run_buf (local_buf (loc (th_run th1))) ∧ last_blk_processed_ (loc (th_run th1)) = false ∧
  stage_ (ses (th_run th1)) = 0.
Proof.
  intros Hs Hb Hinit E. unfold thread_step in E. cbn [returned request_thread] in E.
  unfold is_finished in E. rewrite bool_decide_false in E by done.
  rewrite (need_init_done _ t m w') in E; try done.
  cbn [mbind outcome_bind] in E. simplify_eq. split_and!; done.
Qed.

(** The same for an upload that has made the check and opens its file. *)
Lemma request_thread_opens y0 w from o w' t th1 w1 :
  0 ≤ sock t → bound t = true →
  fs_create w (c_str (target (srv_settings (srv y0)) o)) = Some w' →
  request_type o = SrvReq.write →
  @thread_step _ _ (late_mgr getpwnam getgrnam (target (srv_settings (srv y0)) o))
    (mark (request_thread y0 from o)) w t = Ok (th1, w1) →
  w1 = w' ∧ returned th1 = false ∧ sent (th_run th1) = [] ∧
  world (th_run th1) = w' ∧ stat_ (ses (th_run th1)) = State.ack_options ∧
  was_error (ses (th_run th1)) = false ∧ opt_ (ses (th_run th1)) = o ∧
  cl_addr_ (ses (th_run th1)) = from ∧
  run_buf (local_buf (loc (th_run th1))) ∧ last_blk_processed_ (loc (th_run th1)) = false ∧
  stage_ (ses (th_run th1)) = 0 ∧
  ∃ m, file_man_ (ses (th_run th1)) = Some m ∧ file_writing m w' [] ∧
    out_path (m_file_out m) = c_str (target (srv_settings (srv y0)) o).
Proof.
  intros Hs Hb Hcr Hrq E. unfold thread_step in E. cbn [returned request_thread mark with_ses] in E.
  unfold is_finished in E. rewrite bool_decide_false in E by done.
  set (fn := target _ o) in *. set (D := late_mgr getpwnam getgrnam fn) in *.
  set (r := with_world _ w) in E.
  assert (Hi : @dm_init _ _ D dm_new w (srv_settings (srv y0)) o =
    open_new (with_request DataMgrFile_new (srv_settings (srv y0)) SrvReq.write) w fn).
  { cbn. by rewrite Hrq. }
  unfold open_new, out_open_file in Hi. rewrite Hcr in Hi.
  match type of Hi with _ = Ok (?m, _, _, _) =>
    pose proof (@need_init_done _ _ D r t m w' eq_refl eq_refl Hs Hb Hi) as Ed end.
  rewrite Ed in E. cbn [mbind outcome_bind] in E. simplify_eq. split_and!; try done.
  eexists. split; [done|]. split; [|done]. by apply create_empty in Hcr.
Qed.

(** From the arrival of the request to the first own iteration of its session. *)
Lemma request_idle y0 y1 y2 i rq from o :
  size (pkt_buf y0) = 0xFFFF → request_ok rq → 9 ≤ size (encode_request rq) ≤ 0xFFFF →
  apply_opts (request_base rq) (rq_opts rq) = Ok o →
  main_step y0 (RxPkt (encode_request rq) from) = Ok y1 →
  follows getpwnam getgrnam y1 (pred (length (sessions_ (srv y1)))) [] y2 i →
  opts_wf o ∧ request_type o = rq_type rq ∧
  (sessions_ (srv y2) !! i = Some (request_thread y0 from o) ∨
   (rq_type rq = SrvReq.write ∧
    sessions_ (srv y2) !! i = Some (mark (request_thread y0 from o)))).
Proof.
  intros Hb Hrq Hsz Ho E1 Hidle.
  split; [apply (main_step_request y0 rq from o Hb Hrq Hsz Ho)|].
  assert (Hty : request_type o = rq_type rq) by (by rewrite (proj1 (apply_opts_request _ _ _ Ho))).
  split; [done|].
  pose proof (request_thread_last y0 y1 rq from o Hb Hrq Hsz Ho E1) as Hlast.
  rewrite last_lookup in Hlast.
  destruct (follows_idle _ _ _ _ _ Hidle Hlast) as [?|(Hw & _ & ?)]; [by left|right].
  by rewrite <-Hty.
Qed.

(** A download begins. *)
Lemma read_served y0 y1 y2 y3 i rq from o m t0 :
  size (pkt_buf y0) = 0xFFFF → request_ok rq → rq_type rq = SrvReq.read →
  9 ≤ size (encode_request rq) ≤ 0xFFFF →
  apply_opts (request_base rq) (rq_opts rq) = Ok o →
  main_step y0 (RxPkt (encode_request rq) from) = Ok y1 →
  follows getpwnam getgrnam y1 (pred (length (sessions_ (srv y1)))) [] y2 i →
  DataMgrFile.init DataMgrFile_new (sys_world y2) (srv_settings (srv y0)) o
    = Ok (m, sys_world y2, true, []) →
  0 ≤ sock t0 → bound t0 = true →
  play getpwnam getgrnam y2 i [EvThread i t0] = Some (y3, i, [t0]) →
  opts_wf o ∧ request_type o = SrvReq.read ∧ fine_step getpwnam getgrnam y2 y3 ∧
  ∃ th1, sessions_ (srv y3) !! i = Some th1 ∧
    returned th1 = false ∧ sent (th_run th1) = [] ∧
    world (th_run th1) = sys_world y2 ∧ stat_ (ses (th_run th1)) = State.ack_options ∧
    was_error (ses (th_run th1)) = false ∧ opt_ (ses (th_run th1)) = o ∧
    cl_addr_ (ses (th_run th1)) = from ∧ file_man_ (ses (th_run th1)) = Some m ∧
    run_buf (local_buf (loc (th_run th1))) ∧ last_blk_processed_ (loc (th_run th1)) = false.
Proof.
  intros Hb Hrq Hrd Hsz Ho E1 Hidle Hinit Hs Hbd Hplay.
  destruct (request_idle y0 y1 y2 i rq from o) as (Hwf & Hty & Hi); try done.
  split; [done|]. split; [congruence|].
  destruct Hi as [Hi|[? _]]; [|congruence]. cbn [play] in Hplay. rewrite Hi in Hplay.
  cbn [mbind option_bind exec_move] in Hplay. rewrite awaiting_new in Hplay by done.
  destruct (thread_step (request_thread y0 from o) (sys_world y2) t0) as [[th1 w1]| |] eqn:Et;
    [|done..].
  cbn [mbind option_bind] in Hplay. rewrite decide_True in Hplay by done. injection Hplay as <-.
  split.
  - eapply fine_thread; [exact Hi|]. eapply move_run; [by apply awaiting_new|exact Et].
  - destruct (request_thread_init y0 _ from o m _ t0 th1 w1 Hs Hbd Hinit Et)
      as (-> & ? & ? & ? & ? & ? & ? & ? & ? & ? & ? & _).
    exists th1. split_and!; try done. cbn. apply list_lookup_insert_eq. by eapply lookup_lt_Some.
Qed.

(** The others are off the file [q]. *)
Definition alone_on (q : bytes) y (i : nat) : Prop :=
  ∀ j th, j ≠ i → sessions_ (srv y) !! j = Some th → off q th.

Lemma alone_placed q y i th :
  sessions_ (srv y) !! i = Some th → alone_on q y i → placed q y i th.
Proof.
  intros Hi Hoff. exists (take i (sessions_ (srv y))), (drop (S i) (sessions_ (srv y))).
  pose proof (lookup_lt_Some _ _ _ Hi). split_and!.
  - symmetry. by apply take_drop_middle.
  - rewrite length_take. lia.
  - apply Forall_lookup. intros j tj [Hl Hlt]%lookup_take_Some. apply (Hoff j); [lia|done].
  - apply Forall_lookup. intros j tj Hl. rewrite lookup_drop in Hl.
    apply (Hoff (S i + j)%nat); [lia|done].
Qed.

(** An upload that has made the check opens its file. *)
Lemma write_served y0 y1 y2 y3 i rq from o w' t0 :
  size (pkt_buf y0) = 0xFFFF → request_ok rq → rq_type rq = SrvReq.write →
  9 ≤ size (encode_request rq) ≤ 0xFFFF →
  apply_opts (request_base rq) (rq_opts rq) = Ok o →
  let q := c_str (target (srv_settings (srv y0)) o) in
  main_step y0 (RxPkt (encode_request rq) from) = Ok y1 →
  follows getpwnam getgrnam y1 (pred (length (sessions_ (srv y1)))) [] y2 i →
  alone_on q y2 i → fs_create (sys_world y2) q = Some w' →
  play getpwnam getgrnam y2 i [EvOpen i t0] = Some (y3, i, [t0]) →
  opts_wf o ∧ request_type o = SrvReq.write ∧
  ∃ th1 m, placed q y3 i th1 ∧ sys_world y3 = w' ∧
    returned th1 = false ∧ sent (th_run th1) = [] ∧ stat_ (ses (th_run th1)) = State.ack_options ∧
    was_error (ses (th_run th1)) = false ∧ opt_ (ses (th_run th1)) = o ∧
    cl_addr_ (ses (th_run th1)) = from ∧
    run_buf (local_buf (loc (th_run th1))) ∧ last_blk_processed_ (loc (th_run th1)) = false ∧
    stage_ (ses (th_run th1)) = 0 ∧ file_man_ (ses (th_run th1)) = Some m ∧
    file_writing m w' [] ∧ out_path (m_file_out m) = q.
Proof.
  intros Hb Hrq Hwr Hsz Ho q E1 Hidle Hoff Hcr Hplay.
  destruct (request_idle y0 y1 y2 i rq from o) as (Hwf & Hty & Hi); try done.
  split; [done|]. rewrite Hwr in Hty. split; [done|].
  cbn [play] in Hplay. destruct Hi as [Hi|[_ Hi]]; rewrite Hi in Hplay;
    cbn [mbind option_bind exec_move] in Hplay.
  { by rewrite awaiting_new in Hplay. }
  rewrite awaiting_mark in Hplay by done. destruct (_ && _) eqn:Hsb; [|done].
  apply andb_true_iff in Hsb as [Hs%Z.leb_le Hbd].
  change (aim (ses (th_run (request_thread y0 from o))))
    with (target (srv_settings (srv y0)) o) in Hplay.
  destruct (@thread_step _ _ _ _ _ _) as [[th1 w1]| |] eqn:Et; [|done..].
  cbn [mbind option_bind] in Hplay. rewrite decide_True in Hplay by done. injection Hplay as <-.
  destruct (request_thread_opens y0 _ from o w' t0 th1 w1 Hs Hbd Hcr Hty Et)
    as (-> & ? & ? & ? & ? & ? & ? & ? & ? & ? & ? & m & ? & ? & ?).
  exists th1, m. split_and!; try done. by eapply placed_own, alone_placed.
Qed.
End service.

(** ** Properties *)

(** C1. A download, from the request to the last packet: a well-formed read request
    with a block size of at most 65531, a window of 1 block and a timeout below [INT_MAX]
    arrives at the server;
    later, when its session comes to it, the file manager finds a complete file, which
    no session writes to or is about to open; and the client acknowledges the blocks,
    possibly again ([same_epoch]: with a number that has the same upper bits, beyond 16,
    as the block that was sent), within its timeouts. Then, however the main loop and the
    threads of the other sessions run in between, also interrupted between the check for
    a file and its opening, and whatever they receive, the session sends the confirmation
    of the options, if there are any, and every block of the file under its number, ends
    without an error, and the file is unchanged. *)
Theorem server_delivers {W} `{FileSystem W, !FsLaws W, !FsFrame W} getpwnam getgrnam
    (y0 y1 y2 y3 y' : sys W DataMgrFile) i i' rq from o m d t0 ts es :
  let mgr := DataMgrFile_mgr getpwnam getgrnam in
  size (pkt_buf y0) = 0xFFFF → request_ok rq → rq_type rq = SrvReq.read →
  9 ≤ size (encode_request rq) ≤ 0xFFFF →
  apply_opts (request_base rq) (rq_opts rq) = Ok o →
  0 < blksize o ≤ 65531 → windowsize o = 1 → timeout o ≠ INT_MAX →
  main_step y0 (RxPkt (encode_request rq) from) = Ok y1 →
  follows getpwnam getgrnam y1 (pred (length (sessions_ (srv y1)))) [] y2 i →
  DataMgrFile.init DataMgrFile_new (sys_world y2) (srv_settings (srv y0)) o
    = Ok (m, sys_world y2, true, []) →
  stable (in_path (m_file_in m)) d y2 → size d < 2 ^ 61 →
  0 ≤ sock t0 → bound t0 = true →
  play getpwnam getgrnam y2 i [EvThread i t0] = Some (y3, i, [t0]) →
  opening_ok o from ts → ack_walk_ok o from d (blksize o) 1 es →
  follows getpwnam getgrnam y3 i (ts ++ concat (map (λ ea, ex_ticks ea.1) es)) y' i' →
  ∃ th, sessions_ (srv y') !! i' = Some th ∧
    stat_ (ses (th_run th)) = State.finish ∧ was_error (ses (th_run th)) = false ∧
    sent (th_run th)
    = (if was_set_any o then [oack_packet o] else [])
      ++ map (λ n, data_packet n (block d (blksize o) n)) (walk_numbers 1 es) ∧
    (∀ n, 1 ≤ n ≤ size d / blksize o + 1 → n ∈ walk_numbers 1 es) ∧
    content (sys_world y') (in_path (m_file_in m)) = Some d.
Proof.
  intros mgr Hb Hrq Hty Hsz Ho Hbs Hwin Hto E1 Hidle Hinit Hst Hd Hs Hbd Hplay Hts Hes Hf.
  set (q := in_path (m_file_in m)) in *.
  destruct (read_served getpwnam getgrnam y0 y1 y2 y3 i rq from o m t0) as (Hwf & Hread & Hstep
    & th1 & Hth1 & Hret & Hsent & Hw & Hack & Herr & Hopt & Hcl & Hman & Hbuf & Hlb); try done.
  destruct (init_reader _ _ _ _ _ Hread Hinit (proj1 Hst)) as [Hrd Hro].
  assert (Hst3 : stable q d y3) by (by eapply (fine_step_stable getpwnam getgrnam)).
  assert (Hblk : block_size (ses (th_run th1)) = blksize o).
  { unfold block_size. rewrite Hopt. apply wrap_small. lia. }
  destruct (@confirmed_walk _ _ _ (DataMgrFile_laws getpwnam getgrnam) (th_run th1) ts es d m)
    as (r & Er & Hfin & Her & _ & Hsr & Hall); try done.
  { by rewrite Hopt. }
  { by rewrite Hopt. }
  { unfold transfer_params, Session_windowsize. by rewrite Hblk, Hopt, Hwin. }
  { rewrite Hw. exact Hrd. }
  { by rewrite Hopt, Hcl. }
  { by rewrite Hblk, Hopt, Hcl. }
  destruct (follows_in_step getpwnam getgrnam q d y3 i _ y' i' th1 (th_run th1) Hf Hst3)
    as (th & r' & Hth & Er' & Hin).
  - rewrite Hw. apply Hst.
  - done.
  - split_and!; try done; [by rewrite Hack| |by rewrite Hret].
    intros _. rewrite Hman. split; [by destruct (th_run th1)|done].
  - assert (Ok r' = Ok r) as [= ->] by (etrans; [symmetry; exact Er'|exact Er]).
    destruct Hin as (_ & Hs' & Hst' & He' & _).
    exists th. rewrite Hst', He', Hs'. rewrite Hblk in *. rewrite Hopt in *.
    split_and!; try done.
    + by rewrite Hsr, Hsent.
    + apply (fine_steps_stable getpwnam getgrnam q d y3); [|done]. by eapply follows_steps.
Qed.

(** *** A download beside an upload *)

Definition demo_rq : request :=
  {| rq_type := SrvReq.read; rq_filename := str "fw.bin"; rq_mode := str "octet";
     rq_opts := [(str "blksize", str "8")] |}.

(** The server has an upload under way when the request arrives. *)
Definition demo_uploading : sys MemFs DataMgrFile := {|
  srv := {| srv_settings := demo_settings;
            sessions_ := [{| th_run := run_start (demo_session demo_write_opt) demo_fs;
                             returned := false |}];
            srv_socket_ := 4; stop_ := false |};
  pkt_buf := replicate (Z.to_nat 0xFFFF) x00;
  sys_world := demo_fs
|}.

Definition demo_o : Options :=
  match apply_opts (request_base demo_rq) (rq_opts demo_rq) with
  | Ok o => o
  | _ => Options_default
  end.

Definition played (y : sys MemFs DataMgrFile) (i : nat) (es : list event)
    : sys MemFs DataMgrFile :=
  match play (λ _, None) (λ _, None) y i es with Some (y', _, _) => y' | None => y end.

Definition demo_y1 : sys MemFs DataMgrFile :=
  match main_step demo_uploading (RxPkt (encode_request demo_rq) demo_client) with
  | Ok y => y
  | _ => demo_uploading
  end.

(** The upload creates its file; then the download begins. *)
Definition demo_y2 := played demo_y1 1 [EvThread 0 (demo_tick RxAgain)].
Definition demo_y3 := played demo_y2 1 [EvThread 1 (demo_tick RxAgain)].

Definition demo_walk : list (exchange * Z) :=
  [(demo_exchange 1, 1); (demo_exchange 2, 2)].

Definition demo_own : list tick :=
  ex_ticks (demo_exchange 0) ++ concat (map (λ ea, ex_ticks ea.1) demo_walk).

(** Every iteration of the download is preceded by one of the upload. *)
Definition demo_events : list event :=
  concat (map (λ t, [EvThread 0 (demo_tick RxAgain); EvThread 1 t]) demo_own).

Definition demo_end := played demo_y3 1 demo_events.

Lemma play_played y i es i' ts :
  (λ o, (o.1.2, o.2)) <$> play (λ _, None) (λ _, None) y i es = Some (i', ts) →
  play (λ _, None) (λ _, None) y i es = Some (played y i es, i', ts).
Proof.
  unfold played. destruct (play _ _ y i es) as [[[y' j] ts']|]; [|done].
  cbn. intros E. by simplify_eq.
Qed.

Lemma demo_y1_step :
  main_step demo_uploading (RxPkt (encode_request demo_rq) demo_client) = Ok demo_y1.
Proof.
  assert (Hok : match main_step demo_uploading (RxPkt (encode_request demo_rq) demo_client)
                with Ok _ => true | _ => false end = true) by (vm_compute; reflexivity).
  unfold demo_y1. by destruct (main_step _ _).
Qed.

Lemma demo_idle :
  follows (λ _, None) (λ _, None) demo_y1 (pred (length (sessions_ (srv demo_y1)))) []
    demo_y2 1.
Proof.
  replace (pred (length (sessions_ (srv demo_y1)))) with 1%nat by (vm_compute; reflexivity).
  apply (play_follows _ _ _ _ [EvThread 0 (demo_tick RxAgain)]), play_played.
  vm_compute. reflexivity.
Qed.

Lemma demo_stable : stable (str "/srv/fw.bin") demo_file demo_y2.
Proof.
  split; [vm_compute; reflexivity|].
  assert (Hm : map (λ th, (file_man_ (ses (th_run th)), awaiting th)) (sessions_ (srv demo_y2))
               = [(Some (demo_reader demo_write_opt), None); (None, None)])
    by (vm_compute; reflexivity).
  destruct (sessions_ (srv demo_y2)) as [|th1 [|th2 [|]]]; try discriminate Hm.
  injection Hm as Hm1 Ha1 Hm2 _. constructor; [split|constructor; [by apply off_new|constructor]].
  - rewrite Hm1. intros _. vm_compute. reflexivity.
  - by rewrite Ha1.
Qed.

Lemma demo_run :
  follows (λ _, None) (λ _, None) demo_y3 1 demo_own demo_end 1.
Proof.
  apply (play_follows _ _ _ _ demo_events), play_played. vm_compute. reflexivity.
Qed.

Lemma server_delivers_witness :
  ∃ th, sessions_ (srv demo_end) !! 1%nat = Some th ∧
    stat_ (ses (th_run th)) = State.finish ∧
    sent (th_run th) = [oack_packet demo_o; data_packet 1 (str "firmware");
                        data_packet 2 (str " image")].
Proof.
  destruct (server_delivers (λ _, None) (λ _, None) demo_uploading demo_y1 demo_y2 demo_y3
    demo_end 1 1 demo_rq demo_client demo_o (demo_reader demo_o) demo_file (demo_tick RxAgain)
    (ex_ticks (demo_exchange 0)) demo_walk) as (th & Hth & Hf & _ & Hs & _).
  - vm_compute. reflexivity.
  - split_and!; [discriminate|..]; split_and?; try by_decide; try discriminate.
  - reflexivity.
  - split; vm_compute; discriminate.
  - vm_compute. reflexivity.
  - split; vm_compute; (reflexivity || discriminate).
  - reflexivity.
  - vm_compute. discriminate.
  - exact demo_y1_step.
  - exact demo_idle.
  - vm_compute. reflexivity.
  - exact demo_stable.
  - vm_compute. reflexivity.
  - vm_compute. discriminate.
  - reflexivity.
  - apply play_played. vm_compute. reflexivity.
  - exists (demo_exchange 0). split; [reflexivity|]. apply demo_exchange_ok. reflexivity.
  - split; [apply demo_exchange_ok; reflexivity|].
    do 2 (split; [vm_compute; (reflexivity || (split; discriminate))|]).
    split; [apply demo_exchange_ok; reflexivity|].
    do 2 (split; [vm_compute; (reflexivity || (split; discriminate))|]). reflexivity.
  - exact demo_run.
  - exists th. split; [exact Hth|]. split; [exact Hf|]. rewrite Hs. vm_compute. reflexivity.
Defined.


Definition demo_wrq : request :=
  {| rq_type := SrvReq.write; rq_filename := str "two.bin"; rq_mode := str "octet";
     rq_opts := [(str "blksize", str "8")] |}.

Definition demo_wo : Options :=
  match apply_opts (request_base demo_wrq) (rq_opts demo_wrq) with
  | Ok o => o
  | _ => Options_default
  end.

Definition demo_w1 : sys MemFs DataMgrFile :=
  match main_step demo_uploading (RxPkt (encode_request demo_wrq) demo_client) with
  | Ok y => y
  | _ => demo_uploading
  end.

(** Both uploads make the check, then both open their files. *)
Definition demo_w2 := played demo_w1 1 [EvCheck 0; EvCheck 1; EvOpen 0 (demo_tick RxAgain)].
Definition demo_w3 := played demo_w2 1 [EvOpen 1 (demo_tick RxAgain)].

(** The other upload polls before every iteration of this one. *)
Definition demo_wticks : list tick :=
  [demo_tick RxAgain; demo_tick (RxPkt (data_packet 1 (str "uploaded")) demo_client);
   demo_tick RxAgain; demo_tick (RxPkt (data_packet 2 (str " image")) demo_client);
   demo_tick RxAgain].

Definition demo_wevents : list event :=
  concat (map (λ t, [EvThread 0 (demo_tick RxAgain); EvThread 1 t]) demo_wticks).

Definition demo_wend := played demo_w3 1 demo_wevents.

Lemma demo_wrun : follows (λ _, None) (λ _, None) demo_w3 1 demo_wticks demo_wend 1.
Proof.
  apply (play_follows _ _ _ _ demo_wevents), play_played. vm_compute. reflexivity.
Qed.

Lemma demo_w1_step :
  main_step demo_uploading (RxPkt (encode_request demo_wrq) demo_client) = Ok demo_w1.
Proof.
  assert (Hok : match main_step demo_uploading (RxPkt (encode_request demo_wrq) demo_client)
                with Ok _ => true | _ => false end = true) by (vm_compute; reflexivity).
  unfold demo_w1. by destruct (main_step _ _).
Qed.

Lemma demo_widle :
  follows (λ _, None) (λ _, None) demo_w1 (pred (length (sessions_ (srv demo_w1)))) []
    demo_w2 1.
Proof.
  replace (pred (length (sessions_ (srv demo_w1)))) with 1%nat by (vm_compute; reflexivity).
  apply (play_follows _ _ _ _ [EvCheck 0; EvCheck 1; EvOpen 0 (demo_tick RxAgain)]), play_played.
  vm_compute. reflexivity.
Qed.

Lemma alone_of_two q (y : sys MemFs DataMgrFile) t0 t1 :
  sessions_ (srv y) = [t0; t1] → off q t0 → alone_on q y 1.
Proof.
  intros El Hoff j th Hj Hth. rewrite El in Hth.
  destruct j as [|[|j]]; cbn in Hth; by simplify_eq.
Qed.

Lemma demo_walone : alone_on (str "/srv/two.bin") demo_w2 1.
Proof.
  assert (Hm : (λ th, (file_man_ (ses (th_run th)), awaiting th)) <$> head (sessions_ (srv demo_w2))
    = Some (Some (demo_reader demo_write_opt), None)) by (vm_compute; reflexivity).
  assert (Hl : length (sessions_ (srv demo_w2)) = 2%nat) by (vm_compute; reflexivity).
  destruct (sessions_ (srv demo_w2)) as [|t0 [|t1 [|]]] eqn:El; try discriminate Hl.
  apply (alone_of_two _ _ t0 t1 El). clear El Hl. injection Hm as Hm Ha. split.
  - rewrite Hm. intros _. vm_compute. reflexivity.
  - by rewrite Ha.
Qed.

(** The files after the opening. *)
Definition demo_wworld : MemFs :=
  default demo_fs (fs_create (sys_world demo_w2) (str "/srv/two.bin")).


(** C2. An upload, from the request to the last acknowledgement: a well-formed write
    request with a block size of at most 65531 and a timeout below [INT_MAX] arrives at
    the server, its session finds the name free and later opens the file, when no other session writes to it or is about
    to open it (a second upload of the same name at the same time can empty it, see
    [open_empties]); the client then sends the blocks of its file [f] in order, possibly
    again (with numbers that have the same upper bits, beyond 16, as the one that is waited
    for), within its timeouts and amid any other datagrams. Then, however the main loop and
    the threads of the other sessions run in between, the new file is exactly [f], the
    session has confirmed the options (or acknowledged block 0) and acknowledged every
    block that closes a window, and it is done when the last block does; or else the device
    has not taken a block, when the file held the blocks before, and the session has ended
    with the error of a failed write. *)
Theorem server_receives {W} `{FileSystem W, !FsLaws W, !FsFrame W} getpwnam getgrnam
    (y0 y1 y2 y3 y' : sys W DataMgrFile) i i' rq from o w' t0 ts tm us f :
  let mgr := DataMgrFile_mgr getpwnam getgrnam in
  let q := c_str (target (srv_settings (srv y0)) o) in
  let ws := Z.max 1 (windowsize o) in
  let ticks := ts ++ concat (map (nu_ticks ws) us) in
  size (pkt_buf y0) = 0xFFFF → request_ok rq → rq_type rq = SrvReq.write →
  9 ≤ size (encode_request rq) ≤ 0xFFFF →
  apply_opts (request_base rq) (rq_opts rq) = Ok o →
  0 < blksize o ≤ 65531 → timeout o ≠ INT_MAX → Z.of_nat (length ticks) < 2 ^ 44 →
  main_step y0 (RxPkt (encode_request rq) from) = Ok y1 →
  follows getpwnam getgrnam y1 (pred (length (sessions_ (srv y1)))) [] y2 i →
  alone_on q y2 i → fs_create (sys_world y2) q = Some w' →
  play getpwnam getgrnam y2 i [EvOpen i t0] = Some (y3, i, [t0]) →
  write_opening o ts tm → size f < 2 ^ 45 → walk_ok o from f (blksize o) ws tm 1 us →
  follows getpwnam getgrnam y3 i ticks y' i' →
  ∃ th, sessions_ (srv y') !! i' = Some th ∧
    ((content (sys_world y') q = Some f ∧
      was_error (ses (th_run th)) = false ∧
      stat_ (ses (th_run th))
      = (if closes ws (size f / blksize o + 1) then State.finish else State.data_rx) ∧
      sent (th_run th)
      = (if was_set_any o then oack_packet o else ack_packet 0) :: walk_acks ws us) ∨
     ∃ d, some_blocks f (blksize o) d ∧ device_failed ticks (blksize o) q d (sys_world y') th).
Proof.
  intros mgr q ws ticks Hb Hrq Hty Hsz Ho Hbs Hto Hlen E1 Hidle Hoff Hcr Hplay Hts Hf Hus Hfol.
  destruct (write_served getpwnam getgrnam y0 y1 y2 y3 i rq from o w' t0) as (Hwf & Hwrite & th1 & m
    & Hpl & Hw & Hret & Hsent & Hack & Herr & Hopt & Hcl & Hbuf & Hlb & Hstage & Hman & Hwr & Hq);
    try done.
  assert (Hblk : block_size (ses (th_run th1)) = blksize o).
  { unfold block_size. rewrite Hopt. apply wrap_small. lia. }
  assert (Hws : Session_windowsize (ses (th_run th1)) = ws).
  { unfold Session_windowsize, ws. rewrite Hopt. destruct (_ <? 1) eqn:E; reflect_bools; lia. }
  fold q in Hq, Hpl. clearbody q. subst q.
  destruct (upload_completes getpwnam getgrnam y3 i ts tm us f y' i' th1 m)
    as (th & Hth & Hres); rewrite ?Hopt, ?Hblk, ?Hws, ?Hcl; try done.
  - unfold servable. by rewrite Hblk, Hopt.
  - by rewrite Hw.
  - exists th. split; [done|]. rewrite Hopt, Hblk, Hws, Hsent in Hres.
    destruct Hres as [?|?]; [by right|by left].
Qed.

(** The upload of [demo_wrq] with its first block sent twice. *)
Definition demo_wwalk : list numbered := map demo_numbered [1; 1; 2].

Definition demo_wown : list tick :=
  demo_tick RxAgain :: concat (map (nu_ticks 1) demo_wwalk).

Definition demo_wevents2 : list event :=
  concat (map (λ t, [EvThread 0 (demo_tick RxAgain); EvThread 1 t]) demo_wown).

Definition demo_wend2 := played demo_w3 1 demo_wevents2.

Lemma demo_wrun2 : follows (λ _, None) (λ _, None) demo_w3 1 demo_wown demo_wend2 1.
Proof.
  apply (play_follows _ _ _ _ demo_wevents2), play_played. vm_compute. reflexivity.
Qed.

Lemma server_receives_witness :
  content (sys_world demo_wend2) (str "/srv/two.bin") = Some demo_upload_file.
Proof.
  assert (He : was_error <$> (ses ∘ th_run <$> sessions_ (srv demo_wend2) !! 1%nat) = Some false)
    by (vm_compute; reflexivity).
  destruct (server_receives (λ _, None) (λ _, None) demo_uploading demo_w1 demo_w2 demo_w3
    demo_wend2 1 1 demo_wrq demo_client demo_wo demo_wworld (demo_tick RxAgain)
    [demo_tick RxAgain] 100 demo_wwalk demo_upload_file) as (th & Hth & Hres).
  - vm_compute. reflexivity.
  - split_and!; [discriminate|..]; split_and?; try by_decide; try discriminate.
  - reflexivity.
  - split; vm_compute; discriminate.
  - vm_compute. reflexivity.
  - split; vm_compute; (reflexivity || discriminate).
  - vm_compute. discriminate.
  - vm_compute. reflexivity.
  - exact demo_w1_step.
  - exact demo_widle.
  - exact demo_walone.
  - vm_compute. reflexivity.
  - apply play_played. vm_compute. reflexivity.
  - exists (demo_tick RxAgain). split; reflexivity.
  - vm_compute. reflexivity.
  - do 3 (split; [apply demo_numbered_ok; [reflexivity|split; vm_compute; discriminate|reflexivity]|]).
    reflexivity.
  - exact demo_wrun2.
  - destruct Hres as [[Hc _]|(d & _ & _ & Hx & _)]; [exact Hc|]. exfalso. revert He. rewrite Hth.
    intros [= He]. rewrite Hx in He. discriminate He.
Defined.
