(* ===== verification/ServerFw.v ===== *)
(** * ServerFw: the program, [server-fw.cpp]

    [main] loads the options, becomes a daemon when asked to, initialises the
    server and runs its loop. Printing and the system log are not modelled. The
    results of [getopt_long] and of the system calls are parameters of [main]. *)

From Stdlib Require Import Strings.Byte.
From S2P Require Import Prelude Common SmBuf Options Regex Addr Settings Base.
From S2P Require Import FileSys DataMgr Session SessionPackets SessionSafety Srv.

Definition EXIT_SUCCESS : Z := 0.
Definition EXIT_FAILURE : Z := 1.
Definition fake_exit_code : Z := 1000.

(** What the environment answers. *)
Record env := {
  env_argc : Z;
  env_opts : list getopt_result;
  env_fork : Z;
  env_waitpid : list Z;        (** the results of the polls of [waitpid] *)
  env_socket : sock_result
}.

(** The parent polls the daemon at most 26 times, while it is alive; the last
    result tells whether the start failed. *)
Fixpoint wait_daemon (fuel : nat) (wps : list Z) : Z :=
  match fuel, wps with
  | S fuel, wp :: wps => if wp =? 0 then wait_daemon fuel wps else wp
  | _, _ => 0
  end.

(** How [main] ends: the exit code, whether the server entered its loop, and
    whether the parent reported the daemon as started. *)
Record main_end := {
  exit_code : Z;
  in_loop : bool;
  started : option bool
}.

Section main.
Context {W M : Type} `{DataMgr W M}.
Context (inet_pton : Z → bytes → option bytes).

(** After the options: initialise and serve until stopped. *)
Definition serve (v : Srv W M) (e : env) : Srv W M * main_end :=
  let '(v, ok) := srv_init v (env_socket e) in
  if (ok : bool)
  then (v, {| exit_code := EXIT_SUCCESS; in_loop := true; started := None |})
  else (v, {| exit_code := EXIT_FAILURE; in_loop := false; started := None |}).

Definition with_settings (v : Srv W M) (s : Settings) : Srv W M :=
  {| srv_settings := s; sessions_ := sessions_ v; srv_socket_ := srv_socket_ v;
     stop_ := stop_ v |}.

Definition main (e : env) : outcome (Srv W M * main_end) :=
  let server : Srv W M := Srv_new in
  '(sett, ok) ← Base_load_options inet_pton (srv_settings server) (env_argc e) (env_opts e);
  let server := with_settings server sett in
  if (ok : bool) then
    if get_is_daemon sett then
      let pid := env_fork e in
      if pid <? 0 then
        Ok (server, {| exit_code := EXIT_FAILURE; in_loop := false; started := None |})
      else if pid =? 0 then Ok (serve server e)
      else Ok (server, {| exit_code := EXIT_SUCCESS; in_loop := false;
                          started := Some (wait_daemon 26 (env_waitpid e) =? 0) |})
    else Ok (serve server e)
  else Ok (server, {| exit_code := EXIT_FAILURE; in_loop := false; started := None |}).
End main.

(** ** Lemmas *)

(** After the options the server either listens or is left without a socket. *)
Lemma serve_spec {W M} (v0 v : Srv W M) e r :
  srv_socket_ v0 = -1 → serve v0 e = (v, r) →
  (in_loop r = true → srv_settings v = srv_settings v0 ∧ sessions_ v = sessions_ v0 ∧
    srv_socket_ v = socket_ret (env_socket e) ∧ 0 ≤ srv_socket_ v ∧
    bind_ret (env_socket e) = 0 ∧ exit_code r = EXIT_SUCCESS) ∧
  (in_loop r = false → srv_socket_ v < 0 ∧ exit_code r = EXIT_FAILURE).
Proof.
  intros Hv Es. unfold serve, srv_init, srv_socket_open in Es.
  rewrite Hv in Es. cbn [Z.leb Z.compare] in Es. cbn [with_srv_socket srv_socket_] in Es.
  destruct (socket_ret _ <? 0) eqn:E1; reflect_bools; simplify_eq/=; [done|].
  destruct (bind_ret _ =? 0) eqn:E2; reflect_bools; simplify_eq/=; done.
Qed.

(** [main] loads the options, and then serves or stops without a socket. *)
Lemma main_cases {W M} inet_pton (e : env) (v : Srv W M) r :
  main inet_pton e = Ok (v, r) →
  ∃ sett ok, Base_load_options inet_pton Settings_new (env_argc e) (env_opts e) = Ok (sett, ok) ∧
    ((ok = true ∧ (is_daemon sett = true → env_fork e = 0) ∧
      serve (with_settings Srv_new sett) e = (v, r)) ∨
     (in_loop r = false ∧ srv_socket_ v = -1 ∧
      (exit_code r = EXIT_FAILURE ∨ (started r ≠ None ∧ 0 < env_fork e)))).
Proof.
  unfold main. intros E. apply bind_Ok in E as ([sett ok] & El & E). exists sett, ok.
  split; [done|]. unfold get_is_daemon in E. destruct ok; [|simplify_eq/=; right; auto].
  destruct (is_daemon sett) eqn:Hd; [|left; by simplify_eq/=].
  destruct (env_fork e <? 0) eqn:E1; [simplify_eq/=; right; auto|].
  destruct (env_fork e =? 0) eqn:E2; reflect_bools; simplify_eq/=; [by left|].
  right. split_and!; try done. right. split; [done|lia].
Qed.

Lemma main_in_loop {W M} inet_pton (e : env) (v : Srv W M) r :
  main inet_pton e = Ok (v, r) → in_loop r = true →
  ∃ sett, Base_load_options inet_pton Settings_new (env_argc e) (env_opts e) = Ok (sett, true) ∧
    srv_settings v = sett ∧ sessions_ v = [] ∧ (is_daemon sett = true → env_fork e = 0) ∧
    srv_socket_ v = socket_ret (env_socket e) ∧ 0 ≤ srv_socket_ v ∧
    bind_ret (env_socket e) = 0 ∧ exit_code r = EXIT_SUCCESS.
Proof.
  intros (sett & ok & El & [(-> & Hf & Es)|(? & _)])%main_cases Hl; [|congruence].
  apply serve_spec in Es as [Hs _]; [|done]. destruct (Hs Hl) as (? & ? & ? & ? & ? & ?).
  exists sett. by split_and!.
Qed.

(** ** Properties *)

(** C34. The program serves requests only with options it could load, in the foreground
    or as the child of [fork], on a socket that is open and bound; it then has the
    loaded settings, no sessions, and its exit code after the loop is success. In
    all other cases no socket is left open, and the code is failure except in the
    parent of the daemon. *)
Theorem main_serves {W M} inet_pton (e : env) (v : Srv W M) r :
  main inet_pton e = Ok (v, r) →
  (in_loop r = true →
   ∃ sett, Base_load_options inet_pton Settings_new (env_argc e) (env_opts e)
           = Ok (sett, true) ∧ srv_settings v = sett ∧ sessions_ v = [] ∧
     (is_daemon sett = true → env_fork e = 0) ∧
     srv_socket_ v = socket_ret (env_socket e) ∧ 0 ≤ srv_socket_ v ∧
     bind_ret (env_socket e) = 0 ∧ exit_code r = EXIT_SUCCESS) ∧
  (in_loop r = false →
   srv_socket_ v < 0 ∧
   (exit_code r = EXIT_FAILURE ∨ (started r ≠ None ∧ 0 < env_fork e))).
Proof.
  intros E. split; [by apply main_in_loop|]. intros Hl.
  apply main_cases in E as (sett & ok & _ & [(_ & _ & Es)|(_ & -> & ?)]); [|by split].
  apply serve_spec in Es as [_ Hs]; [|done]. destruct (Hs Hl). split; [done|by left].
Qed.

Definition demo_env : env := {|
  env_argc := 2; env_opts := [LongOpt 7 (Some (str "/alt"))]; env_fork := 0;
  env_waitpid := []; env_socket := {| socket_ret := 3; bind_ret := 0 |}
|}.

Lemma main_serves_witness :
  ∃ (v : Srv unit unit) r, main (λ _ _, None) demo_env = Ok (v, r) ∧ in_loop r = true ∧
    srv_socket_ v = 3 ∧ exit_code r = EXIT_SUCCESS.
Proof.
  eexists _, _. split; [reflexivity|].
  destruct (main_serves (W:=unit) (M:=unit) (λ _ _, None) demo_env _ _ eq_refl) as [H _].
  destruct (H eq_refl) as (sett & _ & _ & _ & _ & Hs & _ & _ & He).
  split; [reflexivity|]. split; [exact Hs|exact He].
Defined.
