(* ===== verification/Program.v ===== *)
(** * Program: the whole program, from [main] on

    [main] of server-fw.cpp, [Srv::main_loop] and the session threads put together:
    [start] is the state in which the loop begins, and [fine_step] of [SrvSteps] leads
    to the states the program can be in. What the other files show of a server in some
    state holds of the program from its start. *)

From Stdlib Require Import Strings.Byte.
From stdpp Require Import relations.
From S2P Require Import Prelude Common SmBuf Options Regex Addr Settings Base.
From S2P Require Import FileSys DataMgr DataMgrFile SmBufEx Session SessionPackets SessionSafety.
From S2P Require Import SessionRead SessionWrite SessionTraffic Srv SrvSteps SrvFiles SrvUploads SrvRaces.
From S2P Require Import Descriptors ServerFw.

Section program.
Context {W M : Type}.
Context (inet_pton : Z → bytes → option bytes).

(** From the answers [e] to [main], the files [w] and the answers [o] to a second
    [init] in [main_loop]: the state in which the loop begins. *)
Definition start (e : env) (w : W) (o : sock_result) : option (sys W M) :=
  match main inet_pton e with
  | Ok (v, r) => if in_loop r then main_enter v w o else None
  | _ => None
  end.

End program.

Lemma start_spec {W M} inet_pton e (w : W) o (y : sys W M) :
  start inet_pton e w o = Some y →
  ∃ sett, Base_load_options inet_pton Settings_new (env_argc e) (env_opts e) = Ok (sett, true) ∧
    srv_settings (srv y) = sett ∧ sessions_ (srv y) = [] ∧ sys_world y = w ∧
    size (pkt_buf y) = 0xFFFF ∧ 0 ≤ srv_socket_ (srv y).
Proof.
  unfold start. destruct (main inet_pton e) as [[v r]| |] eqn:Em; [|done..].
  destruct (in_loop r) eqn:Hl; [|done]. intros E.
  destruct (main_in_loop _ _ _ _ Em Hl) as (sett & Hload & Hs & Hn & _ & _ & Hk & _). exists sett.
  unfold main_enter in E.
  assert (Hbuf : size (replicate (Z.to_nat 0xFFFF) x00) = 0xFFFF)
    by (unfold size; rewrite length_replicate; lia).
  revert E Hbuf. generalize (replicate (Z.to_nat 0xFFFF) x00). intros buf E Hbuf.
  destruct (srv_socket_ v =? 0) eqn:H0; [|simplify_eq; by split_and!].
  unfold srv_init, srv_socket_open in E. destruct (0 <=? srv_socket_ v);
    cbn [srv_socket_close with_srv_socket srv_socket_] in E;
    (destruct (socket_ret o <? 0) eqn:H1; [done|]); (destruct (negb _); [done|]); reflect_bools;
    simplify_eq; by split_and!.
Qed.

(** The small steps keep what the parser has accepted. *)
Section fine_ok.
Context {W : Type} `{FileSystem W}.
Context (getpwnam getgrnam : bytes → option Z).

Lemma fine_step_ok sett (y y' : sys W DataMgrFile) :
  fine_step getpwnam getgrnam y y' → sys_ok sett y → sys_ok sett y'.
Proof.
  intros Hst Hok. destruct Hst as [rx y' _ E| |i th ts th' w' Hi Hm]; [|exact Hok|].
  - by eapply (@main_step_ok _ _ (DataMgrFile_mgr getpwnam getgrnam)).
  - destruct Hok as (? & ? & Hl). split_and!; try done. cbn. apply Forall_insert; [done|].
    pose proof (Forall_lookup_1 _ _ _ _ Hl Hi) as Hth.
    destruct Hm as [t th' w' _ E|_ _ _ _ _|fn t th' w' _ _ _ E]; [|done|].
    + by eapply (@thread_step_ok _ _ (DataMgrFile_mgr getpwnam getgrnam)).
    + by eapply (@thread_step_ok _ _ (late_mgr getpwnam getgrnam fn)).
Qed.

Lemma fine_steps_ok sett (y y' : sys W DataMgrFile) :
  rtc (fine_step getpwnam getgrnam) y y' → sys_ok sett y → sys_ok sett y'.
Proof. induction 1 as [|y1 y2 y3 Hs _ IH]; [done|]. intros. by eapply IH, fine_step_ok. Qed.
End fine_ok.

(** ** Properties *)

(** C3. The program is safe from its start: in every state it reaches, whatever the
    clients send, however the threads are scheduled (also between the check for a file
    and its opening) and whatever the system calls return, it runs with the settings of
    its command line; every session serves a request the parser accepted; and every file
    that was there when it started has the content it had. If on the way no upload named
    the file of another one that was between its check and its opening, the file of
    every open upload exists and no two of them share a file. *)
Theorem program_safe {W} `{FileSystem W, !FsLaws W, !FsFrame W} getpwnam getgrnam inet_pton e
    (w : W) o (y0 y : sys W DataMgrFile) :
  start inet_pton e w o = Some y0 → rtc (fine_step getpwnam getgrnam) y0 y →
  ∃ sett, Base_load_options inet_pton Settings_new (env_argc e) (env_opts e) = Ok (sett, true) ∧
    sys_ok sett y ∧ (∀ p d, content w p = Some d → content (sys_world y) p = Some d) ∧
    (rtc (λ a b, no_clash a ∧ fine_step getpwnam getgrnam a b) y0 y →
     exclusive (sessions_ (srv (erase y))) (sys_world y)).
Proof.
  intros Hs Hr. apply start_spec in Hs as (sett & Hload & Hset & Hn & Hw & Hbuf & _).
  exists sett. split; [done|]. split_and!.
  - eapply (fine_steps_ok getpwnam getgrnam); [exact Hr|]. split_and!; [done|done|by rewrite Hn].
  - intros p d Hc. apply (fine_steps_stable getpwnam getgrnam p d y0 y Hr).
    split; [by rewrite Hw|by rewrite Hn].
  - intros Hnc. apply (fine_exclusive getpwnam getgrnam y0 y); [|exact Hnc]. by rewrite Hn.
Qed.

(** The program starts, accepts two uploads of one name, and both of their sessions
    make the check before they open the file. *)
Definition demo_o2 : sock_result := {| socket_ret := -1; bind_ret := -1 |}.

Definition demo_program_start : sys MemFs DataMgrFile :=
  default demo_sys (start (λ _ _, None) demo_env demo_fs demo_o2).

Definition demo_program_end : sys MemFs DataMgrFile :=
  foldl demo_next demo_program_start
    [EvMain (RxPkt (encode_request demo_same) demo_client);
     EvMain (RxPkt (encode_request demo_same) demo_client2); EvCheck 0; EvCheck 1;
     EvOpen 0 (demo_tick RxAgain); EvOpen 1 (demo_tick RxAgain)].

Lemma demo_program_started :
  start (λ _ _, None) demo_env demo_fs demo_o2 = Some demo_program_start.
Proof.
  assert (Hok : match start (W:=MemFs) (M:=DataMgrFile) (λ _ _, None) demo_env demo_fs demo_o2
                with Some _ => true | None => false end = true) by (vm_compute; reflexivity).
  unfold demo_program_start. by destruct (start _ _ _ _).
Qed.

Lemma demo_program_steps :
  rtc (fine_step (λ _, None) (λ _, None)) demo_program_start demo_program_end.
Proof. apply next_steps. Qed.

Lemma program_safe_witness :
  length (sessions_ (srv demo_program_end)) = 2%nat ∧
  content (sys_world demo_program_end) (str "/srv/fw.bin") = Some demo_file.
Proof.
  split; [vm_compute; reflexivity|].
  destruct (program_safe (λ _, None) (λ _, None) (λ _ _, None) demo_env demo_fs demo_o2
    demo_program_start demo_program_end demo_program_started demo_program_steps)
    as (sett & _ & _ & Hc & _).
  apply Hc. vm_compute. reflexivity.
Defined.

(** As a daemon the program closes its standard streams first, so that the kernel
    gives 0, the lowest free descriptor, to the socket of the server. The main loop
    takes 0 for a server that was not initialised: it closes the socket and opens it
    again, and returns at once when that fails, with the exit code of success. *)
Theorem daemon_opens_twice {W M} inet_pton e (w : W) o (v : Srv W M) r :
  main inet_pton e = Ok (v, r) → in_loop r = true → socket_ret (env_socket e) = 0 →
  exit_code r = EXIT_SUCCESS ∧
  start inet_pton e w o =
  (if (0 <=? socket_ret o) && (bind_ret o =? 0)
   then Some {| srv := with_stop (with_srv_socket v (socket_ret o)) false;
                pkt_buf := replicate (Z.to_nat 0xFFFF) x00; sys_world := w |}
   else None).
Proof.
  intros Em Hl H0. destruct (main_in_loop _ _ _ _ Em Hl) as (sett & _ & _ & _ & _ & Hs & _ & _ & Hx).
  split; [done|]. unfold start. rewrite Em, Hl. unfold main_enter. rewrite Hs, H0.
  cbn [Z.eqb]. unfold srv_init, srv_socket_open. rewrite Hs, H0.
  cbn [Z.leb Z.compare srv_socket_close with_srv_socket srv_socket_].
  generalize (replicate (Z.to_nat 0xFFFF) x00). intros buf.
  rewrite Z.ltb_antisym. destruct (0 <=? socket_ret o); cbn [negb andb]; [|done].
  by destruct (bind_ret o =? 0).
Qed.

Definition daemon_env : env := {|
  env_argc := 2; env_opts := [LongOpt 13 None]; env_fork := 0;
  env_waitpid := []; env_socket := {| socket_ret := 0; bind_ret := 0 |}
|}.

Lemma daemon_opens_twice_witness :
  start (M:=unit) (λ _ _, None) daemon_env tt demo_o2 = None.
Proof.
  destruct (main (W:=unit) (M:=unit) (λ _ _, None) daemon_env) as [[v r]| |] eqn:E;
    [|discriminate E..].
  destruct (daemon_opens_twice (λ _ _, None) daemon_env tt demo_o2 v r E) as [_ Hs];
    [injection E as <- <-; reflexivity|reflexivity|exact Hs].
Defined.

(** A server that was not initialised has the socket -1: [main_loop], which is to
    initialise it, does not notice, and polls a descriptor that is not open. *)
Theorem main_loop_not_initialised {W M} (w : W) o :
  (λ y, srv_socket_ (srv y)) <$> main_enter (@Srv_new W M) w o = Some (-1).
Proof. done. Qed.

(** [stop] while a session is running: the loop returns, and the destructor of the
    server ends the program. *)
Theorem stop_terminates {W M} `{DataMgr W M} (y : sys W M) th :
  th ∈ sessions_ (srv y) → Srv_destroy (stop (srv y)) = None.
Proof. unfold Srv_destroy. cbn. by destruct (sessions_ (srv y)) as [|th' l]; [intros ?%not_elem_of_nil|]. Qed.
