(* ===== verification/Tests.v ===== *)
(** * Tests: the unit tests of the repository, on the model

    [src/source/tests] holds the expectations the authors of the program wrote down.
    The checks of each test case are evaluated here on the definitions that model the
    tested class, with the same inputs. Checks of static types and of copies have no
    counterpart. The last section has the client of the server test
    ([tftpSrv_test.h]) and shows that the test passes for every block size and every
    size of file, of which the test has five and ten. *)

From Stdlib Require Import Strings.Byte.
From S2P Require Import Prelude Common SmBuf SmBufEx Options Regex Addr Settings Base.
From S2P Require Import FileSys DataMgr DataMgrFile Session SessionPackets SessionSafety SessionRead.
From S2P Require Import SessionWrite SessionTraffic SessionRepeats Srv SrvFiles.

Definition octets (l : list Z) : bytes := map byte_of l.

Local Ltac check := repeat split; vm_compute; reflexivity.

(** ** Buffers: tftpSmBuf_test.cpp, tftpSmBufEx_test.cpp *)

Module Buffers.
Definition int64_t : ity := {| sizeof := 8; is_signed := true |}.

Definition b2 : SmBuf := replicate 16 x00.

Example check_valid :
  is_valid [] 0 0 = false ∧ is_valid [] 0 1 = false ∧ is_valid [] 1 0 = false ∧
  is_valid [] 1 1 = false ∧ is_valid b2 0 0 = true ∧ is_valid b2 0 16 = true ∧
  is_valid b2 15 1 = true ∧ is_valid b2 1 15 = true ∧ is_valid b2 0 17 = false ∧
  is_valid b2 16 0 = false.
Proof. check. Qed.

(** The octets 0, 1, .., 15. *)
Example raw_assigns :
  (b ← raw_assign int16_t b2 0 0x0100; b ← raw_assign int16_t b 2 0x0302;
   b ← raw_assign int32_t b 4 0x07060504; raw_assign int64_t b 8 0x0f0e0d0c0b0a0908)
  = Ok (octets (seqZ 0 16)).
Proof. check. Qed.

Definition b : SmBuf := octets (seqZ 0 16).

Example check_raw :
  raw int8_t b 0 = Ok 0 ∧ raw int8_t b 1 = Ok 1 ∧ raw uint8_t b 1 = Ok 1 ∧
  map (raw int16_t b) [0; 1; 2; 3; 4]
  = [Ok 0x0100; Ok 0x0201; Ok 0x0302; Ok 0x0403; Ok 0x0504] ∧
  map (raw uint16_t b) [0; 1; 2; 3; 4]
  = [Ok 0x0100; Ok 0x0201; Ok 0x0302; Ok 0x0403; Ok 0x0504] ∧
  raw int32_t b 0 = Ok 0x03020100 ∧ raw uint32_t b 4 = Ok 0x07060504 ∧
  raw int32_t b 12 = Ok 0x0f0e0d0c ∧ raw int64_t b 0 = Ok 0x0706050403020100 ∧
  raw uint64_t b 0 = Ok 0x0706050403020100 ∧ raw int64_t b 7 = Ok 0x0e0d0c0b0a090807 ∧
  raw int8_t b 16 = Throw invalid_argument ∧ raw int16_t b 15 = Throw invalid_argument.
Proof. check. Qed.

Definition g : SmBuf := octets [8; 9; 10; 11; 12; 13; 14; 15] ++ replicate 8 x00.

Example check_get_set :
  raw_assign int64_t b2 0 0x0f0e0d0c0b0a0908 = Ok g ∧
  map (get_be int16_t g) [0; 1; 2; 3] = [Ok 0x0809; Ok 0x090a; Ok 0x0a0b; Ok 0x0b0c] ∧
  get_be int32_t g 4 = Ok 0x0c0d0e0f ∧ get_be int64_t g 0 = Ok 0x08090a0b0c0d0e0f ∧
  ('(c, _) ← set_be int16_t g 0 0x1234; '(c, _) ← set_be int16_t c 2 0x5678;
   '(c, _) ← set_be int32_t c 4 (cast int32_t 0x90abcdef);
   x ← get_be int16_t c 0; y ← get_be int32_t c 0; z ← get_be int64_t c 0; Ok (x, y, z))
  = Ok (0x1234, 0x12345678, 0x1234567890abcdef) ∧
  ('(c, n) ← set_le int64_t g 0 0x0f0e0d0c0b0a0908; x ← get_le int16_t c 0;
   y ← get_le int16_t c 3; Ok (n, x, y)) = Ok (8, 0x0908, 0x0c0b) ∧
  get_be int8_t g 16 = Throw invalid_argument ∧ get_le int16_t g 15 = Throw invalid_argument ∧
  set_be int8_t g 16 1 = Throw invalid_argument ∧
  set_le int16_t g 15 1 = Throw invalid_argument.
Proof. check. Qed.

Definition s0 : SmBuf := replicate 32 x00.
Definition s1 : SmBuf := replicate 2 x00 ++ str "12345678" ++ replicate 22 x00.
Definition s2 : SmBuf := replicate 2 x00 ++ str "1abc" ++ x00 :: str "678" ++ replicate 22 x00.

Example check_str :
  get_string s0 0 0 = Ok [] ∧ eqv_string s0 0 [] false = true ∧
  eqv_string s0 0 [] true = true ∧ eqv_string s0 0 (str "1") false = false ∧
  eqv_string s0 0 (str "1") true = false ∧
  SmBuf.set_string s0 2 (str "12345678") false = Ok (s1, 8) ∧
  get_string s1 0 0 = Ok [] ∧ get_string s1 2 0 = Ok (str "12345678") ∧
  map (λ n, eqv_string s1 2 (take n (str "12345678")) false) (seq 1 8)
  = replicate 8 true ∧
  eqv_string s1 2 (str "1234567") true = false ∧
  eqv_string s1 2 (str "12345678") true = true ∧ get_string s1 5 0 = Ok (str "45678") ∧
  SmBuf.set_string s1 3 (str "abc") true = Ok (s2, 4) ∧ get_string s2 2 0 = Ok (str "1abc") ∧
  get_string s2 6 0 = Ok [] ∧ get_string s2 7 0 = Ok (str "678") ∧
  eqv_string s2 7 (str "67") false = true ∧ eqv_string s2 7 (str "67") true = false ∧
  eqv_string s2 7 (str "678") true = true ∧ eqv_string s2 8 (str "678") false = false ∧
  map (λ n, (eqv_string s2 n (str "678") false, eqv_string s2 n (str "678") true)) [30; 90]
  = replicate 2 (false, false).
Proof. check. Qed.

(** What a call of [push_data] returns, the fill count and the octets. *)
Definition pushed (b : SmBufEx) (args : list arg) : outcome (bool * Z * bytes) :=
  '(b, r) ← push_data b args; Ok (r, SmBufEx.data_size b, payload b).

Definition int (v : Z) : arg := AInt int32_t v.

Example check_push :
  pushed (new_default 20) [AInt int8_t 97; AInt int8_t 122; AInt int8_t 99]
  = Ok (true, 3, str "azc") ∧
  pushed (new_default 20) [AInt uint16_t 5; AStr (str "testing")]
  = Ok (true, 10, octets [0; 5] ++ str "testing" ++ [x00]) ∧
  ('(b, _) ← push_data (new_default 20) [AInt uint16_t 5; AStr (str "testing")];
   pushed (set_not_zeroend b) [AStr (str "qwe")])
  = Ok (true, 13, octets [0; 5] ++ str "testing" ++ x00 :: str "qwe") ∧
  ('(b, _) ← push_data (new_default 30) [int 0x01020304];
   pushed (set_littleendian b) [int 0x11223344])
  = Ok (true, 8, octets [1; 2; 3; 4; 0x44; 0x33; 0x22; 0x11]) ∧
  pushed (new_default 30) [AInt uint8_t 1; AInt uint8_t 0] = Ok (true, 2, octets [1; 0]) ∧
  pushed (new_default 30) [AOther] = Ok (false, 0, []) ∧
  ('(b, r) ← push_data (new_default 30) [AInt uint32_t 0x01020304; AOther];
   '(r', n, d) ← pushed b [AOther; AInt uint32_t 0x05060708]; Ok (r, r', n, d))
  = Ok (false, false, 8, octets (seqZ 1 8)).
Proof. check. Qed.

Example check_reset :
  (b ← data_size_reset (new_default 20) 10; Ok (SmBufEx.data_size b, size (buf b)))
  = Ok (10, 20) ∧
  (b ← data_size_reset (new_default 20) 10; data_size_reset b 50) = Throw invalid_argument.
Proof. check. Qed.
End Buffers.

(** ** Texts and requests: tftpCommon_test.cpp, tftpOptions_test.cpp, tftpDataMgr_test.cpp *)

Module Requests.
Example check_to_string :
  map SrvReq_to_string [SrvReq.unknown; SrvReq.read; SrvReq.write]
  = [str "unknown"; str "read"; str "write"] ∧
  map TransfMode_to_string [TransfMode.unknown; TransfMode.netascii; TransfMode.octet;
                            TransfMode.binary]
  = [str "unknown"; str "netascii"; str "octet"; str "binary"] ∧
  map LogLvl_to_string [LogLvl.emerg; LogLvl.alert; LogLvl.crit; LogLvl.err; LogLvl.warning;
                        LogLvl.notice; LogLvl.info; LogLvl.debug]
  = [str "emerg"; str "alert"; str "crit"; str "err"; str "warning"; str "notice"; str "info";
     str "debug"] ∧
  map State_to_string [State.need_init; State.error_and_stop; State.ack_options; State.data_tx;
                       State.data_rx; State.ack_tx; State.ack_rx; State.retransmit; State.finish]
  = [str "need_init"; str "error_and_stop"; str "ack_options"; str "data_tx"; str "data_rx";
     str "ack_tx"; str "ack_rx"; str "retransmit"; str "finish"] ∧
  map TripleResult_to_string [TripleResult.nop; TripleResult.ok; TripleResult.fail]
  = [str "nop"; str "ok"; str "fail"].
Proof. check. Qed.

Example check_operator_plus :
  append_to_string State_to_string (str "A") State.need_init ++ str "B" = str "Aneed_initB" ∧
  append_to_string LogLvl_to_string (str "C") LogLvl.warning ++ str "D" = str "CwarningD" ∧
  append_to_string TransfMode_to_string (str "E") TransfMode.octet ++ str "F" = str "EoctetF" ∧
  append_to_string SrvReq_to_string (str "G") SrvReq.write ++ str "H" = str "GwriteH" ∧
  append_to_string TripleResult_to_string (str "I") TripleResult.ok ++ str "J" = str "IokJ".
Proof. check. Qed.

(** The accounts of the host of the test. *)
Definition accounts (name : bytes) : option Z :=
  if bool_decide (name = str "root") then Some 0
  else if bool_decide (name = str "daemon") then Some 1 else None.

Example check_accounts :
  map (get_uid_by_name accounts) [str "root"; str "daemon"; str "hren_takogo_netu"] = [0; 1; 0] ∧
  map (get_gid_by_name accounts) [str "root"; str "daemon"; str "hren_takogo_netu"] = [0; 1; 0].
Proof. check. Qed.

(** A request of the tests: opcode, name, mode and the octets of its options. *)
Definition pkt (op : Z) (name mode : bytes) (opts : bytes) : SmBuf :=
  octets [0; op] ++ zstr name ++ zstr mode ++ opts.

Definition with_opts (o : Options) (nvs : list (bytes * Z)) : Options :=
  foldl (λ o nv, set_option o nv.1 nv.2) o nvs.

Definition mail_base : Options :=
  set_mode (set_filename (set_request Options_default SrvReq.read) (str "filename.txt"))
    TransfMode.mail.

Definition parse (b : SmBuf) : outcome (bool * Options) := buffer_parse b (size b).

Example check_buffer_parse :
  parse [] = Ok (false, Options_default) ∧
  parse (replicate 500 x00) = Ok (false, Options_default) ∧
  parse (pkt 1 (str "filename.txt") (str "mail") []) = Ok (true, mail_base) ∧
  parse (pkt 1 (str "filename.txt") (str "mail")
    (zstr (str "blksize") ++ zstr [] ++ zstr (str "timeout") ++ zstr (str "-9")
     ++ zstr (str "tsize") ++ zstr (str "2123z") ++ zstr (str "windowsize") ++ zstr (str "ef")))
  = Ok (true, mail_base) ∧
  parse (pkt 1 (str "filename.txt") (str "mail")
    (zstr (str "blksize") ++ zstr (str "1024") ++ zstr (str "timeout") ++ zstr (str "10")
     ++ zstr (str "tsize") ++ zstr (str "2000123") ++ zstr (str "windowsize")
     ++ zstr (str "20")))
  = Ok (true, with_opts mail_base [(name_blksize, 1024); (name_timeout, 10);
                                   (name_tsize, 2000123); (name_windowsize, 20)]).
Proof. check. Qed.

Example check_match_md5 :
  map match_md5
    [str "server-fw"; str "server-fw.md5"; str "2fdf093688bb7cef7c05b1ffcc71ff4z";
     str "2fdf093688bb7cef7c05b1ffcc71ff4z.md5"; str "2fdf093688bb7cef7c05b 1ffcc71ff4e";
     str "2fdf093688bb7cef7c05b1ffcc71ff4e.md5"; str "172775dbdee46e00a422235475244db6.md5"; []]
  = replicate 8 false ∧
  map match_md5
    [str "2fdf093688bb7cef7c05b1ffcc71ff4e"; str "172775dbdee46e00a422235475244db6";
     str "00000000000000000000000000000000"; str "FFFFFFFFFFFFFFFFFFFFFFFFFFFFFFFF"]
  = replicate 4 true.
Proof. check. Qed.

Example check_set_error :
  length (forward_error true 1 (str "error 1") ++ forward_error true 5 (str "error 5")) = 2%nat.
Proof. check. Qed.
End Requests.

(** ** Sessions: tftpSession_test.cpp *)

Module Sessions.
Definition client : Addr :=
  let a := set_port_u16 (set_family Addr_new AF_INET) 0x0506 in
  set_data a (blit (data a) 4 (octets [1; 2; 3; 4])).

Definition opts : bytes :=
  zstr (str "blksize") ++ zstr (str "1024") ++ zstr (str "timeout") ++ zstr (str "10")
  ++ zstr (str "tsize") ++ zstr (str "2000123").

Definition prepared (b : SmBuf) : outcome (Session DataMgrFile * bool) :=
  prepare Session_default client b (size b).

Example check_prepare :
  ('(s, r) ← prepared (Requests.pkt 3 (str "filename.txt") (str "octet") opts);
   Ok (r, request_type (opt_ s))) = Ok (false, SrvReq.unknown) ∧
  ('(s, r) ← prepared (Requests.pkt 2 (str "filename.txt") (str "octet") opts);
   Ok (r, cl_addr_ s, opt_ s, was_error s, was_error (set_error_if_first s 909 (str "Test error"))))
  = Ok (true, client,
        Requests.with_opts
          (set_mode (set_filename (set_request Options_default SrvReq.write) (str "filename.txt"))
             TransfMode.octet)
          [(name_blksize, 1024); (name_timeout, 10); (name_tsize, 2000123)],
        false, true).
Proof. check. Qed.

Definition window5 : outcome (Session DataMgrFile * bool) :=
  prepared (Requests.pkt 1 (str "a") (str "octet") (zstr (str "windowsize") ++ zstr (str "5"))).

Example check_windows :
  map (is_window_close (@Session_default DataMgrFile)) (seqZ 0 5) = replicate 5 true ∧
  ('(s, _) ← window5; Ok (map (is_window_close s) (seqZ 0 6)))
  = Ok [true; false; false; false; false; true] ∧
  ('(s, _) ← window5; Ok (map (step_back_window s) (seqZ 0 12 ++ [65534; 65535; 65536])))
  = Ok [0; 1; 1; 1; 1; 5; 5; 5; 5; 5; 10; 10; 65530; 65535; 65535].
Proof. check. Qed.
End Sessions.

(** ** Addresses and settings: tftpAddr_test.cpp, tftpSettings_test.cpp, tftpBase_test.cpp *)

Module Addresses.
(** The answers of [inet_pton] and [inet_ntop] for the addresses of the tests. *)
Definition texts : list (Z * bytes * bytes) :=
  [(AF_INET, str "0.0.0.0", octets [0; 0; 0; 0]); (AF_INET, str "1.1.1.1", octets [1; 1; 1; 1]);
   (AF_INET, str "1.2.3.4", octets [1; 2; 3; 4]); (AF_INET, str "4.3.2.1", octets [4; 3; 2; 1]);
   (AF_INET, str "12.34.56.78", octets [12; 34; 56; 78]);
   (AF_INET, str "228.227.226.225", octets [0xe4; 0xe3; 0xe2; 0xe1]);
   (AF_INET6, str "fe80::1", octets [0xfe; 0x80] ++ replicate 13 x00 ++ [x01]);
   (AF_INET6, str "fe80::225:90ff:feed:20d4",
    octets [0xfe; 0x80; 0; 0; 0; 0; 0; 0; 0x02; 0x25; 0x90; 0xff; 0xfe; 0xed; 0x20; 0xd4]);
   (AF_INET6, str "102:304:506:708:90a:b0c:d0e:fff", octets (seqZ 1 15 ++ [0xff]))].

Definition pton (af : Z) (text : bytes) : option bytes :=
  snd <$> List.find (λ e, (e.1.1 =? af) && bool_decide (e.1.2 = text)) texts.

Definition ntop (af : Z) (adr : bytes) : bytes :=
  match List.find (λ e, (e.1.1 =? af) && bool_decide (e.2 = adr)) texts with
  | Some e => e.1.2
  | None => []
  end.

Definition text (a : Addr) : bytes := str_ ntop a.

Example check_new :
  size (data Addr_new) = 30 ∧ data_size Addr_new = 0 ∧ family Addr_new = 0 ∧ port Addr_new = 0 ∧
  data_size (as_in Addr_new) = 16 ∧ data_size (as_in6 Addr_new) = 28 ∧
  text Addr_new = unknown_addr.
Proof. check. Qed.

Definition a4 : Addr := set_family Addr_new AF_INET.
Definition a4p : Addr := set_addr_in (set_port_u16 a4 0x3412) (octets [0xe4; 0xe3; 0xe2; 0xe1]).
Definition a6p : Addr :=
  set_addr_in6 (set_port_u16 (set_family (clear a4p) AF_INET6) 0x3412) (octets (seqZ 1 15 ++ [0xff])).

Example check_views :
  data_size a4 = 16 ∧ text a4 = str "0.0.0.0:0" ∧
  data_size a4p = 16 ∧ family a4p = AF_INET ∧ port a4p = 0x3412 ∧
  text a4p = str "228.227.226.225:13330" ∧ clear a4p = Addr_new ∧
  data_size a6p = 28 ∧ family a6p = AF_INET6 ∧ port a6p = 0x3412 ∧
  text a6p = str "[102:304:506:708:90a:b0c:d0e:fff]:13330" ∧
  (a ← assign a6p (Some (octets [2; 0; 1; 0x23; 1; 2; 3; 4] ++ replicate 8 x00)) 16;
   Ok (text a, family a, slice (data a) 2 6))
  = Ok (str "1.2.3.4:291", AF_INET, octets [1; 0x23; 1; 2; 3; 4]).
Proof. check. Qed.

Example check_ports :
  (let '(a, r) := set_port a4 (PortInt 1234) in (r, port a, family a)) = (true, 1234, AF_INET) ∧
  (let '(a, r) := set_port (set_family a4 AF_INET6) (PortInt 60004) in (r, port a, family a))
  = (true, 60004, AF_INET6) ∧
  (let '(a, r) := set_port (set_family a4 AF_INET6) (PortString (str "56789")) in
   (r, port a, family a)) = (true, 56789, AF_INET6) ∧
  (let '(a, r) := set_addr pton Addr_new (AddrIn (octets [1; 2; 3; 4])) in (r, text a))
  = (true, str "1.2.3.4:0").
Proof. check. Qed.

(** What [set_string] returns, and the family, the port and the address it sets. *)
Definition set (a : Addr) (s : bytes) : bool * bool * Z * Z * bytes :=
  let '(a, r) := set_string pton a s in
  (r, family a, port a, if family a =? AF_INET then slice (data a) 4 4 else slice (data a) 8 16).

Definition long6 : bytes :=
  octets [0xfe; 0x80; 0; 0; 0; 0; 0; 0; 0x02; 0x25; 0x90; 0xff; 0xfe; 0xed; 0x20; 0xd4].

Example check_set_string :
  set Addr_new (str "[fe80::225:90ff:feed:20d4]:60123") = (true, true, AF_INET6, 60123, long6) ∧
  set Addr_new (str "fe80::225:90ff:feed:20d4") = (true, false, AF_INET6, 0, long6) ∧
  set a6p (str "12.34.56.78:59001") = (true, true, AF_INET, 59001, octets [12; 34; 56; 78]) ∧
  set (set_string pton a6p (str "12.34.56.78:59001")).1 (str "4.3.2.1")
  = (true, false, AF_INET, 59001, octets [4; 3; 2; 1]).
Proof. check. Qed.

Definition options4 : list getopt_result :=
  [LongOpt 13 None; ShortOpt x73 (Some (str "7")); ShortOpt x6c (Some (str "1.1.1.1:7777"));
   LongOpt 6 (Some (str "/mnt/tftp")); LongOpt 7 (Some (str "/mnt/tst1"));
   LongOpt 7 (Some (str "/mnt/tst2")); LongOpt 7 (Some (str "/mnt/tst3"));
   LongOpt 8 (Some (str "tester.fdb")); LongOpt 9 (Some (str "SYSDBA"));
   LongOpt 10 (Some (str "masterkey")); LongOpt 11 (Some (str "none"));
   LongOpt 12 (Some (str "3")); LongOpt 4 (Some (str "/tmp/libs"));
   LongOpt 5 (Some (str "fbclient")); LongOpt 14 (Some (str "59"));
   LongOpt 15 (Some (str "usr1")); LongOpt 16 (Some (str "grp2")); LongOpt 17 (Some (str "0766"))].

Example check_load4 :
  ∃ s, load_options pton Settings_new 36 options4 = Ok (s, true) ∧
    is_daemon s = true ∧ use_syslog s = 7 ∧ family (local_base_ s) = 2 ∧
    port (local_base_ s) = 7777 ∧ slice (data (local_base_ s)) 4 4 = octets [1; 1; 1; 1] ∧
    text (local_base_ s) = str "1.1.1.1:7777" ∧ lib_dir s = str "/tmp/libs" ∧
    lib_name s = str "fbclient" ∧ root_dir s = str "/mnt/tftp" ∧
    backup_dirs s = [str "/mnt/tst1"; str "/mnt/tst2"; str "/mnt/tst3"] ∧
    db s = str "tester.fdb" ∧ user s = str "SYSDBA" ∧ pass s = str "masterkey" ∧
    role s = str "none" ∧ dialect s = 3 ∧ retransmit_count_ s = 59 ∧
    file_chown_user s = str "usr1" ∧ file_chown_grp s = str "grp2" ∧ file_chmod s = 502.
Proof. eexists. split; [vm_compute; reflexivity|check]. Qed.

Example check_load6 :
  ∃ s, load_options pton Settings_new 5
         [ShortOpt x6c (Some (str "[fe80::1]:65000")); LongOpt 6 (Some (str "/mnt/tftp"))]
       = Ok (s, true) ∧
    is_daemon s = false ∧ use_syslog s = default_tftp_syslog_lvl ∧
    family (local_base_ s) = AF_INET6 ∧ port (local_base_ s) = 65000 ∧
    slice (data (local_base_ s)) 8 16 = octets [0xfe; 0x80] ++ replicate 13 x00 ++ [x01] ∧
    text (local_base_ s) = str "[fe80::1]:65000" ∧
    retransmit_count_ s = default_retransmit_count.
Proof. eexists. split; [vm_compute; reflexivity|check]. Qed.

Definition changed : Settings :=
  let s := with_dirs Settings_new (str "/temp/server_dir") [str "/dir1"; str "/dir2/"; str "/dir3/"] in
  let s := with_addr s (set_string pton (local_base_ s) (str "[fe80::1]:65012")).1 in
  let s := with_fb s (lib_dir s) (str "/bin/hrenak") (db s) (user s) (pass s) (role s) (dialect s) in
  with_run s true (use_syslog s) (log_ s) (3 * default_retransmit_count).

Example check_base :
  get_root_dir Base_default = [] ∧ get_lib_name_fb Base_default = default_fb_lib_name ∧
  get_is_daemon Base_default = false ∧ get_retransmit_count Base_default = 3 ∧
  text (server_addr Base_default) = str "0.0.0.0:69" ∧ get_serach_dir Base_default = [] ∧
  get_root_dir changed = str "/temp/server_dir/" ∧ get_lib_name_fb changed = str "/bin/hrenak" ∧
  get_is_daemon changed = true ∧ get_retransmit_count changed = 9 ∧
  text (server_addr changed) = str "[fe80::1]:65012" ∧
  get_serach_dir changed = [str "/dir1"; str "/dir2/"; str "/dir3/"].
Proof. check. Qed.
End Addresses.

(** ** The server: tftpSrv_test.cpp, tftpSrv_test.h *)

(** [unit_tests::fill_buffer]: the octets of a test file from a position on. *)
Definition fill_buffer (size position file_id : Z) : bytes :=
  map (λ iter, byte_of (position + iter + file_id)) (seqZ 0 size).

Definition be16 (v : Z) : bytes := be_split 2 v.

Definition test_name (blk_size file_id : Z) : bytes :=
  str "tst_srv_file_" ++ to_string blk_size ++ str "_" ++ to_string (file_id + 1).

(** [TestServer::make_tx]: the packet the client sends in a step. *)
Definition make_tx (blk_size file_size file_id step : Z) : bytes :=
  if step =? 0 then
    be16 2 ++ test_name blk_size file_id ++ [x00] ++ str "octet" ++ [x00]
    ++ (if blk_size =? 512 then []
        else str "blksize" ++ [x00] ++ to_string blk_size ++ [x00])
  else
    let left_size := file_size - (step - 1) * blk_size in
    let left_size := if blk_size <? left_size then blk_size else left_size in
    if 0 <=? left_size then
      be16 3 ++ be16 (Z.land step 0xFFFF) ++ fill_buffer left_size ((step - 1) * blk_size) file_id
    else [].

(** [TestServer::make_et]: the packet it expects then. *)
Definition make_et (blk_size step : Z) : bytes :=
  if step =? 0 then
    if blk_size =? 512 then be16 4 ++ be16 0
    else be16 6 ++ str "blksize" ++ [x00] ++ to_string blk_size ++ [x00]
  else be16 4 ++ be16 (Z.land step 0xFFFF).

(** The steps of the loop of the test: as long as [(stage - 1) * blk_size <= size]. *)
Definition test_steps (blk_size file_size : Z) : list Z :=
  seqZ 0 (file_size / blk_size + 2).

Definition test_rq (blk_size file_id : Z) : request := {|
  rq_type := SrvReq.write; rq_filename := test_name blk_size file_id; rq_mode := str "octet";
  rq_opts := if blk_size =? 512 then [] else [(str "blksize", to_string blk_size)]
|}.

(** The options of the session the request starts. *)
Definition test_opt (blk_size file_id : Z) : Options :=
  if blk_size =? 512 then request_base (test_rq blk_size file_id)
  else set_option (request_base (test_rq blk_size file_id)) name_blksize blk_size.

(** The rest of the conversation from step [k] on, one element of [us] for each step:
    datagrams that are no blocks of the client, the packet of the client, and the
    iteration in which the session answers. *)
Fixpoint test_client (cl : Addr) (bs n id : Z) (t0 k : Z) (us : list numbered) : Prop :=
  match us with
  | [] => n < (k - 1) * bs
  | u :: us =>
      (k - 1) * bs ≤ n ∧ nu_num u = k ∧ Forall (noise 3 (test_opt bs id) cl t0) (nu_noise u) ∧
      (∃ from, rx (nu_data u) = RxPkt (make_tx bs n id k) from ∧ eqb from cl = true) ∧
      test_client cl bs n id (now (nu_ack u)) (k + 1) us
  end.

(** *** The packets *)

Lemma fill_buffer_app a b p id :
  0 ≤ a → 0 ≤ b → fill_buffer (a + b) p id = fill_buffer a p id ++ fill_buffer b (p + a) id.
Proof.
  intros Ha Hb. unfold fill_buffer. rewrite seqZ_app, map_app by lia. f_equal.
  rewrite Z.add_comm, <-fmap_add_seqZ. unfold fmap. rewrite List.map_map.
  apply List.map_ext. intros i. f_equal. lia.
Qed.

Lemma fill_buffer_size n p id : 0 ≤ n → size (fill_buffer n p id) = n.
Proof. intros. unfold fill_buffer, size. rewrite length_map, length_seqZ. lia. Qed.

Lemma fill_buffer_slice n p len id :
  0 ≤ p ≤ n → 0 ≤ len →
  slice (fill_buffer n 0 id) p len = fill_buffer (if len <? n - p then len else n - p) p id.
Proof.
  intros Hp Hl. set (k := if len <? n - p then len else n - p).
  assert (Hk : 0 ≤ k ≤ n - p ∧ (k = len ∨ n - p = k ∧ k ≤ len))
    by (unfold k; destruct (_ <? _) eqn:E; reflect_bools; lia).
  replace n with (p + (k + (n - p - k))) at 1 by lia.
  rewrite !fill_buffer_app by lia. rewrite Z.add_0_l.
  pose proof (fill_buffer_size p 0 id ltac:(lia)) as Sp.
  pose proof (fill_buffer_size k p id ltac:(lia)) as Sk. destruct Hk as [_ [Hk|[Hk Hle]]].
  - rewrite <-Hk. pose proof (slice_app_at (fill_buffer p 0 id) (fill_buffer k p id)
      (fill_buffer (n - p - k) (p + k) id)) as E. by rewrite Sp, Sk in E.
  - rewrite Hk, Z.sub_diag. unfold fill_buffer at 3. cbn [seqZ map]. rewrite app_nil_r.
    unfold slice, size in *. rewrite drop_app_length', take_ge by lia. done.
Qed.

Lemma make_tx_request bs n id : make_tx bs n id 0 = encode_request (test_rq bs id).
Proof.
  unfold make_tx, encode_request, test_rq, encode_opts, zstr, be16. cbn [Z.eqb rq_type
    rq_filename rq_mode rq_opts SrvReq_val].
  destruct (bs =? 512); cbn [map concat]; by rewrite <-?app_assoc, ?app_nil_r.
Qed.

Lemma make_tx_block bs n id k :
  0 < bs → 1 ≤ k → (k - 1) * bs ≤ n →
  make_tx bs n id k = data_packet k (block (fill_buffer n 0 id) bs k).
Proof.
  intros Hb Hk Hn. unfold make_tx, data_packet, block, be16.
  rewrite (proj2 (Z.eqb_neq k 0)), be_split_land by lia.
  rewrite fill_buffer_slice by nia. by destruct (_ <? _) eqn:E; reflect_bools;
    rewrite (proj2 (Z.leb_le _ _)) by lia.
Qed.

Lemma make_et_ack bs k : k ≠ 0 → make_et bs k = ack_packet k.
Proof.
  intros Hk. unfold make_et, ack_packet, be16. rewrite (proj2 (Z.eqb_neq k 0)) by done.
  by rewrite be_split_land.
Qed.

Lemma test_rq_ok bs id : 0 ≤ bs → 0 ≤ id → request_ok (test_rq bs id).
Proof.
  intros Hb Hi. unfold request_ok, test_rq. cbn [rq_type rq_filename rq_mode rq_opts].
  split_and!; [done|split; [done|]|split; [done|by_decide]|].
  - unfold test_name, no_zero. rewrite !to_string_nat, !elem_of_app by lia.
    intros [H|[H|[H|H]]]; try (by apply dec_no_zero in H); revert H; by_decide.
  - destruct (bs =? 512); repeat constructor; [by_decide|]. cbn [snd].
    rewrite to_string_nat by lia. apply dec_no_zero.
Qed.

Lemma test_opt_applied bs id :
  0 ≤ bs ≤ INT_MAX →
  apply_opts (request_base (test_rq bs id)) (rq_opts (test_rq bs id)) = Ok (test_opt bs id).
Proof.
  intros Hb. unfold test_opt. cbn [test_rq rq_opts]. destruct (bs =? 512); [done|].
  cbn [apply_opts]. change (do_lower (str "blksize")) with name_blksize.
  by rewrite parse_value_dec.
Qed.

Lemma test_opt_fields bs id :
  request_type (test_opt bs id) = SrvReq.write ∧ blksize (test_opt bs id) = bs ∧
  timeout (test_opt bs id) = dflt_timeout ∧ windowsize (test_opt bs id) = 1 ∧
  (if was_set_any (test_opt bs id) then oack_packet (test_opt bs id) else ack_packet 0)
  = make_et bs 0.
Proof.
  unfold test_opt, make_et, be16. destruct (bs =? 512) eqn:E; reflect_bools; [subst; by split_and!|].
  split_and!; try done. set (o := set_option _ _ _).
  change (was_set_any o) with true. unfold oack_packet.
  change (oack_opts o) with [(name_blksize, to_string bs)].
  unfold encode_opts, zstr. cbn [map concat]. by rewrite app_nil_r, <-app_assoc.
Qed.

Lemma test_client_walk cl bs n id t0 k us :
  0 < bs → 0 ≤ n → 1 ≤ k → (k - 1) * bs ≤ n → test_client cl bs n id t0 k us →
  walk_ok (test_opt bs id) cl (fill_buffer n 0 id) bs 1 t0 k us ∧
  map nu_num us = seqZ k (n / bs + 2 - k).
Proof.
  intros Hb Hn. revert t0 k. induction us as [|u us IH]; intros t0 k Hk Hle Hc;
    cbn [test_client] in Hc; [lia|].
  destruct Hc as (_ & Hu & Hnoise & (from & Hrx & Hfrom) & Hc). cbn [walk_ok map]. rewrite Hu.
  rewrite fill_buffer_size by done. pose proof (Z.div_mod n bs ltac:(lia)).
  pose proof (Z.mod_pos_bound n bs ltac:(lia)).
  assert (Hnu : nu_ok (test_opt bs id) cl (fill_buffer n 0 id) bs t0 k u).
  { split; [done|]. rewrite Hu. split; [lia|]. split; [done|]. exists from.
    by rewrite <-make_tx_block by done. }
  rewrite seqZ_cons by nia. destruct (n <? k * bs) eqn:E; reflect_bools.
  - assert (n / bs = k - 1) as -> by (symmetry; apply (Z.div_unique_pos _ _ _ (n - (k - 1) * bs)); nia).
    destruct us as [|u' us]; [|cbn in Hc; nia]. split; [done|].
    by rewrite seqZ_nil by lia.
  - destruct (IH (now (nu_ack u)) (k + 1)) as [Hw Hm]; [lia|lia|done|].
    unfold nu_time, closes. rewrite Z.mod_1_r. split; [done|]. rewrite Hm.
    f_equal. f_equal. lia.
Qed.

Lemma walk_acks_all us : walk_acks 1 us = map ack_packet (map nu_num us).
Proof.
  induction us as [|u us IH]; [done|]. rewrite walk_acks_cons, IH. unfold closes.
  by rewrite Z.mod_1_r.
Qed.

Lemma test_opt_wf bs id : 0 ≤ bs ≤ INT_MAX → opts_wf (test_opt bs id).
Proof.
  intros. assert (opts_wf (request_base (test_rq bs id))) by apply Options_default_wf.
  unfold test_opt. destruct (bs =? 512); [done|]. by apply set_option_wf.
Qed.

Lemma test_replies bs n :
  0 < bs → 0 ≤ n →
  map (make_et bs) (test_steps bs n)
  = [make_et bs 0] ++ map ack_packet (seqZ 1 (n / bs + 2 - 1)).
Proof.
  intros Hb Hn. pose proof (Z.div_pos n bs Hn Hb). unfold test_steps.
  rewrite seqZ_cons by lia. cbn [map app]. f_equal.
  replace (Z.pred (n / bs + 2)) with (n / bs + 2 - 1) by lia.
  apply List.map_ext_in. intros k [? _]%list_elem_of_In%elem_of_seqZ. apply make_et_ack. lia.
Qed.

(** *** The test *)

(** C20. The server test passes: for every block size from 1 to 65531 (the test has 100,
    512, 1024, 1400 and 65000) and every size of file (the test has ten, up to 64 MiB),
    the request of the test client starts a session; when the file can be created and
    the client sends the blocks of the test file, each after the reply to the one
    before, the session replies to every step with exactly the packet the test
    expects, and has stored the test file; or the data manager has refused one of the
    blocks, when its file held the blocks before. *)
Theorem srv_test_passes {W M} `{DataMgrLaws W M} sett (cl : Addr) (bs n id : Z) rest :
  1 ≤ bs ≤ 65531 → 0 ≤ n < 2 ^ 45 → 0 ≤ id →
  let f := fill_buffer n 0 id in
  buf_ok (make_tx bs n id 0 ++ rest) →
  ∃ s : Session M,
    prepare (Session_of_base sett) cl (make_tx bs n id 0 ++ rest) (size (make_tx bs n id 0))
      = Ok (s, true) ∧
    ∀ (w w1 : W) m t0 ts tm us,
      dm_init dm_new w sett (opt_ s) = Ok (m, w1, true, []) →
      0 ≤ sock t0 → bound t0 = true → write_opening (opt_ s) ts tm →
      test_client cl bs n id tm 1 us →
      let ticks := t0 :: ts ++ concat (map (nu_ticks 1) us) in
      (∃ r, run_loop (run_start s w) ticks = Ok r ∧ stored f r ∧
         sent r = map (make_et bs) (test_steps bs n)) ∨
      ends_failed (run_start s w) ticks bs (some_blocks f bs) (walk_blocks f bs us).
Proof.
  intros Hbs Hn Hid f Hb. rewrite make_tx_request in *. eexists. split.
  { unfold prepare. rewrite buffer_parse_encoded by (try apply test_rq_ok; first [done|lia]).
    rewrite test_opt_applied by (unfold INT_MAX; lia). reflexivity. }
  set (s := with_request_ _ _ _ _). intros w w1 m t0 ts tm us Hi Hs Hbd Hts Hc ticks.
  destruct (test_opt_fields bs id) as (Hrq & Hblk & Hto & Hwin & Het).
  assert (Hbsz : block_size s = bs).
  { unfold block_size. cbn [s opt_ with_request_]. rewrite Hblk. apply wrap_small. lia. }
  assert (Hws : Session_windowsize s = 1).
  { unfold Session_windowsize. cbn [s opt_ with_request_]. by rewrite Hwin. }
  assert (Hwf : opts_wf (opt_ s)) by (apply test_opt_wf; unfold INT_MAX; lia).
  destruct (write_session_waits s w w1 m t0 ts tm eq_refl eq_refl Hrq Hwf Hs Hbd Hi Hts)
    as (r2 & E2 & (Hst2 & Hk2 & He2 & Hb2 & _ & Hm2) & Ht & Ho2 & Hcl2 & Hs2).
  assert (Hbs2 : block_size (ses r2) = bs) by (rewrite <-Hbsz; unfold block_size; by rewrite Ho2).
  assert (Hws2 : Session_windowsize (ses r2) = 1)
    by (rewrite <-Hws; unfold Session_windowsize; by rewrite Ho2).
  destruct (test_client_walk cl bs n id tm 1 us) as [Hwalk Hnums]; [lia..|done|].
  pose proof (fill_buffer_size n 0 id ltac:(lia)) as Hf. fold f in Hf, Hwalk.
  destruct (walk_runs us r2 f 0 1) as [(r & E & Ho & Hsent & Hd)|Hfail].
  - apply (servable_opt s); [done|]. split; [by rewrite Hbsz; lia|]. split; [|done].
    cbn [s opt_ with_request_]. by rewrite Hto.
  - lia.
  - lia.
  - lia.
  - lia.
  - by split_and!.
  - by rewrite Hbs2, Hws2, Ho2, Hcl2, Ht.
  - left. exists r. rewrite Hws2 in E, Hsent. unfold ticks.
    rewrite app_comm_cons, (run_loop_app _ _ _ _ E2). split; [done|].
    assert (Hwr : Session_windowsize (ses r) = 1).
    { rewrite <-Hws. unfold Session_windowsize. by rewrite Ho, Ho2. }
    unfold walk_done, closes in Hd. rewrite Hwr, Z.mod_1_r in Hd. split; [exact Hd|].
    rewrite Hsent, Hs2, walk_acks_all, Hnums. cbn [s opt_ with_request_]. rewrite Het.
    by rewrite test_replies by lia.
  - right. unfold ticks. rewrite app_comm_cons. rewrite Hws2, Hbs2 in Hfail.
    by eapply ends_failed_app; [exact E2|exact Hfail|].
Qed.

(** One step of the client of the test, without other datagrams. *)
Definition test_step (bs n id k : Z) : numbered := {|
  nu_noise := []; nu_data := demo_tick (RxPkt (make_tx bs n id k) demo_client);
  nu_ack := demo_tick RxAgain; nu_num := k
|}.

(** The iterations of the session for the steps after the request. *)
Definition test_ticks (bs n id : Z) : list tick :=
  demo_tick RxAgain
  :: (if bs =? 512 then [demo_tick RxAgain; demo_tick RxAgain] else [demo_tick RxAgain])
  ++ concat (map (λ k, nu_ticks 1 (test_step bs n id k)) (tail (test_steps bs n))).

Lemma srv_test_passes_witness :
  ∃ (s : Session DataMgrFile) r,
    prepare (Session_of_base demo_settings) demo_client (make_tx 2 3 0 0) (size (make_tx 2 3 0 0))
      = Ok (s, true) ∧
    run_loop (run_start s demo_fs) (test_ticks 2 3 0) = Ok r ∧ stored (octets [0; 1; 2]) r ∧
    sent r = map (make_et 2) [0; 1; 2].
Proof.
  destruct (srv_test_passes (M:=DataMgrFile) demo_settings demo_client 2 3 0 []) as (s & E & Hs);
    [lia|lia|lia|vm_compute; reflexivity|]. rewrite app_nil_r in E.
  assert (Ho : opt_ s = test_opt 2 0).
  { vm_compute in E. injection E as <-. vm_compute. reflexivity. }
  assert (Hi : match dm_init dm_new demo_fs demo_settings (test_opt 2 0) with
               | Ok (_, _, b, l) => (b, l) | _ => (false, []) end = (true, []))
    by (vm_compute; reflexivity).
  destruct (dm_init dm_new demo_fs demo_settings (test_opt 2 0)) as [[[[m w1] b] l]| |] eqn:Ei;
    [|discriminate Hi..]. injection Hi as -> ->.
  exists s. destruct (Hs demo_fs w1 m (demo_tick RxAgain) [demo_tick RxAgain] 100
    (map (test_step 2 3 0) [1; 2])) as [(r & Er & Hd & Hr)|(r & d & k & c & Er & (_ & He & _) & _)].
  - rewrite Ho. exact Ei.
  - vm_compute. discriminate.
  - reflexivity.
  - rewrite Ho. exists (demo_tick RxAgain). split; reflexivity.
  - repeat (split; [vm_compute; (reflexivity || discriminate || constructor)|
      split; [reflexivity|split; [constructor|split; [eexists; split; reflexivity|]]]]).
    vm_compute. reflexivity.
  - exists r. split; [exact E|]. split; [exact Er|]. split; [exact Hd|exact Hr].
  - exfalso. vm_compute in E. injection E as <-.
    apply (f_equal (λ o, match o with Ok r => was_error (ses r) | _ => true end)) in Er.
    rewrite He in Er. vm_compute in Er. discriminate Er.
Defined.

(** The test on the whole server: the main loop accepts the request, the thread of the
    session runs with the iterations [ts], and the loop joins it. *)
Fixpoint run_thread (th : thread MemFs DataMgrFile) (w : MemFs) (ts : list tick)
    : outcome (thread MemFs DataMgrFile * MemFs) :=
  match ts with
  | [] => Ok (th, w)
  | t :: ts => '(th, w) ← thread_step th w t; run_thread th w ts
  end.

Definition srv_test (bs n id : Z) : bool :=
  match main_step demo_sys (RxPkt (make_tx bs n id 0) demo_client) with
  | Ok y =>
      match sessions_ (srv y) with
      | [th] =>
          match run_thread th (sys_world y) (test_ticks bs n id ++ [demo_tick RxAgain]) with
          | Ok (th, w) =>
              bool_decide (sent (th_run th) = map (make_et bs) (test_steps bs n)) &&
              bool_decide (content w (str "/srv/" ++ test_name bs id)
                           = Some (fill_buffer n 0 id)) &&
              match main_step {| srv := with_sessions (srv y) [th]; pkt_buf := pkt_buf y;
                                 sys_world := w |} RxAgain with
              | Ok y => bool_decide (length (sessions_ (srv y)) = 0%nat)
              | _ => false
              end
          | _ => false
          end
      | _ => false
      end
  | _ => false
  end.

Example check_srv :
  srv_test 512 0 0 && srv_test 512 1 1 && srv_test 512 513 4 && srv_test 100 511 2
  && srv_test 65000 1025 7 = true.
Proof. vm_compute. reflexivity. Qed.

(** ** Files: tftpDataMgrFile_test.cpp *)

Module Files.
(** The blocks of 512 octets the test writes and reads. *)
Definition stages (n : Z) : list Z := seqZ 0 ((n + 511) / 512).

Definition left_size (n stage : Z) : Z := Z.min 512 (n - stage * 512).

Definition opt (rq : SrvReq.t) (name : bytes) : Options :=
  set_filename (set_request Options_default rq) name.

Definition sett : Settings := with_dirs Settings_new (str "/tmp/1") [].

(** [init], which must succeed and make the manager active. *)
Definition start (w : MemFs) (rq : SrvReq.t) (name : bytes) : option (DataMgrFile * MemFs) :=
  match DataMgrFile.init DataMgrFile_new w sett (opt rq name) with
  | Ok (m, w, true, _) => if active m then Some (m, w) else None
  | _ => None
  end.

(** [close], after which the manager is not active. *)
Definition finish (m : DataMgrFile) (w : MemFs) : option MemFs :=
  match DataMgrFile.close (λ _, None) (λ _, None) m w with
  | Ok (m, w) => if active m then None else Some w
  | _ => None
  end.

Fixpoint write_all (m : DataMgrFile) (w : MemFs) (bl : list (Z * bytes)) : option MemFs :=
  match bl with
  | [] => finish m w
  | (pos, d) :: bl =>
      match DataMgrFile.write m w d pos with
      | Ok (m, w, r, _) => if 0 <=? r then write_all m w bl else None
      | _ => None
      end
  end.

Fixpoint read_all (m : DataMgrFile) (w : MemFs) (bl : list (Z * bytes)) : option MemFs :=
  match bl with
  | [] => finish m w
  | (pos, d) :: bl =>
      match DataMgrFile.read m w (replicate (length d) x00) pos with
      | Ok (m, d', r, _) => if (r =? size d) && bool_decide (d' = d) then read_all m w bl else None
      | _ => None
      end
  end.

Definition blocks (n id : Z) : list (Z * bytes) :=
  map (λ stage, (stage * 512, fill_buffer (left_size n stage) (stage * 512) id)) (stages n).

(** A file is written, then its [.md5] file with the sum [hash]; the file is found by
    its sum and read by its name and by its sum. *)
Definition file_test (n id : Z) (hash : bytes) (w : MemFs) : option MemFs :=
  let name := str "file" ++ to_string (id + 1) in
  '(m, w) ← start w SrvReq.write name; w ← write_all m w (blocks n id);
  '(m, w) ← start w SrvReq.write (name ++ str ".md5");
  w ← write_all m w [(0, hash ++ str " " ++ name)];
  '(m, w) ← start w SrvReq.read name; w ← read_all m w (blocks n id);
  '(m, w) ← start w SrvReq.read hash; read_all m w (blocks n id).

Definition empty_dir : MemFs := {| mem_nodes := [(str "/tmp/1/", Dir)]; mem_limit := 1000000 |}.

Definition hash (id : Z) : bytes := str "2fdf093688bb7cef7c05b1ffcc71ff4" ++ to_string id.

Example check_files :
  match (w ← file_test 0 0 (hash 0) empty_dir; w ← file_test 1 1 (hash 1) w;
         w ← file_test 511 2 (hash 2) w; w ← file_test 512 3 (hash 3) w;
         w ← file_test 513 4 (hash 4) w; w ← file_test 1023 5 (hash 5) w;
         w ← file_test 1024 6 (hash 6) w; file_test 1025 7 (hash 7) w) with
  | Some _ => true
  | None => false
  end = true.
Proof. vm_compute. reflexivity. Qed.
End Files.
